(* ===== verification/_CoqProject ===== *)
-Q . S2P
Prelude.v
StringOps.v
HTime.v
Identifiers.v
CoreData.v
ActionMessage.v
Wire.v
WireFacts.v
WireSpec.v
MessageSpec.v
CoreTypes.v
TimeDependencies.v
TimeDependenciesSpec.v
TimeCoordinator.v
TimeCoordinatorFacts.v
TimeCoordinatorSpec.v
TimeAdvance.v
TimeBookkeeping.v
ForwardingTimeCoordinator.v
ForwardingSpec.v
NamedInputInfo.v
InputSpec.v
HandleManager.v
HandleSpec.v
UnknownHandleManager.v
EndpointInfo.v
InterfaceInfo.v
MessageTimer.v
FederateState.v
FederateSpec.v
FederateCalls.v
FederateRequest.v
FederateClock.v
StateMonad.v
BrokerBase.v
DualVector.v
JsonBuilder.v
CoreBroker.v
BrokerInterfaces.v
BrokerControl.v
BrokerQueries.v
BrokerCommands.v
BrokerFacts.v
BrokerStable.v
BrokerRoutes.v
BrokerRegistry.v
BrokerSpec.v
BrokerLinks.v
BrokerLife.v
BrokerStart.v
BrokerWatch.v
CommonCore.v
CoreFilters.v
CoreInterfaces.v
CoreControl.v
CoreCommands.v
CoreCalls.v
CoreWaits.v
CoreFacts.v
CoreFlow.v
FilterOrder.v
CoreTyped.v
CoreRun.v
CoreSpec.v
FilterSpec.v
CoreWaitSpec.v
TimeText.v
FilterText.v
FilterOperations.v
FilterOperationsSpec.v
NetworkAddress.v
CommsInterface.v
NetworkComms.v
AppFederate.v
AppFederateSpec.v
AppCore.v
MessageManager.v
MessageManagerSpec.v
Base64.v
RecordedMessages.v
