(* ===== verification/Prelude.v ===== *)
(** * HELICS co-simulation core: a verification library

    HELICS connects simulators, called federates, into one federation.  Each
    federate talks to a core, cores talk to brokers, and one root broker is at
    the top of the tree; all of them exchange action messages.  A federate
    publishes values, reads inputs, and sends messages between endpoints; it
    asks for a time and waits until it is granted one.  The paths below are
    under [src/src/helics/].

    ** Parts of the program and the files that model them

    - [Prelude.v]: record update, wrap-around integers, [lower_bound] on sorted
      vectors, insertion and erasure by position, and the tactics and hint
      databases the other files share.
    - [HTime.v]: [common/timeRepresentation.hpp] and [core/helics-time.hpp].  A
      time is a 64-bit count of nanoseconds, [Time] is [Z], and the sums that
      may saturate or wrap are written [+t] and [-t].  The class [Platform]
      holds what the language leaves to the host: byte order, the sign of
      [char], and the result of converting an out-of-range [double] to [int].
      Binary64 numbers are those of the Standard Library's [SpecFloat].
    - [Identifiers.v]: [core/federate_id.hpp], the identifier classes, the
      ranges of values they use, and global handles with their 64-bit key.
    - [CoreData.v]: [Message] of [core/core-data.hpp] and the type matching of
      [core/core-data.cpp].
    - [ActionMessage.v]: [core/ActionMessage.hpp], [ActionMessageDefintions.hpp],
      [flagOperations.hpp] and the parts of [ActionMessage.cpp] that do not
      serialize.  The record has the members of the class in their order.
    - [Wire.v] with [WireFacts.v]: [toByteArray], [fromByteArray], [packetize],
      [depacketize] and [appendMessage] of [core/ActionMessage.cpp] on lists of
      bytes.  A read outside the buffer and a thrown exception are results of
      their own.
    - [CoreTypes.v]: [core/core-types.cpp] and [core/helics_definitions.hpp].
    - [TimeDependencies.v]: [core/TimeDependencies.cpp], what a coordinator
      knows of the times of the federates it depends on.
    - [TimeCoordinator.v] with [TimeCoordinatorFacts.v]:
      [core/TimeCoordinator.cpp], which grants time to one federate.  The
      callback that sends messages appends to the member [sent] of the state.
    - [ForwardingTimeCoordinator.v]: [core/ForwardingTimeCoordinator.cpp], which
      combines the times below a core or a broker and forwards them.
    - [NamedInputInfo.v]: [core/NamedInputInfo.cpp], the queues of an input.
    - [EndpointInfo.v]: [core/EndpointInfo.cpp] and [core/PublicationInfo.cpp],
      the messages at an endpoint and the last value of a publication.
    - [InterfaceInfo.v]: [core/InterfaceInfo.cpp], the interfaces of a federate
      with their options.  Its container is a library that is not part of the
      repository: the class [DualMapped] with the laws it documents.
    - [FederateState.v]: [core/FederateState.cpp], a federate over its
      coordinator and its interfaces: every command it processes, the commands
      it delays, and its queue.
    - [MessageTimer.v]: [core/MessageTimer.cpp], the timers that send messages,
      over the class [SteadyTimers] for those of the asio library.
    - [FederateCalls.v]: the functions of [core/FederateState.cpp] by which a
      federate enters a mode, requests a time or ends, with its real-time mode.
    - [HandleManager.v]: [core/HandleManager.cpp] and [core/BasicHandleInfo.hpp],
      the registry of interfaces.
    - [UnknownHandleManager.v]: [core/UnknownHandleManager.cpp], the links that
      wait for an interface.
    - [CoreBroker.v]: the state of a broker ([core/CoreBroker.hpp],
      [core/BrokerBase.hpp], [core/TimeoutMonitor.h]), the monad of its
      operations and its routing.  An operation changes the broker and appends
      to its outputs, the messages it transmits or queues and the routes it opens
      and closes; [None] is undefined behaviour or an exception that nobody
      catches.  The containers are the class [DualVector] of [DualVector.v], the
      JSON library the class [JsonLib] of [JsonBuilder.v], which also models
      [common/JsonBuilder.cpp] and [core/queryHelpers.hpp].
    - [BrokerInterfaces.v]: the registration of interfaces and the links by name.
    - [BrokerControl.v]: opening, closing, start, disconnection, dependencies and
      the timeout monitor ([core/TimeoutMonitor.cpp]) of a broker.
    - [BrokerQueries.v]: its queries.
    - [StateMonad.v]: the computations on a state in which brokers and cores are
      written; [BrokerBase.v]: the queue of [core/BrokerBase.cpp], which calls
      virtual methods that a broker and a core each define.
    - [BrokerCommands.v]: every command a broker processes.
    - [CommonCore.v]: the state of a core ([core/CommonCore.hpp]), its routing and
      the counting of its federates, with the data of [core/FilterInfo.hpp] and
      [core/FilterCoordinator.hpp].  What a filter does to a message is code of
      the user, the class [FilterOperators].
    - [CoreFilters.v], [CoreInterfaces.v], [CoreControl.v], [CoreCommands.v],
      [CoreCalls.v]: the rest of [core/CommonCore.cpp]: filters; interfaces and
      links; opening, closing, configuration, timeouts and queries; the commands;
      and the functions federates call, those that wait for a grant in
      [CoreWaits.v].  [CoreRun.v] has the sequences of commands and calls a core
      goes through.
    - [StringOps.v], [TimeText.v], [FilterText.v]:
      [common/stringOps.cpp], the reading of times ([core/helics-time.cpp],
      over a parameter for the reading of numbers), and the texts by which
      filters are chosen and configured.
    - [FilterOperations.v]: [application_api/FilterOperations.cpp] and
      [MessageOperators.cpp], the filters of the library, on a store that the
      user and the core share.
    - [NetworkAddress.v], [CommsInterface.v], [NetworkComms.v]:
      [core/NetworkBrokerData.cpp], [core/CommsInterface.cpp] and
      [core/NetworkCommsInterface.cpp], the addresses and ports of a connection,
      its lock, its states and its two threads, which are steps between which
      the caller waits, over the class [TriggerVariable] for the triggers of a
      library.
    - [AppFederate.v]: [application_api/Federate.cpp], the modes of a federate as
      its user sees it, with the asynchronous pairs of calls, over the class
      [CoreInterface]; [AppCore.v] implements the class by [CoreWaits.v].
    - [MessageManager.v]: [application_api/MessageFederateManager.cpp] and
      [MessageFederate.cpp], the endpoints of a user with their queues and
      callbacks, over the class [MessageCore].
    - [Base64.v] and [RecordedMessages.v]: [common/base64.cpp] and the data of
      messages in the files of the recorder and the player ([apps/Recorder.cpp],
      [apps/Player.cpp]).

    A time coordinator receives action messages, gives those on time to its
    [TimeDependencies], and when the times allow grants the next one and tells
    its dependents, which may be coordinators of federates or the forwarding
    coordinators of cores and brokers.  Messages travel as bytes between hosts
    that may differ in byte order.  A federate that is granted a time moves its
    inputs to it.  A broker registers the federates, brokers and interfaces below
    it, finds the targets of links in its registries, starts the federation when
    all are ready and ends it when all have left.  A core keeps its federates and
    their interfaces, passes commands between them and its broker, and runs the
    filters of messages.

    ** What the theorems show

    - Time ([TimeCoordinatorSpec], [TimeAdvance], [TimeBookkeeping]): a grant is
      before every block and not after what any dependency can still cause; it
      is at least the time delta after the last one, whatever values, messages,
      timing messages and dependency changes arrive while waiting, if there is
      no period and no grant is forced; it is announced to every dependent once; entering execution,
      iterating, blocking and disconnecting do what they should; every sequence
      of operations keeps the coordinator consistent.  The rounding to periods
      is right where the floating-point quotient is accurate, and three
      theorems show where it is not or where the result is not documented.
    - Brokers and their state ([BrokerSpec], [BrokerLinks], [BrokerStart],
      [BrokerLife], [BrokerWatch]): in every reachable root broker the registry
      is consistent; registration implements a directory of names; messages
      leave only on open routes; links are the same in whatever order the two
      sides come; the federation starts exactly when it may, and ends when the
      last part has left; a lost parent is noticed.  Their proofs share
      [BrokerFacts] (rules for operations that keep an invariant),
      [BrokerStable] (what no command but a registration changes),
      [BrokerRoutes] and [BrokerRegistry].
    - Cores ([CoreSpec], [FilterSpec], [FilterOrder]): the coordinators of
      the filters never keep a pointer that is null or dangling, whatever a core
      is given; requests of time wait for messages that are
      being filtered on other cores and are then released in order; a filter of
      a destination on another core blocks the time of the federate until its
      answer; filters of the same core compose, in an order that matches their
      types; in a chain of remote filters an answer goes to the filter before,
      where it is dropped.  Their proofs share
      [CoreFacts] (rules), [CoreFlow] (what routing and filters keep) and
      [CoreTyped] (the invariant).
    - Times in brokers ([ForwardingSpec]): the combined times are the minima; if what a
      broker is told is consistent so is what it forwards; a report to a broker
      does not depend on what that broker said; updating twice changes nothing.
    - Dependencies ([TimeDependenciesSpec]): the sorted vector implements a
      finite map, stays sorted with consistent times, and keeps event times
      that messages announce.
    - Federates ([FederateSpec]): whatever commands arrive, the processing of the
      queue ends, keeps the coordinator and the delayed commands consistent,
      moves the state of the federate only forward, and shows the time that the
      coordinator granted; a source connected twice loses its values.
    - Waiting ([FederateRequest], [FederateClock], [CoreWaitSpec],
      [MessageTimer]): a request of time, without period and input delay, goes
      forward by the time delta, from the call at the core to the answer; in
      real time its grant is forced when it
      is late and held back when it is early; a start that was refused is
      forgotten; the wait for registration ends; a timer sends its message once.
    - Users ([AppFederateSpec], [AppCore], [MessageManagerSpec]): the modes of a
      federate only go forward, and derived classes are told of the transitions
      in order; the asynchronous pairs of calls agree with the calls they stand
      for, under the conditions stated; a start that failed asynchronously can
      not be finalized, only disconnected; a request of time of the user, under
      the conditions of the group before, goes forward by the time delta,
      through all the layers down to the coordinator; every message the
      core gives for an endpoint reaches the user once and in order.
    - Filters of the library ([FilterOperationsSpec]): delays add up, a rerouting
      filter redirects exactly the messages that meet its conditions, a cloning
      filter reaches each of its addresses once.
    - Communication ([NetworkAddress], [CommsInterface], [NetworkComms]): an
      address is taken apart as it was put together; ports are not given twice to
      a host while the numbers fit in [int]; [disconnect] comes back once the
      threads have left their start, and tells when they have not ended; the lock
      of the properties is not exclusive.
    - Messages ([WireSpec], [MessageSpec]): every message within the limits of
      the format survives serialization between any two hosts, but for the
      sequence number between different byte orders and the extra times of
      commands that are no time requests; packets and multi-messages come apart as
      they were put together; the reader ends on every buffer.  Outside the
      limits, two theorems give the lengths for which it reads out of bounds and
      the counts for which it throws.
    - Interfaces ([InputSpec], [EndpointInfo], [InterfaceInfo], [HandleSpec],
      [UnknownHandleManager]): the queues of an input stay sorted and a move in
      time shows the latest due value of the sources it reaches, with and without
      the option to be told of changes only; an endpoint
      gives out messages in the order of time, source and arrival; the check
      before initialization reports exactly what is wrong; the registry
      implements a finite map searched by key and by name; waiting links are
      found, reported and cleared.
    - Files ([Base64], [RecordedMessages]): the encoder computes the base 64 of
      the standard, the three decoders invert it, and the player reads back what
      the recorder wrote, with the exceptions stated.

    ** Bounds and fuel

    [fromByteArray] and [depacketize] call each other on a shorter part of the
    buffer; their fuel is the size of the buffer, and [reader_terminates] shows
    that it never runs out.  The loop over periods has fuel from the distance
    to the time delta, shown to be enough by [period_loop_terminates].  The
    parsing of core types recurs on a shorter string, with the length as fuel.
    The processing of a command and that of the delayed commands call each
    other; [federate_queue_ends] shows that a nesting of two is enough.
    Positions in the registry are 32-bit; its refinement is stated for fewer
    than [2 ^ 31] interfaces, and that of the registry of a broker for as many
    federates and brokers as their ranges of identifiers have room for.  The queue
    of a broker is the list of commands it delivers, each with a reading of the
    clock; multi-messages inside multi-messages are read to a depth that is an
    argument, and a deeper one is [None].  The loop that fetches messages for a
    user counts down from the number the core gives.  Ports are [int]s: a sum
    outside their range is [None].  The waits of [disconnect] are given as a list
    of what the threads do in each; 14 are enough for each thread, by
    [disconnect_ends].  The positions of endpoints
    are 32-bit, which is enough since their handles are distinct numbers of 31
    bits.

    ** What is not modelled

    Text output ([prettyPrintString], [printTimeStatus]), the trace messages of
    the LOG macros, the parsing of arguments and of configuration files, the
    loops over the sockets of ZeroMQ, TCP, UDP, MPI and interprocess queues, the
    factories of cores and brokers, which are registries of live objects in a
    container of a submodule, value federates with the conversion of values,
    which relies on the cereal library, the applications but for the data in
    their files, the interfaces for other languages, and the libraries in
    submodules.  The player splits a line of its file into fields before it
    reads the data of a message; the theorem on its files starts at the field.
    Locks are not modelled as such but for that of
    [CommsInterface.v]: of the callers that compete for a lock, the one that has
    it and those that find it taken are functions of their own. *)

From Stdlib Require Export ZArith Lia Bool.
From stdpp Require Export base list option sorting strings gmap.

(** ** Scopes *)

Declare Scope helics_scope.
Delimit Scope helics_scope with helics.
#[global] Open Scope Z_scope.
#[global] Open Scope helics_scope.

(** ** Functional record update

    C++ code assigns to one member of a structure at a time.  [Settable R]
    gives the eta-expansion of a record type [R], listing its members in
    order; the setter of a projection is computed from it by abstracting the
    projection. *)

Class Settable (R : Type) := eta_of : R -> R.

Class Setter {R E : Type} (proj : R -> E) := modify : (E -> E) -> R -> R.
Arguments modify {R E} proj {Setter} _ _ /.

Ltac derive_setter :=
  lazymatch goal with
  | |- @Setter ?R ?E ?p =>
      let inst := constr:(_ : Settable R) in
      let body := eval red in inst in
      let body := eval cbv beta in body in
      lazymatch eval pattern p in body with
      | ?F _ =>
          let res := eval cbv beta in (fun (g : E -> E) (r : R) => F (fun r' => g (p r')) r) in
          exact res
      end
  end.

#[global] Hint Extern 0 (Setter _) => derive_setter : typeclass_instances.

Notation "r '<|' p ':=' v '|>'" := (modify p (fun _ => v) r)
  (at level 12, left associativity, p at next level, v at level 99,
   format "r  '<|' p  ':='  v '|>'") : helics_scope.
Notation "r '<|' p '::=' g '|>'" := (modify p g r)
  (at level 12, left associativity, p at next level, g at level 99,
   format "r  '<|' p  '::='  g '|>'") : helics_scope.

(** ** Machine integers

    A [w]-bit C++ integer is a [Z]; the arithmetic that can leave the range of
    its type is followed by the wrap-around of two's complement. *)

Definition uwrap (w z : Z) : Z := z mod 2 ^ w.
Definition swrap (w z : Z) : Z := (z + 2 ^ (w - 1)) mod 2 ^ w - 2 ^ (w - 1).

Abbreviation int32 := (swrap 32).
Abbreviation int64 := (swrap 64).
Abbreviation uint8 := (uwrap 8).
Abbreviation uint16 := (uwrap 16).
Abbreviation uint32 := (uwrap 32).
Abbreviation uint64 := (uwrap 64).

Definition in_signed (w z : Z) : Prop := - 2 ^ (w - 1) <= z < 2 ^ (w - 1).
Definition in_unsigned (w z : Z) : Prop := 0 <= z < 2 ^ w.

#[export] Instance in_signed_dec w z : Decision (in_signed w z).
Proof. unfold in_signed. apply _. Defined.
#[export] Instance in_unsigned_dec w z : Decision (in_unsigned w z).
Proof. unfold in_unsigned. apply _. Defined.

Lemma swrap_id w z : 0 < w -> in_signed w z -> swrap w z = z.
Proof.
  unfold swrap, in_signed. intros Hw Hz.
  assert (2 ^ w = 2 * 2 ^ (w - 1)) as E
    by (rewrite <- Z.pow_succ_r by lia; f_equal; lia).
  rewrite Z.mod_small; lia.
Qed.

Lemma swrap_range w z : 0 < w -> in_signed w (swrap w z).
Proof.
  unfold swrap, in_signed. intros Hw.
  assert (2 ^ w = 2 * 2 ^ (w - 1)) as E
    by (rewrite <- Z.pow_succ_r by lia; f_equal; lia).
  assert (0 < 2 ^ (w - 1)) by (apply Z.pow_pos_nonneg; lia).
  pose proof (Z.mod_pos_bound (z + 2 ^ (w - 1)) (2 ^ w)). lia.
Qed.

Lemma uwrap_id w z : in_unsigned w z -> uwrap w z = z.
Proof. apply Z.mod_small. Qed.

Lemma uwrap_range w z : 0 <= w -> in_unsigned w (uwrap w z).
Proof. intros Hw. apply Z.mod_pos_bound. apply Z.pow_pos_nonneg; lia. Qed.

(** Two congruent numbers wrap to the same signed value. *)
Lemma swrap_congr w a b : 0 < w -> a mod 2 ^ w = b mod 2 ^ w -> swrap w a = swrap w b.
Proof.
  unfold swrap. intros Hw E. f_equal.
  rewrite (Z.add_mod a), (Z.add_mod b), E by (apply Z.pow_nonzero; lia). done.
Qed.

Lemma swrap_mod w z : 0 < w -> swrap w z mod 2 ^ w = z mod 2 ^ w.
Proof.
  unfold swrap. intros Hw.
  rewrite <- (Z.sub_add (2 ^ (w - 1)) z) at 2.
  rewrite !(Z.sub_add (2 ^ (w - 1))).
  rewrite Zminus_mod_idemp_l. f_equal. lia.
Qed.

(** ** Automation *)

Create HintDb helics.

(** Turn the boolean tests of the code into propositions. *)
Ltac breflect :=
  repeat match goal with
  | H : (_ && _) = true |- _ => apply andb_prop in H; destruct H
  | H : (_ || _) = false |- _ => apply orb_false_elim in H; destruct H
  | H : negb _ = true |- _ => apply negb_true_iff in H
  | H : negb _ = false |- _ => apply negb_false_iff in H
  | H : (_ <? _) = true |- _ => apply Z.ltb_lt in H
  | H : (_ <? _) = false |- _ => apply Z.ltb_ge in H
  | H : (_ <=? _) = true |- _ => apply Z.leb_le in H
  | H : (_ <=? _) = false |- _ => apply Z.leb_gt in H
  | H : (_ =? _) = true |- _ => apply Z.eqb_eq in H
  | H : (_ =? _) = false |- _ => apply Z.eqb_neq in H
  end.

(** Split on the conditionals of the goal, innermost test first. *)
Ltac case_if :=
  match goal with
  | |- context [if ?b then _ else _] =>
      lazymatch b with
      | context [if _ then _ else _] => fail
      | _ => destruct b eqn:?
      end
  end.

Ltac case_ifs := repeat (case_if; breflect).

(** ** Sorted vectors

    The time-management classes keep their federates in a [std::vector] sorted
    by identifier and search it with [std::lower_bound], whose result on a
    sorted range is the position of the first element that is not less than
    the one looked for. *)

Section SortedVector.
Context {A : Type} (key : A -> Z).
Implicit Types (l : list A) (k : Z).

Fixpoint lower_bound (l : list A) (k : Z) : nat :=
  match l with
  | [] => 0%nat
  | x :: l' => if key x <? k then S (lower_bound l' k) else 0%nat
  end.

Definition insert_at (i : nat) (x : A) (l : list A) : list A := take i l ++ x :: drop i l.
Definition erase_at (i : nat) (l : list A) : list A := take i l ++ drop (S i) l.

Definition sorted_keys (l : list A) : Prop := StronglySorted Z.lt (key <$> l).

#[global] Instance sorted_keys_dec l : Decision (sorted_keys l).
Proof. unfold sorted_keys. apply _. Defined.

Lemma sorted_keys_cons x l :
  sorted_keys (x :: l) <-> Forall (fun y => key x < key y) l /\ sorted_keys l.
Proof. unfold sorted_keys. cbn. rewrite StronglySorted_cons, Forall_fmap. done. Qed.

Lemma lower_bound_le l k : (lower_bound l k <= length l)%nat.
Proof. induction l as [|x l IH]; cbn; [lia|]. case_if; cbn; lia. Qed.

(** Everything before the bound is smaller, everything from it on is not. *)
Lemma lower_bound_split l k :
  sorted_keys l ->
  Forall (fun y => key y < k) (take (lower_bound l k) l) /\
  Forall (fun y => k <= key y) (drop (lower_bound l k) l).
Proof.
  induction l as [|x l IH]; cbn; [by constructor|].
  rewrite sorted_keys_cons. intros [Hx Hl]. destruct (IH Hl) as [H1 H2].
  case_ifs; cbn; [by split; [constructor|]|].
  split; [done|]. constructor; [lia|].
  eapply Forall_impl; [exact Hx|]. cbn. lia.
Qed.

(** On a sorted vector a key is present exactly when it is at the bound. *)
Lemma lower_bound_lookup l k x :
  sorted_keys l -> x ∈ l -> key x = k -> l !! lower_bound l k = Some x.
Proof.
  intros Hs Hx Hk. induction l as [|y l IH]; [set_solver|].
  rewrite sorted_keys_cons in Hs. destruct Hs as [Hy Hs].
  apply elem_of_cons in Hx as [-> | Hx]; cbn; case_ifs; try lia; [done| |].
  - by apply IH.
  - rewrite Forall_forall in Hy. specialize (Hy x Hx). lia.
Qed.

Lemma insert_at_sorted l k x :
  sorted_keys l -> key x = k -> ~ (exists y, y ∈ l /\ key y = k) ->
  sorted_keys (insert_at (lower_bound l k) x l).
Proof.
  unfold insert_at. intros Hs Hk Hno.
  induction l as [|y l IH]; cbn.
  { apply sorted_keys_cons. split; constructor. }
  rewrite sorted_keys_cons in Hs. destruct Hs as [Hy Hs].
  case_ifs; cbn; rewrite sorted_keys_cons; split.
  - rewrite <- (take_drop (lower_bound l k) l) in Hy.
    apply Forall_app in Hy as [Hy1 Hy2]. apply Forall_app. split; [done|].
    constructor; [lia|done].
  - apply IH; [done|]. intros (z & Hz & E). apply Hno. exists z. set_solver.
  - assert (k <> key y) by (intros ->; apply Hno; exists y; set_solver).
    constructor; [lia|]. eapply Forall_impl; [exact Hy|]. cbn. lia.
  - apply sorted_keys_cons. done.
Qed.

Lemma erase_at_sorted l i : sorted_keys l -> sorted_keys (erase_at i l).
Proof.
  unfold erase_at. revert i.
  induction l as [|y l IH]; intros [|i] Hs; cbn; try done;
    rewrite sorted_keys_cons in Hs; destruct Hs as [Hy Hs].
  - by rewrite drop_0.
  - rewrite sorted_keys_cons. split; [|by apply IH].
    apply Forall_app. split; [by apply Forall_take | by apply Forall_drop].
Qed.

Lemma elem_of_insert_at l i x y : y ∈ insert_at i x l <-> y = x \/ y ∈ l.
Proof.
  clear key. unfold insert_at. rewrite <- (take_drop i l) at 3. set_solver.
Qed.

Lemma sorted_keys_inj l x y :
  sorted_keys l -> x ∈ l -> y ∈ l -> key x = key y -> x = y.
Proof.
  intros Hs Hx Hy E.
  pose proof (lower_bound_lookup l _ x Hs Hx eq_refl) as H1.
  pose proof (lower_bound_lookup l _ y Hs Hy eq_refl) as H2.
  rewrite E in H1. congruence.
Qed.

Lemma elem_of_erase_at l k x y :
  sorted_keys l -> l !! lower_bound l k = Some x ->
  key x = k -> y ∈ erase_at (lower_bound l k) l <-> y ∈ l /\ key y <> k.
Proof.
  intros Hs Hx Hk. unfold erase_at.
  pose proof (take_drop_middle _ _ _ Hx) as E.
  set (i := lower_bound l k) in *.
  assert (sorted_keys (take i l ++ x :: drop (S i) l)) as Hs' by by rewrite E.
  unfold sorted_keys in Hs'. rewrite fmap_app, fmap_cons, StronglySorted_app, StronglySorted_cons in Hs'.
  destruct Hs' as (H1 & _ & H2 & _).
  rewrite <- E at 3. rewrite !elem_of_app, elem_of_cons.
  rewrite Forall_fmap, Forall_forall in H2.
  split.
  - intros [Hy | Hy]; (split; [tauto|]).
    + specialize (H1 (key y) (key x)). 
      assert (key y < key x); [|lia]. apply H1; [by apply list_elem_of_fmap_2|set_solver].
    + specialize (H2 y Hy). cbn in H2. lia.
  - intros [[Hy | [-> | Hy]] Hne]; [tauto|done|tauto].
Qed.

(** The element with a given key, as the code finds it: the element at the
    bound, when there is one and its key matches. *)
Definition find_key (l : list A) (k : Z) : option A :=
  match l !! lower_bound l k with
  | Some x => if key x =? k then Some x else None
  | None => None
  end.

Lemma find_key_Some l k x :
  sorted_keys l -> find_key l k = Some x <-> x ∈ l /\ key x = k.
Proof.
  intros Hs. unfold find_key. split.
  - destruct (l !! lower_bound l k) as [y|] eqn:E; [|done].
    case_ifs; [|done]. intros [= ->]. split; [|done].
    by eapply list_elem_of_lookup_2.
  - intros [Hx Hk]. rewrite (lower_bound_lookup l k x) by done.
    by rewrite Hk, Z.eqb_refl.
Qed.

Lemma find_key_None l k :
  sorted_keys l -> find_key l k = None <-> ~ (exists x, x ∈ l /\ key x = k).
Proof.
  intros Hs. split.
  - intros E (x & Hx). apply (find_key_Some l k x) in Hx; [congruence|done].
  - intros H. destruct (find_key l k) as [x|] eqn:E; [|done].
    apply find_key_Some in E; [|done]. destruct H. eauto.
Qed.
End SortedVector.

#[export] Hint Resolve erase_at_sorted : helics.

Lemma filter_all {A} (P : A -> Prop) `{forall x, Decision (P x)} l : Forall P l -> filter P l = l.
Proof. induction 1; [done|]. rewrite filter_cons_True by done. by f_equal. Qed.

Lemma filter_none {A} (P : A -> Prop) `{forall x, Decision (P x)} l :
  Forall (fun x => ~ P x) l -> filter P l = [].
Proof. induction 1; [done|]. by rewrite filter_cons_False by done. Qed.

Lemma insert_at_perm {A} (i : nat) (x : A) (l : list A) : insert_at i x l ≡ₚ x :: l.
Proof. unfold insert_at. rewrite <- Permutation_middle, take_drop. done. Qed.

Lemma erase_at_perm {A} (i : nat) (x : A) (l : list A) :
  l !! i = Some x -> l ≡ₚ x :: erase_at i l.
Proof.
  intros Hi. unfold erase_at. rewrite Permutation_middle.
  by rewrite (take_drop_middle l i x Hi).
Qed.

(** ** [std::set] of identifiers

    A strictly increasing list; [insert] of an element that is present does
    nothing. *)

Definition set_insert (x : Z) (l : list Z) : list Z :=
  if bool_decide (x ∈ l) then l else insert_at (lower_bound id l x) x l.

Lemma set_insert_sorted x l : sorted_keys id l -> sorted_keys id (set_insert x l).
Proof.
  intros Hs. unfold set_insert. case_bool_decide as Hx; [done|].
  apply insert_at_sorted; [done|done|]. intros (y & Hy & E). cbn in E. by subst.
Qed.

Lemma elem_of_set_insert x y l : y ∈ set_insert x l <-> y = x \/ y ∈ l.
Proof.
  unfold set_insert. case_bool_decide as Hx; [set_solver|]. apply elem_of_insert_at.
Qed.

(** The set built from a list and from the elements of another that pass a
    test, as the code builds it. *)
Lemma set_of_list_spec ds : forall s, sorted_keys id s ->
  sorted_keys id (fold_left (fun s d => set_insert d s) ds s) /\
  forall x, x ∈ fold_left (fun s d => set_insert d s) ds s <-> x ∈ ds \/ x ∈ s.
Proof.
  induction ds as [|d ds IH]; intros s Hs; cbn [fold_left]; [set_solver|].
  destruct (IH (set_insert d s)) as [Ha Hb]; [by apply set_insert_sorted|].
  split; [done|]. intros x. rewrite Hb, elem_of_set_insert, elem_of_cons. tauto.
Qed.

Lemma set_of_test_spec {A} (key : A -> Z) (test : A -> bool) (l : list A) : forall s,
  sorted_keys id s ->
  let r := fold_left (fun s d => if test d then set_insert (key d) s else s) l s in
  sorted_keys id r /\
  forall x, x ∈ r <-> x ∈ s \/ exists d, d ∈ l /\ key d = x /\ test d = true.
Proof.
  induction l as [|d l IH]; intros s Hs; cbn [fold_left].
  - split; [done|]. intros x. split; [by left|]. intros [?|(d & Hd & _)]; [done|].
    by apply not_elem_of_nil in Hd.
  - destruct (test d) eqn:Et.
    + destruct (IH (set_insert (key d) s)) as [Ha Hb]; [by apply set_insert_sorted|].
      split; [done|]. intros x. rewrite Hb, elem_of_set_insert.
      setoid_rewrite elem_of_cons. split; [naive_solver|].
      intros [?|(y & [->|Hy] & <- & ?)]; [tauto|tauto|right; eauto].
    + destruct (IH s Hs) as [Ha Hb]. split; [done|]. intros x. rewrite Hb.
      setoid_rewrite elem_of_cons. split; [naive_solver|].
      intros [?|(y & [->|Hy] & <- & ?)]; [tauto|congruence|right; eauto].
Qed.
