(* ===== verification/StringOps.v ===== *)
(** * Strings

    The operations of [std::string] the program uses and the helpers of
    [src/helics/common/stringOps.cpp], on lists of characters. *)

From Stdlib Require Import Ascii.
From S2P Require Import Prelude.

(** an operation on characters as one on strings *)
Definition on_chars (f : list ascii -> list ascii) (s : string) : string :=
  String.string_of_list_ascii (f (String.list_ascii_of_string s)).

(** [str.compare (pos, n, text) == 0] *)
Definition compare_at (pos n : nat) (text str : list ascii) : option bool :=
  if bool_decide (length str < pos)%nat then None
  else Some (bool_decide (take n (drop pos str) = text)).

Definition front (str : list ascii) : option ascii := head str.
Definition back (str : list ascii) : option ascii := last str.
Definition pop_back (str : list ascii) : list ascii := take (pred (length str)) str.

Definition quote : ascii := "034"%char.
Definition single : ascii := "'"%char.

(** The literal that should end with the form feed holds the parenthesis that
    was meant to close the call. *)
Definition whiteSpaceCharacters : list ascii :=
  [" "; "009"; "010"; "013"; "007"; "011"; "012"; ")"]%char ++ ["000"%char].

Definition is_space (c : ascii) : bool := bool_decide (c ∈ whiteSpaceCharacters).

Fixpoint drop_space (str : list ascii) : list ascii :=
  match str with
  | c :: str' => if is_space c then drop_space str' else str
  | [] => []
  end.

(** from the first to the last character that is not white space *)
Definition trim (str : list ascii) : list ascii := reverse (drop_space (reverse (drop_space str))).

Definition removeQuotes (str : list ascii) : list ascii :=
  let newString := trim str in
  match front newString with
  | Some c =>
      if (bool_decide (c = quote) || bool_decide (c = single) || bool_decide (c = "`"%char)) &&
         bool_decide (back newString = Some c)
      then drop 1 (pop_back newString) else newString
  | None => newString
  end.

(** [convertToLowerCase] *)
Definition tolower (c : ascii) : ascii :=
  let n := N_of_ascii c in
  if ((65 <=? n) && (n <=? 90))%N then ascii_of_N (n + 32) else c.

Fixpoint lower (s : string) : string :=
  match s with
  | EmptyString => EmptyString
  | String a s' => String (tolower a) (lower s')
  end.

(** ** Numbers in decimal *)

(** the exceptions of the standard library *)
Inductive std_exn := invalid_argument (what : string) | out_of_range.

Definition char_digit (d : Z) : ascii := ascii_of_N (Z.to_N (48 + d)).
Definition digit_value (c : ascii) : Z := Z.of_N (N_of_ascii c) - 48.
Definition is_decimal (c : ascii) : bool := (0 <=? digit_value c) && (digit_value c <=? 9).

(** [std::to_string] of an [int] that is not negative: ten digits are enough *)
Fixpoint digits_up_to (n : nat) (z : Z) : list ascii :=
  match n with
  | O => []
  | S n => (if z <? 10 then [] else digits_up_to n (z / 10)) ++ [char_digit (z mod 10)]
  end.
Definition to_string (z : Z) : list ascii := digits_up_to 10 z.

(** the digits at the front, read behind [acc] *)
Fixpoint read_digits (acc : Z) (str : list ascii) : Z :=
  match str with
  | c :: rest => if is_decimal c then read_digits (10 * acc + digit_value c) rest else acc
  | [] => acc
  end.

(** white space of the C locale *)
Definition is_blank (c : ascii) : bool := bool_decide (c ∈ [" "; "009"; "010"; "011"; "012"; "013"]%char).
Fixpoint drop_blank (str : list ascii) : list ascii :=
  match str with c :: rest => if is_blank c then drop_blank rest else str | [] => [] end.

(** [std::stoi]: what stands behind the number does not matter *)
Definition stoi (str : list ascii) : std_exn + Z :=
  let str := drop_blank str in
  let '(sign, str) := match str with
                      | c :: rest => if bool_decide (c = "-"%char) then (-1, rest)
                                     else if bool_decide (c = "+"%char) then (1, rest) else (1, str)
                      | [] => (1, str)
                      end in
  match str with
  | c :: _ =>
      if is_decimal c then
        let v := sign * read_digits 0 str in
        if bool_decide (in_signed 32 v) then inr v else inl out_of_range
      else inl (invalid_argument "stoi")
  | [] => inl (invalid_argument "stoi")
  end.

(** ** Searches *)

(** [str.find (pat)] *)
Fixpoint find (pat str : list ascii) : option nat :=
  if bool_decide (take (length pat) str = pat) then Some O
  else match str with [] => None | _ :: rest => S <$> find pat rest end.

(** [str.find_last_of (c)] *)
Fixpoint find_last_of (c : ascii) (str : list ascii) : option nat :=
  match str with
  | [] => None
  | d :: rest =>
      match find_last_of c rest with
      | Some n => Some (S n)
      | None => if bool_decide (d = c) then Some O else None
      end
  end.

Lemma digit_value_char d : 0 <= d < 10 -> digit_value (char_digit d) = d.
Proof. intros Hd. unfold digit_value, char_digit. rewrite N_ascii_embedding by lia. lia. Qed.

Lemma is_decimal_char d : 0 <= d < 10 -> is_decimal (char_digit d) = true.
Proof. intros Hd. unfold is_decimal. rewrite digit_value_char by done. lia. Qed.

Lemma read_digits_app n : forall z acc rest, 0 <= z < 10 ^ Z.of_nat n -> (0 < n)%nat ->
  exists k, read_digits acc (digits_up_to n z ++ rest) = read_digits (acc * 10 ^ k + z) rest /\ 0 < k.
Proof.
  induction n as [|n IH]; intros z acc rest Hz Hn; [lia|]. cbn [digits_up_to].
  assert (0 <= z mod 10 < 10) as Hm by (apply Z.mod_pos_bound; lia).
  rewrite <- app_assoc. destruct (Z.ltb_spec z 10) as [Hlt|Hge].
  - exists 1. split; [|lia]. cbn [app read_digits]. rewrite is_decimal_char, digit_value_char by done.
    f_equal. rewrite Z.mod_small by lia. lia.
  - assert (0 <= z / 10 < 10 ^ Z.of_nat n) as Hd.
    { split; [apply Z.div_pos; lia|]. apply Z.div_lt_upper_bound; [lia|].
      rewrite Nat2Z.inj_succ, Z.pow_succ_r in Hz by lia. lia. }
    assert (0 < n)%nat by (destruct n; [cbn in Hz; lia|lia]).
    destruct (IH (z / 10) acc ([char_digit (z mod 10)] ++ rest) Hd ltac:(done)) as (k & -> & Hk).
    exists (Z.succ k). split; [|lia]. cbn [app read_digits]. rewrite is_decimal_char, digit_value_char by done.
    f_equal. rewrite Z.pow_succ_r by lia. pose proof (Z_div_mod_eq_full z 10). lia.
Qed.

Lemma digits_head n z : (0 < n)%nat -> 0 <= z -> exists c rest, digits_up_to n z = c :: rest /\ is_decimal c = true.
Proof.
  revert z. induction n as [|n IH]; intros z Hn Hz; [lia|]. cbn [digits_up_to].
  assert (is_decimal (char_digit (z mod 10)) = true) by (apply is_decimal_char, Z.mod_pos_bound; lia).
  destruct (z <? 10); [by eexists _, _|]. destruct n as [|n]; [by eexists _, _|].
  destruct (IH (z / 10)) as (c & rest & -> & Hc); [lia|apply Z.div_pos; lia|]. by eexists _, _.
Qed.

(** A number that was written is read back. *)
Lemma stoi_to_string z : 0 <= z < 2 ^ 31 -> stoi (to_string z) = inr z.
Proof.
  intros Hz. destruct (digits_head 10 z) as (c & rest & E & Hc); [lia|lia|].
  assert (is_blank c = false /\ c <> "-"%char /\ c <> "+"%char) as (Hb & Hm & Hp).
  { unfold is_blank. split_and!; [apply bool_decide_eq_false; rewrite !elem_of_cons, elem_of_nil; intros Hin|..].
    all: try intros ->; try discriminate Hc. all: repeat destruct Hin as [Hin|Hin]; subst; discriminate Hc || done. }
  unfold stoi, to_string. rewrite E. cbn [drop_blank]. rewrite Hb, !bool_decide_false, Hc by done.
  rewrite <- E, <- (app_nil_r (digits_up_to 10 z)).
  destruct (read_digits_app 10 z 0 []) as (k & -> & Hk); [cbn; lia|lia|]. cbn [read_digits].
  rewrite Z.mul_0_l, Z.mul_1_l. by rewrite bool_decide_true by (unfold in_signed; cbn; lia).
Qed.

Lemma find_last_of_app c l r : c ∉ r -> find_last_of c (l ++ c :: r) = Some (length l).
Proof.
  intros Hr. assert (find_last_of c r = None) as En.
  { induction r as [|d r IH]; [done|]. apply not_elem_of_cons in Hr as [Hd Hr]. cbn. by rewrite IH, bool_decide_false. }
  induction l as [|d l IH]; cbn; [by rewrite En, bool_decide_true|]. by rewrite IH.
Qed.

Lemma decimal_digits n z : 0 <= z -> Forall (fun c => is_decimal c = true) (digits_up_to n z).
Proof.
  revert z. induction n as [|n IH]; intros z Hz; [constructor|]. cbn [digits_up_to]. apply Forall_app. split.
  - case_if; [constructor|]. apply IH, Z.div_pos; lia.
  - constructor; [|constructor]. apply is_decimal_char, Z.mod_pos_bound. lia.
Qed.
