(* ===== verification/HTime.v ===== *)
(** * Simulation time

    Models [src/helics/common/timeRepresentation.hpp] and the type [Time] of
    [src/helics/core/helics-time.hpp]: a time is a signed 64-bit count of
    ticks, 10^N of them per second (N = 9 in the default build).  Floating
    point conversions are computed on IEEE binary64 numbers ([spec_float] at
    53 bits of mantissa), so they run inside the kernel.  *)

From Stdlib Require Import SpecFloat.
From S2P Require Import Prelude.

(** ** Choices the C++ standard leaves to the platform

    Whether plain [char] is signed, the byte order of the host, and what an
    out-of-range conversion from [double] to [int] produces.  The components
    take them as a parameter. *)
Class Platform := {
  char_is_signed : bool;
  isLittleEndian : bool;
  wide_double_to_int : spec_float -> Z;
}.

(** The usual x86-64 choices: signed [char], little endian; the conversion
    instruction returns the "integer indefinite" value. *)
Definition x86_64 : Platform := {|
  char_is_signed := true;
  isLittleEndian := true;
  wide_double_to_int := fun _ => - 2 ^ 31;
|}.

(** ** Binary64 arithmetic *)

Module Double.
Definition double := spec_float.
Definition of_Z (z : Z) : double := binary_normalize 53 1024 z 0 false.
Definition add (a b : double) : double := SFadd 53 1024 a b.
Definition sub (a b : double) : double := SFsub 53 1024 a b.
Definition mul (a b : double) : double := SFmul 53 1024 a b.
Definition div (a b : double) : double := SFdiv 53 1024 a b.
Definition ltb (a b : double) : bool := SFltb a b.
Definition leb (a b : double) : bool := SFleb a b.
(** the literal [0.5] *)
Definition half : double := div (of_Z 1) (of_Z 2).

(** Rounding towards zero, as a conversion to an integer type does; [None]
    when there is no integer to convert to. *)
Definition trunc (d : double) : option Z :=
  match d with
  | S754_zero _ => Some 0
  | S754_finite s m e =>
      let mag := if 0 <=? e then Z.pos m * 2 ^ e else Z.pos m / 2 ^ (- e) in
      Some (if s then - mag else mag)
  | _ => None
  end.

(** [std::ceil], as the integer it denotes. *)
Definition ceil (d : double) : option Z :=
  match d with
  | S754_zero _ => Some 0
  | S754_finite s m e =>
      Some (if 0 <=? e then (if s then - Z.pos m else Z.pos m) * 2 ^ e
            else - ((if s then Z.pos m else - Z.pos m) / 2 ^ (- e)))
  | _ => None
  end.
End Double.

(** ** Units *)

Module Units.
Inductive time_units :=
  | ps | ns | us | ms | s | sec | minutes | hr | day | week.

#[export] Instance time_units_eq_dec : EqDecision time_units.
Proof. solve_decision. Defined.
End Units.

(** ** Counting ticks: [count_time<N>] *)

Module CountTime.
Import Units.
Section WithN.
Context (N : Z).

Definition fac10 (n : Z) : Z := 10 ^ n.
Definition iFactor : Z := fac10 N.
Definition dFactor : Double.double := Double.of_Z (fac10 N).
Definition ddivFactor : Double.double := Double.div (Double.of_Z 1) dFactor.

Definition maxVal : Z := 2 ^ 63 - 1.
Definition minVal : Z := - 2 ^ 63 + 1.
Definition zeroVal : Z := 0.
Definition epsilon : Z := 1.

(** from [std::chrono::nanoseconds] *)
Definition convert_ns (count : Z) : Z :=
  if 9 <=? N then int64 (count * fac10 (N - 9)) else Z.quot count (fac10 (9 - N)).

Definition toDouble (val : Z) : Double.double :=
  Double.add (Double.of_Z (Z.quot val iFactor))
             (Double.mul (Double.of_Z (Z.rem val iFactor)) ddivFactor).

Definition quick_round (val : Double.double) : option Z :=
  Double.trunc (if Double.leb (Double.of_Z 0) val then Double.add val Double.half
                else Double.sub val Double.half).

(** from a number of seconds; the guards keep the rounded value in range *)
Definition convert (t : Double.double) : Z :=
  if Double.ltb (toDouble (minVal + 10000)) t then
    if Double.ltb t (toDouble (maxVal - 10000)) then
      default minVal (quick_round (Double.mul t dFactor))
    else maxVal
  else minVal.

Definition seconds (val : Z) : Z := Z.quot val iFactor.

Definition toCount (val : Z) (units : time_units) : Z :=
  match units with
  | ps => if 12 <=? N then Z.quot val (fac10 (N - 12)) else int64 (val * fac10 (12 - N))
  | ns => if 9 <=? N then Z.quot val (fac10 (N - 9)) else int64 (val * fac10 (9 - N))
  | us => if 6 <=? N then Z.quot val (fac10 (N - 6)) else int64 (val * fac10 (6 - N))
  | ms => if 3 <=? N then Z.quot val (fac10 (N - 3)) else int64 (val * fac10 (3 - N))
  | minutes => Z.quot val (int64 (iFactor * 60))
  | hr => Z.quot val (int64 (iFactor * 3600))
  | day => Z.quot val (int64 (iFactor * 86400))
  | s | sec | _ => seconds val
  end.

Definition fromCount (val : Z) (units : time_units) : Z :=
  match units with
  | ps => if 12 <=? N then int64 (val * fac10 (N - 12)) else Z.quot val (fac10 (12 - N))
  | ns => if 9 <=? N then int64 (val * fac10 (N - 9)) else Z.quot val (fac10 (9 - N))
  | us => if 6 <=? N then int64 (val * fac10 (N - 6)) else Z.quot val (fac10 (6 - N))
  | ms => if 3 <=? N then int64 (val * fac10 (N - 3)) else Z.quot val (fac10 (3 - N))
  | minutes => int64 (int64 (val * 60) * iFactor)
  | hr => int64 (int64 (val * 3600) * iFactor)
  | day => int64 (int64 (val * 86400) * iFactor)
  | s | sec | _ => int64 (val * iFactor)
  end.

(** The ticks one count of a unit stands for in the code, when the unit is
    not finer than a tick. *)
Definition ticks_per (units : time_units) : option Z :=
  match units with
  | ps => if 12 <=? N then Some (10 ^ (N - 12)) else None
  | ns => if 9 <=? N then Some (10 ^ (N - 9)) else None
  | us => if 6 <=? N then Some (10 ^ (N - 6)) else None
  | ms => if 3 <=? N then Some (10 ^ (N - 3)) else None
  | s | sec | week => Some (10 ^ N)
  | minutes => Some (60 * 10 ^ N)
  | hr => Some (3600 * 10 ^ N)
  | day => Some (86400 * 10 ^ N)
  end.
End WithN.
End CountTime.

(** ** [TimeRepresentation<count_time<9>>]

    The default [Time]; only the tick count is data, so a time is its code.
    The orderings and equality of the class are those of the codes. *)

Abbreviation Time := Z (only parsing).
Definition ticksExp : Z := 9.

Module T.
Definition maxVal : Time := CountTime.maxVal.
Definition minVal : Time := CountTime.minVal.
Definition timeZero : Time := CountTime.zeroVal.
Definition timeEpsilon : Time := CountTime.epsilon.
Definition opp (a : Time) : Time := int64 (- a).
Definition negEpsilon : Time := opp timeEpsilon.
Definition add (a b : Time) : Time := int64 (a + b).
Definition sub (a b : Time) : Time := int64 (a - b).
(** [int * Time] and [Time * int] *)
Definition muli (a : Time) (k : Z) : Time := int64 (a * k).
(** [Time / int]: division by zero has no result *)
Definition divi (a : Time) (k : Z) : option Time :=
  if k =? 0 then None else Some (int64 (Z.quot a k)).
Definition modt (a b : Time) : option Time :=
  if b =? 0 then None else Some (Z.rem a b).
(** conversion from and to seconds *)
Definition of_double (t : Double.double) : Time := CountTime.convert ticksExp t.
Definition to_double (t : Time) : Double.double := CountTime.toDouble ticksExp t.
Definition of_count (n : Z) (units : Units.time_units) : Time := CountTime.fromCount ticksExp n units.
Definition to_count (t : Time) (units : Units.time_units) : Z := CountTime.toCount ticksExp t units.
(** [Time / Time]: a ratio, not a time *)
Definition ratio (a b : Time) : Double.double := Double.div (to_double a) (to_double b).
(** the conversion of the literal [-1] *)
Definition minusOne : Time := of_double (Double.of_Z (-1)).
End T.

Infix "+t" := T.add (at level 50, left associativity) : helics_scope.
Infix "-t" := T.sub (at level 50, left associativity) : helics_scope.
Infix "*t" := T.muli (at level 40, left associativity) : helics_scope.

Definition valid_time (t : Time) : Prop := T.minVal <= t <= T.maxVal.

#[export] Instance valid_time_dec t : Decision (valid_time t).
Proof. unfold valid_time. apply _. Defined.

(** [static_cast<int> (std::ceil (d))] *)
Definition ceil_to_int `{Platform} (d : Double.double) : Z :=
  match Double.ceil d with
  | Some z => if decide (in_signed 32 z) then z else wide_double_to_int d
  | None => wide_double_to_int d
  end.

(** ** Laws of tick arithmetic *)

Lemma maxVal_eq : T.maxVal = 9223372036854775807. Proof. reflexivity. Qed.
Lemma minVal_eq : T.minVal = -9223372036854775807. Proof. reflexivity. Qed.

(** Arithmetic goals about times: expose the extreme values to [lia]. *)
Ltac time_lia :=
  unfold valid_time, T.timeZero, T.timeEpsilon, T.negEpsilon, CountTime.zeroVal, CountTime.epsilon in *;
  rewrite ?maxVal_eq, ?minVal_eq in *; lia.

Lemma tadd_exact a b : valid_time (a + b) -> a +t b = a + b.
Proof. intros Hab. apply swrap_id; [lia|]. unfold in_signed. time_lia. Qed.

Lemma tsub_exact a b : valid_time (a - b) -> a -t b = a - b.
Proof. intros Hab. apply swrap_id; [lia|]. unfold in_signed. time_lia. Qed.

Lemma topp_exact a : valid_time a -> T.opp a = - a.
Proof. intros Ha. apply swrap_id; [lia|]. unfold in_signed. time_lia. Qed.

Lemma tmuli_exact a k : valid_time (a * k) -> a *t k = a * k.
Proof. intros Hab. apply swrap_id; [lia|]. unfold in_signed. time_lia. Qed.

#[export] Hint Rewrite tadd_exact tsub_exact topp_exact tmuli_exact using time_lia : helics.

Module CountTimeFacts.
Import Units CountTime.

Lemma fac10_pos n : 0 <= n -> 0 < fac10 n.
Proof. intros. apply Z.pow_pos_nonneg; lia. Qed.

(** [fromCount] multiplies by the ticks of the unit, with the wrap-around
    of the 64-bit product. *)
Lemma fromCount_ticks N v u k :
  0 <= N -> ticks_per N u = Some k -> fromCount N v u = int64 (v * k).
Proof.
  intros HN. destruct u; cbn [ticks_per fromCount]; unfold iFactor, fac10.
  all: try (case_if; [|done]).
  all: intros [= <-]; try done.
  all: apply swrap_congr; [lia|]; rewrite Z.mul_comm, <- Zmult_mod_idemp_r,
         swrap_mod, Zmult_mod_idemp_r by lia; f_equal; lia.
Qed.

Lemma toCount_ticks N v u k :
  0 <= N -> in_signed 64 k -> ticks_per N u = Some k -> toCount N v u = Z.quot v k.
Proof.
  intros HN Hk. destruct u; cbn [ticks_per toCount]; unfold seconds, iFactor, fac10.
  all: try (case_if; [|done]).
  all: intros [= <-]; try done.
  all: rewrite swrap_id by (rewrite ?(Z.mul_comm (10 ^ N)); lia || done);
       f_equal; lia.
Qed.

Lemma ticks_per_pos N u k : 0 <= N -> ticks_per N u = Some k -> 0 < k.
Proof.
  intros HN. pose proof (Z.pow_pos_nonneg 10 N ltac:(lia) HN).
  destruct u; cbn [ticks_per]; try case_if; breflect; intros [= <-]; try lia;
    apply Z.pow_pos_nonneg; lia.
Qed.
End CountTimeFacts.
