(* ===== verification/Identifiers.v ===== *)
(** * Identifiers of federates, brokers, routes and interfaces

    Models [src/helics/core/federate_id.hpp].  Each class there wraps one
    32-bit integer, so an identifier is its base value; the classes differ in
    their default ("not set") value and in the ranges they test. *)

From S2P Require Import Prelude.

Abbreviation local_federate_id := Z (only parsing).
Abbreviation interface_handle := Z (only parsing).
Abbreviation global_broker_id := Z (only parsing).
Abbreviation global_federate_id := Z (only parsing).
Abbreviation route_id := Z (only parsing).

Module LocalFedId.
Definition invalid : local_federate_id := -2000000000.
Definition isValid (id : local_federate_id) : bool := negb (id =? invalid).
(** the pseudo federate that stands for the core itself *)
Definition local_core_id : local_federate_id := -259.
End LocalFedId.

Module InterfaceHandle.
Definition invalid : interface_handle := -1700000000.
Definition isValid (h : interface_handle) : bool := negb (h =? invalid).
Definition direct_send_handle : interface_handle := -1745234.
End InterfaceHandle.

Definition global_federate_id_shift : Z := 0x20000.
Definition global_broker_id_shift : Z := 0x70000000.
Definition parent_broker_id : global_broker_id := 0.

Module GlobalBrokerId.
Definition invalid : global_broker_id := -2010000000.
Definition isFederate (gid : global_broker_id) : bool :=
  (global_federate_id_shift <=? gid) && (gid <? global_broker_id_shift).
Definition isBroker (gid : global_broker_id) : bool := global_broker_id_shift <=? gid.
Definition isValid (gid : global_broker_id) : bool := negb (gid =? invalid).
Definition localIndex (gid : global_broker_id) : Z := int32 (gid - global_broker_id_shift).
End GlobalBrokerId.

Module GlobalFedId.
Definition invalid : global_federate_id := -2010000000.
Definition isFederate (gid : global_federate_id) : bool :=
  (global_federate_id_shift <=? gid) && (gid <? global_broker_id_shift).
Definition isBroker (gid : global_federate_id) : bool := global_broker_id_shift <=? gid.
Definition isValid (gid : global_federate_id) : bool := negb (gid =? invalid).
Definition localIndex (gid : global_federate_id) : Z := int32 (gid - global_federate_id_shift).
End GlobalFedId.

Module RouteId.
Definition invalid : route_id := -1295148000.
Definition isValid (rid : route_id) : bool := negb (rid =? invalid).
Definition parent_route_id : route_id := 0.
End RouteId.

(** ** Global handles *)

Record global_handle := GlobalHandle {
  fed_id : global_federate_id;
  handle : interface_handle;
}.

#[export] Instance global_handle_eq_dec : EqDecision global_handle.
Proof. solve_decision. Defined.

Module Handle.
Definition default_handle : global_handle :=
  GlobalHandle GlobalFedId.invalid InterfaceHandle.invalid.

Definition eqb (a b : global_handle) : bool :=
  (fed_id a =? fed_id b) && (handle a =? handle b).

(** the lexicographic [operator<] *)
Definition ltb (a b : global_handle) : bool :=
  if fed_id a <? fed_id b then true
  else if negb (fed_id a =? fed_id b) then false else handle a <? handle b.

Definition isValid (h : global_handle) : bool :=
  GlobalFedId.isValid (fed_id h) && InterfaceHandle.isValid (handle h).

(** the 64-bit key the handle is hashed and mapped by *)
Definition to_uint64 (h : global_handle) : Z :=
  let key := uint64 (Z.shiftl (uint64 (fed_id h)) 32) in
  uint64 (key + Z.land (uint64 (handle h)) 0xFFFFFFFF).
End Handle.

Definition wf_handle (h : global_handle) : Prop :=
  in_signed 32 (fed_id h) /\ in_signed 32 (handle h).

Module HandleFacts.
Import Handle.

Lemma eqb_eq a b : eqb a b = true <-> a = b.
Proof.
  unfold eqb. destruct a as [a1 a2], b as [b1 b2]. cbn.
  rewrite andb_true_iff, !Z.eqb_eq. split; [intros [-> ->]|intros [= -> ->]]; done.
Qed.

Lemma ltb_spec a b :
  ltb a b = true <->
  fed_id a < fed_id b \/ (fed_id a = fed_id b /\ handle a < handle b).
Proof. unfold ltb. case_ifs; rewrite ?Z.ltb_lt; split; intros; lia || done. Qed.

Lemma to_uint64_value h :
  wf_handle h -> to_uint64 h = uint32 (fed_id h) * 2 ^ 32 + uint32 (handle h).
Proof.
  intros [Hf Hh]. unfold to_uint64, uwrap.
  change 0xFFFFFFFF with (Z.ones 32). rewrite Z.land_ones by lia.
  rewrite Z.shiftl_mul_pow2 by lia.
  assert (forall z, z mod 2 ^ 64 mod 2 ^ 32 = z mod 2 ^ 32) as M.
  { intros z. change (2 ^ 64) with (2 ^ 32 * 2 ^ 32).
    rewrite Z.rem_mul_r by lia. rewrite Z.mul_comm, Z.mod_add by lia.
    apply Z.mod_mod. lia. }
  rewrite M, (Z.mul_mod_idemp_l (fed_id h)) by lia.
  change (2 ^ 64) with (2 ^ 32 * 2 ^ 32).
  rewrite (Zmult_mod_distr_r (fed_id h) (2 ^ 32) (2 ^ 32)).
  pose proof (Z.mod_pos_bound (fed_id h) (2 ^ 32) ltac:(lia)).
  pose proof (Z.mod_pos_bound (handle h) (2 ^ 32) ltac:(lia)).
  apply Z.mod_small. nia.
Qed.

Lemma uint32_inj a b : in_signed 32 a -> in_signed 32 b -> uint32 a = uint32 b -> a = b.
Proof.
  intros Ha Hb E. rewrite <- (swrap_id 32 a), <- (swrap_id 32 b) by (lia || done).
  apply swrap_congr; [lia|done].
Qed.
End HandleFacts.
