(* ===== verification/CoreData.v ===== *)
(** * Messages of the endpoint interface

    Models the [Message] class and [matchingTypes] of
    [src/helics/core/core-data.hpp] and [core-data.cpp].  A [data_block] is an
    adapter over a [std::string], so it is the string. *)

From S2P Require Import Prelude HTime.

Record Message := mkMessage {
  time : Time;
  flags : Z;
  messageID : Z;
  data : string;
  dest : string;
  source : string;
  original_source : string;
  original_dest : string;
}.

#[export] Instance Message_settable : Settable Message := fun r =>
  mkMessage (time r) (flags r) (messageID r) (data r) (dest r) (source r) (original_source r)
    (original_dest r).

#[export] Instance Message_eq_dec : EqDecision Message.
Proof. solve_decision. Defined.

Definition empty_message : Message := mkMessage T.timeZero 0 0 "" "" "" "" "".

Definition is_empty (str : string) : bool := bool_decide (str = ""%string).

(** A message holds something when it has data, a source or a destination. *)
Definition isValid (m : Message) : bool :=
  if negb (is_empty (data m)) then true
  else if negb (is_empty (source m)) then true else negb (is_empty (dest m)).

(** ** Type compatibility *)

Definition global_match_strings : list string := ["any"; "all"; "data"; "string"; "block"]%string.

(** [str.compare (0, 3, "def") == 0]: the first three characters, or all of
    them when there are fewer, are compared with the literal *)
Definition has_def_prefix (str : string) : bool :=
  bool_decide (String.substring 0 3 str = "def"%string).

Definition matchingTypes (type1 type2 : string) : bool :=
  if bool_decide (type1 = type2) then true
  else if is_empty type1 || is_empty type2 then true
  else if has_def_prefix type1 || has_def_prefix type2 then true
  else if bool_decide (type1 ∈ global_match_strings) then true
  else bool_decide (type2 ∈ global_match_strings).

Lemma matchingTypes_sym a b : matchingTypes a b = matchingTypes b a.
Proof.
  unfold matchingTypes. rewrite (bool_decide_ext (a = b) (b = a)) by (split; congruence).
  case_bool_decide; [done|].
  rewrite (orb_comm (is_empty a)), (orb_comm (has_def_prefix a)).
  repeat case_match; try done.
Qed.
