(* ===== verification/ActionMessage.v ===== *)
(** * Action messages

    Models the command enumeration of
    [src/helics/core/ActionMessageDefintions.hpp], the flag operations of
    [src/helics/core/flagOperations.hpp], and the message object of
    [src/helics/core/ActionMessage.hpp] with the operations of
    [ActionMessage.cpp] that do not serialize it (file [Wire] has those). *)

From S2P Require Import Prelude HTime Identifiers CoreData.

(** ** Commands

    The enumeration has a fixed underlying type, so a received code that is
    not listed is still a value of it: [cmd_unlisted]. *)

Inductive action_t :=
  | cmd_priority_disconnect
  | cmd_fed_ack
  | cmd_broker_ack
  | cmd_add_route
  | cmd_route_ack
  | cmd_register_route
  | cmd_reg_fed
  | cmd_priority_ack
  | cmd_query
  | cmd_set_global
  | cmd_broker_query
  | cmd_query_reply
  | cmd_reg_broker
  | cmd_broker_setup
  | cmd_ignore
  | cmd_tick
  | cmd_user_disconnect
  | cmd_disconnect
  | cmd_disconnect_name
  | cmd_disconnect_check
  | cmd_disconnect_fed
  | cmd_broadcast_disconnect
  | cmd_disconnect_core
  | cmd_disconnect_broker
  | cmd_disconnect_fed_ack
  | cmd_disconnect_core_ack
  | cmd_disconnect_broker_ack
  | cmd_check_connections
  | cmd_ping
  | cmd_ping_reply
  | cmd_init
  | cmd_init_grant
  | cmd_init_not_ready
  | cmd_exec_request
  | cmd_exec_grant
  | cmd_exec_check
  | cmd_ack
  | cmd_stop
  | cmd_terminate_immediately
  | cmd_time_grant
  | cmd_time_check
  | cmd_request_current_time
  | cmd_time_block
  | cmd_time_unblock
  | cmd_time_barrier_request
  | cmd_time_barrier
  | cmd_time_barrier_clear
  | cmd_pub
  | cmd_bye
  | cmd_log
  | cmd_warning
  | cmd_error
  | cmd_invalid
  | cmd_send_route
  | cmd_search_dependency
  | cmd_add_dependency
  | cmd_remove_dependency
  | cmd_add_dependent
  | cmd_remove_dependent
  | cmd_add_interdependency
  | cmd_remove_interdependency
  | cmd_data_link
  | cmd_filter_link
  | cmd_fed_configure_time
  | cmd_fed_configure_int
  | cmd_fed_configure_flag
  | cmd_core_configure
  | cmd_interface_configure
  | cmd_broker_configure
  | cmd_update_filter_op
  | null_info_command
  | priority_null_info_command
  | cmd_time_request
  | cmd_force_time_grant
  | cmd_send_message
  | cmd_null_message
  | cmd_null_dest_message
  | cmd_send_for_filter
  | cmd_send_for_dest_filter_return
  | cmd_send_for_filter_return
  | cmd_filter_result
  | cmd_dest_filter_result
  | cmd_reg_pub
  | cmd_add_publisher
  | cmd_reg_filter
  | cmd_add_filter
  | cmd_reg_input
  | cmd_add_subscriber
  | cmd_reg_end
  | cmd_add_endpoint
  | cmd_add_named_input
  | cmd_add_named_filter
  | cmd_add_named_publication
  | cmd_add_named_endpoint
  | cmd_remove_named_input
  | cmd_remove_named_filter
  | cmd_remove_named_publication
  | cmd_remove_named_endpoint
  | cmd_remove_subscriber
  | cmd_remove_filter
  | cmd_remove_publication
  | cmd_remove_endpoint
  | cmd_close_interface
  | cmd_multi_message
  | cmd_protocol_priority
  | cmd_protocol
  | cmd_protocol_big
  | cmd_resend
  | cmd_unlisted (code : Z).

#[export] Instance action_t_eq_dec : EqDecision action_t.
Proof. solve_decision. Defined.

Definition cmd_info_basis : Z := 0x10000000.

Definition action_code (a : action_t) : Z :=
  match a with
  | cmd_priority_disconnect => -3
  | cmd_fed_ack => -25
  | cmd_broker_ack => -27
  | cmd_add_route => -32
  | cmd_route_ack => -16
  | cmd_register_route => -15
  | cmd_reg_fed => -105
  | cmd_priority_ack => -254
  | cmd_query => -cmd_info_basis - 37
  | cmd_set_global => -cmd_info_basis - 55
  | cmd_broker_query => -37
  | cmd_query_reply => -cmd_info_basis - 38
  | cmd_reg_broker => -cmd_info_basis - 40
  | cmd_broker_setup => -1
  | cmd_ignore => 0
  | cmd_tick => 1
  | cmd_user_disconnect => 2
  | cmd_disconnect => 3
  | cmd_disconnect_name => 4
  | cmd_disconnect_check => 5
  | cmd_disconnect_fed => 6
  | cmd_broadcast_disconnect => 7
  | cmd_disconnect_core => 8
  | cmd_disconnect_broker => 9
  | cmd_disconnect_fed_ack => 1006
  | cmd_disconnect_core_ack => 1008
  | cmd_disconnect_broker_ack => 1009
  | cmd_check_connections => 297
  | cmd_ping => 298
  | cmd_ping_reply => 299
  | cmd_init => 10
  | cmd_init_grant => 11
  | cmd_init_not_ready => 12
  | cmd_exec_request => 20
  | cmd_exec_grant => 22
  | cmd_exec_check => 24
  | cmd_ack => 254
  | cmd_stop => 30
  | cmd_terminate_immediately => 31
  | cmd_time_grant => 35
  | cmd_time_check => 36
  | cmd_request_current_time => 38
  | cmd_time_block => 40
  | cmd_time_unblock => 41
  | cmd_time_barrier_request => 42
  | cmd_time_barrier => 43
  | cmd_time_barrier_clear => 44
  | cmd_pub => 52
  | cmd_bye => 2000
  | cmd_log => 55
  | cmd_warning => 9990
  | cmd_error => 10000
  | cmd_invalid => 1010101
  | cmd_send_route => 75
  | cmd_search_dependency => 1464
  | cmd_add_dependency => 140
  | cmd_remove_dependency => 141
  | cmd_add_dependent => 144
  | cmd_remove_dependent => 145
  | cmd_add_interdependency => 148
  | cmd_remove_interdependency => 149
  | cmd_data_link => cmd_info_basis + 707
  | cmd_filter_link => cmd_info_basis + 709
  | cmd_fed_configure_time => 202
  | cmd_fed_configure_int => 203
  | cmd_fed_configure_flag => 204
  | cmd_core_configure => 207
  | cmd_interface_configure => 209
  | cmd_broker_configure => 211
  | cmd_update_filter_op => 10427
  | null_info_command => cmd_info_basis - 1
  | priority_null_info_command => -cmd_info_basis - 1
  | cmd_time_request => 500
  | cmd_force_time_grant => 525
  | cmd_send_message => cmd_info_basis + 20
  | cmd_null_message => 726
  | cmd_null_dest_message => 730
  | cmd_send_for_filter => cmd_info_basis + 30
  | cmd_send_for_dest_filter_return => cmd_info_basis + 31
  | cmd_send_for_filter_return => cmd_info_basis + 35
  | cmd_filter_result => cmd_info_basis + 40
  | cmd_dest_filter_result => cmd_info_basis + 41
  | cmd_reg_pub => cmd_info_basis + 50
  | cmd_add_publisher => 50
  | cmd_reg_filter => cmd_info_basis + 60
  | cmd_add_filter => 62
  | cmd_reg_input => cmd_info_basis + 70
  | cmd_add_subscriber => 70
  | cmd_reg_end => cmd_info_basis + 90
  | cmd_add_endpoint => 90
  | cmd_add_named_input => 104
  | cmd_add_named_filter => 105
  | cmd_add_named_publication => 106
  | cmd_add_named_endpoint => 107
  | cmd_remove_named_input => 124
  | cmd_remove_named_filter => 125
  | cmd_remove_named_publication => 126
  | cmd_remove_named_endpoint => 127
  | cmd_remove_subscriber => 134
  | cmd_remove_filter => 135
  | cmd_remove_publication => 136
  | cmd_remove_endpoint => 137
  | cmd_close_interface => 133
  | cmd_multi_message => 1037
  | cmd_protocol_priority => -60000
  | cmd_protocol => 60000
  | cmd_protocol_big => cmd_info_basis + 60000
  | cmd_resend => 121212
  | cmd_unlisted code => code
  end.

(** The listed commands, in the order of the enumeration. *)
Definition listed_actions : list action_t :=
  [cmd_priority_disconnect; cmd_fed_ack; cmd_broker_ack; cmd_add_route;
   cmd_route_ack; cmd_register_route; cmd_reg_fed; cmd_priority_ack;
   cmd_query; cmd_set_global; cmd_broker_query; cmd_query_reply;
   cmd_reg_broker; cmd_broker_setup; cmd_ignore; cmd_tick;
   cmd_user_disconnect; cmd_disconnect; cmd_disconnect_name; cmd_disconnect_check;
   cmd_disconnect_fed; cmd_broadcast_disconnect; cmd_disconnect_core; cmd_disconnect_broker;
   cmd_disconnect_fed_ack; cmd_disconnect_core_ack; cmd_disconnect_broker_ack; cmd_check_connections;
   cmd_ping; cmd_ping_reply; cmd_init; cmd_init_grant;
   cmd_init_not_ready; cmd_exec_request; cmd_exec_grant; cmd_exec_check;
   cmd_ack; cmd_stop; cmd_terminate_immediately; cmd_time_grant;
   cmd_time_check; cmd_request_current_time; cmd_time_block; cmd_time_unblock;
   cmd_time_barrier_request; cmd_time_barrier; cmd_time_barrier_clear; cmd_pub;
   cmd_bye; cmd_log; cmd_warning; cmd_error;
   cmd_invalid; cmd_send_route; cmd_search_dependency; cmd_add_dependency;
   cmd_remove_dependency; cmd_add_dependent; cmd_remove_dependent; cmd_add_interdependency;
   cmd_remove_interdependency; cmd_data_link; cmd_filter_link; cmd_fed_configure_time;
   cmd_fed_configure_int; cmd_fed_configure_flag; cmd_core_configure; cmd_interface_configure;
   cmd_broker_configure; cmd_update_filter_op; null_info_command; priority_null_info_command;
   cmd_time_request; cmd_force_time_grant; cmd_send_message; cmd_null_message;
   cmd_null_dest_message; cmd_send_for_filter; cmd_send_for_dest_filter_return; cmd_send_for_filter_return;
   cmd_filter_result; cmd_dest_filter_result; cmd_reg_pub; cmd_add_publisher;
   cmd_reg_filter; cmd_add_filter; cmd_reg_input; cmd_add_subscriber;
   cmd_reg_end; cmd_add_endpoint; cmd_add_named_input; cmd_add_named_filter;
   cmd_add_named_publication; cmd_add_named_endpoint; cmd_remove_named_input; cmd_remove_named_filter;
   cmd_remove_named_publication; cmd_remove_named_endpoint; cmd_remove_subscriber; cmd_remove_filter;
   cmd_remove_publication; cmd_remove_endpoint; cmd_close_interface; cmd_multi_message;
   cmd_protocol_priority; cmd_protocol; cmd_protocol_big; cmd_resend].

(** Reading a code back as a command. *)
Definition action_of_code (code : Z) : action_t :=
  default (cmd_unlisted code) (find (fun a => action_code a =? code) listed_actions).

Definition listed (a : action_t) : Prop := forall code, a <> cmd_unlisted code.

(** The table behind [actionMessageType]. *)
Definition actionStrings : list (action_t * string) :=
  [(cmd_priority_disconnect, "priority_disconnect");
   (cmd_disconnect, "disconnect");
   (cmd_disconnect_name, "disconnect by name");
   (cmd_user_disconnect, "disconnect from user");
   (cmd_broadcast_disconnect, "broadcast disconnect");
   (cmd_fed_ack, "fed_ack");
   (cmd_broker_ack, "broker_ack");
   (cmd_add_route, "add_route");
   (cmd_route_ack, "route_ack");
   (cmd_register_route, "register_route");
   (cmd_reg_fed, "reg_fed");
   (cmd_priority_ack, "priority_ack");
   (cmd_query, "query");
   (cmd_query_reply, "query_reply");
   (cmd_reg_broker, "reg_broker");
   (cmd_ignore, "ignore");
   (cmd_tick, "tick");
   (cmd_ping, "ping");
   (cmd_ping_reply, "ping reply");
   (cmd_fed_configure_time, "fed_configure_time");
   (cmd_fed_configure_int, "fed_configure_int");
   (cmd_fed_configure_flag, "fed_configure_flag");
   (cmd_init, "init");
   (cmd_init_grant, "init_grant");
   (cmd_init_not_ready, "init_not_ready");
   (cmd_exec_request, "exec_request");
   (cmd_exec_grant, "exec_grant");
   (cmd_exec_check, "exec_check");
   (cmd_disconnect_broker_ack, "disconnect broker acknowledge");
   (cmd_disconnect_core_ack, "disconnect core acknowledge");
   (cmd_disconnect_fed_ack, "disconnect fed acknowledge");
   (cmd_ack, "ack");
   (cmd_stop, "stop");
   (cmd_terminate_immediately, "terminate_immediately");
   (cmd_time_grant, "time_grant");
   (cmd_time_check, "time_check");
   (cmd_time_block, "time_block");
   (cmd_time_unblock, "time_unblock");
   (cmd_pub, "pub");
   (cmd_bye, "bye");
   (cmd_log, "log");
   (cmd_warning, "warning");
   (cmd_error, "error");
   (cmd_send_route, "send_route");
   (cmd_add_dependency, "add_dependency");
   (cmd_remove_dependency, "remove_dependency");
   (cmd_add_dependent, "add_dependent");
   (cmd_remove_dependent, "remove_dependent");
   (cmd_add_interdependency, "add_interdependency");
   (cmd_remove_interdependency, "remove_interdependency");
   (null_info_command, "null_info");
   (priority_null_info_command, "priority_null_info");
   (cmd_time_request, "time_request");
   (cmd_send_message, "send_message");
   (cmd_send_for_filter, "send_for_filter");
   (cmd_filter_result, "result from running a filter");
   (cmd_send_for_filter_return, "send_for_filter_return");
   (cmd_null_message, "null message");
   (cmd_reg_pub, "reg_pub");
   (cmd_add_publisher, "add publisher");
   (cmd_remove_publication, "remove publisher");
   (cmd_reg_filter, "reg_filter");
   (cmd_add_filter, "add_filter");
   (cmd_remove_filter, "remove filter");
   (cmd_reg_input, "reg_input");
   (cmd_add_subscriber, "add_subscriber");
   (cmd_remove_subscriber, "remove subscriber");
   (cmd_reg_end, "reg_end");
   (cmd_resend, "reg_resend");
   (cmd_add_endpoint, "add_endpoint");
   (cmd_remove_endpoint, "remove endpoint");
   (cmd_add_named_endpoint, "add_named_endpoint");
   (cmd_add_named_input, "add_named_input");
   (cmd_add_named_publication, "add_named_publication");
   (cmd_add_named_filter, "add_named_filter");
   (cmd_remove_named_endpoint, "remove_named_endpoint");
   (cmd_remove_named_input, "remove_named_input");
   (cmd_remove_named_publication, "remove_named_publication");
   (cmd_remove_named_filter, "remove_named_filter");
   (cmd_close_interface, "close_interface");
   (cmd_multi_message, "multi message");
   (cmd_protocol_priority, "protocol_priority");
   (cmd_protocol, "protocol");
   (cmd_protocol_big, "protocol_big")]%string.

Definition unknownStr : string := "unknown".

Definition actionMessageType (action : action_t) : string :=
  match find (fun pt => bool_decide (fst pt = action)) actionStrings with
  | Some pt => snd pt
  | None => unknownStr
  end.

Definition errorStrings : list (Z * string) :=
  [(-2, "connection error"); (-5, "lost connection with server");
   (5, "already in initialization mode"); (6, "duplicate federate name detected");
   (7, "duplicate broker name detected")]%string.

Definition commandErrorString (errorcode : Z) : string :=
  match find (fun pt => fst pt =? errorcode) errorStrings with
  | Some pt => snd pt
  | None => unknownStr
  end.

(** ** The message object

    [name] is an alias of [payload] in the class, so there is one field. *)

Record ActionMessage := mkActionMessage {
  messageAction : action_t;
  messageID : Z;
  source_id : global_federate_id;
  source_handle : interface_handle;
  dest_id : global_federate_id;
  dest_handle : interface_handle;
  counter : Z;
  flags : Z;
  sequenceID : Z;
  actionTime : Time;
  payload : string;
  Te : Time;
  Tdemin : Time;
  Tso : Time;
  stringData : list string;
}.

#[export] Instance ActionMessage_settable : Settable ActionMessage := fun r =>
  mkActionMessage (messageAction r) (messageID r) (source_id r) (source_handle r) (dest_id r)
    (dest_handle r) (counter r) (flags r) (sequenceID r) (actionTime r) (payload r) (Te r)
    (Tdemin r) (Tso r) (stringData r).

#[export] Instance ActionMessage_eq_dec : EqDecision ActionMessage.
Proof. solve_decision. Defined.

Abbreviation name := payload (only parsing).

(** construction from a command *)
Definition newMessage (a : action_t) : ActionMessage := {|
  messageAction := a; messageID := 0;
  source_id := parent_broker_id; source_handle := InterfaceHandle.invalid;
  dest_id := parent_broker_id; dest_handle := InterfaceHandle.invalid;
  counter := 0; flags := 0; sequenceID := 0;
  actionTime := T.timeZero; payload := "";
  Te := T.timeZero; Tdemin := T.timeZero; Tso := T.timeZero;
  stringData := [];
|}.

Definition msg_from_to (a : action_t) (src dst : global_federate_id) : ActionMessage :=
  (newMessage a) <| source_id := src |> <| dest_id := dst |>.

(** The copy constructor; its initializer list has no [sequenceID], which
    therefore takes the default of its declaration. *)
Definition copy_construct (act : ActionMessage) : ActionMessage := {|
  messageAction := messageAction act; messageID := messageID act;
  source_id := source_id act; source_handle := source_handle act;
  dest_id := dest_id act; dest_handle := dest_handle act;
  counter := counter act; flags := flags act; sequenceID := 0;
  actionTime := actionTime act; payload := payload act;
  Te := Te act; Tdemin := Tdemin act; Tso := Tso act;
  stringData := stringData act;
|}.

(** The copy assignment leaves the [sequenceID] of the target as it was. *)
Definition copy_assign (this act : ActionMessage) : ActionMessage :=
  this <| messageAction := messageAction act |> <| messageID := messageID act |>
       <| source_id := source_id act |> <| source_handle := source_handle act |>
       <| dest_id := dest_id act |> <| dest_handle := dest_handle act |>
       <| counter := counter act |> <| flags := flags act |>
       <| actionTime := actionTime act |> <| Te := Te act |> <| Tdemin := Tdemin act |>
       <| Tso := Tso act |> <| payload := payload act |> <| stringData := stringData act |>.

Definition setAction (newAction : action_t) (m : ActionMessage) : ActionMessage :=
  m <| messageAction := newAction |>.

Definition setSource (hand : global_handle) (m : ActionMessage) : ActionMessage :=
  m <| source_id := fed_id hand |> <| source_handle := handle hand |>.

Definition setDestination (hand : global_handle) (m : ActionMessage) : ActionMessage :=
  m <| dest_id := fed_id hand |> <| dest_handle := handle hand |>.

Definition getSource (m : ActionMessage) : global_handle :=
  GlobalHandle (source_id m) (source_handle m).
Definition getDest (m : ActionMessage) : global_handle :=
  GlobalHandle (dest_id m) (dest_handle m).

Definition swapSourceDest (m : ActionMessage) : ActionMessage :=
  m <| source_id := dest_id m |> <| dest_id := source_id m |>
    <| source_handle := dest_handle m |> <| dest_handle := source_handle m |>.

Definition setExtraData (data : Z) (m : ActionMessage) : ActionMessage := m <| dest_handle := data |>.
Definition getExtraData (m : ActionMessage) : Z := dest_handle m.

(** *** String data *)

Definition isValidIndex {A} (index : Z) (v : list A) : bool :=
  (0 <=? index) && (index <? Z.of_nat (length v)).

Definition getString (index : Z) (m : ActionMessage) : string :=
  if isValidIndex index (stringData m)
  then default "" (stringData m !! Z.to_nat index)
  else "".

(** [None]: [std::invalid_argument] is thrown *)
Definition setString (index : Z) (str : string) (m : ActionMessage) : option ActionMessage :=
  if (0 <=? index) && (index <? 256) then
    let strs := if Z.of_nat (length (stringData m)) <=? index
                then resize (Z.to_nat (index + 1)) "" (stringData m) else stringData m in
    Some (m <| stringData := <[Z.to_nat index := str]> strs |>)
  else None.

Definition setStringData (strs : list string) (m : ActionMessage) : ActionMessage :=
  m <| stringData := strs |>.

(** ** Flags *)

Definition iteration_requested_flag : Z := 0.
Definition destination_target : Z := 1.
Definition required_flag : Z := 2.
Definition core_flag : Z := 3.
Definition error_flag : Z := 4.
Definition indicator_flag : Z := 5.
Definition empty_flag : Z := 6.
Definition extra_flag1 : Z := 7.
Definition optional_flag : Z := 8.
Definition clone_flag : Z := 9.
Definition extra_flag2 : Z := 8.
Definition destination_processing_flag : Z := 11.
Definition disconnected_flag : Z := 12.
Definition extra_flag3 : Z := 13.
Definition extra_flag4 : Z := 14.
Definition nameless_interface_flag : Z := 15.

(** On the 16-bit flag word, with the promotion to [int] and the truncating
    assignment written out. *)
Definition set_flag (flag flags : Z) : Z := uint16 (Z.lor flags (Z.shiftl 1 flag)).
Definition check_flag (flags flag : Z) : bool := negb (Z.land flags (Z.shiftl 1 flag) =? 0).
Definition clear_flag (flag flags : Z) : Z := uint16 (Z.land flags (Z.lnot (Z.shiftl 1 flag))).
Definition make_flags (flag : Z) : Z := uint16 (Z.shiftl 1 flag).
Definition make_flags2 (flag1 flag2 : Z) : Z := Z.lor (make_flags flag1) (make_flags flag2).
Definition make_flags3 (flag1 flag2 flag3 : Z) : Z :=
  Z.lor (make_flags2 flag1 flag2) (make_flags flag3).

Definition setActionFlag (flag : Z) (m : ActionMessage) : ActionMessage :=
  m <| flags ::= set_flag flag |>.
Definition checkActionFlag (m : ActionMessage) (flag : Z) : bool := check_flag (flags m) flag.
Definition clearActionFlag (flag : Z) (m : ActionMessage) : ActionMessage :=
  m <| flags ::= clear_flag flag |>.

(** ** Classification of commands *)

Definition isProtocolCommand (m : ActionMessage) : bool :=
  match messageAction m with
  | cmd_protocol | cmd_protocol_priority | cmd_protocol_big => true
  | _ => false
  end.

Definition isPriorityCommand (m : ActionMessage) : bool :=
  action_code (messageAction m) <? action_code cmd_ignore.

Definition isTimingCommand (m : ActionMessage) : bool :=
  match messageAction m with
  | cmd_disconnect | cmd_broadcast_disconnect | cmd_disconnect_core | cmd_disconnect_broker
  | cmd_disconnect_fed | cmd_time_grant | cmd_time_request | cmd_exec_grant | cmd_exec_request
  | cmd_priority_disconnect | cmd_terminate_immediately => true
  | _ => false
  end.

Definition isDependencyCommand (m : ActionMessage) : bool :=
  match messageAction m with
  | cmd_add_dependency | cmd_remove_dependency | cmd_add_dependent | cmd_remove_dependent
  | cmd_add_interdependency | cmd_remove_interdependency => true
  | _ => false
  end.

Definition isDisconnectCommand (m : ActionMessage) : bool :=
  match messageAction m with
  | cmd_disconnect | cmd_disconnect_check | cmd_disconnect_name | cmd_user_disconnect
  | cmd_disconnect_fed | cmd_disconnect_core | cmd_priority_disconnect
  | cmd_terminate_immediately | cmd_remove_filter | cmd_remove_endpoint
  | cmd_disconnect_fed_ack | cmd_disconnect_core_ack | cmd_disconnect_broker_ack
  | cmd_disconnect_broker | cmd_broadcast_disconnect | cmd_stop => true
  | cmd_time_grant => actionTime m =? T.maxVal
  | _ => false
  end.

Definition isValidCommand (m : ActionMessage) : bool :=
  bool_decide (messageAction m <> cmd_invalid).

(** [operator<] orders messages by their time *)
Definition message_ltb (a b : ActionMessage) : bool := actionTime a <? actionTime b.

(** ** Messages as commands

    [moveInfo] overwrites a command with the contents of a message, and
    [createMessageFromCommand] builds the message back; which strings it reads
    depends on how many the command carries. *)

Definition targetStringLoc : Z := 0.
Definition sourceStringLoc : Z := 1.
Definition origSourceStringLoc : Z := 2.
Definition origDestStringLoc : Z := 3.

Definition moveInfo (message : Message) (m : ActionMessage) : ActionMessage :=
  m <| messageAction := cmd_send_message |>
    <| messageID := CoreData.messageID message |>
    <| payload := data message |>
    <| actionTime := time message |>
    <| stringData := [dest message; source message; original_source message;
                      original_dest message] |>.

Definition command_of_message (message : Message) : ActionMessage :=
  moveInfo message (newMessage cmd_ignore).

Definition createMessageFromCommand (cmd : ActionMessage) : Message :=
  let base := match stringData cmd with
    | [] => empty_message
    | [d] => empty_message <| dest := d |>
    | [d; src] => empty_message <| dest := d |> <| source := src |>
    | [d; src; osrc] =>
        empty_message <| dest := d |> <| source := src |> <| original_source := osrc |>
    | d :: src :: osrc :: odst :: _ =>
        empty_message <| dest := d |> <| source := src |> <| original_source := osrc |>
                      <| original_dest := odst |>
    end in
  base <| data := payload cmd |> <| time := actionTime cmd |>
       <| CoreData.messageID := messageID cmd |>.

(** ** Facts *)

Module ActionMessageFacts.
(** Every listed command has its own code, and codes read back. *)
Lemma action_of_code_code a : listed a -> action_of_code (action_code a) = a.
Proof. destruct a; intros Hl; try reflexivity. by destruct (Hl code). Qed.

Lemma action_code_of_code z : action_code (action_of_code z) = z.
Proof.
  unfold action_of_code. destruct (find _ _) as [a|] eqn:E; [|done].
  apply find_some in E as [_ E]. by apply Z.eqb_eq in E.
Qed.

Lemma action_code_inj a b :
  listed a -> listed b -> action_code a = action_code b -> a = b.
Proof.
  intros Ha Hb E. rewrite <- (action_of_code_code a), <- (action_of_code_code b), E; done.
Qed.

(** *** Bits of the flag word *)

Lemma check_flag_testbit fl f : 0 <= f -> check_flag fl f = Z.testbit fl f.
Proof.
  intros Hf. unfold check_flag. rewrite Z.shiftl_1_l.
  destruct (Z.testbit fl f) eqn:E.
  - apply negb_true_iff, Z.eqb_neq. intros Hz.
    assert (Z.testbit (Z.land fl (2 ^ f)) f = true) as H
      by (rewrite Z.land_spec, E, Z.pow2_bits_true; done).
    rewrite Hz, Z.bits_0 in H. done.
  - apply negb_false_iff, Z.eqb_eq. apply Z.bits_inj'. intros n Hn.
    rewrite Z.land_spec, Z.bits_0.
    destruct (Z.eq_dec f n) as [<-|Hne]; [by rewrite E|].
    rewrite Z.pow2_bits_false by done. apply andb_false_r.
Qed.

Lemma testbit_uint16 z n : 0 <= n < 16 -> Z.testbit (uint16 z) n = Z.testbit z n.
Proof. intros. unfold uwrap. apply Z.mod_pow2_bits_low. lia. Qed.

Lemma check_set_flag fl f g :
  0 <= f < 16 -> 0 <= g < 16 ->
  check_flag (set_flag f fl) g = (f =? g) || check_flag fl g.
Proof.
  intros Hf Hg. rewrite !check_flag_testbit by lia. unfold set_flag.
  rewrite testbit_uint16, Z.lor_spec, Z.shiftl_1_l, Z.pow2_bits_eqb by lia.
  apply orb_comm.
Qed.

Lemma check_clear_flag fl f g :
  0 <= f < 16 -> 0 <= g < 16 ->
  check_flag (clear_flag f fl) g = negb (f =? g) && check_flag fl g.
Proof.
  intros Hf Hg. rewrite !check_flag_testbit by lia. unfold clear_flag.
  rewrite testbit_uint16, Z.land_spec, Z.lnot_spec, Z.shiftl_1_l, Z.pow2_bits_eqb by lia.
  apply andb_comm.
Qed.

Lemma set_flag_range f fl : in_unsigned 16 (set_flag f fl).
Proof. apply uwrap_range. lia. Qed.

Lemma iterating_flag_new a :
  checkActionFlag (newMessage a) iteration_requested_flag = false.
Proof. reflexivity. Qed.
End ActionMessageFacts.
