(* ===== verification/Wire.v ===== *)
(** * The byte format of action messages

    Models the serialization half of [src/helics/core/ActionMessage.cpp]:
    [toByteArray], [fromByteArray], [packetize], [depacketize] and their
    wrappers, plus [appendMessage].  A [std::string] of the code is a [string];
    a region of memory is the list of its bytes, and reading past its end is
    an outcome of its own, as is an exception. *)

From Stdlib Require Import Strings.Byte.
From S2P Require Import Prelude HTime Identifiers CoreData ActionMessage.

(** ** Bytes *)

Definition Z_of_byte (b : byte) : Z := Z.of_N (Byte.to_N b).
Definition byte_of_Z (z : Z) : byte := default x00 (Byte.of_N (Z.to_N (z mod 256))).

Fixpoint le_bytes (n : nat) (z : Z) : list byte :=
  match n with
  | O => []
  | S n' => byte_of_Z z :: le_bytes n' (z / 256)
  end.

Fixpoint le_value (bs : list byte) : Z :=
  match bs with
  | [] => 0
  | b :: bs' => Z_of_byte b + 256 * le_value bs'
  end.

(** ** Outcomes of code that reads raw memory *)

Inductive outcome (A : Type) :=
  | Done (a : A)
  | Throws (what : string)
  | OutOfBounds
  | OutOfFuel.
Arguments Done {A} a.
Arguments Throws {A} what.
Arguments OutOfBounds {A}.
Arguments OutOfFuel {A}.

Definition obind {A B} (o : outcome A) (k : A -> outcome B) : outcome B :=
  match o with
  | Done a => k a
  | Throws w => Throws w
  | OutOfBounds => OutOfBounds
  | OutOfFuel => OutOfFuel
  end.

Notation "'let?' x ':=' e 'in' k" := (obind e (fun x => k))
  (at level 200, x strict pattern, e at level 100, right associativity) : helics_scope.

(** [memcpy] of [n] bytes from the cursor, which advances *)
Definition read (n : Z) (mem : list byte) : outcome (list byte * list byte) :=
  if n <=? Z.of_nat (length mem) then Done (take (Z.to_nat n) mem, drop (Z.to_nat n) mem)
  else OutOfBounds.

Definition byte_at (i : nat) (mem : list byte) : outcome Z :=
  match mem !! i with
  | Some b => Done (Z_of_byte b)
  | None => OutOfBounds
  end.

Definition LEADING_CHAR : Z := 0xF3.
Definition TAIL_CHAR1 : Z := 0xFA.
Definition TAIL_CHAR2 : Z := 0xFC.

Section Wire.
Context `{Platform}.

(** an [n]-byte integer in the memory of the host, and read from it *)
Definition host_bytes (n : nat) (z : Z) : list byte :=
  if isLittleEndian then le_bytes n z else rev (le_bytes n z).
Definition host_unsigned (bs : list byte) : Z :=
  if isLittleEndian then le_value bs else le_value (rev bs).
Definition host_signed (bs : list byte) : Z :=
  swrap (8 * Z.of_nat (length bs)) (host_unsigned bs).

(** [swap_bytes<n>] on an object in place *)
Definition swap_unsigned (n : nat) (z : Z) : Z := host_unsigned (rev (host_bytes n z)).
Definition swap_signed (n : nat) (z : Z) : Z := host_signed (rev (host_bytes n z)).

(** the value of a [char] as an [int] *)
Definition char_value (z : Z) : Z := if char_is_signed then swrap 8 z else z.

(** *** Writing *)

Definition string_bytes (str : string) : list byte := String.list_byte_of_string str.
Definition size (str : string) : Z := Z.of_nat (length (string_bytes str)).

Definition serializedByteCount (m : ActionMessage) : Z :=
  let sz := int32 (45 + int32 (size (payload m))) in
  let sz := if bool_decide (messageAction m = cmd_time_request) then int32 (sz + 24) else sz in
  fold_left (fun acc str => int32 (acc + (int32 (int32 (size str) + 4)))) (stringData m) sz.

Definition payload_size (m : ActionMessage) : Z :=
  Z.land (uint32 (size (payload m))) 0x00FFFFFF.

Definition write_string (str : string) : list byte :=
  host_bytes 4 (uint32 (size str)) ++ string_bytes str.

Definition write_strings (m : ActionMessage) : list byte :=
  match stringData m with
  | [] => [byte_of_Z 0]
  | strs => byte_of_Z (uint8 (Z.of_nat (length strs))) :: concat (write_string <$> strs)
  end.

Definition write_times (m : ActionMessage) : list byte :=
  if bool_decide (messageAction m = cmd_time_request)
  then host_bytes 8 (Te m) ++ host_bytes 8 (Tdemin m) ++ host_bytes 8 (Tso m)
  else [].

Definition write_message (m : ActionMessage) : list byte :=
  let ssize := payload_size m in
  [byte_of_Z (if isLittleEndian then 1 else 0); byte_of_Z (Z.shiftr ssize 16);
   byte_of_Z (Z.land (Z.shiftr ssize 8) 0xFF); byte_of_Z (Z.land ssize 0xFF)] ++
  host_bytes 4 (action_code (messageAction m)) ++ host_bytes 4 (messageID m) ++
  host_bytes 4 (source_id m) ++ host_bytes 4 (source_handle m) ++
  host_bytes 4 (dest_id m) ++ host_bytes 4 (dest_handle m) ++
  host_bytes 2 (counter m) ++ host_bytes 2 (flags m) ++ host_bytes 4 (sequenceID m) ++
  host_bytes 8 (actionTime m) ++ write_times m ++
  take (Z.to_nat ssize) (string_bytes (payload m)) ++ write_strings m.

(** [None] is the error return -1; otherwise the bytes put in the buffer *)
Definition toByteArray (m : ActionMessage) (buffer_size : Z) : option (list byte) :=
  if (buffer_size =? 0) || (buffer_size <? serializedByteCount m) then None
  else Some (write_message m).

(** The string is resized to the computed count, then written into; what is
    not written keeps the zeros of [resize].  (A count that overflowed to a
    negative [int], for strings of 2 GiB, would make [resize] throw.) *)
Definition to_string (m : ActionMessage) : list byte :=
  let sz := serializedByteCount m in
  resize (Z.to_nat sz) x00 (default [] (toByteArray m sz)).

Definition packetize (m : ActionMessage) : list byte :=
  let body := to_string m in
  let dsz := uint32 (Z.of_nat (length body) + 4) in
  [byte_of_Z LEADING_CHAR; byte_of_Z (Z.land (Z.shiftr dsz 16) 0xFF);
   byte_of_Z (Z.land (Z.shiftr dsz 8) 0xFF); byte_of_Z (Z.land dsz 0xFF)] ++
  body ++ [byte_of_Z TAIL_CHAR1; byte_of_Z TAIL_CHAR2].

(** *** Reading *)

Definition invalidate (m : ActionMessage) : ActionMessage := m <| messageAction := cmd_invalid |>.

(** The loop over the strings: [Done (false, ...)] is the early return with
    an invalid command, the strings read so far being assigned. *)
Fixpoint read_strings (swap : bool) (buffer_size : Z) (todo ii : nat) (tsize : Z)
    (mem : list byte) (strs : list string) : outcome (bool * Z * list string) :=
  match todo with
  | O => Done (true, tsize, strs)
  | S todo' =>
      let? (lenb, mem) := read 4 mem in
      let ssize := host_unsigned lenb in
      let ssize := if swap then swap_unsigned 4 ssize else ssize in
      let tsize := int32 (tsize + ssize) in
      if buffer_size <? tsize then Done (false, tsize, strs)
      else
        let? (str, mem) := read ssize mem in
        read_strings swap buffer_size todo' (S ii) tsize mem
          (<[ii := String.string_of_list_byte str]> strs)
  end.

(** the final byte swaps, on a message from a host of the other byte order;
    [sequenceID] is not among them *)
Definition swap_fields (m : ActionMessage) : ActionMessage :=
  let m := m <| messageID ::= swap_signed 4 |> <| source_id ::= swap_signed 4 |>
             <| source_handle ::= swap_signed 4 |> <| dest_id ::= swap_signed 4 |>
             <| dest_handle ::= swap_signed 4 |> <| counter ::= swap_unsigned 2 |>
             <| flags ::= swap_unsigned 2 |> <| actionTime ::= swap_signed 8 |> in
  if bool_decide (messageAction m = cmd_time_request)
  then m <| Te ::= swap_signed 8 |> <| Tdemin ::= swap_signed 8 |> <| Tso ::= swap_signed 8 |>
  else m.

(** the rest of [fromByteArray] from the payload on *)
Definition read_tail (m : ActionMessage) (swap : bool) (buffer_size sz tsize : Z)
    (mem : list byte) : outcome (Z * ActionMessage) :=
  let? (m, mem) :=
    (if 0 <? sz then
       let? (bs, mem) := read sz mem in
       Done (m <| payload := String.string_of_list_byte bs |>, mem)
     else Done (m, mem)) in
  let? (cb, mem) := read 1 mem in
  let stringCount := char_value (le_value cb) in
  if negb (stringCount =? 0) then
    if stringCount <? 0 then Throws "std::length_error"
    else
      let strs := resize (Z.to_nat stringCount) ""%string (stringData m) in
      let tsize := int32 (tsize + 4 * stringCount) in
      if buffer_size <? tsize then Done (0, invalidate (m <| stringData := strs |>))
      else
        let? (ok, tsize, strs) :=
          read_strings swap buffer_size (Z.to_nat stringCount) 0 tsize mem strs in
        let m := m <| stringData := strs |> in
        if negb ok then Done (0, invalidate m)
        else Done (tsize, if swap then swap_fields m else m)
  else
    let m := m <| stringData := [] |> in
    Done (tsize, if swap then swap_fields m else m).

(** [fromByteArray] after the packet check: [mem] starts at [data] *)
Definition read_plain (m : ActionMessage) (mem : list byte) (buffer_size : Z)
    : outcome (Z * ActionMessage) :=
  let? b0 := byte_at 0 mem in
  let? b1 := byte_at 1 mem in
  let? b2 := byte_at 2 mem in
  let? b3 := byte_at 3 mem in
  let sz := 256 * 256 * b1 + 256 * b2 + b3 in
  let tsize := 45 + sz in
  if buffer_size <? tsize then Done (0, invalidate m)
  else
    let swap := negb (b0 =? (if isLittleEndian then 1 else 0)) in
    let? (act, mem) := read 4 (drop 4 mem) in
    let code := if swap then swap_signed 4 (host_signed act) else host_signed act in
    let m := m <| messageAction := action_of_code code |> in
    let? (f, mem) := read 4 mem in let m := m <| messageID := host_signed f |> in
    let? (f, mem) := read 4 mem in let m := m <| source_id := host_signed f |> in
    let? (f, mem) := read 4 mem in let m := m <| source_handle := host_signed f |> in
    let? (f, mem) := read 4 mem in let m := m <| dest_id := host_signed f |> in
    let? (f, mem) := read 4 mem in let m := m <| dest_handle := host_signed f |> in
    let? (f, mem) := read 2 mem in let m := m <| counter := host_unsigned f |> in
    let? (f, mem) := read 2 mem in let m := m <| flags := host_unsigned f |> in
    let? (f, mem) := read 4 mem in let m := m <| sequenceID := host_unsigned f |> in
    let? (f, mem) := read 8 mem in let m := m <| actionTime := host_signed f |> in
    if bool_decide (messageAction m = cmd_time_request) then
      let tsize := tsize + 24 in
      if buffer_size <? tsize then Done (0, invalidate m)
      else
        let? (f, mem) := read 8 mem in let m := m <| Te := host_signed f |> in
        let? (f, mem) := read 8 mem in let m := m <| Tdemin := host_signed f |> in
        let? (f, mem) := read 8 mem in let m := m <| Tso := host_signed f |> in
        read_tail m swap buffer_size sz tsize mem
    else
      let m := m <| Te := T.timeZero |> <| Tdemin := T.timeZero |> <| Tso := T.timeZero |> in
      read_tail m swap buffer_size sz tsize mem.

(** [depacketize], given how to read the message inside the packet *)
Definition depacketize_with
    (inner : ActionMessage -> list byte -> Z -> outcome (Z * ActionMessage))
    (m : ActionMessage) (mem : list byte) (buffer_size : Z) : outcome (Z * ActionMessage) :=
  let? b0 := byte_at 0 mem in
  if negb (b0 =? LEADING_CHAR) then Done (0, m)
  else if buffer_size <? 6 then Done (0, m)
  else
    let? b1 := byte_at 1 mem in
    let? b2 := byte_at 2 mem in
    let? b3 := byte_at 3 mem in
    let message_size := (b1 * 256 + b2) * 256 + b3 in
    if buffer_size <? message_size + 2 then Done (0, m)
    else
      let? t1 := byte_at (Z.to_nat message_size) mem in
      if negb (t1 =? TAIL_CHAR1) then Done (0, m)
      else
        let? t2 := byte_at (Z.to_nat (message_size + 1)) mem in
        if negb (t2 =? TAIL_CHAR2) then Done (0, m)
        else
          let? (bytesUsed, m) := inner m (drop 4 mem) (int32 (uint32 (message_size - 4))) in
          Done (if 0 <? bytesUsed then message_size + 2 else 0, m).

(** A message may be wrapped in a packet, again and again; each layer is
    shorter than the one around it. *)
Fixpoint fromByteArray_fuel (fuel : nat) (m : ActionMessage) (mem : list byte)
    (buffer_size : Z) : outcome (Z * ActionMessage) :=
  match fuel with
  | O => OutOfFuel
  | S fuel' =>
      if buffer_size <? 45 then Done (0, invalidate m)
      else
        let? b0 := byte_at 0 mem in
        if b0 =? LEADING_CHAR then
          let? (res, m) := depacketize_with (fromByteArray_fuel fuel') m mem buffer_size in
          if 0 <? res then Done (res, m) else read_plain m mem buffer_size
        else read_plain m mem buffer_size
  end.

Definition fromByteArray (m : ActionMessage) (mem : list byte) (buffer_size : Z)
    : outcome (Z * ActionMessage) :=
  fromByteArray_fuel (S (Z.to_nat buffer_size)) m mem buffer_size.

Definition depacketize (m : ActionMessage) (mem : list byte) (buffer_size : Z)
    : outcome (Z * ActionMessage) :=
  depacketize_with fromByteArray m mem buffer_size.

(** [from_string] on the bytes of a string *)
Definition from_string (m : ActionMessage) (bytes : list byte) : outcome ActionMessage :=
  let? (_, m) := fromByteArray m bytes (Z.of_nat (length bytes)) in
  Done m.

(** [appendMessage]: the position after the appended message, or -1 *)
Definition appendMessage (m newMessage : ActionMessage) : Z * ActionMessage :=
  if bool_decide (messageAction m = cmd_multi_message) then
    if counter m <? 255 then
      let m' := m <| counter ::= fun c => uint16 (c + 1) |> in
      match setString (counter m) (String.string_of_list_byte (to_string newMessage)) m' with
      | Some m'' => (counter m', m'')
      | None => (-1, m')
      end
    else (-1, m)
  else (-1, m).
End Wire.
