(* ===== verification/WireFacts.v ===== *)
(** * The byte format: correctness

    Reading back what was written, between hosts of the same or of different
    byte order; packets; termination of the reader; and what the reader does
    with inputs that no writer produces. *)

From Stdlib Require Import Strings.Byte.
From S2P Require Import Prelude HTime Identifiers CoreData ActionMessage Wire.

(** ** Bytes *)

Lemma Z_of_byte_range b : 0 <= Z_of_byte b < 256.
Proof. unfold Z_of_byte. pose proof (Byte.to_N_bounded b). lia. Qed.

Lemma Z_of_byte_of_Z z : Z_of_byte (byte_of_Z z) = z mod 256.
Proof.
  unfold byte_of_Z, Z_of_byte.
  pose proof (Z.mod_pos_bound z 256 ltac:(lia)) as B.
  destruct (Byte.of_N (Z.to_N (z mod 256))) as [b|] eqn:E; cbn.
  - apply Byte.to_of_N in E. rewrite E. lia.
  - apply Byte.of_N_None_iff in E. lia.
Qed.

Lemma byte_of_Z_of_byte b : byte_of_Z (Z_of_byte b) = b.
Proof.
  unfold byte_of_Z. pose proof (Z_of_byte_range b). rewrite Z.mod_small by done.
  unfold Z_of_byte. rewrite N2Z.id, Byte.of_to_N. done.
Qed.

Lemma byte_of_Z_mod z : byte_of_Z (z mod 256) = byte_of_Z z.
Proof. unfold byte_of_Z. by rewrite Z.mod_mod by lia. Qed.

Lemma length_le_bytes n z : length (le_bytes n z) = n.
Proof. revert z. induction n as [|n IH]; intros z; cbn; [done|]. by rewrite IH. Qed.

Lemma le_value_bytes n z : le_value (le_bytes n z) = z mod 2 ^ (8 * Z.of_nat n).
Proof.
  revert z. induction n as [|n IH]; intros z; cbn [le_bytes le_value].
  { by rewrite Z.mod_1_r. }
  rewrite IH, Z_of_byte_of_Z.
  replace (8 * Z.of_nat (S n)) with (8 + 8 * Z.of_nat n) by lia.
  rewrite Z.pow_add_r by lia. change (2 ^ 8) with 256.
  rewrite Z.rem_mul_r by (try apply Z.pow_nonzero; lia). done.
Qed.

Lemma le_bytes_value bs : le_bytes (length bs) (le_value bs) = bs.
Proof.
  induction bs as [|b bs IH]; cbn [length le_bytes le_value]; [done|].
  pose proof (Z_of_byte_range b) as B.
  rewrite <- byte_of_Z_mod, (Z.mul_comm 256), Z.mod_add, Z.mod_small, byte_of_Z_of_byte by lia.
  rewrite Z.div_add, Z.div_small, Z.add_0_l by lia. by rewrite IH.
Qed.

Lemma le_bytes_mod n z : le_bytes n (z mod 2 ^ (8 * Z.of_nat n)) = le_bytes n z.
Proof.
  rewrite <- le_value_bytes. rewrite <- (length_le_bytes n z) at 1. apply le_bytes_value.
Qed.

Lemma le_value_range bs : 0 <= le_value bs < 2 ^ (8 * Z.of_nat (length bs)).
Proof.
  rewrite <- (le_bytes_value bs) at 1 2. rewrite le_value_bytes.
  apply Z.mod_pos_bound, Z.pow_pos_nonneg; lia.
Qed.

Section Host.
Context {P : Platform}.

Lemma length_host_bytes n z : length (host_bytes n z) = n.
Proof. unfold host_bytes. case_if; rewrite ?length_rev; apply length_le_bytes. Qed.

Lemma host_unsigned_bytes n z : host_unsigned (host_bytes n z) = z mod 2 ^ (8 * Z.of_nat n).
Proof.
  unfold host_unsigned, host_bytes. case_if; rewrite ?rev_involutive; apply le_value_bytes.
Qed.

Lemma host_bytes_unsigned bs : host_bytes (length bs) (host_unsigned bs) = bs.
Proof.
  unfold host_unsigned, host_bytes. case_if; [apply le_bytes_value|].
  rewrite <- (length_rev bs), le_bytes_value. apply rev_involutive.
Qed.

Lemma host_bytes_mod n z : host_bytes n (z mod 2 ^ (8 * Z.of_nat n)) = host_bytes n z.
Proof. unfold host_bytes. by rewrite le_bytes_mod. Qed.

Lemma host_bytes_signed bs : bs <> [] -> host_bytes (length bs) (host_signed bs) = bs.
Proof.
  intros Hne. unfold host_signed.
  assert (0 < 8 * Z.of_nat (length bs)) by (destruct bs; [done|cbn; lia]).
  rewrite <- host_bytes_mod, swrap_mod, host_bytes_mod by done.
  apply host_bytes_unsigned.
Qed.

Lemma host_signed_bytes n z :
  (0 < n)%nat -> in_signed (8 * Z.of_nat n) z -> host_signed (host_bytes n z) = z.
Proof.
  intros Hn Hz. unfold host_signed. rewrite length_host_bytes, host_unsigned_bytes.
  rewrite (swrap_congr _ _ z), swrap_id by (lia || done || (apply Z.mod_mod, Z.pow_nonzero; lia)).
  done.
Qed.

Lemma host_unsigned_small n z :
  in_unsigned (8 * Z.of_nat n) z -> host_unsigned (host_bytes n z) = z.
Proof. intros Hz. rewrite host_unsigned_bytes. by apply Z.mod_small. Qed.

Lemma char_value_small z : 0 <= z < 128 -> char_value z = z.
Proof.
  intros Hz. unfold char_value. case_if; [|done].
  apply swrap_id; [lia|]. unfold in_signed. lia.
Qed.
End Host.

(** ** Between two hosts

    [P1] writes and [P2] reads; the reader swaps when the byte orders differ. *)

Section TwoHosts.
Context (P1 P2 : Platform).

Definition orders_differ : bool := negb (eqb (@isLittleEndian P1) (@isLittleEndian P2)).

Lemma swapped_host bs :
  orders_differ = true -> @host_unsigned P2 (rev bs) = @host_unsigned P1 bs.
Proof.
  unfold orders_differ, host_unsigned.
  destruct (@isLittleEndian P1), (@isLittleEndian P2); cbn; try done;
    by rewrite ?rev_involutive.
Qed.

Lemma same_host bs :
  orders_differ = false -> @host_unsigned P2 bs = @host_unsigned P1 bs.
Proof.
  unfold orders_differ, host_unsigned.
  destruct (@isLittleEndian P1), (@isLittleEndian P2); cbn; done.
Qed.

Definition unswap_signed (n : nat) (z : Z) : Z :=
  if orders_differ then @swap_signed P2 n z else z.
Definition unswap_unsigned (n : nat) (z : Z) : Z :=
  if orders_differ then @swap_unsigned P2 n z else z.

Lemma signed_between n z :
  (0 < n)%nat -> in_signed (8 * Z.of_nat n) z ->
  unswap_signed n (@host_signed P2 (@host_bytes P1 n z)) = z.
Proof.
  intros Hn Hz. unfold unswap_signed.
  pose proof (@length_host_bytes P1 n z) as L.
  assert (@host_bytes P1 n z <> []) as Hne by (intros E; rewrite E in L; cbn in L; lia).
  destruct orders_differ eqn:E.
  - unfold swap_signed. rewrite <- L at 1. rewrite (@host_bytes_signed P2) by done.
    unfold host_signed. rewrite length_rev, (swapped_host _ E).
    apply (@host_signed_bytes P1 n z Hn Hz).
  - unfold host_signed. rewrite (same_host _ E). apply (@host_signed_bytes P1 n z Hn Hz).
Qed.

Lemma unsigned_between n z :
  in_unsigned (8 * Z.of_nat n) z ->
  unswap_unsigned n (@host_unsigned P2 (@host_bytes P1 n z)) = z.
Proof.
  intros Hz. unfold unswap_unsigned.
  pose proof (@length_host_bytes P1 n z) as L.
  destruct orders_differ eqn:E.
  - unfold swap_unsigned. rewrite <- L at 1. rewrite (@host_bytes_unsigned P2).
    rewrite (swapped_host _ E). by apply host_unsigned_small.
  - rewrite (same_host _ E). by apply host_unsigned_small.
Qed.
End TwoHosts.

(** ** Reading what was written *)

Lemma read_app n bs rest : Z.of_nat (length bs) = n -> read n (bs ++ rest) = Done (bs, rest).
Proof.
  intros <-. unfold read. rewrite length_app, Nat2Z.id.
  destruct (Z.leb_spec (Z.of_nat (length bs)) (Z.of_nat (length bs + length rest))); [|lia].
  by rewrite take_app_length, drop_app_length.
Qed.

Lemma read_host `{P : Platform} k n z rest :
  k = Z.of_nat n -> read k (host_bytes n z ++ rest) = Done (host_bytes n z, rest).
Proof. intros ->. apply read_app. by rewrite length_host_bytes. Qed.

(** *** Sizes *)

Fixpoint strings_size (strs : list string) : Z :=
  match strs with
  | [] => 0
  | str :: strs' => size str + strings_size strs'
  end.

Definition times_size (m : ActionMessage) : Z :=
  if bool_decide (messageAction m = cmd_time_request) then 24 else 0.

(** the size of a serialized message, without machine arithmetic *)
Definition wire_size (m : ActionMessage) : Z :=
  45 + size (payload m) + times_size m + 4 * Z.of_nat (length (stringData m)) +
  strings_size (stringData m).

Lemma size_nonneg str : 0 <= size str.
Proof. unfold size. lia. Qed.

Lemma strings_size_nonneg strs : 0 <= strings_size strs.
Proof. induction strs as [|str strs IH]; cbn [strings_size]; [done|]. pose proof (size_nonneg str). lia. Qed.

Lemma times_size_nonneg m : 0 <= times_size m.
Proof. unfold times_size. case_if; lia. Qed.

Lemma int32_id z : in_signed 32 z -> int32 z = z.
Proof. intros Hz. apply swrap_id; [lia|done]. Qed.

(** Drop the wrap-arounds that do not wrap, innermost first. *)
Ltac int32_exact :=
  repeat match goal with
  | |- context [int32 ?z] =>
      lazymatch z with
      | context [int32 _] => fail
      | _ => rewrite (int32_id z) by (unfold in_signed; lia)
      end
  end.

Lemma byte_count_fold strs acc :
  0 <= acc -> acc + 4 * Z.of_nat (length strs) + strings_size strs < 2 ^ 31 ->
  fold_left (fun acc str => int32 (acc + int32 (int32 (size str) + 4))) strs acc =
  acc + 4 * Z.of_nat (length strs) + strings_size strs.
Proof.
  revert acc. induction strs as [|str strs IH]; intros acc Ha; cbn [fold_left length strings_size].
  { lia. }
  pose proof (size_nonneg str). pose proof (strings_size_nonneg strs).
  intros Hb.
  int32_exact. rewrite IH by lia. lia.
Qed.

(** The computed count is the size, as long as the size fits an [int]. *)
Lemma serializedByteCount_exact m :
  wire_size m < 2 ^ 31 -> serializedByteCount m = wire_size m.
Proof.
  unfold wire_size, serializedByteCount, times_size. intros Hs.
  pose proof (size_nonneg (payload m)). pose proof (strings_size_nonneg (stringData m)).
  case_bool_decide; int32_exact; rewrite byte_count_fold; lia.
Qed.

(** What a message must satisfy to be transmitted unchanged. *)
Record wire_ok (m : ActionMessage) : Prop := {
  ok_action : action_of_code (action_code (messageAction m)) = messageAction m;
  ok_code : in_signed 32 (action_code (messageAction m));
  ok_messageID : in_signed 32 (messageID m);
  ok_source_id : in_signed 32 (source_id m);
  ok_source_handle : in_signed 32 (source_handle m);
  ok_dest_id : in_signed 32 (dest_id m);
  ok_dest_handle : in_signed 32 (dest_handle m);
  ok_counter : in_unsigned 16 (counter m);
  ok_flags : in_unsigned 16 (flags m);
  ok_sequenceID : in_unsigned 32 (sequenceID m);
  ok_actionTime : in_signed 64 (actionTime m);
  ok_Te : in_signed 64 (Te m);
  ok_Tdemin : in_signed 64 (Tdemin m);
  ok_Tso : in_signed 64 (Tso m);
  ok_payload : size (payload m) < 2 ^ 24;
  ok_strings : (length (stringData m) < 128)%nat;
  ok_size : wire_size m < 2 ^ 31;
}.

Lemma payload_size_exact m : size (payload m) < 2 ^ 24 -> payload_size m = size (payload m).
Proof.
  intros Hp. pose proof (size_nonneg (payload m)). unfold payload_size.
  rewrite uwrap_id by (unfold in_unsigned; lia).
  change 0x00FFFFFF with (Z.ones 24). rewrite Z.land_ones by lia. apply Z.mod_small. lia.
Qed.

Section Lengths.
Context `{P : Platform}.

Lemma length_write_strings strs :
  Z.of_nat (length (concat (write_string <$> strs))) =
  4 * Z.of_nat (length strs) + strings_size strs.
Proof.
  induction strs as [|str strs IH]; cbn [fmap list_fmap concat length strings_size]; [done|].
  unfold write_string at 1. rewrite !length_app, length_host_bytes.
  unfold size. lia.
Qed.

Lemma length_write_message m :
  size (payload m) < 2 ^ 24 -> Z.of_nat (length (write_message m)) = wire_size m.
Proof.
  intros Hp. unfold write_message, wire_size. rewrite (payload_size_exact m Hp).
  assert (take (Z.to_nat (size (payload m))) (string_bytes (payload m)) = string_bytes (payload m))
    as -> by (unfold size; rewrite Nat2Z.id; apply firstn_all).
  assert (Z.of_nat (length (write_times m)) = times_size m) as Ht.
  { unfold write_times, times_size. case_if; [|done].
    rewrite !length_app, !length_host_bytes. done. }
  assert (Z.of_nat (length (write_strings m)) =
          1 + 4 * Z.of_nat (length (stringData m)) + strings_size (stringData m)) as Hw.
  { unfold write_strings. pose proof (length_write_strings (stringData m)).
    destruct (stringData m) as [|str strs]; [done|]. cbn [length] in *. lia. }
  rewrite !length_app, !length_host_bytes. cbn [length]. unfold size in *. lia.
Qed.

Lemma to_string_exact m :
  size (payload m) < 2 ^ 24 -> wire_size m < 2 ^ 31 -> to_string m = write_message m.
Proof.
  intros Hp Hs. pose proof (length_write_message m Hp) as L.
  pose proof (size_nonneg (payload m)). pose proof (strings_size_nonneg (stringData m)).
  pose proof (times_size_nonneg m).
  unfold to_string, toByteArray. rewrite serializedByteCount_exact by done.
  assert (45 <= wire_size m) by (unfold wire_size; lia).
  destruct (Z.eqb_spec (wire_size m) 0); [lia|].
  rewrite Z.ltb_irrefl. cbn. rewrite <- L, Nat2Z.id. apply resize_all_alt. done.
Qed.

Lemma to_string_eq m : wire_ok m -> to_string m = write_message m.
Proof. intros Hok. apply to_string_exact; apply Hok. Qed.
End Lengths.

(** *** The strings *)

Section Strings.
Context (P1 P2 : Platform).

Lemma read_strings_written bufsz todo ii tsize rest acc :
  length acc = (ii + length todo)%nat ->
  0 <= tsize -> tsize + strings_size todo <= bufsz < 2 ^ 31 ->
  @read_strings P2 (orders_differ P1 P2) bufsz (length todo) ii tsize
    (concat (@write_string P1 <$> todo) ++ rest) acc =
  Done (true, tsize + strings_size todo, take ii acc ++ todo).
Proof.
  revert ii tsize acc. induction todo as [|str todo IH]; intros ii tsize acc Hl Ht Hb.
  { cbn. rewrite app_nil_r, firstn_all2, Z.add_0_r by (cbn in Hl; lia). done. }
  cbn [length read_strings fmap list_fmap concat strings_size] in *.

  pose proof (size_nonneg str) as Hn. pose proof (strings_size_nonneg todo) as Hn'.
  unfold write_string at 1. rewrite <- !app_assoc.
  rewrite (@read_host P1) by reflexivity. cbn [obind].
  assert (in_unsigned (8 * Z.of_nat 4) (uint32 (size str))) as Hu.
  { rewrite uwrap_id; unfold in_unsigned; lia. }
  pose proof (unsigned_between P1 P2 4 (uint32 (size str)) Hu) as E.
  unfold unswap_unsigned in E. rewrite E. rewrite uwrap_id by (unfold in_unsigned; lia).
  rewrite int32_id by (unfold in_signed; lia).
  destruct (Z.ltb_spec bufsz (tsize + size str)); [lia|].
  rewrite read_app by done. cbn [obind].
  unfold string_bytes at 1. rewrite String.string_of_list_byte_of_string.
  rewrite IH by (rewrite ?length_insert; lia). rewrite <- Z.add_assoc.
  rewrite (take_S_r _ _ str), take_insert_ge, <- app_assoc by
    (try apply list_lookup_insert_eq; lia).
  done.
Qed.
End Strings.

(** *** The whole message *)

(** What arrives: the extra times only travel with a time request, and the
    sequence number is not converted between byte orders. *)
Definition received (P1 P2 : Platform) (m : ActionMessage) : ActionMessage :=
  let m := if bool_decide (messageAction m = cmd_time_request) then m
           else m <| Te := T.timeZero |> <| Tdemin := T.timeZero |> <| Tso := T.timeZero |> in
  m <| sequenceID := @host_unsigned P2 (@host_bytes P1 4 (sequenceID m)) |>.

Section RoundTrip.
Context (P1 P2 : Platform).

Lemma header_size ssize :
  0 <= ssize < 2 ^ 24 ->
  256 * 256 * Z_of_byte (byte_of_Z (Z.shiftr ssize 16)) +
  256 * Z_of_byte (byte_of_Z (Z.land (Z.shiftr ssize 8) 0xFF)) +
  Z_of_byte (byte_of_Z (Z.land ssize 0xFF)) = ssize.
Proof.
  intros Hs. rewrite !Z_of_byte_of_Z. change 0xFF with (Z.ones 8).
  rewrite !Z.land_ones, !Z.shiftr_div_pow2 by lia.
  change (2 ^ 16) with 65536. change (2 ^ 8) with 256. change (2 ^ 24) with 16777216 in Hs.
  rewrite !Z.mod_mod by lia. Z.to_euclidean_division_equations. lia.
Qed.

Lemma string_bytes_nil str : size str = 0 -> str = ""%string.
Proof.
  unfold size, string_bytes. intros H0.
  rewrite <- (String.string_of_list_byte_of_string str).
  destruct (String.list_byte_of_string str); [done|cbn in H0; lia].
Qed.

(** the payload and the strings, into a partly filled message [r] *)
Lemma read_tail_written m r rest :
  wire_ok m -> payload m <> ""%string \/ payload r = ""%string ->
  @read_tail P2 r (orders_differ P1 P2) (wire_size m) (size (payload m))
    (45 + size (payload m) + times_size m)
    (string_bytes (payload m) ++ @write_strings P1 m ++ rest) =
  Done (wire_size m,
        let r' := r <| payload := payload m |> <| stringData := stringData m |> in
        if orders_differ P1 P2 then @swap_fields P2 r' else r').
Proof.
  intros Hok Hp. pose proof (ok_payload m Hok). pose proof (ok_strings m Hok). pose proof (ok_size m Hok).
  pose proof (size_nonneg (payload m)) as Hn. pose proof (times_size_nonneg m) as Ht.
  pose proof (strings_size_nonneg (stringData m)) as Hn'.
  unfold read_tail.
  assert ((if 0 <? size (payload m) then
             let? (bs, mem) := read (size (payload m))
                 (string_bytes (payload m) ++ @write_strings P1 m ++ rest) in
             Done (r <| payload := String.string_of_list_byte bs |>, mem)
           else Done (r, string_bytes (payload m) ++ @write_strings P1 m ++ rest)) =
          Done (r <| payload := payload m |>, @write_strings P1 m ++ rest)) as ->.
  { destruct (Z.ltb_spec 0 (size (payload m))).
    - rewrite read_app by done. cbn [obind].
      unfold string_bytes at 1. by rewrite String.string_of_list_byte_of_string.
    - pose proof (string_bytes_nil (payload m) ltac:(lia)) as E. rewrite E in *.
      destruct Hp as [|E']; [done|]. cbn in *. destruct r. cbn in *. by subst. }
  cbn [obind]. unfold write_strings, wire_size in *.
  destruct (stringData m) as [|str strs] eqn:Es.
  - rewrite read_app by done. cbn [obind le_value]. rewrite Z_of_byte_of_Z.
    rewrite char_value_small by done. cbn [Z.eqb negb Z.modulo Z.add]. cbn.
    do 2 f_equal. lia.
  - cbn [app]. change (?a :: ?b ++ rest) with ([a] ++ b ++ rest).
    rewrite read_app by done. cbn [obind le_value]. rewrite Z_of_byte_of_Z.
    rewrite Z.mul_0_r, Z.add_0_r.
    set (n := Z.of_nat (length (str :: strs))) in *.
    assert (0 < n < 128) by (subst n; cbn [length] in *; lia).
    rewrite uwrap_id by (unfold in_unsigned; lia).
    rewrite Z.mod_small, char_value_small by lia.
    destruct (Z.eqb_spec n 0); [lia|]. cbn [negb].
    destruct (Z.ltb_spec n 0); [lia|].
    rewrite int32_id by (unfold in_signed; lia).
    destruct (Z.ltb_spec (45 + size (payload m) + times_size m + 4 * n + strings_size (str :: strs))
                (45 + size (payload m) + times_size m + 4 * n)); [lia|].
    replace (Z.to_nat n) with (length (str :: strs)) by (subst n; lia).
    rewrite (read_strings_written P1 P2) by (rewrite ?length_resize; lia).
    cbn [obind negb take app]. done.
Qed.

Definition marker : byte := byte_of_Z (if @isLittleEndian P1 then 1 else 0).

Lemma marker_differs :
  negb (Z_of_byte marker =? (if @isLittleEndian P2 then 1 else 0)) = orders_differ P1 P2.
Proof.
  unfold marker, orders_differ. rewrite Z_of_byte_of_Z.
  destruct (@isLittleEndian P1), (@isLittleEndian P2); done.
Qed.

(** a filled message, before the final byte swaps *)
Definition raw_fields (m0 m : ActionMessage) : ActionMessage :=
  let rs n z := @host_signed P2 (@host_bytes P1 n z) in
  let ru n z := @host_unsigned P2 (@host_bytes P1 n z) in
  let tr := bool_decide (messageAction m = cmd_time_request) in
  mkActionMessage (messageAction m) (rs 4%nat (messageID m)) (rs 4%nat (source_id m))
    (rs 4%nat (source_handle m)) (rs 4%nat (dest_id m)) (rs 4%nat (dest_handle m))
    (ru 2%nat (counter m)) (ru 2%nat (flags m)) (ru 4%nat (sequenceID m))
    (rs 8%nat (actionTime m)) (payload m0)
    (if tr then rs 8%nat (Te m) else 0) (if tr then rs 8%nat (Tdemin m) else 0)
    (if tr then rs 8%nat (Tso m) else 0) (stringData m0).

(** swapping restores every field but the sequence number *)
Lemma raw_fields_received m0 m :
  wire_ok m ->
  (let r' := (raw_fields m0 m) <| payload := payload m |> <| stringData := stringData m |> in
   if orders_differ P1 P2 then @swap_fields P2 r' else r') = received P1 P2 m.
Proof.
  intros Hok.
  assert (forall n z, (0 < n)%nat -> in_signed (8 * Z.of_nat n) z ->
    (if orders_differ P1 P2 then @swap_signed P2 n (@host_signed P2 (@host_bytes P1 n z))
     else @host_signed P2 (@host_bytes P1 n z)) = z) as Hs by apply signed_between.
  assert (forall n z, in_unsigned (8 * Z.of_nat n) z ->
    (if orders_differ P1 P2 then @swap_unsigned P2 n (@host_unsigned P2 (@host_bytes P1 n z))
     else @host_unsigned P2 (@host_bytes P1 n z)) = z) as Hu by apply unsigned_between.
  unfold received, swap_fields, raw_fields.
  destruct Hok.
  destruct (orders_differ P1 P2); cbn; case_bool_decide; destruct m; cbn in *; f_equal;
    first [done | by apply Hs; [lia|] | by apply Hu].
Qed.

(** One read of the message: the bytes are there, and the assigned field of
    an explicit message is replaced at once. *)
Ltac read_field :=
  rewrite (@read_host P1) by reflexivity;
  cbn [obind modify messageAction messageID source_id source_handle dest_id dest_handle counter
       flags sequenceID actionTime payload Te Tdemin Tso stringData].

(** the bytes of a message up to the count of its strings *)
Definition write_head (m : ActionMessage) : list byte :=
  let ssize := payload_size m in
  [byte_of_Z (if @isLittleEndian P1 then 1 else 0); byte_of_Z (Z.shiftr ssize 16);
   byte_of_Z (Z.land (Z.shiftr ssize 8) 0xFF); byte_of_Z (Z.land ssize 0xFF)] ++
  @host_bytes P1 4 (action_code (messageAction m)) ++ @host_bytes P1 4 (messageID m) ++
  @host_bytes P1 4 (source_id m) ++ @host_bytes P1 4 (source_handle m) ++
  @host_bytes P1 4 (dest_id m) ++ @host_bytes P1 4 (dest_handle m) ++
  @host_bytes P1 2 (counter m) ++ @host_bytes P1 2 (flags m) ++
  @host_bytes P1 4 (sequenceID m) ++ @host_bytes P1 8 (actionTime m) ++ @write_times P1 m ++
  take (Z.to_nat ssize) (string_bytes (payload m)).

Lemma write_message_head m : @write_message P1 m = write_head m ++ @write_strings P1 m.
Proof. unfold write_message, write_head. by rewrite <- !app_assoc. Qed.

Lemma length_write_head m :
  size (payload m) < 2 ^ 24 ->
  Z.of_nat (length (write_head m)) = 44 + size (payload m) + times_size m.
Proof.
  intros Hpay. pose proof (size_nonneg (payload m)). unfold write_head.
  rewrite payload_size_exact by done.
  rewrite !length_app, !length_host_bytes, length_take. cbn [length].
  unfold write_times, times_size, size in *.
  case_bool_decide; rewrite ?length_app, ?length_host_bytes; cbn [length]; lia.
Qed.

(** the fixed part of the message, up to the payload, whatever follows it *)
Lemma read_plain_fixed m m0 tail n :
  action_of_code (action_code (messageAction m)) = messageAction m ->
  in_signed 32 (action_code (messageAction m)) ->
  size (payload m) < 2 ^ 24 -> 45 + size (payload m) + times_size m <= n ->
  @read_plain P2 m0 (write_head m ++ tail) n =
  @read_tail P2 (raw_fields m0 m) (orders_differ P1 P2) n (size (payload m))
    (45 + size (payload m) + times_size m) (string_bytes (payload m) ++ tail).
Proof.
  intros Hact Hcode Hpay Hn.
  pose proof (size_nonneg (payload m)) as Hn0. pose proof (times_size_nonneg m) as Ht.
  unfold read_plain, write_head. rewrite payload_size_exact by done.
  change (byte_of_Z (if @isLittleEndian P1 then 1 else 0)) with marker.
  assert (take (Z.to_nat (size (payload m))) (string_bytes (payload m)) = string_bytes (payload m))
    as -> by (unfold size; rewrite Nat2Z.id; apply firstn_all).
  rewrite <- !app_assoc. cbn [app byte_at lookup list_lookup obind drop].
  rewrite header_size by lia. rewrite marker_differs.
  destruct (Z.ltb_spec n (45 + size (payload m))); [lia|].
  destruct m0 as [x1 x2 x3 x4 x5 x6 x7 x8 x9 x10 x11 x12 x13 x14 x15]. unfold raw_fields.
  rewrite drop_0. read_field.
  pose proof (signed_between P1 P2 4 _ ltac:(lia) Hcode) as E.
  unfold unswap_signed in E. rewrite E, Hact.
  do 9 read_field. unfold write_times, times_size in *.
  destruct (bool_decide (messageAction m = cmd_time_request)) eqn:Eb; cbn [app] in *.
  - rewrite <- !app_assoc.
    destruct (Z.ltb_spec n (45 + size (payload m) + 24)); [lia|].
    do 3 read_field. done.
  - rewrite Z.add_0_r. done.
Qed.

Lemma read_plain_written m m0 rest :
  wire_ok m -> payload m <> ""%string \/ payload m0 = ""%string ->
  @read_plain P2 m0 (@write_message P1 m ++ rest) (wire_size m) =
  Done (wire_size m, received P1 P2 m).
Proof.
  intros Hok Hp. pose proof (strings_size_nonneg (stringData m)).
  rewrite write_message_head, <- app_assoc.
  rewrite read_plain_fixed by (try apply Hok; unfold wire_size; lia).
  rewrite <- (raw_fields_received m0 m Hok). by apply read_tail_written.
Qed.
End RoundTrip.
