(* ===== verification/WireSpec.v ===== *)
(** * The byte format: properties

    The statements about serialization that the rest of the system relies on,
    and the inputs on which the reader does not do what it should. *)

From Stdlib Require Import Strings.Byte.
From S2P Require Import Prelude HTime Identifiers CoreData ActionMessage Wire WireFacts.

(** ** Round trips *)

Lemma byte_at_0 b mem : byte_at 0 (b :: mem) = Done (Z_of_byte b).
Proof. reflexivity. Qed.

Lemma wire_size_min m : 45 <= wire_size m.
Proof.
  pose proof (size_nonneg (payload m)). pose proof (times_size_nonneg m).
  pose proof (strings_size_nonneg (stringData m)). unfold wire_size. lia.
Qed.

Section Plain.
Context (P1 P2 : Platform).

Lemma marker_not_leading : Z_of_byte (marker P1) =? LEADING_CHAR = false.
Proof.
  unfold marker. rewrite Z_of_byte_of_Z. destruct (@isLittleEndian P1); reflexivity.
Qed.

Lemma fromByteArray_fuel_written fuel m m0 rest :
  wire_ok m -> payload m <> ""%string \/ payload m0 = ""%string ->
  @fromByteArray_fuel P2 (S fuel) m0 (@write_message P1 m ++ rest) (wire_size m) =
  Done (wire_size m, received P1 P2 m).
Proof.
  intros Hok Hp. pose proof (wire_size_min m). cbn [fromByteArray_fuel].
  destruct (Z.ltb_spec (wire_size m) 45); [lia|].
  assert (byte_at 0 (@write_message P1 m ++ rest) = Done (Z_of_byte (marker P1))) as ->.
  { unfold write_message. rewrite <- app_assoc. apply byte_at_0. }
  cbn [obind]. rewrite marker_not_leading. by apply read_plain_written.
Qed.

Lemma received_same m :
  orders_differ P1 P2 = false -> wire_ok m -> messageAction m = cmd_time_request ->
  received P1 P2 m = m.
Proof.
  intros Ho Hok Ha. unfold received. rewrite bool_decide_eq_true_2 by done.
  rewrite (same_host P1 P2 _ Ho), host_unsigned_small by apply Hok.
  by destruct m.
Qed.
End Plain.


Definition example_message : ActionMessage :=
  (newMessage cmd_time_request) <| messageID := -5 |> <| source_id := 131073 |>
    <| dest_id := 1879048192 |> <| counter := 7 |> <| flags := 5 |> <| actionTime := T.maxVal |>
    <| payload := "demo" |> <| Te := -77 |> <| Tdemin := 12 |> <| Tso := 3 |>
    <| stringData := ["ab"; ""; "c"]%string |>.

Definition big_endian : Platform := {|
  char_is_signed := false;
  isLittleEndian := false;
  wide_double_to_int := fun _ => 2 ^ 31 - 1;
|}.

Lemma example_message_ok : wire_ok example_message.
Proof.
  split; first [reflexivity | by vm_compute | (vm_compute; split; congruence)
               | (cbn; lia)].
Qed.


(** ** Packets *)

Section Packets.
Context (P1 P2 : Platform).

Lemma packet_bytes m :
  wire_ok m ->
  @packetize P1 m =
  [byte_of_Z LEADING_CHAR; byte_of_Z (Z.land (Z.shiftr (uint32 (wire_size m + 4)) 16) 0xFF);
   byte_of_Z (Z.land (Z.shiftr (uint32 (wire_size m + 4)) 8) 0xFF);
   byte_of_Z (Z.land (uint32 (wire_size m + 4)) 0xFF)] ++
  @write_message P1 m ++ [byte_of_Z TAIL_CHAR1; byte_of_Z TAIL_CHAR2].
Proof.
  intros Hok. unfold packetize.
  by rewrite to_string_eq, length_write_message by (try apply Hok; done).
Qed.

Lemma packet_size sz :
  0 <= sz < 2 ^ 24 ->
  (Z_of_byte (byte_of_Z (Z.land (Z.shiftr sz 16) 0xFF)) * 256 +
   Z_of_byte (byte_of_Z (Z.land (Z.shiftr sz 8) 0xFF))) * 256 +
  Z_of_byte (byte_of_Z (Z.land sz 0xFF)) = sz.
Proof.
  intros Hs. rewrite !Z_of_byte_of_Z. change 0xFF with (Z.ones 8).
  rewrite !Z.land_ones, !Z.shiftr_div_pow2 by lia.
  change (2 ^ 16) with 65536. change (2 ^ 8) with 256. change (2 ^ 24) with 16777216 in Hs.
  rewrite !Z.mod_mod by lia. Z.to_euclidean_division_equations. lia.
Qed.

(** the message size as the reader of a packet passes it on *)
Lemma inner_size ms : 0 <= ms < 2 ^ 24 -> int32 (uint32 (ms - 4)) = ms - 4.
Proof.
  intros Hm. rewrite (swrap_congr 32 _ (ms - 4)), swrap_id by
    (lia || (unfold in_signed; lia) || (unfold uwrap; apply Z.mod_mod; lia)).
  done.
Qed.

Lemma byte_at_tail l k i t :
  i = Z.of_nat (length l + k) -> byte_at (Z.to_nat i) (l ++ t) = byte_at k t.
Proof.
  intros ->. unfold byte_at. rewrite Nat2Z.id, lookup_app_r by lia. 
  by replace (length l + k - length l)%nat with k by lia.
Qed.

Lemma depacketize_written inner m m0 rest n :
  wire_ok m -> wire_size m + 4 < 2 ^ 24 -> wire_size m + 6 <= n ->
  depacketize_with inner m0 (@packetize P1 m ++ rest) n =
  let? (used, m') :=
    inner m0 (@write_message P1 m ++ [byte_of_Z TAIL_CHAR1; byte_of_Z TAIL_CHAR2] ++ rest)
          (wire_size m) in
  Done (if 0 <? used then wire_size m + 6 else 0, m').
Proof.
  intros Hok Hs Hn. pose proof (wire_size_min m) as Hmin.
  pose proof (@length_write_message P1 m (ok_payload m Hok)) as HL.
  rewrite packet_bytes by done. rewrite uwrap_id by (unfold in_unsigned; lia).
  unfold depacketize_with. rewrite <- !app_assoc. cbn [app].
  rewrite byte_at_0. cbn [obind]. rewrite Z_of_byte_of_Z.
  change (negb (LEADING_CHAR mod 256 =? LEADING_CHAR)) with false. cbv iota.
  destruct (Z.ltb_spec n 6); [lia|].
  cbn [byte_at lookup list_lookup obind]. rewrite packet_size by lia.
  destruct (Z.ltb_spec n (wire_size m + 4 + 2)); [lia|].
  match goal with
  | |- context [byte_at (Z.to_nat _) (?a :: ?b :: ?c :: ?d :: ?w ++ ?t)] =>
      change (a :: b :: c :: d :: w ++ t) with ((a :: b :: c :: d :: w) ++ t)
  end.
  rewrite (byte_at_tail _ 0) by (cbn [length]; lia).
  cbn [byte_at lookup list_lookup obind]. rewrite Z_of_byte_of_Z.
  change (negb (TAIL_CHAR1 mod 256 =? TAIL_CHAR1)) with false. cbv iota.
  rewrite (byte_at_tail _ 1) by (cbn [length]; lia).
  cbn [byte_at lookup list_lookup obind]. rewrite Z_of_byte_of_Z.
  change (negb (TAIL_CHAR2 mod 256 =? TAIL_CHAR2)) with false. cbv iota.
  rewrite inner_size by lia. cbn [drop app].
  replace (wire_size m + 4 - 4) with (wire_size m) by lia.
  replace (wire_size m + 4 + 2) with (wire_size m + 6) by lia. done.
Qed.
End Packets.

(** A packet written by [packetize] is read back by [depacketize] and
    equally by [fromByteArray], which recognizes the leading character, even
    when other data follows it in the buffer; the number of bytes reported is
    the size of the packet. *)
Theorem packet_roundtrip (P1 P2 : Platform) (m m0 : ActionMessage) (rest : list byte) :
  wire_ok m -> wire_size m + 4 < 2 ^ 24 -> payload m0 = ""%string ->
  let buf := @packetize P1 m ++ rest in
  let n := Z.of_nat (length buf) in
  Z.of_nat (length (@packetize P1 m)) = wire_size m + 6 /\
  @depacketize P2 m0 buf n = Done (wire_size m + 6, received P1 P2 m) /\
  @fromByteArray P2 m0 buf n = Done (wire_size m + 6, received P1 P2 m).
Proof.
  intros Hok Hs Hp buf n. pose proof (wire_size_min m) as Hmin.
  pose proof (@length_write_message P1 m (ok_payload m Hok)) as HL.
  assert (Z.of_nat (length (@packetize P1 m)) = wire_size m + 6) as HL'
    by (rewrite packet_bytes by done; rewrite !length_app; cbn [length]; lia).
  assert (wire_size m + 6 <= n) as Hn by (subst n buf; rewrite length_app; lia).
  split; [done|]. split.
  - unfold depacketize. subst buf. rewrite depacketize_written by done.
    unfold fromByteArray. rewrite fromByteArray_fuel_written by auto. cbn [obind].
    destruct (Z.ltb_spec 0 (wire_size m)); [done|lia].
  - unfold fromByteArray. replace (Z.to_nat n) with (S (Z.to_nat (n - 1))) by lia.
    cbn [fromByteArray_fuel]. destruct (Z.ltb_spec n 45); [lia|].
    assert (byte_at 0 buf = Done LEADING_CHAR) as ->.
    { subst buf. rewrite packet_bytes by done. cbn [app]. rewrite byte_at_0.
      rewrite Z_of_byte_of_Z. done. }
    cbn [obind]. rewrite Z.eqb_refl. subst buf.
    change (fun m mem buffer_size => @fromByteArray_fuel P2 (S ?f) m mem buffer_size) with
      (@fromByteArray_fuel P2 (S f)).
    rewrite depacketize_written by done.
    pose proof (fromByteArray_fuel_written P1 P2 (Z.to_nat (n - 1)) m m0
      ([byte_of_Z TAIL_CHAR1; byte_of_Z TAIL_CHAR2] ++ rest) Hok (or_intror Hp)) as E.
    cbn [fromByteArray_fuel] in E. rewrite E. cbn [obind].
    destruct (Z.ltb_spec 0 (wire_size m)); [|lia].
    destruct (Z.ltb_spec 0 (wire_size m + 6)); [done|lia].
Qed.

Lemma packet_roundtrip_witness :
  @depacketize x86_64 (newMessage cmd_ignore) (@packetize x86_64 example_message ++ [x00; x01])
    (Z.of_nat (length (@packetize x86_64 example_message ++ [x00; x01]))) =
  Done (94, example_message).
Proof.
  pose proof (packet_roundtrip x86_64 x86_64 example_message (newMessage cmd_ignore) [x00; x01]
                example_message_ok ltac:(by vm_compute) eq_refl) as (_ & E & _).
  rewrite E. vm_compute. reflexivity.
Defined.

(** ** Termination of the reader *)

Lemma obind_fuel {A B} (o : outcome A) (k : A -> outcome B) :
  o <> OutOfFuel -> (forall a, k a <> OutOfFuel) -> obind o k <> OutOfFuel.
Proof. destruct o; cbn; naive_solver. Qed.

Lemma read_fuel n mem : read n mem <> OutOfFuel.
Proof. unfold read. by case_if. Qed.

Lemma byte_at_fuel i mem : byte_at i mem <> OutOfFuel.
Proof. unfold byte_at. by case_match. Qed.

Section Terminates.
Context {P : Platform}.

Lemma read_strings_fuel sw b todo ii ts mem strs :
  read_strings sw b todo ii ts mem strs <> OutOfFuel.
Proof.
  revert ii ts mem strs. induction todo as [|todo IH]; intros; cbn [read_strings]; [done|].
  apply obind_fuel; [apply read_fuel|]. intros [lenb mem'].
  destruct sw; (case_if; [done|]); (apply obind_fuel; [apply read_fuel|]);
    intros [str mem'']; apply IH.
Qed.

Ltac no_fuel_error :=
  repeat first
    [ done | apply read_fuel | apply byte_at_fuel | apply read_strings_fuel
    | apply obind_fuel; [|intros [? ?] || intros ?]
    | case_match ].

Lemma read_tail_fuel m sw b sz ts mem : read_tail m sw b sz ts mem <> OutOfFuel.
Proof.
  unfold read_tail. apply obind_fuel; [no_fuel_error|]. intros [m' mem'].
  apply obind_fuel; [apply read_fuel|]. intros [cb mem''].
  destruct (negb _); [|done]. destruct (_ <? 0); [done|]. destruct (b <? _); [done|].
  apply obind_fuel; [apply read_strings_fuel|]. intros [[ok ts'] strs]. by destruct (negb ok).
Qed.

Lemma read_plain_fuel m mem n : read_plain m mem n <> OutOfFuel.
Proof.
  unfold read_plain. do 4 (apply obind_fuel; [apply byte_at_fuel|]; intros ?).
  destruct (n <? _); [done|]. do 10 (apply obind_fuel; [apply read_fuel|]; intros [? ?]).
  destruct (bool_decide _); [|apply read_tail_fuel]. destruct (n <? _); [done|].
  do 3 (apply obind_fuel; [apply read_fuel|]; intros [? ?]). apply read_tail_fuel.
Qed.

(** A packet asks for a message at least six bytes shorter than itself. *)
Lemma depacketize_with_fuel inner m mem n :
  (forall m' mem' n', n' + 6 <= n -> inner m' mem' n' <> OutOfFuel) ->
  depacketize_with inner m mem n <> OutOfFuel.
Proof.
  intros Hi. unfold depacketize_with, byte_at.
  destruct (mem !! 0%nat) as [b0|]; [|done]. cbn [obind]. do 2 (case_if; [done|]).
  destruct (mem !! 1%nat) as [b1|]; [|done]. destruct (mem !! 2%nat) as [b2|]; [|done].
  destruct (mem !! 3%nat) as [b3|]; [|done]. cbn [obind].
  pose proof (Z_of_byte_range b1). pose proof (Z_of_byte_range b2). pose proof (Z_of_byte_range b3).
  destruct (Z.ltb_spec n ((Z_of_byte b1 * 256 + Z_of_byte b2) * 256 + Z_of_byte b3 + 2)); [done|].
  do 2 (apply obind_fuel; [by case_match|]; intros ?; case_if; [done|]).
  apply obind_fuel; [|by intros [? ?]].
  apply Hi. rewrite inner_size by lia. lia.
Qed.

Lemma fromByteArray_fuel_enough fuel m mem n :
  (Z.to_nat n < fuel)%nat -> fromByteArray_fuel fuel m mem n <> OutOfFuel.
Proof.
  revert m mem n. induction fuel as [|fuel IH]; intros m mem n Hf; [lia|].
  cbn [fromByteArray_fuel]. destruct (Z.ltb_spec n 45); [done|].
  apply obind_fuel; [apply byte_at_fuel|]. intros b0. case_if; [|apply read_plain_fuel].
  apply obind_fuel.
  - apply depacketize_with_fuel. intros m' mem' n' Hn. apply IH. lia.
  - intros [res m']. case_if; [done|apply read_plain_fuel].
Qed.
End Terminates.

(** Reading terminates on every input: whatever the bytes and the size
    passed, [fromByteArray] and [depacketize] stop with a result, an exception
    or a read past the end of the buffer, because every nested packet is
    shorter than the buffer around it. *)
Theorem reader_terminates (P : Platform) (m : ActionMessage) (mem : list byte) (n : Z) :
  fromByteArray m mem n <> OutOfFuel /\ depacketize m mem n <> OutOfFuel.
Proof.
  split; [apply fromByteArray_fuel_enough; lia|].
  apply depacketize_with_fuel. intros. apply fromByteArray_fuel_enough. lia.
Qed.

(** ** Inputs the reader mishandles *)

(** A buffer that carries the fixed part and the payload of [m] as a writer
    puts them there, then one string whose length field says [len] and for
    which the bytes [chars] are left. *)
Definition one_string (P : Platform) (m : ActionMessage) (len : Z) (chars : list byte) : list byte :=
  write_head P m ++ byte_of_Z 1 :: @host_bytes P 4 len ++ chars.

(** a total from [2^31] on does not pass [2^31] again before the next wrap *)
Lemma int32_wraps ts len b :
  0 <= ts <= b -> 0 <= len < 2 ^ 32 -> 2 ^ 31 <= ts + len -> int32 (ts + len) <= b.
Proof.
  intros Hb Hl Ht. unfold swrap. change (32 - 1) with 31.
  Z.to_euclidean_division_equations. lia.
Qed.

Section Forged.
Context (P1 P2 : Platform).

(** the payload is taken up and what follows it left *)
Lemma read_tail_payload m r sw n ts tail :
  exists r', @read_tail P2 r sw n (size (payload m)) ts (string_bytes (payload m) ++ tail) =
             @read_tail P2 r' sw n 0 ts tail.
Proof.
  unfold read_tail. destruct (Z.ltb_spec 0 (size (payload m))).
  - rewrite read_app by done. cbn [obind]. change (0 <? 0) with false. cbn [obind]. by eexists.
  - rewrite (string_bytes_nil (payload m)) by (pose proof (size_nonneg (payload m)); lia).
    by exists r.
Qed.

(** the length field of one string, read on the other host *)
Lemma read_one_string len n ts chars str :
  in_unsigned 32 len ->
  @read_strings P2 (orders_differ P1 P2) n 1 0 ts (@host_bytes P1 4 len ++ chars) [str] =
  if n <? int32 (ts + len) then Done (false, int32 (ts + len), [str])
  else let? (bs, _) := read len chars in
       Done (true, int32 (ts + len), [String.string_of_list_byte bs]).
Proof.
  intros Hl. cbn [read_strings]. rewrite (@read_host P1) by reflexivity. cbn [obind].
  pose proof (unsigned_between P1 P2 4 len Hl) as E. unfold unswap_unsigned in E. rewrite E.
  case_if; [done|]. destruct (read len chars) as [[bs mem]| | |]; done.
Qed.

Lemma read_tail_one_string r len n ts chars :
  in_unsigned 32 len -> in_signed 32 (ts + 4) -> ts + 4 <= n ->
  exists r', @read_tail P2 r (orders_differ P1 P2) n 0 ts
      (byte_of_Z 1 :: @host_bytes P1 4 len ++ chars) =
    if n <? int32 (ts + 4 + len) then Done (0, invalidate r')
    else let? (bs, _) := read len chars in
         let r'' := r' <| stringData := [String.string_of_list_byte bs] |> in
         Done (int32 (ts + 4 + len), if orders_differ P1 P2 then @swap_fields P2 r'' else r'').
Proof.
  intros Hl Hts Hn. unfold read_tail. change (0 <? 0) with false. cbn [obind].
  change (?a :: ?b ++ chars) with ([a] ++ b ++ chars).
  rewrite read_app by done. cbn [obind le_value]. rewrite Z_of_byte_of_Z.
  rewrite Z.mul_0_r, Z.add_0_r, Z.mod_small, char_value_small by lia. cbn [Z.eqb negb Z.ltb].
  change (1 <? 0) with false. rewrite Z.mul_1_r, int32_id by done.
  destruct (Z.ltb_spec n (ts + 4)); [lia|]. change (Z.to_nat 1) with 1%nat.
  assert (exists str, resize 1 ""%string (stringData r) = [str]) as [str ->].
  { destruct (stringData r) as [|str strs]; cbn; [by eexists|].
    exists str. by destruct strs. }
  rewrite read_one_string by done. exists (r <| stringData := [str] |>).
  case_if; [done|]. destruct (read len chars) as [[bs mem]| | |]; done.
Qed.

Lemma length_one_string m len chars :
  size (payload m) < 2 ^ 24 ->
  Z.of_nat (length (one_string P1 m len chars)) =
  49 + size (payload m) + times_size m + Z.of_nat (length chars).
Proof.
  intros Hpay. pose proof (length_write_head P1 m Hpay). unfold one_string.
  rewrite length_app. cbn [length]. rewrite length_app, length_host_bytes. lia.
Qed.

(** the whole buffer: the check of the total, then the copy *)
Lemma read_buffer_one_string m m0 len chars :
  let buf := one_string P1 m len chars in
  let n := Z.of_nat (length buf) in
  let before := 49 + size (payload m) + times_size m in
  action_of_code (action_code (messageAction m)) = messageAction m ->
  in_signed 32 (action_code (messageAction m)) ->
  size (payload m) < 2 ^ 24 -> n < 2 ^ 31 -> in_unsigned 32 len ->
  exists r, @fromByteArray P2 m0 buf n =
    if n <? int32 (before + len) then Done (0, invalidate r)
    else let? (bs, _) := read len chars in
         let r' := r <| stringData := [String.string_of_list_byte bs] |> in
         Done (int32 (before + len), if orders_differ P1 P2 then @swap_fields P2 r' else r').
Proof.
  intros buf n before Hact Hcode Hpay Hn Hlen.
  pose proof (size_nonneg (payload m)) as Hs. pose proof (times_size_nonneg m) as Ht.
  pose proof (length_one_string m len chars Hpay) as En. fold buf n in En.
  unfold fromByteArray. cbn [fromByteArray_fuel]. destruct (Z.ltb_spec n 45); [lia|].
  assert (byte_at 0 buf = Done (Z_of_byte (marker P1))) as -> by apply byte_at_0.
  cbn [obind]. rewrite marker_not_leading. unfold buf, one_string.
  rewrite (read_plain_fixed P1 P2) by (done || lia).
  edestruct read_tail_payload as [r1 ->].
  edestruct (read_tail_one_string r1 len n) as [r' ->];
    [done | | | exists r'; subst before]; try (unfold in_signed; lia).
  by replace (45 + size (payload m) + times_size m + 4) with
    (49 + size (payload m) + times_size m) by lia.
Qed.
End Forged.

(** C40: What the reader makes of a string length [len] that the buffer may
    or may not hold, for every message in front of it, both byte orders and
    every 32-bit [len].  A length within the buffer gives the string; a
    length beyond it is refused as [CMD_INVALID], but only below [2^31] less
    the bytes before the string.  From there up to [2^32 - 1] the 32-bit
    [int] total wraps to a value the size check lets pass, and [assign]
    copies [len] bytes from outside the buffer. *)
Theorem length_field_overflow (P1 P2 : Platform) (m m0 : ActionMessage) (len : Z)
    (chars : list byte) :
  let buf := one_string P1 m len chars in
  let n := Z.of_nat (length buf) in
  let before := 49 + size (payload m) + times_size m in
  action_of_code (action_code (messageAction m)) = messageAction m ->
  in_signed 32 (action_code (messageAction m)) ->
  size (payload m) < 2 ^ 24 -> n < 2 ^ 31 -> in_unsigned 32 len ->
  n = before + Z.of_nat (length chars) /\
  (len <= Z.of_nat (length chars) ->
     exists r, @fromByteArray P2 m0 buf n = Done (before + len, r) /\
       stringData r = [String.string_of_list_byte (take (Z.to_nat len) chars)]) /\
  (Z.of_nat (length chars) < len < 2 ^ 31 - before ->
     exists r, @fromByteArray P2 m0 buf n = Done (0, r) /\ messageAction r = cmd_invalid) /\
  (2 ^ 31 - before <= len -> @fromByteArray P2 m0 buf n = OutOfBounds).
Proof.
  intros buf n before Hact Hcode Hpay Hn Hlen.
  pose proof (size_nonneg (payload m)) as Hs. pose proof (times_size_nonneg m) as Ht.
  pose proof (length_one_string P1 m len chars Hpay) as En. fold buf n in En.
  destruct (read_buffer_one_string P1 P2 m m0 len chars Hact Hcode Hpay Hn Hlen) as [r Er].
  fold buf n before in Er.
  split; [done|]. unfold in_unsigned in Hlen. rewrite Er. split_and!; intros Hr.
  - rewrite int32_id by (unfold in_signed; lia).
    destruct (Z.ltb_spec n (before + len)); [lia|]. unfold read.
    destruct (Z.leb_spec len (Z.of_nat (length chars))); [|lia]. cbn [obind].
    eexists. split; [done|]. destruct (orders_differ P1 P2); [|done].
    unfold swap_fields. by case_bool_decide.
  - rewrite int32_id by (unfold in_signed; lia).
    destruct (Z.ltb_spec n (before + len)); [|lia]. by eexists.
  - assert (int32 (before + len) <= n) as Hw by (apply int32_wraps; lia).
    destruct (Z.ltb_spec n (int32 (before + len))); [lia|]. unfold read.
    by destruct (Z.leb_spec len (Z.of_nat (length chars))); [lia|].
Qed.

Lemma length_field_overflow_witness :
  @fromByteArray x86_64 (newMessage cmd_ignore)
    (one_string x86_64 example_message (2 ^ 32 - 1) [x61; x62])
    (Z.of_nat (length (one_string x86_64 example_message (2 ^ 32 - 1) [x61; x62]))) =
  OutOfBounds.
Proof.
  apply (length_field_overflow x86_64 x86_64 example_message (newMessage cmd_ignore));
    first [reflexivity | by vm_compute | (vm_compute; split; congruence) | (vm_compute; congruence)].
Defined.

Lemma signed_count n : (128 <= n < 256)%nat -> swrap 8 (Z.of_nat n mod 256) = Z.of_nat n - 256.
Proof.
  intros Hn. rewrite Z.mod_small by lia. unfold swrap. change (2 ^ (8 - 1)) with 128.
  change (2 ^ 8) with 256. replace (Z.of_nat n + 128) with (Z.of_nat n - 128 + 1 * 256) by lia.
  rewrite Z.mod_add, Z.mod_small; lia.
Qed.

Lemma read_tail_negative_count (P1 P2 : Platform) m r sw n ts rest :
  @char_is_signed P2 = true -> (128 <= length (stringData m) < 256)%nat ->
  @read_tail P2 r sw n (size (payload m)) ts
    (string_bytes (payload m) ++ @write_strings P1 m ++ rest) = Throws "std::length_error".
Proof.
  intros Hc Hstr. unfold read_tail.
  assert (exists r', (if 0 <? size (payload m) then
            let? (bs, mem) := read (size (payload m))
                (string_bytes (payload m) ++ @write_strings P1 m ++ rest) in
            Done (r <| payload := String.string_of_list_byte bs |>, mem)
          else Done (r, string_bytes (payload m) ++ @write_strings P1 m ++ rest)) =
          Done (r', @write_strings P1 m ++ rest)) as [r' ->].
  { destruct (Z.ltb_spec 0 (size (payload m))).
    - rewrite read_app by done. cbn [obind]. eauto.
    - rewrite (string_bytes_nil (payload m)) by (pose proof (size_nonneg (payload m)); lia). eauto. }
  cbn [obind]. unfold write_strings. destruct (stringData m) as [|str strs] eqn:Es; [cbn in Hstr; lia|].
  rewrite <- Es in *. cbn [app]. change (?a :: ?b ++ rest) with ([a] ++ b ++ rest).
  rewrite read_app by done. cbn [obind le_value].
  rewrite Z_of_byte_of_Z, Z.mul_0_r, Z.add_0_r. unfold char_value. rewrite Hc.
  rewrite uwrap_id by (unfold in_unsigned; lia). rewrite signed_count by done.
  destruct (Z.eqb_spec (Z.of_nat (length (stringData m)) - 256) 0); [lia|].
  destruct (Z.ltb_spec (Z.of_nat (length (stringData m)) - 256) 0); [done|lia].
Qed.

(** A message carrying 128 to 255 strings, as [appendMessage] builds them,
    cannot be read back on a host whose [char] is signed: the count is read
    as a negative number and the resize of the string vector throws. *)
Theorem many_strings_throw (P1 P2 : Platform) (m m0 : ActionMessage) :
  @char_is_signed P2 = true ->
  action_of_code (action_code (messageAction m)) = messageAction m ->
  in_signed 32 (action_code (messageAction m)) ->
  size (payload m) < 2 ^ 24 -> (128 <= length (stringData m) < 256)%nat -> wire_size m < 2 ^ 31 ->
  @fromByteArray P2 m0 (@to_string P1 m) (Z.of_nat (length (@to_string P1 m))) =
  Throws "std::length_error".
Proof.
  intros Hc Hact Hcode Hpay Hstr Hsz.
  rewrite to_string_exact, length_write_message by done.
  pose proof (wire_size_min m). pose proof (strings_size_nonneg (stringData m)).
  unfold fromByteArray. cbn [fromByteArray_fuel].
  destruct (Z.ltb_spec (wire_size m) 45); [lia|].
  assert (byte_at 0 (@write_message P1 m) = Done (Z_of_byte (marker P1))) as -> by apply byte_at_0.
  cbn [obind]. rewrite marker_not_leading.
  rewrite write_message_head, <- (app_nil_r (write_strings m)).
  rewrite (read_plain_fixed P1 P2) by (done || unfold wire_size; lia).
  apply read_tail_negative_count; done.
Qed.

Definition crowded_message : ActionMessage :=
  (newMessage cmd_multi_message) <| counter := 130 |> <| stringData := replicate 130 "x"%string |>.

Lemma many_strings_throw_witness :
  @fromByteArray x86_64 (newMessage cmd_ignore) (@to_string x86_64 crowded_message)
    (Z.of_nat (length (@to_string x86_64 crowded_message))) = Throws "std::length_error".
Proof.
  refine (many_strings_throw x86_64 x86_64 crowded_message (newMessage cmd_ignore)
            eq_refl eq_refl _ _ _ _);
    [vm_compute; split; congruence | by vm_compute | cbn; lia | by vm_compute].
Defined.

(** ** Containers of messages *)

(** A multi message in which [k] messages have been collected. *)
Definition multi_holds (multi : ActionMessage) (msgs : list string) : Prop :=
  messageAction multi = cmd_multi_message /\
  counter multi = Z.of_nat (length msgs) /\ stringData multi = msgs.

Lemma multi_holds_new : multi_holds (newMessage cmd_multi_message) [].
Proof. done. Qed.

Lemma appendMessage_room `{Platform} multi msgs new :
  multi_holds multi msgs -> (length msgs < 255)%nat ->
  let '(pos, multi') := appendMessage multi new in
  pos = Z.of_nat (length msgs) + 1 /\
  multi_holds multi' (msgs ++ [String.string_of_list_byte (to_string new)]).
Proof.
  intros (Ha & Hc & Hs) Hl. unfold appendMessage.
  rewrite bool_decide_eq_true_2 by done. rewrite Hc.
  destruct (Z.ltb_spec (Z.of_nat (length msgs)) 255); [|lia].
  unfold setString. destruct (Z.leb_spec 0 (Z.of_nat (length msgs))); [|lia].
  destruct (Z.ltb_spec (Z.of_nat (length msgs)) 256); [|lia]. cbn [andb modify stringData counter].
  rewrite Hs, Z.leb_refl, Hc. rewrite uwrap_id by (unfold in_unsigned; lia).
  split; [done|]. split; [done|]. cbn. split; [rewrite length_app; cbn; lia|].
  rewrite Nat2Z.id. replace (Z.to_nat (Z.of_nat (length msgs) + 1)) with (length msgs + 1)%nat by lia.
  rewrite resize_ge by lia. replace (length msgs + 1 - length msgs)%nat with 1%nat by lia.
  rewrite insert_app_r_alt by lia. by rewrite Nat.sub_diag.
Qed.

Lemma appendMessage_full `{Platform} multi msgs new :
  multi_holds multi msgs -> (255 <= length msgs)%nat -> appendMessage multi new = (-1, multi).
Proof.
  intros (Ha & Hc & Hs) Hl. unfold appendMessage. rewrite bool_decide_eq_true_2 by done.
  rewrite Hc. destruct (Z.ltb_spec (Z.of_nat (length msgs)) 255); [lia|done].
Qed.

(** Collecting several messages, as the disconnect operations do. *)
Definition append_all `{Platform} (multi : ActionMessage) (news : list ActionMessage) : ActionMessage :=
  fold_left (fun m new => snd (appendMessage m new)) news multi.

Lemma append_all_holds `{Platform} multi msgs news :
  multi_holds multi msgs ->
  multi_holds (append_all multi news)
    (msgs ++ ((fun new => String.string_of_list_byte (to_string new)) <$>
              take (255 - length msgs) news)).
Proof.
  unfold append_all. revert multi msgs.
  induction news as [|new news IH]; intros multi msgs Hm; cbn [fold_left].
  { by rewrite take_nil, app_nil_r. }
  destruct (Nat.lt_ge_cases (length msgs) 255) as [Hl|Hl].
  - pose proof (appendMessage_room multi msgs new Hm Hl) as Hr.
    destruct (appendMessage multi new) as [pos multi']. destruct Hr as [_ Hm']. cbn [snd].
    specialize (IH _ _ Hm'). rewrite length_app in IH. cbn [length] in IH.
    replace (255 - length msgs)%nat with (S (255 - (length msgs + 1))) by lia.
    cbn [take fmap list_fmap]. rewrite <- app_assoc in IH. exact IH.
  - rewrite (appendMessage_full _ msgs) by done. cbn [snd].
    replace (255 - length msgs)%nat with 0%nat by lia. cbn. rewrite app_nil_r.
    specialize (IH _ _ Hm). replace (255 - length msgs)%nat with 0%nat in IH by lia.
    by rewrite take_0, fmap_nil, app_nil_r in IH.
Qed.

(** A multi message delivers, in order, the messages appended to it: each
    of the first 255 is recovered by reading its string back; [appendMessage]
    drops every message after the 255th. *)
Theorem multi_message_contents `{Platform} (news : list ActionMessage) (m0 : ActionMessage) :
  Forall wire_ok news -> payload m0 = ""%string ->
  let multi := append_all (newMessage cmd_multi_message) news in
  counter multi = Z.of_nat (min 255 (length news)) /\
  forall i m, news !! i = Some m ->
    if (i <? 255)%nat
    then from_string m0 (string_bytes (getString (Z.of_nat i) multi)) =
         Done (received _ _ m)
    else getString (Z.of_nat i) multi = ""%string.
Proof.
  intros Hok Hp multi.
  destruct (append_all_holds _ [] news multi_holds_new) as (Ha & Hc & Hs).
  fold multi in Ha, Hc, Hs. cbn [length app] in *. rewrite Nat.sub_0_r in *.
  rewrite length_fmap, length_take in Hc. split; [done|]. intros i m Hi.
  assert (i < length news)%nat by (by eapply lookup_lt_Some).
  unfold getString, isValidIndex. rewrite Hs, length_fmap, length_take, Nat2Z.id.
  rewrite list_lookup_fmap.
  destruct (Nat.ltb_spec i 255).
  - destruct (Z.leb_spec 0 (Z.of_nat i)); [|lia].
    destruct (Z.ltb_spec (Z.of_nat i) (Z.of_nat (255 `min` length news))); [|lia]. cbn [andb].
    rewrite lookup_take_lt, Hi by lia. cbn [fmap option_fmap option_map from_option id].
    unfold from_string, string_bytes. rewrite String.list_byte_of_string_of_list_byte.
    rewrite Forall_lookup in Hok. specialize (Hok i m Hi).
    rewrite to_string_eq, length_write_message by (try apply Hok; done).
    unfold fromByteArray. rewrite <- (app_nil_r (write_message m)).
    rewrite fromByteArray_fuel_written by auto. done.
  - destruct (Z.ltb_spec (Z.of_nat i) (Z.of_nat (255 `min` length news))); [lia|].
    by rewrite andb_false_r.
Qed.

Lemma multi_message_contents_witness :
  getString 1 (@append_all x86_64 (newMessage cmd_multi_message)
                 [newMessage cmd_disconnect; example_message]) <> ""%string /\
  @from_string x86_64 (newMessage cmd_ignore)
    (string_bytes (getString 1 (@append_all x86_64 (newMessage cmd_multi_message)
                                  [newMessage cmd_disconnect; example_message]))) =
  Done (received x86_64 x86_64 example_message).
Proof.
  split; [vm_compute; discriminate|].
  refine (proj2 (@multi_message_contents x86_64 [newMessage cmd_disconnect; example_message]
            (newMessage cmd_ignore) _ eq_refl) 1%nat example_message eq_refl).
  constructor; [|constructor; [apply example_message_ok|constructor]].
  split; first [reflexivity | by vm_compute | (vm_compute; split; congruence) | (cbn; lia)].
Defined.
