(* ===== verification/MessageSpec.v ===== *)
(** * Times, identifiers and messages: properties

    Round trips of time counts, of global handles and of endpoint messages
    through commands and bytes; the flag word. *)

From S2P Require Import Prelude HTime Identifiers CoreData ActionMessage Wire WireFacts.
From S2P Require Import WireSpec.
Import CountTimeFacts HandleFacts ActionMessageFacts.

(** ** Times *)

(** A count of a unit that is not finer than a tick, converted to a time and
    back, is the count, for every resolution of the clock, as long as the time
    is in range. *)
Theorem count_roundtrip (N v k : Z) (u : Units.time_units) :
  0 <= N -> CountTime.ticks_per N u = Some k -> in_signed 64 k -> in_signed 64 (v * k) ->
  CountTime.toCount N (CountTime.fromCount N v u) u = v.
Proof.
  intros HN Hk Hk64 Hv.
  rewrite (fromCount_ticks N v u k), (toCount_ticks N _ u k), swrap_id by (done || lia).
  apply Z.quot_mul. pose proof (ticks_per_pos N u k HN Hk). lia.
Qed.

Lemma count_roundtrip_witness :
  T.to_count (T.of_count (-17) Units.hr) Units.hr = -17.
Proof.
  apply (count_roundtrip ticksExp (-17) (3600 * 10 ^ 9) Units.hr);
    [discriminate|reflexivity|split; reflexivity || discriminate|split; reflexivity || discriminate].
Defined.

(** Weeks are counted as seconds: a time of [v] weeks is [v] seconds, and a
    second reads as a week, whatever the resolution. *)
Lemma week_is_a_second (N v : Z) :
  CountTime.fromCount N v Units.week = CountTime.fromCount N v Units.s /\
  CountTime.toCount N v Units.week = CountTime.toCount N v Units.s.
Proof. done. Qed.

(** Times can be negated, added and subtracted without loss between the
    least and the greatest time, and the greatest and the least are each
    other's negation. *)
Lemma time_arithmetic (a b : Time) :
  valid_time a ->
  T.opp (T.opp a) = a /\ T.opp T.maxVal = T.minVal /\ T.opp T.minVal = T.maxVal /\
  (valid_time (a + b) -> a +t b -t b = a) /\ (valid_time (a - b) -> a -t b +t b = a).
Proof.
  intros Ha. assert (valid_time (- a)) by time_lia. split; [|split; [|split; [|split]]].
  - rewrite (topp_exact a), topp_exact by done. lia.
  - done.
  - done.
  - intros Hab. rewrite tadd_exact, tsub_exact by (done || by rewrite Z.add_simpl_r). lia.
  - intros Hab. rewrite tsub_exact, tadd_exact by (done || by rewrite Z.sub_add). lia.
Qed.

(** ** Identifiers *)

(** The 64-bit key of a handle identifies it: two handles of 32-bit parts
    with the same key are the same, and the key is the two parts side by
    side. *)
Theorem handle_key_injective (a b : global_handle) :
  wf_handle a -> wf_handle b -> Handle.to_uint64 a = Handle.to_uint64 b -> a = b.
Proof.
  intros Ha Hb. rewrite (to_uint64_value a), (to_uint64_value b) by done.
  destruct Ha as [Ha1 Ha2], Hb as [Hb1 Hb2]. intros E.
  pose proof (uwrap_range 32 (fed_id a) ltac:(lia)) as R1. pose proof (uwrap_range 32 (handle a) ltac:(lia)) as R2.
  pose proof (uwrap_range 32 (fed_id b) ltac:(lia)) as R3. pose proof (uwrap_range 32 (handle b) ltac:(lia)) as R4.
  unfold in_unsigned in *. change (2 ^ 32) with 4294967296 in *.
  assert (uint32 (fed_id a) = uint32 (fed_id b)) as E1 by lia.
  assert (uint32 (handle a) = uint32 (handle b)) as E2 by lia.
  apply uint32_inj in E1, E2; try done. destruct a, b. cbn in *. congruence.
Qed.

Lemma handle_key_injective_witness :
  GlobalHandle 131072 (-5) = GlobalHandle (131073 - 1) (-5).
Proof.
  apply handle_key_injective; [split; split; reflexivity || discriminate|
    split; split; reflexivity || discriminate|vm_compute; reflexivity].
Defined.

(** ** Commands *)

(** Codes of commands.  Each of the commands the library lists has a code
    of its own that reads back as the command, and a command read from any
    code, known or not, keeps that code. *)
Theorem action_codes (a b : action_t) (z : Z) :
  (listed a -> action_of_code (action_code a) = a) /\
  (listed a -> listed b -> action_code a = action_code b -> a = b) /\
  action_code (action_of_code z) = z.
Proof.
  split; [apply action_of_code_code|]. split; [apply action_code_inj|apply action_code_of_code].
Qed.

(** The flag word.  Setting or clearing one of the sixteen flags changes
    what that flag reads and leaves the others, the word stays in 16 bits; two
    of the names, however, are the same flag. *)
Theorem flag_word (m : ActionMessage) (f g : Z) :
  0 <= f < 16 -> 0 <= g < 16 ->
  checkActionFlag (setActionFlag f m) g = (f =? g) || checkActionFlag m g /\
  checkActionFlag (clearActionFlag f m) g = negb (f =? g) && checkActionFlag m g /\
  in_unsigned 16 (flags (setActionFlag f m)) /\
  checkActionFlag (setActionFlag optional_flag m) extra_flag2 = true.
Proof.
  intros Hf Hg. unfold checkActionFlag, setActionFlag, clearActionFlag. cbn.
  split; [by apply check_set_flag|]. split; [by apply check_clear_flag|].
  split; [apply set_flag_range|]. by rewrite check_set_flag by (vm_compute; split; congruence).
Qed.

Lemma flag_word_witness :
  checkActionFlag (setActionFlag error_flag (newMessage cmd_pub)) core_flag =
  (error_flag =? core_flag) || checkActionFlag (newMessage cmd_pub) core_flag.
Proof.
  refine (proj1 (flag_word (newMessage cmd_pub) error_flag core_flag _ _));
    split; reflexivity || discriminate.
Defined.

(** ** Endpoint messages *)

(** C27: Delivery of messages.  An endpoint message turned into a command,
    serialized on one host, read on another and turned back into a message is
    the message that was sent, but for its flags, which are never carried. *)
Theorem message_delivered (P1 P2 : Platform) (msg : Message) :
  wire_ok (command_of_message msg) ->
  exists cmd, @from_string P2 (newMessage cmd_ignore) (@to_string P1 (command_of_message msg)) = Done cmd /\
    createMessageFromCommand cmd = msg <| CoreData.flags := 0 |>.
Proof.
  intros Hok. exists (received P1 P2 (command_of_message msg)). split; [|by destruct msg].
  unfold from_string. rewrite to_string_eq, length_write_message by (try apply Hok; done).
  unfold fromByteArray. rewrite <- (app_nil_r (write_message _)).
  by rewrite fromByteArray_fuel_written by auto.
Qed.

Definition greeting : Message := {|
  time := 5 * 10 ^ 9; CoreData.flags := 3; CoreData.messageID := 12; data := "hello";
  dest := "fed2/port"; source := "fed1/port"; original_source := "fed1/port"; original_dest := "";
|}.

Lemma message_delivered_witness :
  exists cmd, @from_string big_endian (newMessage cmd_ignore)
                (@to_string x86_64 (command_of_message greeting)) = Done cmd /\
    createMessageFromCommand cmd = greeting <| CoreData.flags := 0 |>.
Proof.
  apply message_delivered.
  split; first [reflexivity | by vm_compute | (vm_compute; split; congruence) | (cbn; lia)].
Defined.
