(* ===== verification/CoreTypes.v ===== *)
(** * Enumerations shared by the core

    Models [src/helics/core/core-types.hpp] and [core-types.cpp] (federate
    states, results of message processing, iteration requests, the core types
    and the strings that name them) and the property and flag numbers of
    [helics_definitions.hpp]. *)

From Stdlib Require Import Ascii.
From S2P Require Import Prelude StringOps.

(** ** States and results *)

Inductive federate_state :=
  | HELICS_CREATED
  | HELICS_INITIALIZING
  | HELICS_EXECUTING
  | HELICS_TERMINATING
  | HELICS_ERROR
  | HELICS_FINISHED
  | HELICS_UNKNOWN.

#[export] Instance federate_state_eq_dec : EqDecision federate_state.
Proof. solve_decision. Defined.

Module MPR.
Inductive message_processing_result :=
  | continue_processing
  | delay_message
  | next_step
  | iterating
  | halted
  | error.

#[export] Instance message_processing_result_eq_dec : EqDecision message_processing_result.
Proof. solve_decision. Defined.

Definition code (r : message_processing_result) : Z :=
  match r with
  | continue_processing => -2
  | delay_message => -1
  | next_step => 0
  | iterating => 2
  | halted => 3
  | error => 7
  end.

Definition returnableResult (result : message_processing_result) : bool :=
  code next_step <=? code result.
End MPR.

Module ItRes.
Inductive iteration_result := next_step | iterating | halted | error.

#[export] Instance iteration_result_eq_dec : EqDecision iteration_result.
Proof. solve_decision. Defined.
End ItRes.

Inductive iteration_request := no_iterations | force_iteration | iterate_if_needed.

#[export] Instance iteration_request_eq_dec : EqDecision iteration_request.
Proof. solve_decision. Defined.

(** ** Properties and flags *)

Module Prop_.
Definition time_delta : Z := 137.
Definition period : Z := 140.
Definition offset : Z := 141.
Definition rt_lag : Z := 143.
Definition rt_lead : Z := 144.
Definition rt_tolerance : Z := 145.
Definition input_delay : Z := 148.
Definition output_delay : Z := 150.
Definition max_iterations : Z := 259.
Definition log_level : Z := 271.
End Prop_.

Module Flag.
Definition observer : Z := 0.
Definition uninterruptible : Z := 1.
Definition interruptible : Z := 2.
Definition source_only : Z := 4.
Definition only_transmit_on_change : Z := 6.
Definition only_update_on_change : Z := 8.
Definition wait_for_current_time_update : Z := 10.
Definition rollback : Z := 12.
Definition forward_compute : Z := 14.
Definition realtime : Z := 16.
Definition single_thread_federate : Z := 27.
Definition delay_init_entry : Z := 45.
Definition enable_init_entry : Z := 47.
Definition ignore_time_mismatch_warnings : Z := 67.
End Flag.

(** ** Core types *)

Module CoreType.
Inductive core_type :=
  | DEFAULT | ZMQ | MPI | TEST | INTERPROCESS | IPC | TCP | TCP_SS | UDP | NNG | ZMQ_SS | HTTP
  | UNRECOGNIZED.

#[export] Instance core_type_eq_dec : EqDecision core_type.
Proof. solve_decision. Defined.

Definition to_string (type : core_type) : string :=
  match type with
  | MPI => "mpi_"
  | TEST => "test_"
  | ZMQ => "zmq_"
  | ZMQ_SS => "zmqss_"
  | INTERPROCESS | IPC => "ipc_"
  | TCP => "tcp_"
  | TCP_SS => "tcpss_"
  | HTTP => "http_"
  | UDP => "udp_"
  | NNG => "nng_"
  | _ => ""
  end.

Definition coreTypes : list (string * core_type) := [
  ("default", DEFAULT); ("def", DEFAULT); ("mpi", MPI); ("message_passing_interface", MPI);
  ("MPI", MPI); ("ZMQ", ZMQ); ("0mq", ZMQ); ("zmq", ZMQ); ("zeromq", ZMQ);
  ("zeromq_ss", ZMQ_SS); ("zmq_ss", ZMQ_SS); ("ZMQ_SS", ZMQ_SS); ("zeromq2", ZMQ_SS);
  ("zmq2", ZMQ_SS); ("ZMQ2", ZMQ_SS); ("interprocess", INTERPROCESS); ("ZeroMQ", ZMQ);
  ("ZeroMQ2", ZMQ_SS); ("ipc", INTERPROCESS); ("interproc", INTERPROCESS);
  ("IPC", INTERPROCESS); ("tcp", TCP); ("tcpip", TCP); ("TCP", TCP); ("TCPIP", TCP);
  ("tcpss", TCP_SS); ("tcpipss", TCP_SS); ("TCPSS", TCP_SS); ("TCPIPSS", TCP_SS);
  ("tcp_ss", TCP_SS); ("tcpip_ss", TCP_SS); ("TCP_SS", TCP_SS); ("TCPIP_SS", TCP_SS);
  ("single_socket", TCP_SS); ("single socket", TCP_SS); ("ss", TCP_SS); ("udp", UDP);
  ("test", TEST); ("UDP", UDP); ("local", TEST); ("inprocess", TEST); ("http", HTTP);
  ("HTTP", HTTP); ("web", HTTP); ("test1", TEST) ]%string.

Definition find_type (type : string) : option core_type :=
  snd <$> List.find (fun p => String.eqb (fst p) type) coreTypes.

(** [type.compare (0, n, p) == 0] for [n] the length of [p] *)
Definition starts (p s : string) : bool := String.prefix p s.

Definition by_prefix (type : string) : core_type :=
  (if starts "zmq2" type then ZMQ_SS
   else if starts "zmq" type then ZMQ
   else if starts "ipc" type then INTERPROCESS
   else if starts "test" type then TEST
   else if starts "tcpss" type then TCP_SS
   else if starts "tcp" type then TCP
   else if starts "udp" type then UDP
   else if starts "http" type then HTTP
   else if starts "mpi" type then MPI
   else UNRECOGNIZED)%string.

(** The recursion drops the leading character of the lowered string: the
    length of the string is fuel enough. *)
Fixpoint coreTypeFromString_fuel (fuel : nat) (type : string) : option core_type :=
  match fuel with
  | O => None
  | S fuel' =>
      match type with
      | EmptyString => Some DEFAULT
      | _ =>
          match find_type type with
          | Some t => Some t
          | None =>
              let type := lower type in
              match find_type type with
              | Some t => Some t
              | None =>
                  match type with
                  | String a rest =>
                      if (Ascii.eqb a "=" || Ascii.eqb a "-")%char
                      then coreTypeFromString_fuel fuel' rest
                      else Some (by_prefix type)
                  | EmptyString => Some (by_prefix type)
                  end
              end
          end
      end
  end.

Definition coreTypeFromString (type : string) : option core_type :=
  coreTypeFromString_fuel (S (String.length type)) type.

(** Which transports the build enables. *)
Record build_options := {
  ZMQ_AVAILABILITY : bool; MPI_AVAILABILITY : bool; TCP_AVAILABILITY : bool;
  UDP_AVAILABILITY : bool; IPC_AVAILABILITY : bool; TEST_AVAILABILITY : bool;
}.

Definition isCoreTypeAvailable (b : build_options) (type : core_type) : bool :=
  match type with
  | ZMQ | ZMQ_SS => ZMQ_AVAILABILITY b
  | MPI => MPI_AVAILABILITY b
  | TEST => TEST_AVAILABILITY b
  | INTERPROCESS | IPC => IPC_AVAILABILITY b
  | UDP => UDP_AVAILABILITY b
  | TCP | TCP_SS => TCP_AVAILABILITY b
  | DEFAULT => true
  | HTTP => false
  | _ => false
  end.

Lemma length_lower s : String.length (lower s) = String.length s.
Proof. induction s as [|a s IH]; cbn; [done|]. by rewrite IH. Qed.

Lemma fuel_enough fuel : forall s,
  (String.length s < fuel)%nat -> is_Some (coreTypeFromString_fuel fuel s).
Proof.
  induction fuel as [|fuel IH]; intros s Hs; [lia|]. cbn [coreTypeFromString_fuel].
  destruct s as [|a s]; [done|]. destruct (find_type (String a s)); [done|].
  destruct (find_type (lower (String a s))); [done|]. cbn [lower].
  case_if; [|done]. apply IH. rewrite length_lower. cbn in Hs. lia.
Qed.

(** Parsing the name of a core type ends on every string, and it inverts
    the names the code prints for the transports, with these exceptions: the
    single-socket ZMQ core is printed as a name that parses as the plain ZMQ
    core, the NNG core as one that is not recognized, and the two names of the
    interprocess core are not told apart. *)
Theorem core_type_names (s : string) (type : core_type) :
  is_Some (coreTypeFromString s) /\
  coreTypeFromString (to_string type) = Some
    match type with
    | ZMQ_SS => ZMQ
    | NNG => UNRECOGNIZED
    | IPC => INTERPROCESS
    | UNRECOGNIZED => DEFAULT
    | t => t
    end.
Proof.
  split; [apply fuel_enough; lia|]. by destruct type.
Qed.
End CoreType.
