(* ===== verification/TimeDependencies.v ===== *)
(** * Dependencies between federates

    Models [src/helics/core/TimeDependencies.hpp] and [TimeDependencies.cpp]:
    what a federate (or a broker) knows of the time of each federate it depends
    on, and how timing messages change it. *)

From S2P Require Import Prelude HTime Identifiers ActionMessage.

(** ** [DependencyInfo] *)

(** The six states, with the order of the enumeration. *)
Inductive time_state_t :=
  | initialized
  | exec_requested_iterative
  | exec_requested
  | time_granted
  | time_requested_iterative
  | time_requested.

#[export] Instance time_state_t_eq_dec : EqDecision time_state_t.
Proof. solve_decision. Defined.

Definition state_code (st : time_state_t) : Z :=
  match st with
  | initialized => 0
  | exec_requested_iterative => 1
  | exec_requested => 2
  | time_granted => 3
  | time_requested_iterative => 4
  | time_requested => 5
  end.

Record DependencyInfo := mkDependencyInfo {
  fedID : global_federate_id;
  minFed : global_federate_id;
  time_state : time_state_t;
  Tnext : Time;
  Te : Time;
  Tdemin : Time;
  forwardEvent : Time;
}.

#[export] Instance DependencyInfo_settable : Settable DependencyInfo := fun r =>
  mkDependencyInfo (fedID r) (minFed r) (time_state r) (Tnext r) (Te r) (Tdemin r)
    (forwardEvent r).

Definition newDependency (id : global_federate_id) : DependencyInfo := {|
  fedID := id; minFed := GlobalFedId.invalid; time_state := initialized;
  Tnext := T.negEpsilon; Te := T.timeZero; Tdemin := T.timeZero; forwardEvent := T.maxVal;
|}.

(** The state a request moves to: iterative when the flag is set. *)
Definition requested (m : ActionMessage) (iter plain : time_state_t) : time_state_t :=
  if checkActionFlag m iteration_requested_flag then iter else plain.

(** [DependencyInfo::ProcessMessage]: the result is whether the message did
    anything. *)
Definition ProcessMessage (m : ActionMessage) (dep : DependencyInfo) : bool * DependencyInfo :=
  match messageAction m with
  | cmd_exec_request =>
      (true, dep <| time_state := requested m exec_requested_iterative exec_requested |>)
  | cmd_exec_grant =>
      (true,
       if negb (checkActionFlag m iteration_requested_flag)
       then dep <| time_state := time_granted |> <| Tnext := T.timeZero |>
                <| Tdemin := T.timeZero |> <| Te := T.timeZero |>
       else dep <| time_state := initialized |>)
  | cmd_time_request =>
      let dep := dep <| time_state := requested m time_requested_iterative time_requested |> in
      let dep := dep <| Tnext := actionTime m |> <| Te := ActionMessage.Te m |>
                     <| Tdemin := ActionMessage.Tdemin m |> in
      let dep := if forwardEvent dep <? Te dep then dep <| Te := forwardEvent dep |> else dep in
      let dep := if Te dep <? Tdemin dep then dep <| Tdemin := Te dep |> else dep in
      (true, dep <| forwardEvent := T.maxVal |> <| minFed := source_handle m |>)
  | cmd_time_grant =>
      (true, dep <| time_state := time_granted |> <| Tnext := actionTime m |>
                 <| Te := actionTime m |> <| Tdemin := actionTime m |>
                 <| minFed := source_handle m |>)
  | cmd_disconnect | cmd_priority_disconnect | cmd_broadcast_disconnect
  | cmd_disconnect_core | cmd_disconnect_broker | cmd_disconnect_fed =>
      (true, dep <| time_state := time_granted |> <| Tnext := T.maxVal |> <| Te := T.maxVal |>
                 <| Tdemin := T.maxVal |> <| minFed := GlobalFedId.invalid |>)
  | cmd_send_message =>
      if bool_decide (time_state dep = time_granted) then
        (false, if actionTime m <? forwardEvent dep
                then dep <| forwardEvent := actionTime m |> else dep)
      else if Tnext dep <=? actionTime m then
        if actionTime m <? Te dep then
          let dep := dep <| Te := Z.max (Tnext dep) (actionTime m) |> in
          (true, if Te dep <? Tdemin dep then dep <| Tdemin := Te dep |> else dep)
        else (false, dep)
      else
        if Tnext dep <? Te dep then
          let dep := dep <| Te := Tnext dep |> in
          (true, if Te dep <? Tdemin dep then dep <| Tdemin := Te dep |> else dep)
        else (false, dep)
  | _ => (false, dep)
  end.

(** ** [TimeDependencies]

    The vector of dependencies, sorted by identifier. *)

Abbreviation TimeDependencies := (list DependencyInfo) (only parsing).

Definition dep_bound (id : global_federate_id) (deps : TimeDependencies) : nat :=
  lower_bound fedID deps id.

Definition getDependencyInfo (id : global_federate_id) (deps : TimeDependencies)
    : option DependencyInfo := find_key fedID deps id.

Definition isDependency (ofed : global_federate_id) (deps : TimeDependencies) : bool :=
  match deps !! dep_bound ofed deps with
  | None => false
  | Some res => fedID res =? ofed
  end.

Definition addDependency (id : global_federate_id) (deps : TimeDependencies)
    : bool * TimeDependencies :=
  match deps with
  | [] => (true, [newDependency id])
  | _ =>
      match deps !! dep_bound id deps with
      | None => (true, deps ++ [newDependency id])
      | Some dep =>
          if fedID dep =? id then (false, deps)
          else (true, insert_at (dep_bound id deps) (newDependency id) deps)
      end
  end.

Definition removeDependency (id : global_federate_id) (deps : TimeDependencies)
    : TimeDependencies :=
  match deps !! dep_bound id deps with
  | None => deps
  | Some dep => if fedID dep =? id then erase_at (dep_bound id deps) deps else deps
  end.

(** The dependency a message is about: endpoint messages concern the
    destination, everything else the source. *)
Definition dependency_id (m : ActionMessage) : global_federate_id :=
  if bool_decide (messageAction m <> cmd_send_message) then source_id m else dest_id m.

Definition updateTime (m : ActionMessage) (deps : TimeDependencies) : bool * TimeDependencies :=
  match getDependencyInfo (dependency_id m) deps with
  | None => (false, deps)
  | Some dep =>
      let '(res, dep') := ProcessMessage m dep in
      (res, <[dep_bound (dependency_id m) deps := dep']> deps)
  end.

Definition checkIfReadyForExecEntry (iterating : bool) (deps : TimeDependencies) : bool :=
  if iterating
  then forallb (fun dep => negb (bool_decide (time_state dep = initialized))) deps
  else forallb (fun dep => negb (state_code (time_state dep) <? state_code exec_requested)) deps.

Definition hasActiveTimeDependencies (deps : TimeDependencies) : bool :=
  existsb (fun dep => GlobalFedId.isFederate (fedID dep) && (Tnext dep <? T.maxVal)) deps.

Definition resetIteratingExecRequests (deps : TimeDependencies) : TimeDependencies :=
  (fun dep => if bool_decide (time_state dep = exec_requested_iterative)
              then dep <| time_state := initialized |> else dep) <$> deps.

(** Both branches of the code run the same loop; they are kept apart as they
    are there. *)
Definition checkIfReadyForTimeGrant (iterating : bool) (desiredGrantTime : Time)
    (deps : TimeDependencies) : bool :=
  if iterating
  then forallb (fun dep =>
         if Tnext dep <? desiredGrantTime then false
         else negb ((Tnext dep =? desiredGrantTime) && bool_decide (time_state dep = time_granted)))
         deps
  else forallb (fun dep =>
         if Tnext dep <? desiredGrantTime then false
         else if Tnext dep =? desiredGrantTime
              then negb (bool_decide (time_state dep = time_granted)) else true)
         deps.

Definition resetIteratingTimeRequests (requestTime : Time) (deps : TimeDependencies)
    : TimeDependencies :=
  (fun dep =>
     if bool_decide (time_state dep = time_requested_iterative) then
       if Tnext dep =? requestTime
       then dep <| time_state := time_granted |> <| Te := requestTime |>
                <| Tdemin := requestTime |>
       else dep
     else dep) <$> deps.

Definition resetDependentEvents (grantTime : Time) (deps : TimeDependencies) : TimeDependencies :=
  (fun dep => let dep := dep <| Te := Z.max (Tnext dep) grantTime |> in
              dep <| Tdemin := Te dep |>) <$> deps.
