(* ===== verification/TimeDependenciesSpec.v ===== *)
(** * Dependencies between federates: properties

    The vector of dependencies implements a finite map from federates to what
    is known of them; the invariants of its elements; and what each message
    does to the known times. *)

From S2P Require Import Prelude HTime Identifiers ActionMessage TimeDependencies.

(** ** The vector as a finite map *)

Definition sorted_deps (deps : TimeDependencies) : Prop := sorted_keys fedID deps.

Definition dep_map (deps : TimeDependencies) : gmap Z DependencyInfo :=
  list_to_map ((fun d => (fedID d, d)) <$> deps).

Lemma sorted_NoDup_fst deps :
  sorted_deps deps -> NoDup (((fun d => (fedID d, d)) <$> deps).*1).
Proof.
  intros Hs. rewrite <- list_fmap_compose. cbn.
  induction deps as [|d deps IH]; cbn; [constructor|].
  apply sorted_keys_cons in Hs as [Hd Hs]. constructor; [|by apply IH].
  rewrite list_elem_of_fmap. intros (x & E & Hx). cbn in E.
  rewrite Forall_forall in Hd. specialize (Hd x Hx). lia.
Qed.

Lemma dep_map_lookup deps id d :
  sorted_deps deps -> dep_map deps !! id = Some d <-> d ∈ deps /\ fedID d = id.
Proof.
  intros Hs. unfold dep_map. rewrite <- elem_of_list_to_map by by apply sorted_NoDup_fst.
  rewrite list_elem_of_fmap. split.
  - intros (x & [= -> ->] & Hx). done.
  - intros [Hd <-]. exists d. done.
Qed.

Lemma dep_map_None deps id :
  sorted_deps deps -> dep_map deps !! id = None <-> ~ (exists d, d ∈ deps /\ fedID d = id).
Proof.
  intros Hs. split.
  - intros E (d & Hd). apply (dep_map_lookup _ _ d Hs) in Hd. congruence.
  - intros Hn. destruct (dep_map deps !! id) as [d|] eqn:E; [|done].
    apply dep_map_lookup in E; [|done]. destruct Hn. eauto.
Qed.

Lemma dep_map_ext deps (m : gmap Z DependencyInfo) :
  sorted_deps deps ->
  (forall id d, m !! id = Some d <-> d ∈ deps /\ fedID d = id) -> dep_map deps = m.
Proof.
  intros Hs Hm. apply map_eq. intros id. apply option_eq. intros d.
  by rewrite dep_map_lookup, Hm.
Qed.

Lemma getDependencyInfo_map deps id :
  sorted_deps deps -> getDependencyInfo id deps = dep_map deps !! id.
Proof.
  intros Hs. apply option_eq. intros d. unfold getDependencyInfo.
  by rewrite find_key_Some, dep_map_lookup.
Qed.

Lemma isDependency_map deps id :
  sorted_deps deps -> isDependency id deps = bool_decide (is_Some (dep_map deps !! id)).
Proof.
  intros Hs. rewrite <- getDependencyInfo_map by done.
  unfold isDependency, getDependencyInfo, find_key, dep_bound.
  destruct (deps !! _) as [d|]; [|done]. by destruct (fedID d =? id).
Qed.

(** *** Insertion *)

Lemma addDependency_cases id deps :
  sorted_deps deps ->
  addDependency id deps =
  match getDependencyInfo id deps with
  | Some _ => (false, deps)
  | None => (true, insert_at (dep_bound id deps) (newDependency id) deps)
  end.
Proof.
  intros Hs. unfold addDependency, getDependencyInfo, find_key, dep_bound.
  destruct deps as [|d0 deps0]; [done|]. set (deps := d0 :: deps0) in *.
  destruct (deps !! lower_bound fedID deps id) as [d|] eqn:E; [by destruct (fedID d =? id)|].
  apply lookup_ge_None in E. unfold insert_at.
  rewrite firstn_all2, skipn_all2 by done. done.
Qed.

Lemma addDependency_sorted id deps : sorted_deps deps -> sorted_deps (snd (addDependency id deps)).
Proof.
  intros Hs. rewrite addDependency_cases by done.
  destruct (getDependencyInfo id deps) eqn:E; [done|].
  apply insert_at_sorted; [done|done|]. by apply find_key_None.
Qed.

Lemma addDependency_map id deps :
  sorted_deps deps ->
  dep_map (snd (addDependency id deps)) =
  (if dep_map deps !! id then dep_map deps else <[id := newDependency id]> (dep_map deps)) /\
  fst (addDependency id deps) = bool_decide (dep_map deps !! id = None).
Proof.
  intros Hs. pose proof (addDependency_sorted id deps Hs) as Hs'.
  rewrite addDependency_cases in * by done. rewrite getDependencyInfo_map in * by done.
  destruct (dep_map deps !! id) as [d0|] eqn:E; [done|]. split; [|done].
  apply dep_map_ext; [done|]. intros j d. cbn [snd]. rewrite elem_of_insert_at.
  destruct (decide (id = j)) as [<-|Hne].
  - rewrite lookup_insert_eq. split; [intros [= <-]; split; [by left|done]|].
    intros [[-> | Hd] Hj]; [done|].
    apply dep_map_None in E; [|done]. destruct E. eauto.
  - rewrite lookup_insert_ne by done. rewrite dep_map_lookup by done.
    split; [tauto|]. intros [[-> | Hd] Hj]; [|done]. cbn in Hj. congruence.
Qed.

(** *** Removal *)

Lemma removeDependency_sorted id deps : sorted_deps deps -> sorted_deps (removeDependency id deps).
Proof.
  intros Hs. unfold removeDependency. destruct (deps !! _); [|done].
  case_if; [|done]. by apply erase_at_sorted.
Qed.

Lemma removeDependency_map id deps :
  sorted_deps deps -> dep_map (removeDependency id deps) = delete id (dep_map deps).
Proof.
  intros Hs. pose proof (removeDependency_sorted id deps Hs) as Hs'.
  pose proof (getDependencyInfo_map deps id Hs) as G.
  unfold getDependencyInfo, find_key, removeDependency, dep_bound in *.
  destruct (deps !! lower_bound fedID deps id) as [d0|] eqn:E;
    [destruct (Z.eqb_spec (fedID d0) id) as [Hid|]|].
  - apply dep_map_ext; [done|]. intros j d.
    rewrite (elem_of_erase_at fedID deps id d0) by done.
    rewrite lookup_delete_Some, dep_map_lookup by done. naive_solver.
  - by rewrite delete_id.
  - by rewrite delete_id.
Qed.

(** *** Update in place *)

Lemma ProcessMessage_fedID m dep : fedID (snd (ProcessMessage m dep)) = fedID dep.
Proof. unfold ProcessMessage. destruct (messageAction m); try done; by repeat case_match. Qed.

Lemma fmap_insert_key (deps : TimeDependencies) (i : nat) (d d' : DependencyInfo) :
  deps !! i = Some d -> fedID d' = fedID d -> fedID <$> <[i := d']> deps = fedID <$> deps.
Proof.
  intros Hi E. rewrite list_fmap_insert, E. apply list_insert_id. by rewrite list_lookup_fmap, Hi.
Qed.

Lemma updateTime_sorted m deps : sorted_deps deps -> sorted_deps (snd (updateTime m deps)).
Proof.
  intros Hs. unfold updateTime, getDependencyInfo, find_key.
  destruct (deps !! _) as [d|] eqn:E; [|done]. case_if; [|done].
  pose proof (ProcessMessage_fedID m d) as F.
  destruct (ProcessMessage m d) as [res d']. cbn [snd] in *.
  unfold sorted_deps, sorted_keys. by erewrite fmap_insert_key.
Qed.

Lemma updateTime_map m deps :
  sorted_deps deps ->
  dep_map (snd (updateTime m deps)) =
    alter (fun d => snd (ProcessMessage m d)) (dependency_id m) (dep_map deps) /\
  fst (updateTime m deps) =
    match dep_map deps !! dependency_id m with
    | Some d => fst (ProcessMessage m d)
    | None => false
    end.
Proof.
  intros Hs. pose proof (updateTime_sorted m deps Hs) as Hs'.
  unfold updateTime in *. remember (dependency_id m) as id eqn:Hm. clear Hm.
  rewrite getDependencyInfo_map in * by done.
  destruct (dep_map deps !! id) as [d|] eqn:E.
  2:{ split; [|done]. cbn [snd]. symmetry. apply alter_id. intros ? E'. rewrite E in E'. done. }
  pose proof (ProcessMessage_fedID m d) as F.
  destruct (ProcessMessage m d) as [res d'] eqn:Ep. cbn [fst snd] in *. split; [|done].
  apply dep_map_lookup in E as [Hd Hid]; [|done].
  pose proof (lower_bound_lookup fedID deps id d Hs Hd Hid) as Hl. fold (dep_bound id deps) in Hl.
  apply dep_map_ext; [done|]. intros j x.
  assert (x ∈ <[dep_bound id deps := d']> deps <-> x = d' \/ (x ∈ deps /\ fedID x <> id)) as Hx.
  { rewrite insert_take_drop by by eapply lookup_lt_Some.
    rewrite elem_of_app, elem_of_cons.
    pose proof (elem_of_erase_at fedID deps id d x Hs Hl Hid) as He. unfold erase_at in He.
    rewrite elem_of_app in He. fold (dep_bound id deps) in He. tauto. }
  rewrite Hx. destruct (decide (id = j)) as [<-|Hne].
  - rewrite lookup_alter_eq. rewrite (proj2 (dep_map_lookup deps id d Hs)) by done.
    cbn. rewrite Ep. cbn. split; [intros [= <-]; split; [by left|lia]|].
    intros [[-> | [_ Hn]] Hj]; done.
  - rewrite lookup_alter_ne by done. rewrite dep_map_lookup by done.
    split; [intros [Hxd <-]; split; [right; split; [done|congruence]|done]|].
    intros [[-> | [Hxd _]] Hj]; [|done]. congruence.
Qed.

(** C6: Refinement.  On a sorted vector the operations of [TimeDependencies]
    are those of a finite map from identifiers to dependency records: the
    binary searches find exactly the recorded federates, adding inserts a
    fresh record once, removing deletes it, and a timing message changes the
    one record it is about by [ProcessMessage]. *)
Theorem dependencies_refine_map (deps : TimeDependencies) (id : Z) (m : ActionMessage) :
  sorted_deps deps ->
  getDependencyInfo id deps = dep_map deps !! id /\
  isDependency id deps = bool_decide (is_Some (dep_map deps !! id)) /\
  dep_map (snd (addDependency id deps)) =
    (if dep_map deps !! id then dep_map deps else <[id := newDependency id]> (dep_map deps)) /\
  fst (addDependency id deps) = bool_decide (dep_map deps !! id = None) /\
  dep_map (removeDependency id deps) = delete id (dep_map deps) /\
  dep_map (snd (updateTime m deps)) =
    alter (fun d => snd (ProcessMessage m d)) (dependency_id m) (dep_map deps).
Proof.
  intros Hs. split; [by apply getDependencyInfo_map|]. split; [by apply isDependency_map|].
  split; [by apply addDependency_map|]. split; [by apply addDependency_map|].
  split; [by apply removeDependency_map|by apply updateTime_map].
Qed.

Definition three_deps : TimeDependencies :=
  [newDependency 131072; newDependency 131074; newDependency 1879048192].

Lemma dependencies_refine_map_witness :
  sorted_deps three_deps /\
  dep_map (removeDependency 131074 three_deps) = delete 131074 (dep_map three_deps).
Proof.
  assert (sorted_deps three_deps) as Hs by (unfold sorted_deps, sorted_keys; repeat constructor).
  split; [exact Hs|].
  exact (proj1 (proj2 (proj2 (proj2 (proj2
    (dependencies_refine_map three_deps 131074 (newMessage cmd_time_grant) Hs)))))).
Defined.

(** ** Every operation, as a transition system *)

Inductive dep_step : TimeDependencies -> TimeDependencies -> Prop :=
  | step_add id deps : dep_step deps (snd (addDependency id deps))
  | step_remove id deps : dep_step deps (removeDependency id deps)
  | step_update m deps : dep_step deps (snd (updateTime m deps))
  | step_reset_exec deps : dep_step deps (resetIteratingExecRequests deps)
  | step_reset_time t deps : dep_step deps (resetIteratingTimeRequests t deps)
  | step_reset_events t deps : dep_step deps (resetDependentEvents t deps).

Definition reachable_deps (deps : TimeDependencies) : Prop := rtc dep_step [] deps.

(** What holds of each record: the earliest dependent event is not after the
    next event. *)
Definition dep_ok (d : DependencyInfo) : Prop := Tdemin d <= Te d.

Lemma ProcessMessage_ok m d : dep_ok d -> dep_ok (snd (ProcessMessage m d)).
Proof.
  unfold dep_ok, ProcessMessage. intros Hd.
  destruct (messageAction m); cbn [snd]; try exact Hd; try (cbn; lia).
  all: repeat case_if; breflect; cbn in *; try lia.
Qed.

Lemma sorted_fmap (f : DependencyInfo -> DependencyInfo) (deps : TimeDependencies) :
  (forall d, fedID (f d) = fedID d) -> sorted_deps deps -> sorted_deps (f <$> deps).
Proof.
  intros Hf. unfold sorted_deps, sorted_keys. rewrite <- list_fmap_compose.
  erewrite (list_fmap_ext (fedID ∘ f) fedID); [done|]. intros i d _. apply Hf.
Qed.

Lemma dep_step_inv deps deps' :
  dep_step deps deps' ->
  sorted_deps deps /\ Forall dep_ok deps -> sorted_deps deps' /\ Forall dep_ok deps'.
Proof.
  intros Hstep [Hs Hok]. destruct Hstep as [id deps|id deps|m deps|deps|t deps|t deps].
  - split; [by apply addDependency_sorted|]. rewrite addDependency_cases by done.
    destruct (getDependencyInfo id deps); [done|]. apply Forall_forall. intros d.
    cbn [snd]. rewrite elem_of_insert_at. intros [-> | Hd]; [by unfold dep_ok|].
    rewrite Forall_forall in Hok. by apply Hok.
  - split; [by apply removeDependency_sorted|]. unfold removeDependency.
    destruct (deps !! _); [|done]. case_if; [|done]. unfold erase_at.
    apply Forall_app. split; [by apply Forall_take|by apply Forall_drop].
  - split; [by apply updateTime_sorted|]. unfold updateTime, getDependencyInfo, find_key.
    destruct (deps !! _) as [d|] eqn:E; [|done]. case_if; [|done].
    pose proof (ProcessMessage_ok m d) as Hp. destruct (ProcessMessage m d) as [res d'].
    apply Forall_insert; [done|]. apply Hp. rewrite Forall_lookup in Hok. by eapply Hok.
  - split; [apply sorted_fmap; [intros d; by case_if|done]|].
    apply Forall_fmap. eapply Forall_impl; [exact Hok|]. intros d Hd. cbn. by case_if.
  - split; [apply sorted_fmap; [intros d; by repeat case_if|done]|].
    apply Forall_fmap. eapply Forall_impl; [exact Hok|]. intros d Hd. cbn.
    repeat case_if; try done. unfold dep_ok. cbn. lia.
  - split; [by apply sorted_fmap|]. apply Forall_fmap. eapply Forall_impl; [exact Hok|].
    intros d Hd. unfold dep_ok. cbn. lia.
Qed.

Lemma reachable_deps_inv deps :
  reachable_deps deps -> sorted_deps deps /\ Forall dep_ok deps.
Proof.
  unfold reachable_deps. intros Hr.
  refine (rtc_ind_r (R := dep_step) (fun d => sorted_deps d /\ Forall dep_ok d) [] _ _ deps Hr).
  - split; [|constructor]. unfold sorted_deps, sorted_keys. cbn. constructor.
  - intros d1 d2 _ Hstep. by apply dep_step_inv.
Qed.

(** In every vector the operations can produce from the empty one, the
    federates are strictly increasing (so each appears once and every binary
    search is correct), and each record has its earliest dependent event not
    after its next event. *)
Theorem reachable_deps_invariant (deps : TimeDependencies) :
  reachable_deps deps -> sorted_deps deps /\ Forall dep_ok deps.
Proof. apply reachable_deps_inv. Qed.

Lemma reachable_deps_invariant_witness :
  reachable_deps (snd (addDependency 131073 (snd (addDependency 131075 [])))) /\
  sorted_deps (snd (addDependency 131073 (snd (addDependency 131075 [])))).
Proof.
  assert (reachable_deps (snd (addDependency 131073 (snd (addDependency 131075 []))))) as Hr.
  { eapply rtc_l; [apply (step_add 131075)|]. eapply rtc_l; [apply (step_add 131073)|]. apply rtc_refl. }
  split; [exact Hr|]. exact (proj1 (reachable_deps_invariant _ Hr)).
Defined.

(** ** What a run of timing messages does to one dependency *)

(** The record after a sequence of messages about it. *)
Definition process_all (ms : list ActionMessage) (d : DependencyInfo) : DependencyInfo :=
  fold_left (fun d m => snd (ProcessMessage m d)) ms d.

Lemma process_all_app l1 m l2 d :
  process_all (l1 ++ m :: l2) d = process_all l2 (snd (ProcessMessage m (process_all l1 d))).
Proof. unfold process_all. by rewrite fold_left_app. Qed.

Definition message_events (ms : list ActionMessage) : Prop :=
  Forall (fun m => messageAction m = cmd_send_message) ms.

#[export] Instance message_events_dec ms : Decision (message_events ms).
Proof. unfold message_events. apply _. Defined.

(** The earliest of an initial time and the times of the messages. *)
Definition earliest (t0 : Time) (ms : list ActionMessage) : Time :=
  fold_left (fun t m => Z.min t (actionTime m)) ms t0.

Lemma earliest_lower ms : forall t0, earliest t0 ms <= t0.
Proof.
  unfold earliest. induction ms as [|m ms IH]; intros t0; cbn [fold_left]; [lia|].
  specialize (IH (Z.min t0 (actionTime m))). lia.
Qed.

Lemma earliest_message ms m t0 : m ∈ ms -> earliest t0 ms <= actionTime m.
Proof.
  intros Hm. apply list_elem_of_split in Hm as (l1 & l2 & ->). unfold earliest.
  rewrite fold_left_app. cbn [fold_left].
  pose proof (earliest_lower l2 (Z.min (fold_left (fun t m => Z.min t (actionTime m)) l1 t0)
    (actionTime m))) as H. unfold earliest in H. lia.
Qed.

Lemma granted_message m d :
  messageAction m = cmd_send_message -> time_state d = time_granted ->
  snd (ProcessMessage m d) = d <| forwardEvent := Z.min (forwardEvent d) (actionTime m) |>.
Proof.
  intros Hm Hd. unfold ProcessMessage. rewrite Hm, Hd. cbn [bool_decide].
  rewrite bool_decide_true by done. destruct d. cbn in *.
  case_if; breflect; cbn; f_equal; lia.
Qed.

Lemma granted_messages ms : forall d,
  message_events ms -> time_state d = time_granted ->
  process_all ms d = d <| forwardEvent := earliest (forwardEvent d) ms |>.
Proof.
  unfold process_all, earliest. induction ms as [|m ms IH]; intros d Hms Hd; [by destruct d|].
  inversion Hms as [|? ? Hm Hms']; subst. cbn [fold_left].
  rewrite granted_message by done. rewrite IH by done. by destruct d.
Qed.

Lemma requested_message m d :
  messageAction m = cmd_send_message -> time_state d <> time_granted ->
  time_state (snd (ProcessMessage m d)) = time_state d /\
  Tnext (snd (ProcessMessage m d)) = Tnext d /\
  Te (snd (ProcessMessage m d)) = Z.min (Te d) (Z.max (Tnext d) (actionTime m)).
Proof.
  intros Hm Hd. unfold ProcessMessage. rewrite Hm, bool_decide_false by done.
  repeat case_if; breflect; cbn; repeat split; try done; lia.
Qed.

(** The earliest of an initial time and the times of the messages, none of
    them taken to be before [tn]. *)
Definition earliest_from (tn t0 : Time) (ms : list ActionMessage) : Time :=
  fold_left (fun t m => Z.min t (Z.max tn (actionTime m))) ms t0.

Lemma requested_messages ms : forall d,
  message_events ms -> time_state d <> time_granted ->
  time_state (process_all ms d) = time_state d /\
  Tnext (process_all ms d) = Tnext d /\
  Te (process_all ms d) = earliest_from (Tnext d) (Te d) ms.
Proof.
  unfold process_all, earliest_from.
  induction ms as [|m ms IH]; intros d Hms Hd; [done|].
  inversion Hms as [|? ? Hm Hms']; subst. cbn [fold_left].
  destruct (requested_message m d Hm Hd) as (Es & En & Ee).
  destruct (IH (snd (ProcessMessage m d))) as (Fs & Fn & Fe); [done|congruence|].
  rewrite Fs, Fn, Fe, Es, En, Ee. done.
Qed.

Lemma ProcessMessage_request r d :
  messageAction r = cmd_time_request ->
  let d' := snd (ProcessMessage r d) in
  time_state d' = requested r time_requested_iterative time_requested /\
  Tnext d' = actionTime r /\
  Te d' = Z.min (forwardEvent d) (ActionMessage.Te r) /\
  Tdemin d' = Z.min (Te d') (ActionMessage.Tdemin r) /\
  forwardEvent d' = T.maxVal.
Proof.
  intros Hr. unfold ProcessMessage. rewrite Hr. cbn zeta.
  destruct d. cbn. repeat case_if; breflect; cbn in *; repeat split; lia.
Qed.

(** Messages in flight are never lost to the time algorithm.  Endpoint
    messages recorded while their destination was granted are remembered and
    bound the event time of its next request: after any number [early] of them,
    a request [r], and any number [late] of further messages, the next event of
    the federate is the earliest of the requested one, the early messages, and
    the late messages (none of these before the requested next time). *)
Theorem message_events_kept (d : DependencyInfo) (early late : list ActionMessage)
    (r : ActionMessage) :
  time_state d = time_granted -> messageAction r = cmd_time_request ->
  message_events early -> message_events late ->
  let d' := process_all (early ++ r :: late) d in
  Tnext d' = actionTime r /\
  Te d' = earliest_from (actionTime r)
            (Z.min (earliest (forwardEvent d) early) (ActionMessage.Te r)) late /\
  (forall m, m ∈ early -> Te d' <= actionTime m) /\
  (forall m, m ∈ late -> Te d' <= Z.max (actionTime r) (actionTime m)).
Proof.
  intros Hd Hr He Hl. rewrite process_all_app, (granted_messages early d) by done.
  set (d1 := d <| forwardEvent := _ |>).
  destruct (ProcessMessage_request r d1 Hr) as (Es & En & Ee & _).
  destruct (requested_messages late (snd (ProcessMessage r d1))) as (_ & Fn & Fe).
  { done. } { rewrite Es. unfold requested. by case_if. }
  cbn zeta. rewrite Fn, Fe, En, Ee. split; [done|]. split; [done|].
  assert (forall ms t0, earliest_from (actionTime r) t0 ms <= t0) as Hle.
  { unfold earliest_from. induction ms as [|m ms IH]; intros t0; cbn [fold_left]; [lia|].
    etrans; [apply IH|lia]. }
  split; intros m Hm.
  - etrans; [apply Hle|]. pose proof (earliest_message early m (forwardEvent d) Hm). cbn. lia.
  - apply list_elem_of_split in Hm as (l1 & l2 & ->). unfold earliest_from.
    rewrite fold_left_app. cbn [fold_left].
    etrans; [apply (Hle l2)|lia].
Qed.

Definition sent_at (t : Time) : ActionMessage :=
  newMessage cmd_send_message <| actionTime := t |>.
Definition request_at (t te : Time) : ActionMessage :=
  newMessage cmd_time_request <| actionTime := t |> <| ActionMessage.Te := te |>.

Lemma message_events_kept_witness :
  Te (process_all ([sent_at 700; sent_at 500] ++ request_at 400 900 :: [sent_at 450])
        (newDependency 131072 <| time_state := time_granted |>)) <= 500.
Proof.
  refine (proj1 (proj2 (proj2 (message_events_kept (newDependency 131072 <| time_state := time_granted |>)
    [sent_at 700; sent_at 500] [sent_at 450] (request_at 400 900) _ _ _ _))) (sent_at 500) _).
  - reflexivity.
  - reflexivity.
  - repeat constructor.
  - repeat constructor.
  - right. left.
Defined.

(** ** Readiness *)

(** A dependency that allows a grant of [t]. *)
Definition allows_grant (t : Time) (d : DependencyInfo) : Prop :=
  t < Tnext d \/ (Tnext d = t /\ time_state d <> time_granted).

Lemma checkIfReadyForTimeGrant_spec iter t deps :
  checkIfReadyForTimeGrant iter t deps = true <-> Forall (allows_grant t) deps.
Proof.
  unfold checkIfReadyForTimeGrant, allows_grant.
  destruct iter; rewrite forallb_forall, Forall_forall; setoid_rewrite <- list_elem_of_In.
  all: apply forall_proper; intros d; apply forall_proper; intros _.
  all: destruct (Tnext d <? t) eqn:E1; breflect.
  1,3: split; [done|lia].
  all: destruct (Tnext d =? t) eqn:E2; breflect; cbn; try (split; [lia|done]).
  all: destruct (bool_decide_reflect (time_state d = time_granted)); cbn; naive_solver lia.
Qed.

Lemma checkIfReadyForExecEntry_spec iter deps :
  checkIfReadyForExecEntry iter deps = true <->
  Forall (fun d => if iter then time_state d <> initialized
                   else state_code exec_requested <= state_code (time_state d)) deps.
Proof.
  unfold checkIfReadyForExecEntry.
  destruct iter; rewrite forallb_forall, Forall_forall; setoid_rewrite <- list_elem_of_In.
  all: apply forall_proper; intros d; apply forall_proper; intros _.
  - rewrite negb_true_iff, bool_decide_eq_false. done.
  - rewrite negb_true_iff, Z.ltb_ge. done.
Qed.
