(* ===== verification/TimeCoordinator.v ===== *)
(** * The time coordinator of a federate

    Models [src/helics/core/TimeCoordinator.hpp] and [TimeCoordinator.cpp]:
    the state a federate keeps to decide when it may enter execution and which
    times it may be granted, and every operation on it.  The messages handed to
    [sendMessageFunction] are appended to [sent]. *)

From S2P Require Import Prelude HTime Identifiers ActionMessage Wire CoreTypes TimeDependencies.

(** ** State *)

Inductive message_process_result := no_effect | processed | delay_processing.

#[export] Instance message_process_result_eq_dec : EqDecision message_process_result.
Proof. solve_decision. Defined.

Record tcoptions := mkOptions {
  timeDelta : Time;
  inputDelay : Time;
  outputDelay : Time;
  offset : Time;
  period : Time;
  rtLag : Time;
  rtLead : Time;
  wait_for_current_time_updates : bool;
  uninterruptible : bool;
  maxIterations : Z;
}.

#[export] Instance tcoptions_settable : Settable tcoptions := fun r =>
  mkOptions (timeDelta r) (inputDelay r) (outputDelay r) (offset r) (period r) (rtLag r)
    (rtLead r) (wait_for_current_time_updates r) (uninterruptible r) (maxIterations r).

Definition default_options : tcoptions := {|
  timeDelta := T.timeEpsilon; inputDelay := T.timeZero; outputDelay := T.timeZero;
  offset := T.timeZero; period := T.timeZero; rtLag := T.timeZero; rtLead := T.timeZero;
  wait_for_current_time_updates := false; uninterruptible := false; maxIterations := 50;
|}.

Record TimeCoordinator := mkCoordinator {
  time_granted : Time;
  time_requested : Time;
  time_next : Time;
  time_minminDe : Time;
  time_minDe : Time;
  time_allow : Time;
  time_exec : Time;
  time_message : Time;
  time_value : Time;
  time_grantBase : Time;
  time_block : Time;
  dependent_federates : list global_federate_id;
  dependency_federates : list global_federate_id;
  dependencies : list DependencyInfo;
  dependents : list global_federate_id;
  timeBlocks : list (Time * Z);
  info : tcoptions;
  source_id : global_federate_id;
  iterating : bool;
  checkingExec : bool;
  executionMode : bool;
  hasInitUpdates : bool;
  iteration : Z;
  sent : list ActionMessage;
}.

#[export] Instance TimeCoordinator_settable : Settable TimeCoordinator := fun r =>
  mkCoordinator (time_granted r) (time_requested r) (time_next r) (time_minminDe r)
    (time_minDe r) (time_allow r) (time_exec r) (time_message r) (time_value r)
    (time_grantBase r) (time_block r) (dependent_federates r) (dependency_federates r)
    (dependencies r) (dependents r) (timeBlocks r) (info r) (source_id r) (iterating r)
    (checkingExec r) (executionMode r) (hasInitUpdates r) (iteration r) (sent r).

Definition new_coordinator : TimeCoordinator := {|
  time_granted := T.minVal; time_requested := T.maxVal; time_next := T.timeZero;
  time_minminDe := T.timeZero; time_minDe := T.timeZero; time_allow := T.minVal;
  time_exec := T.maxVal; time_message := T.maxVal; time_value := T.maxVal;
  time_grantBase := T.minVal; time_block := T.maxVal; dependent_federates := [];
  dependency_federates := []; dependencies := []; dependents := []; timeBlocks := [];
  info := default_options; source_id := 0; iterating := false; checkingExec := false;
  executionMode := false; hasInitUpdates := false; iteration := 0; sent := [];
|}.

Section Coordinator.
Context `{Platform}.

(** ** Sending *)

Definition sendMessageFunction (m : ActionMessage) (tc : TimeCoordinator) : TimeCoordinator :=
  tc <| sent ::= fun l => l ++ [m] |>.

Definition transmitTimingMessage (msg : ActionMessage) (tc : TimeCoordinator) : TimeCoordinator :=
  fold_left (fun tc dep => sendMessageFunction (msg <| dest_id := dep |>) tc) (dependents tc) tc.

Definition enteringExecMode (mode : iteration_request) (tc : TimeCoordinator) : TimeCoordinator :=
  if executionMode tc then tc
  else
    let tc := tc <| iterating := bool_decide (mode <> no_iterations) |>
                 <| checkingExec := true |> in
    let execreq := newMessage cmd_exec_request <| ActionMessage.source_id := source_id tc |> in
    let execreq := if iterating tc then setActionFlag iteration_requested_flag execreq else execreq in
    transmitTimingMessage execreq tc.

Definition sendTimeRequest (tc : TimeCoordinator) : TimeCoordinator :=
  let upd := newMessage cmd_time_request <| ActionMessage.source_id := source_id tc |>
               <| actionTime := time_next tc |>
               <| ActionMessage.Te := if negb (time_exec tc =? T.maxVal)
                                      then time_exec tc +t outputDelay (info tc)
                                      else time_exec tc |>
               <| ActionMessage.Tdemin := if time_minDe tc <? time_next tc
                                          then time_next tc else time_minDe tc |> in
  let upd := if iterating tc
             then setActionFlag iteration_requested_flag upd <| counter := uint16 (iteration tc) |>
             else upd in
  transmitTimingMessage upd tc.

(** ** The times a federate may be granted *)

(** With a period, a multiple of it after the last grant. *)
Definition generateAllowedTime (testTime : Time) (tc : TimeCoordinator) : Time :=
  if T.timeEpsilon <? period (info tc) then
    if testTime =? T.maxVal then testTime
    else if period (info tc) <? testTime -t time_grantBase tc then
      let blk := ceil_to_int (T.ratio (testTime -t time_grantBase tc) (period (info tc))) in
      time_grantBase tc +t period (info tc) *t blk
    else time_grantBase tc +t period (info tc)
  else testTime.

(** The loop of [getNextPossibleTime]. *)
Fixpoint period_loop (fuel : nat) (period delta retTime : Time) : option Time :=
  if retTime <? delta then
    match fuel with
    | O => None
    | S fuel' => period_loop fuel' period delta (retTime +t period)
    end
  else Some retTime.

(** The rounds it takes to pass [delta]. *)
Definition period_rounds (period delta retTime : Time) : nat :=
  Z.to_nat ((delta - retTime + period - 1) / period).

Definition getNextPossibleTime (tc : TimeCoordinator) : Time :=
  let i := info tc in
  if time_granted tc =? T.timeZero then
    if timeDelta i <? offset i then offset i
    else if offset i =? T.timeZero then generateAllowedTime (Z.max (timeDelta i) (period i)) tc
    else if period i <=? T.timeEpsilon then timeDelta i
    else
      let retTime := offset i +t period i in
      default T.maxVal
        (period_loop (period_rounds (period i) (timeDelta i) retTime) (period i) (timeDelta i) retTime)
  else generateAllowedTime (time_grantBase tc +t Z.max (timeDelta i) (period i)) tc.

(** ** Event times *)

(** The assignments to [time_exec] are those to [exec], which is stored at the
    end: nothing reads the member in between. *)
Definition updateNextExecutionTime (tc : TimeCoordinator) : bool * TimeCoordinator :=
  let cexec := time_exec tc in
  let exec :=
    if uninterruptible (info tc) then time_requested tc
    else
      let exec := Z.min (time_message tc) (time_value tc) in
      let exec := if exec <? T.maxVal then exec +t inputDelay (info tc) else exec in
      let exec := Z.min (time_requested tc) exec in
      let exec := if exec <=? time_granted tc
                  then if iterating tc then time_granted tc else getNextPossibleTime tc
                  else exec in
      if T.timeZero <? exec -t time_granted tc then generateAllowedTime exec tc else exec in
  (negb (exec =? cexec), tc <| time_exec := exec |>).

Definition updateNextPossibleEventTime (tc : TimeCoordinator) : TimeCoordinator :=
  let next := if negb (iterating tc) then getNextPossibleTime tc else time_granted tc in
  let next :=
    if uninterruptible (info tc) then time_requested tc
    else
      let next :=
        if time_minminDe tc <? T.maxVal then
          if next <? time_minminDe tc +t inputDelay (info tc)
          then generateAllowedTime (time_minminDe tc +t inputDelay (info tc)) tc
          else next
        else next in
      Z.min next (time_exec tc) +t outputDelay (info tc) in
  tc <| time_next := next |>.

(** One round of the loop over the dependencies: the minimum next time, of the
    dependent events and of the events. *)
Definition factor_step (acc : Time * Time * Time) (dep : DependencyInfo) : Time * Time * Time :=
  let '(minNext, minminDe, minDe) := acc in
  let minNext := if Tnext dep <? minNext then Tnext dep else minNext in
  let minminDe :=
    if Tnext dep <=? Tdemin dep
    then if Tdemin dep <? minminDe then Tdemin dep else minminDe
    else T.minusOne in
  let minDe := if TimeDependencies.Te dep <? minDe then TimeDependencies.Te dep else minDe in
  (minNext, minminDe, minDe).

Definition updateTimeFactors (tc : TimeCoordinator) : bool * TimeCoordinator :=
  let m0 := Z.min (time_value tc) (time_message tc) in
  let '(minNext, minminDe, minDe) := fold_left factor_step (dependencies tc) (T.maxVal, m0, m0) in
  let tc := tc <| time_minminDe := Z.min minDe minminDe |> in
  let prev_next := time_next tc in
  let tc := updateNextPossibleEventTime tc in
  let update := negb (prev_next =? time_next tc) in
  let minDe := if minDe <? T.maxVal
               then generateAllowedTime minDe tc +t outputDelay (info tc) else minDe in
  let update := update || negb (minDe =? time_minDe tc) in
  let tc := if negb (minDe =? time_minDe tc) then tc <| time_minDe := minDe |> else tc in
  let tc := tc <| time_allow := if minNext <? T.maxVal then inputDelay (info tc) +t minNext
                                else T.maxVal |> in
  (update, snd (updateNextExecutionTime tc)).

Definition timeRequest (nextTime : Time) (iterate : iteration_request)
    (newValueTime newMessageTime : Time) (tc : TimeCoordinator) : TimeCoordinator :=
  let tc := tc <| iterating := bool_decide (iterate <> no_iterations) |> in
  let '(nextTime, next) :=
    if iterating tc then
      (if nextTime <? time_granted tc then time_granted tc else nextTime, time_next tc)
    else
      let next := getNextPossibleTime tc in
      let nextTime := if nextTime <? next then next else nextTime in
      (nextTime, if uninterruptible (info tc) then nextTime else next) in
  let value := if next <? newValueTime then newValueTime else next in
  let message := if next <? newMessageTime then newMessageTime else next in
  let exec := if uninterruptible (info tc) then nextTime
              else Z.min (Z.min value message) nextTime in
  let tc := tc <| time_next := next |> <| time_requested := nextTime |>
               <| time_value := value |> <| time_message := message |> <| time_exec := exec |>
               <| dependencies ::= resetDependentEvents (time_granted tc) |> in
  let tc := snd (updateTimeFactors tc) in
  if negb (bool_decide (dependents tc = [])) then sendTimeRequest tc else tc.

(** [updateValueTime] and [updateMessageTime] differ in the field they keep. *)
Definition event_update_time (updateTime : Time) (tc : TimeCoordinator) : Time :=
  if iterating tc then
    if updateTime <=? time_granted tc then time_granted tc else updateTime
  else
    let nextPossibleTime := getNextPossibleTime tc in
    if updateTime <=? nextPossibleTime then nextPossibleTime else updateTime.

Definition request_if_changed (tc : TimeCoordinator) : TimeCoordinator :=
  let '(changed, tc) := updateNextExecutionTime tc in
  if changed then sendTimeRequest tc else tc.

Definition updateValueTime (valueUpdateTime : Time) (tc : TimeCoordinator) : TimeCoordinator :=
  if negb (executionMode tc) then
    if valueUpdateTime <? T.timeZero then tc <| hasInitUpdates := true |> else tc
  else if valueUpdateTime <? time_value tc then
    let ptime := time_value tc in
    let tc := tc <| time_value := event_update_time valueUpdateTime tc |> in
    if time_value tc <? ptime then request_if_changed tc else tc
  else tc.

Definition updateMessageTime (messageUpdateTime : Time) (tc : TimeCoordinator) : TimeCoordinator :=
  if negb (executionMode tc) then
    if messageUpdateTime <? T.timeZero then tc <| hasInitUpdates := true |> else tc
  else if messageUpdateTime <? time_message tc then
    let ptime := time_message tc in
    let tc := tc <| time_message := event_update_time messageUpdateTime tc |> in
    if time_message tc <? ptime then request_if_changed tc else tc
  else tc.

(** ** Dependencies and dependents *)

Definition addDependency (fedID : global_federate_id) (tc : TimeCoordinator)
    : bool * TimeCoordinator :=
  let '(added, deps) := TimeDependencies.addDependency fedID (dependencies tc) in
  let tc := tc <| dependencies := deps |> in
  if added then (true, tc <| dependency_federates ::= fun l => l ++ [fedID] |>) else (false, tc).

Definition addDependent (fedID : global_federate_id) (tc : TimeCoordinator)
    : bool * TimeCoordinator :=
  let record tc := tc <| dependent_federates ::= fun l => l ++ [fedID] |> in
  match dependents tc with
  | [] => (true, record (tc <| dependents := [fedID] |>))
  | _ =>
      let pos := lower_bound id (dependents tc) fedID in
      match dependents tc !! pos with
      | None => (true, record (tc <| dependents ::= fun l => l ++ [fedID] |>))
      | Some dep =>
          if dep =? fedID then (false, tc)
          else (true, record (tc <| dependents ::= insert_at pos fedID |>))
      end
  end.

(** [erase] of the first element found *)
Fixpoint erase_first (x : Z) (l : list Z) : list Z :=
  match l with
  | [] => []
  | y :: l' => if y =? x then l' else y :: erase_first x l'
  end.

Definition removeDependency (fedID : global_federate_id) (tc : TimeCoordinator) : TimeCoordinator :=
  tc <| dependencies ::= TimeDependencies.removeDependency fedID |>
     <| dependency_federates ::= erase_first fedID |>.

Definition removeDependent (fedID : global_federate_id) (tc : TimeCoordinator) : TimeCoordinator :=
  let pos := lower_bound id (dependents tc) fedID in
  match dependents tc !! pos with
  | None => tc
  | Some dep =>
      if dep =? fedID
      then tc <| dependents ::= erase_at pos |> <| dependent_federates ::= erase_first fedID |>
      else tc
  end.

Definition processDependencyUpdateMessage (cmd : ActionMessage) (tc : TimeCoordinator)
    : TimeCoordinator :=
  let fed := ActionMessage.source_id cmd in
  match messageAction cmd with
  | cmd_add_dependency => snd (addDependency fed tc)
  | cmd_remove_dependency => removeDependency fed tc
  | cmd_add_dependent => snd (addDependent fed tc)
  | cmd_remove_dependent => removeDependent fed tc
  | cmd_add_interdependency => snd (addDependent fed (snd (addDependency fed tc)))
  | cmd_remove_interdependency => removeDependent fed (removeDependency fed tc)
  | _ => tc
  end.

(** ** Timing messages *)

Definition isDelayableMessage (cmd : ActionMessage) (localId : global_federate_id) : bool :=
  (bool_decide (messageAction cmd = cmd_time_grant) ||
   bool_decide (messageAction cmd = cmd_exec_grant)) &&
  negb (ActionMessage.source_id cmd =? localId).

(** [find_if] and [erase] of the block with this message id: its time and the
    other blocks. *)
Fixpoint take_block (messageID : Z) (blocks : list (Time * Z)) : option (Time * list (Time * Z)) :=
  match blocks with
  | [] => None
  | b :: blocks' =>
      if snd b =? messageID then Some (fst b, blocks')
      else '(t, rest) ← take_block messageID blocks'; Some (t, b :: rest)
  end.

(** [min_element] of the times of the blocks *)
Definition min_block (b : Time * Z) (blocks : list (Time * Z)) : Time :=
  fold_left (fun t b => if fst b <? t then fst b else t) blocks (fst b).

Definition processTimeBlockMessage (cmd : ActionMessage) (tc : TimeCoordinator)
    : message_process_result * TimeCoordinator :=
  if bool_decide (messageAction cmd = cmd_time_block) then
    let tc := tc <| timeBlocks ::= fun l => l ++ [(actionTime cmd, messageID cmd)] |> in
    (no_effect, if actionTime cmd <? time_block tc then tc <| time_block := actionTime cmd |> else tc)
  else if bool_decide (messageAction cmd = cmd_time_unblock) then
    match timeBlocks tc with
    | [] => (no_effect, tc)
    | _ =>
        let '(ltime, blocks) := default (T.maxVal, timeBlocks tc)
                                  (take_block (messageID cmd) (timeBlocks tc)) in
        let tc := tc <| timeBlocks := blocks |> in
        if ltime <=? time_block tc then
          (processed, tc <| time_block := match blocks with
                                          | [] => T.maxVal
                                          | b :: blocks' => min_block b blocks'
                                          end |>)
        else (no_effect, tc)
    end
  else (no_effect, tc).

(** Whether a grant from a dependency has to wait. *)
Definition must_delay (dep : DependencyInfo) (tc : TimeCoordinator) : bool :=
  match time_state dep with
  | TimeDependencies.time_requested => time_exec tc <? Tnext dep
  | time_requested_iterative =>
      (time_exec tc <? Tnext dep) || (iterating tc && (time_exec tc =? Tnext dep))
  | exec_requested_iterative => iterating tc && checkingExec tc
  | _ => false
  end.

Definition update_dependencies (cmd : ActionMessage) (tc : TimeCoordinator)
    : message_process_result * TimeCoordinator :=
  let '(res, deps) := updateTime cmd (dependencies tc) in
  (if res then processed else no_effect, tc <| dependencies := deps |>).

(** The part of [processTimeMessage] after its first [switch]. *)
Definition process_dependency_time (cmd : ActionMessage) (tc : TimeCoordinator)
    : message_process_result * TimeCoordinator :=
  if isDelayableMessage cmd (source_id tc) then
    match getDependencyInfo (ActionMessage.source_id cmd) (dependencies tc) with
    | None => (no_effect, tc)
    | Some dep => if must_delay dep tc then (delay_processing, tc) else update_dependencies cmd tc
    end
  else update_dependencies cmd tc.

Definition processTimeMessage (cmd : ActionMessage) (tc : TimeCoordinator)
    : message_process_result * TimeCoordinator :=
  match messageAction cmd with
  | cmd_time_block | cmd_time_unblock => processTimeBlockMessage cmd tc
  | cmd_force_time_grant =>
      if time_granted tc <? actionTime cmd then
        let tc := tc <| time_granted := actionTime cmd |> in
        let tc := tc <| time_grantBase := time_granted tc |> in
        let treq := newMessage cmd_time_grant <| ActionMessage.source_id := source_id tc |>
                      <| actionTime := time_granted tc |> in
        (processed, transmitTimingMessage treq tc)
      else (no_effect, tc)
  | cmd_disconnect | cmd_broadcast_disconnect | cmd_disconnect_core | cmd_disconnect_fed
  | cmd_disconnect_broker =>
      process_dependency_time cmd (removeDependent (ActionMessage.source_id cmd) tc)
  | _ => process_dependency_time cmd tc
  end.

(** ** Disconnection *)

(** The federates to tell: the dependents, and the dependencies that are not
    finished. *)
Definition connections (tc : TimeCoordinator) : list global_federate_id :=
  fold_left (fun s dep => if Tnext dep <? T.maxVal then set_insert (fedID dep) s else s)
    (dependencies tc) (fold_left (fun s d => set_insert d s) (dependents tc) []).

Definition disconnect (tc : TimeCoordinator) : TimeCoordinator :=
  let bye fed := newMessage cmd_disconnect <| ActionMessage.source_id := source_id tc |>
                   <| dest_id := fed |> in
  match connections tc with
  | [] => tc
  | [fed] =>
      if fed =? source_id tc then snd (processTimeMessage (bye fed) tc)
      else sendMessageFunction (bye fed) tc
  | feds =>
      let '(multi, tc) :=
        fold_left
          (fun '(multi, tc') fed =>
             if fed =? source_id tc then (multi, snd (processTimeMessage (bye fed) tc'))
             else (snd (appendMessage multi (bye fed)), tc'))
          feds (newMessage cmd_multi_message, tc) in
      sendMessageFunction multi tc
  end.

(** ** Granting *)

Definition updateTimeGrant (tc : TimeCoordinator) : TimeCoordinator :=
  let tc := tc <| time_granted := time_exec tc |> in
  let tc := tc <| time_grantBase := time_granted tc |> in
  let treq := newMessage cmd_time_grant <| ActionMessage.source_id := source_id tc |>
                <| actionTime := time_granted tc |> <| counter := uint16 (iteration tc) |> in
  let tc := if iterating tc
            then tc <| dependencies ::= resetIteratingTimeRequests (time_exec tc) |> else tc in
  transmitTimingMessage treq tc.

(** The end of [checkTimeGrant]: nothing is granted. *)
Definition no_grant (update : bool) (tc : TimeCoordinator)
    : MPR.message_processing_result * TimeCoordinator :=
  (MPR.continue_processing,
   if negb (bool_decide (dependents tc = [])) && update then sendTimeRequest tc else tc).

Definition increment_iteration (tc : TimeCoordinator) : TimeCoordinator :=
  tc <| iteration ::= fun i => int32 (i + 1) |>.

Definition checkTimeGrant (tc : TimeCoordinator)
    : MPR.message_processing_result * TimeCoordinator :=
  let '(update, tc) := updateTimeFactors tc in
  if (time_exec tc =? T.maxVal) && (time_allow tc =? T.maxVal) then
    (MPR.halted,
     disconnect (tc <| time_granted := T.maxVal |> <| time_grantBase := T.maxVal |>))
  else if time_block tc <=? time_exec tc then (MPR.continue_processing, tc)
  else if negb (iterating tc) || (time_granted tc <? time_exec tc) then
    let tc := tc <| iteration := 0 |> in
    if time_exec tc <? time_allow tc then (MPR.next_step, updateTimeGrant tc)
    else if time_allow tc =? time_exec tc then
      if time_requested tc <=? time_exec tc then (MPR.next_step, updateTimeGrant tc)
      else if checkIfReadyForTimeGrant false (time_exec tc) (dependencies tc)
           then (MPR.next_step, updateTimeGrant tc)
           else no_grant update tc
    else no_grant update tc
  else
    if time_exec tc <? time_allow tc then
      (MPR.iterating, updateTimeGrant (increment_iteration tc))
    else if time_allow tc =? time_exec tc then
      if checkIfReadyForTimeGrant true (time_exec tc) (dependencies tc)
      then (MPR.iterating, updateTimeGrant (increment_iteration tc))
      else no_grant update tc
    else no_grant update tc.

Definition exec_entry_result (tc : TimeCoordinator) : MPR.message_processing_result :=
  if iterating tc then
    if hasInitUpdates tc then
      if maxIterations (info tc) <=? iteration tc then MPR.next_step else MPR.iterating
    else MPR.next_step
  else MPR.next_step.

Definition checkExecEntry (tc : TimeCoordinator)
    : MPR.message_processing_result * TimeCoordinator :=
  if time_block tc <=? T.timeZero then (MPR.continue_processing, tc)
  else if negb (checkIfReadyForExecEntry (iterating tc) (dependencies tc))
  then (MPR.continue_processing, tc)
  else
    let ret := exec_entry_result tc in
    let execgrant := newMessage cmd_exec_grant <| ActionMessage.source_id := source_id tc |> in
    match ret with
    | MPR.next_step =>
        let tc := tc <| time_granted := T.timeZero |> in
        let tc := tc <| time_grantBase := time_granted tc |> <| executionMode := true |>
                     <| iteration := 0 |> in
        (ret, transmitTimingMessage execgrant tc)
    | MPR.iterating =>
        let tc := increment_iteration
                    (tc <| dependencies ::= resetIteratingExecRequests |>
                        <| hasInitUpdates := false |>) in
        let execgrant := setActionFlag iteration_requested_flag
                           (execgrant <| counter := uint16 (iteration tc) |>) in
        (ret, transmitTimingMessage execgrant tc)
    | _ => (ret, tc)
    end.

(** ** Configuration *)

Definition setTimeProperty (timeProperty : Z) (propertyVal : Time) (tc : TimeCoordinator)
    : TimeCoordinator :=
  let upd f := tc <| info ::= f |> in
  if timeProperty =? Prop_.output_delay then upd (fun i => i <| outputDelay := propertyVal |>)
  else if timeProperty =? Prop_.input_delay then upd (fun i => i <| inputDelay := propertyVal |>)
  else if timeProperty =? Prop_.time_delta then
    upd (fun i => i <| timeDelta := if propertyVal <=? T.timeZero then T.timeEpsilon
                                    else propertyVal |>)
  else if timeProperty =? Prop_.period then upd (fun i => i <| period := propertyVal |>)
  else if timeProperty =? Prop_.offset then upd (fun i => i <| offset := propertyVal |>)
  else tc.

Definition setIntProperty (intProperty propertyVal : Z) (tc : TimeCoordinator) : TimeCoordinator :=
  if intProperty =? Prop_.max_iterations
  then tc <| info ::= fun i => i <| maxIterations := propertyVal |> |>
  else setTimeProperty intProperty (T.of_double (Double.of_Z propertyVal)) tc.

Definition setOptionFlag (optionFlag : Z) (value : bool) (tc : TimeCoordinator) : TimeCoordinator :=
  if optionFlag =? Flag.uninterruptible
  then tc <| info ::= fun i => i <| uninterruptible := value |> |>
  else if optionFlag =? Flag.wait_for_current_time_update
  then tc <| info ::= fun i => i <| wait_for_current_time_updates := value |> |>
  else tc.

Definition getTimeProperty (timeProperty : Z) (tc : TimeCoordinator) : Time :=
  let i := info tc in
  if timeProperty =? Prop_.output_delay then outputDelay i
  else if timeProperty =? Prop_.input_delay then inputDelay i
  else if timeProperty =? Prop_.time_delta then timeDelta i
  else if timeProperty =? Prop_.period then period i
  else if timeProperty =? Prop_.offset then offset i
  else T.minVal.

Definition getIntegerProperty (intProperty : Z) (tc : TimeCoordinator) : Z :=
  if intProperty =? Prop_.max_iterations then maxIterations (info tc) else -972.

(** [None]: the exception for a flag that is not recognized *)
Definition getOptionFlag (optionFlag : Z) (tc : TimeCoordinator) : option bool :=
  if optionFlag =? Flag.uninterruptible then Some (uninterruptible (info tc))
  else if optionFlag =? Flag.interruptible then Some (negb (uninterruptible (info tc)))
  else if optionFlag =? Flag.wait_for_current_time_update
  then Some (wait_for_current_time_updates (info tc))
  else None.

Definition processConfigUpdateMessage (cmd : ActionMessage) (tc : TimeCoordinator)
    : TimeCoordinator :=
  match messageAction cmd with
  | cmd_fed_configure_time => setTimeProperty (messageID cmd) (actionTime cmd) tc
  | cmd_fed_configure_int => setIntProperty (messageID cmd) (counter cmd) tc
  | cmd_fed_configure_flag => setOptionFlag (messageID cmd) (checkActionFlag cmd indicator_flag) tc
  | _ => tc
  end.

(** ** Queries *)

Definition getGrantedTime (tc : TimeCoordinator) : Time := time_granted tc.
Definition allowedSendTime (tc : TimeCoordinator) : Time :=
  time_granted tc +t outputDelay (info tc).
Definition getDependencies (tc : TimeCoordinator) : list global_federate_id :=
  dependency_federates tc.
Definition getDependents (tc : TimeCoordinator) : list global_federate_id :=
  dependent_federates tc.
Definition getCurrentIteration (tc : TimeCoordinator) : Z := iteration tc.
Definition hasActiveTimeDependencies (tc : TimeCoordinator) : bool :=
  TimeDependencies.hasActiveTimeDependencies (dependencies tc).

End Coordinator.
