(* ===== verification/TimeCoordinatorFacts.v ===== *)
(** * The time coordinator: how its operations change the state

    Each operation is restated as an update of the fields it touches, so that
    the properties follow by evaluation. *)

From S2P Require Import Prelude HTime Identifiers ActionMessage Wire CoreTypes TimeDependencies.
From S2P Require Import TimeDependenciesSpec TimeCoordinator.

Section Facts.
Context `{Platform}.

(** ** Sending *)

Lemma send_all_eq (msg : ActionMessage) (l : list Z) : forall tc,
  fold_left (fun tc dep => sendMessageFunction (msg <| dest_id := dep |>) tc) l tc =
  tc <| sent ::= fun s => s ++ ((fun d => msg <| dest_id := d |>) <$> l) |>.
Proof.
  induction l as [|d l IH]; intros tc; cbn [fold_left].
  - destruct tc. cbn. by rewrite app_nil_r.
  - rewrite IH. destruct tc. cbn. by rewrite <- app_assoc.
Qed.

Lemma transmit_eq msg tc :
  transmitTimingMessage msg tc =
  tc <| sent ::= fun s => s ++ ((fun d => msg <| dest_id := d |>) <$> dependents tc) |>.
Proof. apply send_all_eq. Qed.

(** The request [sendTimeRequest] sends. *)
Definition request_message (tc : TimeCoordinator) : ActionMessage :=
  let upd := newMessage cmd_time_request <| ActionMessage.source_id := source_id tc |>
               <| actionTime := time_next tc |>
               <| ActionMessage.Te := if negb (time_exec tc =? T.maxVal)
                                      then time_exec tc +t outputDelay (info tc)
                                      else time_exec tc |>
               <| ActionMessage.Tdemin := if time_minDe tc <? time_next tc
                                          then time_next tc else time_minDe tc |> in
  if iterating tc
  then setActionFlag iteration_requested_flag upd <| counter := uint16 (iteration tc) |>
  else upd.

Lemma sendTimeRequest_eq tc :
  sendTimeRequest tc =
  tc <| sent ::= fun s => s ++ ((fun d => request_message tc <| dest_id := d |>) <$> dependents tc) |>.
Proof. apply transmit_eq. Qed.

(** ** Times *)

(** The next execution time as a function of the state. *)
Definition next_exec (tc : TimeCoordinator) : Time := time_exec (snd (updateNextExecutionTime tc)).

Lemma updateNextExecutionTime_eq tc :
  updateNextExecutionTime tc =
  (negb (next_exec tc =? time_exec tc), tc <| time_exec := next_exec tc |>).
Proof. reflexivity. Qed.

Definition next_event (tc : TimeCoordinator) : Time := time_next (updateNextPossibleEventTime tc).

Lemma updateNextPossibleEventTime_eq tc :
  updateNextPossibleEventTime tc = tc <| time_next := next_event tc |>.
Proof. reflexivity. Qed.

(** The minimum over the dependencies. *)
Definition factors (tc : TimeCoordinator) : Time * Time * Time :=
  let m0 := Z.min (time_value tc) (time_message tc) in
  fold_left factor_step (dependencies tc) (T.maxVal, m0, m0).

Definition min_next (tc : TimeCoordinator) : Time := fst (fst (factors tc)).

(** What the dependencies allow. *)
Definition allowed (tc : TimeCoordinator) : Time :=
  if min_next tc <? T.maxVal then inputDelay (info tc) +t min_next tc else T.maxVal.

Lemma updateTimeFactors_eq tc :
  exists upd nx mmde mde,
    updateTimeFactors tc =
    (upd, tc <| time_minminDe := mmde |> <| time_next := nx |> <| time_minDe := mde |>
             <| time_allow := allowed tc |> <| time_exec := next_exec tc |>).
Proof.
  unfold updateTimeFactors, allowed, min_next.
  change (fold_left factor_step (dependencies tc)
    (T.maxVal, Z.min (time_value tc) (time_message tc), Z.min (time_value tc) (time_message tc)))
    with (factors tc).
  destruct (factors tc) as [[minNext minminDe] minDe]. cbn [fst].
  rewrite updateNextPossibleEventTime_eq.
  generalize (next_event (tc <| time_minminDe := minDe `min` minminDe |>)) as nx. intros nx.
  rewrite updateNextExecutionTime_eq. cbn [snd].
  set (mde := if minDe <? T.maxVal then _ else minDe).
  exists (negb (time_next tc =? nx) || negb (mde =? time_minDe tc)), nx,
    (minDe `min` minminDe), mde.
  clearbody mde. clear -H.
  change (time_minDe (tc <| time_minminDe := minDe `min` minminDe |> <| time_next := nx |>))
    with (time_minDe tc).
  destruct (Z.eqb_spec mde (time_minDe tc)) as [->|Hne]; [destruct tc|]; reflexivity.
Qed.

Lemma factor_step_next acc dep :
  fst (fst (factor_step acc dep)) = Z.min (fst (fst acc)) (Tnext dep).
Proof.
  destruct acc as [[a b] c]. cbn. case_if; breflect; lia.
Qed.

Lemma fold_factor_next deps : forall acc,
  fst (fst (fold_left factor_step deps acc)) =
  fold_left (fun t d => Z.min t (Tnext d)) deps (fst (fst acc)).
Proof.
  induction deps as [|d deps IH]; intros acc; cbn [fold_left]; [done|].
  by rewrite IH, factor_step_next.
Qed.

Lemma fold_min_le deps : forall t0,
  fold_left (fun t d => Z.min t (Tnext d)) deps t0 <= t0 /\
  (forall d, d ∈ deps -> fold_left (fun t d => Z.min t (Tnext d)) deps t0 <= Tnext d) /\
  (fold_left (fun t d => Z.min t (Tnext d)) deps t0 = t0 \/
   exists d, d ∈ deps /\ fold_left (fun t d => Z.min t (Tnext d)) deps t0 = Tnext d).
Proof.
  induction deps as [|d deps IH]; intros t0; cbn [fold_left].
  - split; [lia|]. split; [|by left]. intros d Hd. by apply not_elem_of_nil in Hd.
  - destruct (IH (Z.min t0 (Tnext d))) as (H1 & H2 & H3). split; [lia|]. split.
    + intros x Hx. apply elem_of_cons in Hx as [->|Hx]; [lia|auto].
    + destruct H3 as [H3 | (x & Hx & H3)].
      * destruct (Z.min_spec t0 (Tnext d)) as [[_ E]|[_ E]]; rewrite E in H3 at 2; [by left|].
        right. exists d. split; [left|done].
      * right. exists x. split; [by right|done].
Qed.

(** [min_next] is the least next time of the dependencies. *)
Lemma min_next_spec tc :
  min_next tc <= T.maxVal /\
  (forall d, d ∈ dependencies tc -> min_next tc <= Tnext d) /\
  (min_next tc = T.maxVal \/ exists d, d ∈ dependencies tc /\ min_next tc = Tnext d).
Proof.
  unfold min_next, factors. rewrite fold_factor_next. cbn [fst]. apply fold_min_le.
Qed.

(** ** Grants *)

Definition grant_message (tc : TimeCoordinator) : ActionMessage :=
  newMessage cmd_time_grant <| ActionMessage.source_id := source_id tc |>
    <| actionTime := time_exec tc |> <| counter := uint16 (iteration tc) |>.

Lemma updateTimeGrant_eq tc :
  updateTimeGrant tc =
  tc <| time_granted := time_exec tc |> <| time_grantBase := time_exec tc |>
     <| dependencies ::= fun l => if iterating tc then resetIteratingTimeRequests (time_exec tc) l else l |>
     <| sent ::= fun s => s ++ ((fun d => grant_message tc <| dest_id := d |>) <$> dependents tc) |>.
Proof.
  unfold updateTimeGrant. rewrite transmit_eq.
  change (iterating (tc <| time_granted := _ |> <| time_grantBase := _ |>)) with (iterating tc).
  destruct (iterating tc); [|destruct tc]; reflexivity.
Qed.

(** The outcomes of [checkTimeGrant], on the state after [updateTimeFactors]. *)
Inductive grant_case (upd : bool) (tc : TimeCoordinator)
    : MPR.message_processing_result -> TimeCoordinator -> Prop :=
  | grant_halted :
      time_exec tc = T.maxVal -> time_allow tc = T.maxVal ->
      grant_case upd tc MPR.halted
        (disconnect (tc <| time_granted := T.maxVal |> <| time_grantBase := T.maxVal |>))
  | grant_blocked :
      time_block tc <= time_exec tc ->
      grant_case upd tc MPR.continue_processing tc
  | grant_step :
      time_exec tc < time_block tc ->
      iterating tc = false \/ time_granted tc < time_exec tc ->
      time_exec tc < time_allow tc \/
      (time_allow tc = time_exec tc /\
       (time_requested tc <= time_exec tc \/ Forall (allows_grant (time_exec tc)) (dependencies tc))) ->
      grant_case upd tc MPR.next_step (updateTimeGrant (tc <| iteration := 0 |>))
  | grant_iterating :
      time_exec tc < time_block tc ->
      iterating tc = true -> time_exec tc <= time_granted tc ->
      time_exec tc < time_allow tc \/
      (time_allow tc = time_exec tc /\ Forall (allows_grant (time_exec tc)) (dependencies tc)) ->
      grant_case upd tc MPR.iterating (updateTimeGrant (increment_iteration tc))
  | grant_waits tc0 :
      tc0 = tc \/ tc0 = tc <| iteration := 0 |> ->
      time_allow tc <= time_exec tc ->
      time_exec tc < time_block tc ->
      grant_case upd tc MPR.continue_processing
        (if negb (bool_decide (dependents tc = [])) && upd then sendTimeRequest tc0 else tc0).

Lemma checkTimeGrant_cases tc :
  grant_case (fst (updateTimeFactors tc)) (snd (updateTimeFactors tc))
    (fst (checkTimeGrant tc)) (snd (checkTimeGrant tc)).
Proof.
  unfold checkTimeGrant. destruct (updateTimeFactors tc) as [upd t]. cbn [fst snd].
  destruct (_ && _) eqn:Eh; breflect; [by apply grant_halted|].
  destruct (time_block t <=? time_exec t) eqn:Eb; breflect; [by apply grant_blocked|].
  destruct (negb (iterating t) || (time_granted t <? time_exec t)) eqn:Ei.
  - change (time_exec (t <| iteration := 0 |>)) with (time_exec t).
    change (time_allow (t <| iteration := 0 |>)) with (time_allow t).
    change (time_requested (t <| iteration := 0 |>)) with (time_requested t).
    change (dependencies (t <| iteration := 0 |>)) with (dependencies t).
    assert (iterating t = false \/ time_granted t < time_exec t) as Hi.
    { apply orb_prop in Ei as [Ei|Ei]; breflect; auto. }
    assert (grant_case upd t MPR.continue_processing
              (snd (no_grant upd (t <| iteration := 0 |>)))
            \/ ~ time_allow t <= time_exec t) as Hw.
    { destruct (Z.le_gt_cases (time_allow t) (time_exec t)); [left|right; lia].
      apply (grant_waits upd t (t <| iteration := 0 |>)); [by right|done|lia]. }
    repeat case_if; breflect; cbn [fst snd] in *.
    1-3: apply grant_step; [lia|done|]; first [left; lia | right; split; [lia|]].
    + by left.
    + right. eapply checkIfReadyForTimeGrant_spec. eassumption.
    + destruct Hw; [done|lia].
    + destruct Hw; [done|lia].
  - breflect.
    assert (grant_case upd t MPR.continue_processing (snd (no_grant upd t))
            \/ ~ time_allow t <= time_exec t) as Hw.
    { destruct (Z.le_gt_cases (time_allow t) (time_exec t)); [left|right; lia].
      apply (grant_waits upd t t); [by left|done|lia]. }
    repeat case_if; breflect; cbn [fst snd] in *.
    1-2: apply grant_iterating; [lia|done|lia|]; first [left; lia | right; split; [lia|]].
    + eapply checkIfReadyForTimeGrant_spec. eassumption.
    + destruct Hw; [done|lia].
    + destruct Hw; [done|lia].
Qed.
End Facts.
