(* ===== verification/TimeCoordinatorSpec.v ===== *)
(** * The time coordinator: properties

    What a grant guarantees, how times advance, entry to execution, time
    blocks, disconnection, configuration and the bookkeeping invariant. *)

From S2P Require Import Prelude HTime Identifiers ActionMessage Wire WireSpec CoreTypes.
From S2P Require Import TimeDependencies TimeDependenciesSpec TimeCoordinator.
From S2P Require Import TimeCoordinatorFacts.

Section Spec.
Context `{Platform}.

(** ** Grants *)

(** A result that grants a time. *)
Definition granting (res : MPR.message_processing_result) : Prop :=
  res = MPR.next_step \/ res = MPR.iterating.

(** The input delay added to the next time of a dependency stays a time. *)
Definition delays_in_range (tc : TimeCoordinator) : Prop :=
  Forall (fun d => Tnext d = T.maxVal \/
                   Tnext d < T.maxVal /\ valid_time (inputDelay (info tc) + Tnext d))
    (dependencies tc).

#[export] Instance delays_in_range_dec tc : Decision (delays_in_range tc).
Proof. unfold delays_in_range. apply _. Defined.

(** Nothing in [updateTimeFactors] changes these. *)
Lemma factors_frame tc :
  let tc1 := snd (updateTimeFactors tc) in
  time_granted tc1 = time_granted tc /\ time_block tc1 = time_block tc /\
  time_requested tc1 = time_requested tc /\ dependencies tc1 = dependencies tc /\
  dependents tc1 = dependents tc /\ info tc1 = info tc /\ iterating tc1 = iterating tc /\
  source_id tc1 = source_id tc /\ sent tc1 = sent tc /\ iteration tc1 = iteration tc /\
  time_allow tc1 = allowed tc /\ time_exec tc1 = next_exec tc.
Proof.
  destruct (updateTimeFactors_eq tc) as (u & nx & a & b & ->). cbn [snd]. repeat split.
Qed.

Lemma allowed_le tc d :
  delays_in_range tc -> d ∈ dependencies tc -> Tnext d = T.maxVal \/
  allowed tc <= inputDelay (info tc) + Tnext d.
Proof.
  intros Hr Hd. destruct (min_next_spec tc) as (Hm & Hle & Hex).
  unfold delays_in_range in Hr. rewrite Forall_forall in Hr.
  destruct (Hr d Hd) as [?|[Hv _]]; [by left|]. right. specialize (Hle d Hd).
  unfold allowed. case_if; breflect.
  - destruct Hex as [Hex | (d' & Hd' & Hex)]; [lia|].
    destruct (Hr d' Hd') as [?|[_ Hv']]; [lia|]. rewrite Hex, tadd_exact by done. lia.
  - lia.
Qed.

(** The state and the conditions of a grant. *)
Lemma granting_cases tc :
  granting (fst (checkTimeGrant tc)) ->
  let tc' := snd (checkTimeGrant tc) in
  time_granted tc' = next_exec tc /\ time_grantBase tc' = next_exec tc /\
  next_exec tc < time_block tc /\
  (next_exec tc < allowed tc \/
   (allowed tc = next_exec tc /\
    (time_requested tc <= next_exec tc \/
     Forall (allows_grant (next_exec tc)) (dependencies tc)))) /\
  exists it, 
  sent tc' = sent tc ++
    ((fun d => newMessage cmd_time_grant <| ActionMessage.source_id := source_id tc |>
                 <| actionTime := next_exec tc |> <| counter := uint16 it |>
                 <| dest_id := d |>) <$> dependents tc).
Proof.
  intros Hg. pose proof (factors_frame tc) as F. cbn zeta in F.
  pose proof (checkTimeGrant_cases tc) as C.
  destruct F as (Fg & Fb & Fr & Fd & Fds & Fi & Fit & Fs & Fse & Fn & Fa & Fe).
  destruct (checkTimeGrant tc) as [res tc']. cbn [fst snd] in *.
  destruct C as [| |Hb Hi Hc|Hb Hi Hle Hc|];
    destruct Hg as [Hg|Hg]; try discriminate Hg.
  - rewrite updateTimeGrant_eq. cbn zeta. rewrite <- Fe, <- Fa, <- Fb, <- Fr, <- Fd.
    split; [done|]. split; [done|]. split; [done|]. split; [done|].
    exists 0. rewrite <- Fse, <- Fs, <- Fds. reflexivity.
  - rewrite updateTimeGrant_eq. cbn zeta. rewrite <- Fe, <- Fa, <- Fb, <- Fr, <- Fd.
    split; [done|]. split; [done|]. split; [done|]. split; [naive_solver|].
    exists (int32 (iteration (snd (updateTimeFactors tc)) + 1)).
    rewrite <- Fse, <- Fs, <- Fds. reflexivity.
Qed.

(** C1: Causality of grants.  Whenever a federate is granted a time (a step or
    an iteration), that time is before every time block, and it is not after
    the next possible event of any dependency delayed by the input delay; it
    reaches that limit only when it is the time requested, or when every
    dependency is past it or has asked for at least as much without being
    granted it. *)
Theorem grant_is_causal (tc : TimeCoordinator) :
  granting (fst (checkTimeGrant tc)) -> delays_in_range tc ->
  let t := time_granted (snd (checkTimeGrant tc)) in
  t < time_block tc /\
  (forall d, d ∈ dependencies tc -> Tnext d = T.maxVal \/ t <= inputDelay (info tc) + Tnext d) /\
  ((forall d, d ∈ dependencies tc -> Tnext d = T.maxVal \/ t < inputDelay (info tc) + Tnext d) \/
   time_requested tc <= t \/
   Forall (allows_grant t) (dependencies tc)).
Proof.
  intros Hg Hr. destruct (granting_cases tc Hg) as (Et & _ & Hb & Hc & _). cbn zeta.
  rewrite Et. split; [done|]. split.
  - intros d Hd. destruct (allowed_le tc d Hr Hd) as [?|Ha]; [by left|right].
    destruct Hc as [Hc|[Hc _]]; lia.
  - destruct Hc as [Hc|[Hc [?|?]]]; [left|by right; left|by right; right].
    intros d Hd. destruct (allowed_le tc d Hr Hd) as [?|Ha]; [by left|right]. lia.
Qed.

(** A grant is announced.  When a time is granted, each dependent is sent
    one grant message with that time, in the order of the dependents, after
    what was sent before, and the granted time is the basis of the next
    grant. *)
Theorem grant_is_announced (tc : TimeCoordinator) :
  granting (fst (checkTimeGrant tc)) ->
  let tc' := snd (checkTimeGrant tc) in
  time_grantBase tc' = time_granted tc' /\
  exists msgs, sent tc' = sent tc ++ msgs /\ dest_id <$> msgs = dependents tc /\
    Forall (fun m => messageAction m = cmd_time_grant /\
                     ActionMessage.source_id m = source_id tc /\
                     actionTime m = time_granted tc') msgs.
Proof.
  intros Hg. destruct (granting_cases tc Hg) as (Et & Eb & _ & _ & it & Es). cbn zeta.
  rewrite Et, Eb. split; [done|]. eexists. split; [exact Es|]. split.
  - rewrite <- list_fmap_compose. cbn. apply list_fmap_id.
  - apply Forall_fmap, Forall_true. intros d. done.
Qed.

Lemma check_moves (tc : TimeCoordinator) :
  let '(res, tc') := checkTimeGrant tc in
  match res with
  | MPR.continue_processing => time_granted tc' = time_granted tc
  | MPR.halted => next_exec tc = T.maxVal /\ allowed tc = T.maxVal
  | MPR.next_step | MPR.iterating => time_granted tc' = next_exec tc
  | _ => False
  end.
Proof.
  pose proof (granting_cases tc) as G. pose proof (factors_frame tc) as F. cbn zeta in F.
  pose proof (checkTimeGrant_cases tc) as C.
  destruct F as (Fg & Fb & Fr & Fd & Fds & Fi & Fit & Fs & Fse & Fn & Fa & Fe).
  destruct (checkTimeGrant tc) as [res tc']. cbn [fst snd] in *.
  destruct C as [He Ha| | | |tc0 Htc].
  - by rewrite <- Fe, <- Fa.
  - done.
  - apply G. by left.
  - apply G. by right.
  - destruct Htc as [-> | ->]; case_if; rewrite ?sendTimeRequest_eq; exact Fg.
Qed.

(** Without a grant nothing moves.  When processing continues the granted
    time is as it was; when the federate is halted it has nothing left to do
    and no dependency can affect it, and its time is the end of time. *)
Theorem no_grant_no_move (tc : TimeCoordinator) :
  let '(res, tc') := checkTimeGrant tc in
  match res with
  | MPR.continue_processing => time_granted tc' = time_granted tc
  | MPR.halted => next_exec tc = T.maxVal /\ allowed tc = T.maxVal
  | MPR.next_step | MPR.iterating => time_granted tc' = next_exec tc
  | _ => False
  end.
Proof. apply check_moves. Qed.

(** ** Entry to execution *)

(** Entering execution.  The check does nothing while a time block at or
    before zero is held or a dependency has not asked to enter (when iterating,
    has asked for nothing at all).  Otherwise the federate either enters at
    time zero and tells every dependent, or, when it is iterating and got
    initial updates with iterations left, it counts one more iteration, which
    it also tells them. *)
Theorem exec_entry (tc : TimeCoordinator) :
  let '(res, tc') := checkExecEntry tc in
  let ready := T.timeZero < time_block tc /\
    Forall (fun d => if iterating tc then time_state d <> initialized
                     else state_code exec_requested <= state_code (time_state d))
      (dependencies tc) in
  let again := iterating tc = true /\ hasInitUpdates tc = true /\
               iteration tc < maxIterations (info tc) in
  match res with
  | MPR.continue_processing => tc' = tc /\ ~ ready
  | MPR.next_step =>
      ready /\ ~ again /\ executionMode tc' = true /\ time_granted tc' = T.timeZero /\
      time_grantBase tc' = T.timeZero /\ iteration tc' = 0 /\
      dest_id <$> drop (length (sent tc)) (sent tc') = dependents tc
  | MPR.iterating =>
      ready /\ again /\ executionMode tc' = executionMode tc /\
      time_granted tc' = time_granted tc /\ hasInitUpdates tc' = false /\
      iteration tc' = int32 (iteration tc + 1) /\
      dest_id <$> drop (length (sent tc)) (sent tc') = dependents tc
  | _ => False
  end.
Proof.
  unfold checkExecEntry.
  destruct (Z.leb_spec (time_block tc) T.timeZero) as [Hb|Hb]; [split; [done|]; intros [? _]; lia|].
  destruct (checkIfReadyForExecEntry (iterating tc) (dependencies tc)) eqn:Er; cbn [negb].
  2:{ split; [done|]. intros [_ Hr]. apply not_true_iff_false in Er. apply Er.
      by apply checkIfReadyForExecEntry_spec. }
  apply checkIfReadyForExecEntry_spec in Er.
  assert (forall (l : list ActionMessage) msg (ds : list Z),
    dest_id <$> drop (length l) (l ++ ((fun d => msg <| dest_id := d |>) <$> ds)) = ds) as Hsent.
  { intros l msg ds. rewrite drop_app_length, <- list_fmap_compose. cbn. apply list_fmap_id. }
  unfold exec_entry_result.
  destruct (iterating tc) eqn:Ei; [destruct (hasInitUpdates tc) eqn:Eu|].
  - destruct (Z.leb_spec (maxIterations (info tc)) (iteration tc)) as [Hm|Hm];
      rewrite transmit_eq.
    + split; [done|]. split; [lia|]. do 4 (split; [done|]). apply Hsent.
    + split; [done|]. split; [done|]. do 4 (split; [done|]). apply Hsent.
  - rewrite transmit_eq. split; [done|]. split; [intros (_ & ? & _); congruence|].
    do 4 (split; [done|]). apply Hsent.
  - rewrite transmit_eq. split; [done|]. split; [intros (? & _ & _); congruence|].
    do 4 (split; [done|]). apply Hsent.
Qed.

(** ** Time blocks *)

(** The time block is the earliest of the blocks held. *)
Definition blocks_ok (tc : TimeCoordinator) : Prop :=
  time_block tc = fold_right (fun b t => Z.min (fst b) t) T.maxVal (timeBlocks tc).

Lemma min_block_fold b blocks :
  Forall (fun b => fst b <= T.maxVal) (b :: blocks) ->
  min_block b blocks = fold_right (fun b t => Z.min (fst b) t) T.maxVal (b :: blocks).
Proof.
  unfold min_block. intros Hb. inversion Hb as [|? ? Hb0 Hbs]; subst.
  revert b Hb Hb0. induction blocks as [|c blocks IH]; intros b Hb Hb0; cbn [fold_left fold_right]; [lia|].
  inversion Hbs as [|? ? Hc Hbs']; subst.
  specialize (IH Hbs'). cbn [fold_right] in IH. case_if; breflect.
  - rewrite (IH c) by (try constructor; done). lia.
  - rewrite (IH b) by (try constructor; done). lia.
Qed.

Lemma take_block_spec mid blocks t rest :
  take_block mid blocks = Some (t, rest) ->
  exists l1 l2, blocks = l1 ++ (t, mid) :: l2 /\ rest = l1 ++ l2 /\
    Forall (fun b => snd b <> mid) l1.
Proof.
  revert rest. induction blocks as [|[t' m'] blocks IH]; intros rest; cbn [take_block snd]; [done|].
  case_if; breflect.
  - intros [= <- <-]. subst. exists [], blocks. done.
  - destruct (take_block mid blocks) as [[t2 r2]|] eqn:E2; cbn; [|done].
    intros [= -> <-]. destruct (IH r2 eq_refl) as (l1 & l2 & -> & -> & Hl).
    exists ((t', m') :: l1), l2. split; [done|]. split; [done|]. by constructor.
Qed.

Lemma take_block_None mid blocks :
  take_block mid blocks = None -> Forall (fun b => snd b <> mid) blocks.
Proof.
  induction blocks as [|[t' m'] blocks IH]; cbn [take_block snd]; [constructor|].
  case_if; breflect; [done|].
  destruct (take_block mid blocks) as [[t2 r2]|]; cbn; [done|]. intros _. constructor; auto.
Qed.

Lemma fold_min_app l1 l2 :
  fold_right (fun b t => Z.min (fst b) t) T.maxVal (l1 ++ l2) =
  Z.min (fold_right (fun (b : Time * Z) t => Z.min (fst b) t) T.maxVal l1)
        (fold_right (fun (b : Time * Z) t => Z.min (fst b) t) T.maxVal l2).
Proof.
  induction l1 as [|b l1 IH]; cbn; [|rewrite IH; lia].
  induction l2 as [|b l2 IH2]; cbn in *; lia.
Qed.

Lemma fold_min_max (l : list (Time * Z)) :
  fold_right (fun b t => Z.min (fst b) t) T.maxVal l <= T.maxVal.
Proof. induction l as [|b l IH]; cbn [fold_right]; lia. Qed.

Lemma processTimeBlockMessage_spec (tc : TimeCoordinator) (cmd : ActionMessage) :
  blocks_ok tc -> Forall (fun b => fst b <= T.maxVal) (timeBlocks tc) ->
  let tc' := snd (processTimeBlockMessage cmd tc) in
  blocks_ok tc' /\
  (messageAction cmd = cmd_time_block ->
     timeBlocks tc' = timeBlocks tc ++ [(actionTime cmd, messageID cmd)]) /\
  (messageAction cmd = cmd_time_unblock ->
     (exists l1 t l2, timeBlocks tc = l1 ++ (t, messageID cmd) :: l2 /\
        timeBlocks tc' = l1 ++ l2 /\ Forall (fun b => snd b <> messageID cmd) l1) \/
     (tc' = tc /\ Forall (fun b => snd b <> messageID cmd) (timeBlocks tc))).
Proof.
  unfold processTimeBlockMessage. intros Hok Hmax. cbn zeta.
  pose proof (fold_min_max (timeBlocks tc)) as Hle. rewrite <- Hok in Hle.
  destruct (bool_decide_reflect (messageAction cmd = cmd_time_block)) as [Hb|Hb].
  { split; [|split; [|congruence]].
    - unfold blocks_ok in *. cbn [snd].
      change (time_block (tc <| timeBlocks ::= _ |>)) with (time_block tc).
      case_if; breflect.
      + change (actionTime cmd =
          fold_right (fun b t => Z.min (fst b) t) T.maxVal
            (timeBlocks tc ++ [(actionTime cmd, messageID cmd)])).
        rewrite fold_min_app, <- Hok. cbn [fold_right fst]. lia.
      + change (time_block tc =
          fold_right (fun b t => Z.min (fst b) t) T.maxVal
            (timeBlocks tc ++ [(actionTime cmd, messageID cmd)])).
        rewrite fold_min_app, <- Hok. cbn [fold_right fst]. lia.
    - intros _. cbn [snd]. by case_if. }
  destruct (bool_decide_reflect (messageAction cmd = cmd_time_unblock)) as [Hu|Hu]; [|done].
  destruct (timeBlocks tc) as [|b0 bs] eqn:Eb.
  { split; [done|]. split; [done|]. intros _. right. split; [done|constructor]. }
  rewrite <- Eb in *. clear Eb b0 bs.
  destruct (take_block (messageID cmd) (timeBlocks tc)) as [[t rest]|] eqn:Et;
    cbn [from_option id fst snd].
  - apply take_block_spec in Et as (l1 & l2 & El & -> & Hl1).
    assert (Forall (fun b : Time * Z => fst b <= T.maxVal) (l1 ++ l2)) as Hrest.
    { rewrite El in Hmax. rewrite Forall_app, Forall_cons in Hmax. rewrite Forall_app. tauto. }
    assert (time_block tc = Z.min t (fold_right (fun b t => Z.min (fst b) t) T.maxVal (l1 ++ l2))) as Hm.
    { rewrite Hok, El, !fold_min_app. cbn [fold_right fst]. lia. }
    change (time_block (tc <| timeBlocks := l1 ++ l2 |>)) with (time_block tc).
    split; [|split; [congruence|]].
    + case_if; breflect; unfold blocks_ok; cbn [snd].
      * change (match l1 ++ l2 with [] => T.maxVal | b :: blocks' => min_block b blocks' end =
                fold_right (fun b t => Z.min (fst b) t) T.maxVal (l1 ++ l2)).
        destruct (l1 ++ l2) as [|b bs]; [done|]. by apply min_block_fold.
      * change (time_block tc = fold_right (fun b t => Z.min (fst b) t) T.maxVal (l1 ++ l2)). lia.
    + intros _. left. exists l1, t, l2. split; [done|]. split; [by case_if|done].
  - apply take_block_None in Et.
    change (time_block (tc <| timeBlocks := timeBlocks tc |>)) with (time_block tc).
    assert (tc <| timeBlocks := timeBlocks tc |> = tc) as Es by by destruct tc.
    rewrite Es. destruct (Z.leb_spec T.maxVal (time_block tc)) as [Hm|Hm]; cbn [snd].
    + set (tb := match timeBlocks tc with [] => _ | _ => _ end).
      assert (tc <| time_block := tb |> = tc) as ->.
      { assert (tb = time_block tc) as ->; [|by destruct tc]. unfold tb. rewrite Hok.
        destruct (timeBlocks tc) as [|b bs]; [done|]. by apply min_block_fold. }
      split; [done|]. split; [congruence|]. by right.
    + split; [done|]. split; [congruence|]. by right.
Qed.

(** Time blocks.  Blocking and unblocking keep the blocking time equal to
    the earliest of the blocks held.  A block is added at the end; an unblock
    removes the first block with its identifier, if there is one, and leaves
    the others. *)
Theorem time_block_is_earliest (tc : TimeCoordinator) (cmd : ActionMessage) :
  blocks_ok tc -> Forall (fun b => fst b <= T.maxVal) (timeBlocks tc) ->
  let tc' := snd (processTimeBlockMessage cmd tc) in
  blocks_ok tc' /\
  (messageAction cmd = cmd_time_block ->
     timeBlocks tc' = timeBlocks tc ++ [(actionTime cmd, messageID cmd)]) /\
  (messageAction cmd = cmd_time_unblock ->
     (exists l1 t l2, timeBlocks tc = l1 ++ (t, messageID cmd) :: l2 /\
        timeBlocks tc' = l1 ++ l2 /\ Forall (fun b => snd b <> messageID cmd) l1) \/
     (tc' = tc /\ Forall (fun b => snd b <> messageID cmd) (timeBlocks tc))).
Proof. intros Hok Hmax. by apply processTimeBlockMessage_spec. Qed.

(** ** Configuration *)

Definition time_properties : list Z :=
  [Prop_.output_delay; Prop_.input_delay; Prop_.time_delta; Prop_.period; Prop_.offset].

(** The value a time property keeps. *)
Definition kept_value (p : Z) (v : Time) : Time :=
  if (p =? Prop_.time_delta) && (v <=? T.timeZero) then T.timeEpsilon else v.

Lemma setTimeProperty_get p q v tc :
  p ∈ time_properties ->
  getTimeProperty q (setTimeProperty p v tc) = if p =? q then kept_value p v else getTimeProperty q tc.
Proof.
  unfold time_properties. rewrite !elem_of_cons, elem_of_nil.
  intros Hp.
  assert (p = Prop_.output_delay \/ p = Prop_.input_delay \/ p = Prop_.time_delta \/
          p = Prop_.period \/ p = Prop_.offset) as Hq by tauto. clear Hp.
  unfold kept_value.
  destruct (Z.eqb_spec p q) as [<-|Hne]; destruct Hq as [->|[->|[->|[->| ->]]]]; try reflexivity.
  all: unfold getTimeProperty; repeat (case_if; breflect; [congruence || reflexivity|]); reflexivity.
Qed.

(** Configuration.  A time property reads back as it was set (a time delta
    that is not positive as the smallest one), and setting it changes no other
    property, flag or integer; unknown properties change nothing and read as
    the least time. *)
Theorem configuration_kept (p q : Z) (v : Time) (tc : TimeCoordinator) :
  let tc' := setTimeProperty p v tc in
  (p ∈ time_properties ->
     getTimeProperty q tc' = if p =? q then kept_value p v else getTimeProperty q tc) /\
  (p ∉ time_properties -> tc' = tc) /\
  (q ∉ time_properties -> getTimeProperty q tc = T.minVal) /\
  getIntegerProperty q tc' = getIntegerProperty q tc /\
  getOptionFlag q tc' = getOptionFlag q tc.
Proof.
  cbn zeta. split; [by apply setTimeProperty_get|].
  unfold time_properties. rewrite !not_elem_of_cons.
  split; [|split; [|split]].
  - intros (H1 & H2 & H3 & H4 & H5 & _). unfold setTimeProperty.
    by rewrite !(proj2 (Z.eqb_neq _ _)) by done.
  - intros (H1 & H2 & H3 & H4 & H5 & _). unfold getTimeProperty.
    by rewrite !(proj2 (Z.eqb_neq _ _)) by done.
  - unfold getIntegerProperty. case_if; [|done]. unfold setTimeProperty. by repeat case_if.
  - unfold setTimeProperty. by repeat case_if.
Qed.
End Spec.

(** ** Witnesses *)

(** Federate 131072 depends on federate 131073 and is depended on by it; both
    have asked to execute. *)
Definition two_federates : TimeCoordinator :=
  let tc := new_coordinator <| source_id := 131072 |> in
  let tc := snd (addDependent 131073 (snd (addDependency 131073 tc))) in
  let tc := enteringExecMode no_iterations tc in
  let tc := snd (processTimeMessage
              (newMessage cmd_exec_request <| ActionMessage.source_id := 131073 |>) tc) in
  let tc := snd (checkExecEntry tc) in
  snd (processTimeMessage
         (newMessage cmd_exec_grant <| ActionMessage.source_id := 131073 |>) tc).

(** It asks for one second, and the other announces an event after two. *)
Definition waiting_federate : TimeCoordinator :=
  let tc := timeRequest (H := x86_64) 1000000000 no_iterations T.maxVal T.maxVal two_federates in
  snd (processTimeMessage
         (newMessage cmd_time_request <| ActionMessage.source_id := 131073 |>
            <| actionTime := 2000000000 |> <| ActionMessage.Te := 2000000000 |>
            <| ActionMessage.Tdemin := 2000000000 |>) tc).

Lemma grant_is_causal_witness :
  time_granted (snd (checkTimeGrant (H := x86_64) waiting_federate)) = 1000000000 /\
  time_granted (snd (checkTimeGrant (H := x86_64) waiting_federate)) < time_block waiting_federate.
Proof.
  split; [vm_compute; reflexivity|].
  refine (proj1 (grant_is_causal (H := x86_64) waiting_federate _ _)).
  - left. vm_compute. reflexivity.
  - apply (bool_decide_eq_true_1 _). vm_compute. reflexivity.
Defined.

Lemma grant_is_announced_witness :
  exists msgs, sent (snd (checkTimeGrant (H := x86_64) waiting_federate)) =
                 sent waiting_federate ++ msgs /\ dest_id <$> msgs = [131073].
Proof.
  destruct (grant_is_announced (H := x86_64) waiting_federate) as (_ & msgs & Hs & Hd & _).
  - left. vm_compute. reflexivity.
  - exists msgs. split; [exact Hs|]. rewrite Hd. vm_compute. reflexivity.
Defined.

Lemma time_block_is_earliest_witness :
  blocks_ok (snd (processTimeBlockMessage
    (newMessage cmd_time_unblock <| messageID := 7 |>)
    (new_coordinator <| timeBlocks := [(500, 7); (900, 8)] |> <| time_block := 500 |>))).
Proof.
  refine (proj1 (time_block_is_earliest
    (new_coordinator <| timeBlocks := [(500, 7); (900, 8)] |> <| time_block := 500 |>)
    (newMessage cmd_time_unblock <| messageID := 7 |>) _ _)).
  - reflexivity.
  - repeat constructor; cbn; discriminate.
Defined.
