(* ===== verification/TimeAdvance.v ===== *)
(** * How time advances

    The smallest step of a federate between a request and its grant, the times
    a period allows, and the cases in which the computation of the period goes
    wrong. *)

From S2P Require Import Prelude HTime Identifiers ActionMessage Wire CoreTypes TimeDependencies.
From S2P Require Import TimeDependenciesSpec TimeCoordinator TimeCoordinatorFacts.
From S2P Require Import TimeCoordinatorSpec.

Section Advance.
Context `{Platform}.

(** ** The loop of [getNextPossibleTime] *)

Lemma period_loop_result p delta : forall fuel r,
  0 < p -> delta + p <= T.maxVal -> T.minVal <= r -> r <= delta + p ->
  (period_rounds p delta r <= fuel)%nat ->
  exists k, period_loop fuel p delta r = Some (r + Z.of_nat k * p) /\
    delta <= r + Z.of_nat k * p /\ (k = 0%nat \/ r + (Z.of_nat k - 1) * p < delta).
Proof.
  unfold period_rounds.
  induction fuel as [|fuel IH]; intros r Hp Hmax Hmin Hr Hf; cbn [period_loop];
    destruct (Z.ltb_spec r delta) as [Hlt|Hge].
  2,4: exists 0%nat; split; [f_equal; lia|]; split; [lia|by left].
  - exfalso. assert (1 <= (delta - r + p - 1) / p) by (apply Z.div_le_lower_bound; lia). lia.
  - rewrite tadd_exact by (unfold valid_time; lia).
    destruct (IH (r + p)) as (k & E & Hle & Hk); [lia|lia|lia|lia| |].
    { replace (delta - (r + p) + p - 1) with ((delta - r + p - 1) + (-1) * p) by lia.
      rewrite Z.div_add by lia. lia. }
    exists (S k). rewrite Nat2Z.inj_succ. split; [rewrite E; f_equal; lia|]. split; [lia|].
    right. destruct Hk as [->|Hk]; [cbn; lia|lia].
Qed.

(** Termination of the loop over periods.  On any period above the
    smallest time, the loop that looks for the first step not below the time
    delta ends within its bound, with the least time of the form
    offset + k * period, k >= 1, that is not below the delta. *)
Theorem period_loop_terminates (p delta off : Time) :
  T.timeEpsilon < p -> 0 < delta -> T.minVal <= off + p -> off <= delta ->
  delta + p <= T.maxVal ->
  exists k, 1 <= k /\
    period_loop (period_rounds p delta (off +t p)) p delta (off +t p) = Some (off + k * p) /\
    delta <= off + k * p /\ (forall j, 1 <= j < k -> off + j * p < delta).
Proof.
  intros Hp Hd Hmin Hoff Hmax. unfold T.timeEpsilon, CountTime.epsilon in Hp.
  rewrite tadd_exact by (unfold valid_time; lia).
  destruct (period_loop_result p delta (period_rounds p delta (off + p)) (off + p))
    as (k & E & Hle & Hk); [lia|lia|lia|lia|lia|].
  exists (Z.of_nat k + 1). split; [lia|]. split; [rewrite E; f_equal; lia|]. split; [lia|].
  intros j Hj. destruct Hk as [->|Hk]; [lia|]. nia.
Qed.

(** ** The smallest step *)

(** No period above the smallest time is set. *)
Definition no_period (tc : TimeCoordinator) : Prop := period (info tc) <= T.timeEpsilon.

Lemma allowed_no_period t tc : no_period tc -> generateAllowedTime t tc = t.
Proof. unfold no_period, generateAllowedTime. intros Hp. case_if; breflect; [lia|done]. Qed.

(** The federate advances in steps of at least its positive time delta, and
    the sums it computes are in range. *)
Definition steps_ok (tc : TimeCoordinator) : Prop :=
  no_period tc /\ 0 < timeDelta (info tc) /\ 0 <= inputDelay (info tc) /\
  time_grantBase tc = time_granted tc /\ T.minVal <= time_granted tc /\
  time_granted tc + timeDelta (info tc) + inputDelay (info tc) < T.maxVal /\
  time_granted tc + T.timeEpsilon + inputDelay (info tc) < T.maxVal /\
  offset (info tc) + inputDelay (info tc) < T.maxVal.

#[export] Instance steps_ok_dec tc : Decision (steps_ok tc).
Proof. unfold steps_ok, no_period. apply _. Defined.

Lemma next_possible_bounds tc :
  steps_ok tc ->
  time_granted tc + timeDelta (info tc) <= getNextPossibleTime tc /\
  getNextPossibleTime tc + inputDelay (info tc) < T.maxVal.
Proof.
  intros (Hp & Hd & Hi & Hb & Hmin & H1 & H2 & H3). unfold getNextPossibleTime.
  unfold no_period in Hp. unfold T.timeEpsilon, CountTime.epsilon in *.
  repeat case_if; breflect; rewrite ?allowed_no_period by done; unfold T.timeZero, CountTime.zeroVal in *.
  - lia.
  - lia.
  - lia.
  - lia.
  - rewrite Hb. rewrite tadd_exact by (unfold valid_time; lia). lia.
Qed.

(** An event time that is the end of time or can be delayed. *)
Definition event_ok (t : Time) (tc : TimeCoordinator) : Prop :=
  t = T.maxVal \/ t + inputDelay (info tc) < T.maxVal.

(** The state between a request and its grant. *)
Definition waiting (tc : TimeCoordinator) : Prop :=
  steps_ok tc /\ iterating tc = false /\ executionMode tc = true /\
  let least := time_granted tc + timeDelta (info tc) in
  least <= time_requested tc /\
  (least <= time_value tc /\ event_ok (time_value tc) tc) /\
  (least <= time_message tc /\ event_ok (time_message tc) tc).

Lemma waiting_exec tc :
  waiting tc -> time_granted tc + timeDelta (info tc) <= next_exec tc.
Proof.
  intros (Hs & Hit & _ & Hr & (Hv & Hvo) & (Hm & Hmo)).
  pose proof (next_possible_bounds tc Hs) as [Hn _].
  destruct Hs as (Hp & Hd & Hi & Hb & Hmin & H1 & _).
  unfold next_exec, updateNextExecutionTime. cbn [snd].
  change (time_exec (tc <| time_exec := ?e |>)) with e.
  destruct (uninterruptible (info tc)); [done|].
  rewrite allowed_no_period by done. rewrite Hit.
  set (mv := Z.min (time_message tc) (time_value tc)).
  assert (time_granted tc + timeDelta (info tc) <=
          (if mv <? T.maxVal then mv +t inputDelay (info tc) else mv)) as Hmv.
  { unfold event_ok in *. case_if; breflect; [|lia]. rewrite tadd_exact; [lia|].
    unfold valid_time. lia. }
  set (ev := if mv <? T.maxVal then _ else mv) in *.
  assert (time_granted tc + timeDelta (info tc) <=
          (if Z.min (time_requested tc) ev <=? time_granted tc then getNextPossibleTime tc
           else Z.min (time_requested tc) ev)) by (case_if; lia).
  by destruct (T.timeZero <? _).
Qed.

(** ** Between a request and its grant *)

(** What the steps below leave alone. *)
Definition same_times (a b : TimeCoordinator) : Prop :=
  time_granted a = time_granted b /\ time_grantBase a = time_grantBase b /\
  time_requested a = time_requested b /\ time_value a = time_value b /\
  time_message a = time_message b /\ info a = info b /\ iterating a = iterating b /\
  executionMode a = executionMode b.

Lemma same_times_waiting a b : same_times a b -> waiting a -> waiting b.
Proof.
  unfold same_times, waiting, steps_ok, no_period, event_ok.
  intros (-> & -> & -> & -> & -> & -> & -> & ->). done.
Qed.

Lemma same_times_refl a : same_times a a.
Proof. done. Qed.

Lemma removeDependent_same fed tc : same_times tc (removeDependent fed tc).
Proof. unfold removeDependent. destruct (dependents tc !! _); [|done]. by case_if. Qed.

Lemma update_dependencies_same cmd tc : same_times tc (snd (update_dependencies cmd tc)).
Proof. unfold update_dependencies. by destruct (updateTime cmd (dependencies tc)). Qed.

Lemma process_dependency_time_same cmd tc :
  same_times tc (snd (process_dependency_time cmd tc)).
Proof.
  unfold process_dependency_time. case_if; [|apply update_dependencies_same].
  destruct (getDependencyInfo _ _); [|done]. case_if; [done|]. apply update_dependencies_same.
Qed.

Lemma processTimeBlockMessage_same cmd tc :
  same_times tc (snd (processTimeBlockMessage cmd tc)).
Proof.
  unfold processTimeBlockMessage. case_if; [by case_if|]. case_if; [|done].
  destruct (timeBlocks tc); [done|]. destruct (default _ _). by case_if.
Qed.

Lemma processTimeMessage_same cmd tc :
  messageAction cmd <> cmd_force_time_grant ->
  same_times tc (snd (processTimeMessage cmd tc)).
Proof.
  intros Hf. unfold processTimeMessage.
  pose proof (process_dependency_time_same cmd (removeDependent (ActionMessage.source_id cmd) tc)) as H1.
  pose proof (removeDependent_same (ActionMessage.source_id cmd) tc) as H2.
  assert (same_times tc (snd (process_dependency_time cmd
            (removeDependent (ActionMessage.source_id cmd) tc)))) as H3.
  { unfold same_times in *. intuition congruence. }
  pose proof (process_dependency_time_same cmd tc).
  pose proof (processTimeBlockMessage_same cmd tc).
  destruct (messageAction cmd); done.
Qed.

Lemma dependency_update_same cmd tc :
  same_times tc (processDependencyUpdateMessage cmd tc).
Proof.
  assert (forall f t, same_times t (snd (addDependency f t))) as Ha.
  { intros f t. unfold addDependency. destruct (TimeDependencies.addDependency _ _). by case_if. }
  assert (forall f t, same_times t (snd (addDependent f t))) as Hb.
  { intros f t. unfold addDependent. destruct (dependents t) eqn:E; [done|].
    destruct (_ !! _); [|done]. by case_if. }
  assert (forall f t, same_times t (removeDependency f t)) as Hc by done.
  pose proof removeDependent_same as Hd.
  unfold processDependencyUpdateMessage.
  destruct (messageAction cmd); try done.
  all: try (apply Ha || apply Hb || apply Hd).
  - pose proof (Ha (ActionMessage.source_id cmd) tc) as H1.
    pose proof (Hb (ActionMessage.source_id cmd) (snd (addDependency (ActionMessage.source_id cmd) tc))) as H2.
    unfold same_times in *. intuition congruence.
  - pose proof (Hd (ActionMessage.source_id cmd) (removeDependency (ActionMessage.source_id cmd) tc)) as H2.
    unfold same_times in *. intuition congruence.
Qed.

(** Writing one event time. *)
Lemma waiting_value tc v :
  waiting tc -> time_granted tc + timeDelta (info tc) <= v -> event_ok v tc ->
  waiting (tc <| time_value := v |>).
Proof. intros (Hs & Hit & Hx & Hr & Hv & Hm) H1 H2. repeat (split; [done|]). done. Qed.

Lemma waiting_message tc v :
  waiting tc -> time_granted tc + timeDelta (info tc) <= v -> event_ok v tc ->
  waiting (tc <| time_message := v |>).
Proof. intros (Hs & Hit & Hx & Hr & Hv & Hm) H1 H2. repeat (split; [done|]). done. Qed.

Lemma event_update_ok tc t :
  waiting tc -> event_ok t tc ->
  time_granted tc + timeDelta (info tc) <= event_update_time t tc /\
  event_ok (event_update_time t tc) tc.
Proof.
  intros (Hs & Hit & _) Ht. pose proof (next_possible_bounds tc Hs) as [Hn Hm].
  unfold event_update_time. rewrite Hit. unfold event_ok in *. case_if; breflect; lia.
Qed.

Lemma sendTimeRequest_same tc : same_times tc (sendTimeRequest tc).
Proof. by rewrite sendTimeRequest_eq. Qed.

Lemma request_if_changed_same tc : same_times tc (request_if_changed tc).
Proof.
  unfold request_if_changed. rewrite updateNextExecutionTime_eq.
  case_if; [|done]. by rewrite sendTimeRequest_eq.
Qed.

Lemma updateValueTime_waiting t tc :
  waiting tc -> event_ok t tc -> waiting (updateValueTime t tc) /\
  time_granted (updateValueTime t tc) = time_granted tc /\ info (updateValueTime t tc) = info tc.
Proof.
  intros Hw Ht. destruct (event_update_ok tc t Hw Ht) as [H1 H2].
  unfold updateValueTime. destruct (executionMode tc) eqn:Ex; cbn [negb].
  2:{ destruct Hw as (_ & _ & ? & _). congruence. }
  case_if; [|done]. pose proof (waiting_value tc _ Hw H1 H2) as Hw'.
  case_if; [|done].
  pose proof (request_if_changed_same (tc <| time_value := event_update_time t tc |>)) as Hs.
  split; [by eapply same_times_waiting|]. unfold same_times in Hs. 
  destruct Hs as (<- & _ & _ & _ & _ & <- & _). done.
Qed.

Lemma updateMessageTime_waiting t tc :
  waiting tc -> event_ok t tc -> waiting (updateMessageTime t tc) /\
  time_granted (updateMessageTime t tc) = time_granted tc /\ info (updateMessageTime t tc) = info tc.
Proof.
  intros Hw Ht. destruct (event_update_ok tc t Hw Ht) as [H1 H2].
  unfold updateMessageTime. destruct (executionMode tc) eqn:Ex; cbn [negb].
  2:{ destruct Hw as (_ & _ & ? & _). congruence. }
  case_if; [|done]. pose proof (waiting_message tc _ Hw H1 H2) as Hw'.
  case_if; [|done].
  pose proof (request_if_changed_same (tc <| time_message := event_update_time t tc |>)) as Hs.
  split; [by eapply same_times_waiting|]. unfold same_times in Hs.
  destruct Hs as (<- & _ & _ & _ & _ & <- & _). done.
Qed.

Lemma checkTimeGrant_waits_same tc :
  fst (checkTimeGrant tc) = MPR.continue_processing -> same_times tc (snd (checkTimeGrant tc)).
Proof.
  intros Hc. pose proof (checkTimeGrant_cases tc) as C.
  destruct (updateTimeFactors_eq tc) as (u & nx & a & b & E). rewrite E in C.
  destruct (checkTimeGrant tc) as [res tc']. cbn [fst snd] in *.
  destruct C as [| | | |tc0 Htc]; try discriminate Hc; [done|].
  destruct Htc as [-> | ->]; case_if; rewrite ?sendTimeRequest_eq; done.
Qed.

(** What can happen between a request and its grant: values and messages
    arrive, timing messages and dependency changes are processed, and the grant
    is checked without success. *)
Inductive wait_step : TimeCoordinator -> TimeCoordinator -> Prop :=
  | wait_value t tc : event_ok t tc -> wait_step tc (updateValueTime t tc)
  | wait_message t tc : event_ok t tc -> wait_step tc (updateMessageTime t tc)
  | wait_timing cmd tc :
      messageAction cmd <> cmd_force_time_grant ->
      wait_step tc (snd (processTimeMessage cmd tc))
  | wait_dependency cmd tc : wait_step tc (processDependencyUpdateMessage cmd tc)
  | wait_check tc :
      fst (checkTimeGrant tc) = MPR.continue_processing ->
      wait_step tc (snd (checkTimeGrant tc)).

Lemma wait_step_waiting tc tc' :
  wait_step tc tc' -> waiting tc ->
  waiting tc' /\ time_granted tc' = time_granted tc /\ info tc' = info tc.
Proof.
  assert (forall a b, same_times a b -> waiting a ->
            waiting b /\ time_granted b = time_granted a /\ info b = info a) as Hsame.
  { intros a b Hs Hw. split; [by eapply same_times_waiting|].
    unfold same_times in Hs. destruct Hs as (-> & _ & _ & _ & _ & -> & _). done. }
  intros Hstep Hw. destruct Hstep as [t tc Ht|t tc Ht|cmd tc Hc|cmd tc|tc Hc].
  - by apply updateValueTime_waiting.
  - by apply updateMessageTime_waiting.
  - by apply Hsame; [apply processTimeMessage_same|].
  - by apply Hsame; [apply dependency_update_same|].
  - by apply Hsame; [apply checkTimeGrant_waits_same|].
Qed.

(** The state [timeRequest] computes before it updates the time factors. *)
Lemma timeRequest_eq t v m tc :
  let next := getNextPossibleTime tc in
  let nt := Z.max next t in
  let nx := if uninterruptible (info tc) then nt else next in
  exists e tc1, timeRequest t no_iterations v m tc = tc1 /\
    same_times (tc <| iterating := false |> <| time_requested := nt |>
                   <| time_value := Z.max v nx |> <| time_message := Z.max m nx |>
                   <| time_exec := e |>) tc1.
Proof.
  cbn zeta. unfold timeRequest. rewrite bool_decide_false by (intros []; done).
  change (iterating (tc <| iterating := false |>)) with false. cbn iota.
  change (getNextPossibleTime (tc <| iterating := false |>)) with (getNextPossibleTime tc).
  change (info (tc <| iterating := false |>)) with (info tc).
  assert (forall a b : Z, (if b <? a then a else b) = Z.max a b) as Hmax
    by (intros; case_if; breflect; lia).
  rewrite !Hmax.
  set (nx := if uninterruptible (info tc) then _ else getNextPossibleTime tc).
  match goal with |- exists e tc1, (if _ then sendTimeRequest (snd (updateTimeFactors ?r)) else _) = _ /\ _ =>
    set (tc1 := r); destruct (updateTimeFactors_eq tc1) as (u & n & a & b & ->) end.
  cbn [snd]. exists (next_exec tc1). eexists. split; [reflexivity|].
  case_if; rewrite ?sendTimeRequest_eq; repeat (split; [reflexivity|]); reflexivity.
Qed.

Lemma timeRequest_frame t iter v m tc :
  dependencies (timeRequest t iter v m tc) =
    resetDependentEvents (time_granted tc) (dependencies tc) /\
  time_block (timeRequest t iter v m tc) = time_block tc.
Proof.
  unfold timeRequest. destruct (if iterating _ then _ else _) as [nt nx].
  match goal with |- context [updateTimeFactors ?r] =>
    set (tc1 := r); destruct (updateTimeFactors_eq tc1) as (u & n & a & b & ->) end.
  cbn [snd]. case_if; rewrite ?sendTimeRequest_eq; done.
Qed.

Lemma timeRequest_waiting tc t v m :
  steps_ok tc -> executionMode tc = true -> event_ok t tc -> event_ok v tc -> event_ok m tc ->
  waiting (timeRequest t no_iterations v m tc) /\
  time_granted (timeRequest t no_iterations v m tc) = time_granted tc /\
  info (timeRequest t no_iterations v m tc) = info tc.
Proof.
  intros Hs Hx Ht Hv Hm. destruct (next_possible_bounds tc Hs) as [Hn Hn'].
  destruct (timeRequest_eq t v m tc) as (e & tc1 & -> & Hsame).
  set (nx := if uninterruptible (info tc) then _ else _) in Hsame.
  split; [|destruct Hsame as (<- & _ & _ & _ & _ & <- & _); done].
  eapply same_times_waiting; [exact Hsame|].
  assert (getNextPossibleTime tc <= nx /\ event_ok nx tc) as [Hnx Hnxo].
  { unfold nx, event_ok in *. case_if; lia. }
  split; [exact Hs|]. split; [done|]. split; [exact Hx|].
  unfold event_ok in *. cbn. lia.
Qed.

(** C2: The time delta is respected by a federate without a period.  From a
    non-iterative request on, whatever values, messages, timing messages other
    than [CMD_FORCE_TIME_GRANT] and dependency changes arrive and however often
    the grant is checked, the time finally granted is at least the time held at
    the request plus the time delta.  The federate is not configured in between,
    and the sums of its times are below the largest time. *)
Theorem time_delta_respected (tc tc1 : TimeCoordinator) (t v m : Time) :
  steps_ok tc -> executionMode tc = true -> event_ok t tc -> event_ok v tc -> event_ok m tc ->
  rtc wait_step (timeRequest t no_iterations v m tc) tc1 ->
  granting (fst (checkTimeGrant tc1)) ->
  time_granted tc1 = time_granted tc /\
  time_granted tc + timeDelta (info tc) <= time_granted (snd (checkTimeGrant tc1)).
Proof.
  intros Hs Hx Ht Hv Hm Hrun Hg.
  destruct (timeRequest_waiting tc t v m) as (Hw & E1 & E2); try done.
  assert (waiting tc1 /\ time_granted tc1 = time_granted tc /\ info tc1 = info tc) as (Hw1 & Eg & Ei).
  { revert Hw E1 E2. induction Hrun as [x|x y z Hxy Hyz IH]; intros Hw E1 E2; [done|].
    destruct (wait_step_waiting x y Hxy Hw) as (Hy & F1 & F2). apply IH; congruence. }
  split; [done|]. destruct (granting_cases tc1 Hg) as (-> & _).
  rewrite <- Eg, <- Ei. by apply waiting_exec.
Qed.

(** ** Periods *)

(** The number of periods needed to reach a distance. *)
Definition periods_to (a p : Z) : Z := - ((- a) / p).

Lemma periods_to_spec a p :
  0 < p -> a <= periods_to a p * p /\ (periods_to a p - 1) * p < a.
Proof.
  intros Hp. unfold periods_to. pose proof (Z.div_mod (- a) p ltac:(lia)).
  pose proof (Z.mod_pos_bound (- a) p Hp). nia.
Qed.

(** Periods.  Where the floating-point quotient is accurate for the
    distance at hand and the result is in range, the allowed time for [t] is
    the first time at least one period after the last grant, a whole number of
    periods after it, that is not before [t]. *)
Theorem period_rounds_up (tc : TimeCoordinator) (t : Time) :
  let p := period (info tc) in
  let base := time_grantBase tc in
  T.timeEpsilon < p -> valid_time base -> base <= t -> t - base + p < T.maxVal ->
  t + p < T.maxVal -> base + p < T.maxVal ->
  ceil_to_int (T.ratio (t - base) p) = periods_to (t - base) p ->
  exists k, generateAllowedTime t tc = base + k * p /\ 1 <= k /\ t <= base + k * p /\
    (k = 1 \/ base + (k - 1) * p < t).
Proof.
  cbn zeta. intros Hp Hb Hle Hdist Ht Hbp Hexact. unfold generateAllowedTime.
  unfold T.timeEpsilon, CountTime.epsilon, valid_time in *.
  destruct (Z.ltb_spec 1 (period (info tc))); [|lia].
  destruct (Z.eqb_spec t T.maxVal); [lia|].
  rewrite tsub_exact by (unfold valid_time; rewrite minVal_eq; lia).
  destruct (periods_to_spec (t - time_grantBase tc) (period (info tc)) ltac:(lia)) as [H1 H2].
  destruct (Z.ltb_spec (period (info tc)) (t - time_grantBase tc)).
  - rewrite Hexact. exists (periods_to (t - time_grantBase tc) (period (info tc))).
    set (k := periods_to _ _) in *. assert (1 <= k) by nia.
    rewrite tmuli_exact by (unfold valid_time; rewrite minVal_eq in *; nia).
    rewrite tadd_exact by (unfold valid_time; nia). split; [lia|]. split; [done|]. split; [lia|].
    right. lia.
  - exists 1. rewrite tadd_exact by (unfold valid_time; lia). split; [lia|]. split; [done|].
    split; [lia|by left].
Qed.

(** Nothing limits the grant: no dependency and no time block at [t]. *)
Definition unconstrained (t : Time) (tc : TimeCoordinator) : Prop :=
  dependencies tc = [] /\ t < time_block tc /\ t < T.maxVal.

Lemma unconstrained_grant tc :
  unconstrained (next_exec tc) tc -> iterating tc = false ->
  fst (checkTimeGrant tc) = MPR.next_step /\
  time_granted (snd (checkTimeGrant tc)) = next_exec tc.
Proof.
  intros (Hd & Hb & Hm) Hi.
  assert (allowed tc = T.maxVal) as Ha.
  { unfold allowed, min_next, factors. rewrite Hd. reflexivity. }
  pose proof (factors_frame tc) as F. cbn zeta in F. 
  destruct F as (Fg & Fb & Fr & Fd & Fds & Fi & Fit & Fs & Fse & Fn & Fa & Fe).
  pose proof (check_moves tc) as M. pose proof (checkTimeGrant_cases tc) as C.
  destruct (checkTimeGrant tc) as [res tc']. cbn [fst snd] in *.
  destruct C as [He| | |? Hit|]; try (split; [done|exact M]); exfalso; try congruence; lia.
Qed.

(** The offset is lost with a period.  A federate in execution at time zero
    with an offset between its time delta and its period, that asks for a time
    up to the offset and is limited by nothing, is granted its period: neither
    the offset nor any time of the form n * period + offset. *)
Theorem offset_ignored_with_period (tc : TimeCoordinator) (t : Time) :
  time_granted tc = 0 -> time_grantBase tc = 0 ->
  uninterruptible (info tc) = false -> inputDelay (info tc) = 0 ->
  T.timeEpsilon < period (info tc) -> 0 < timeDelta (info tc) ->
  timeDelta (info tc) < offset (info tc) -> offset (info tc) < period (info tc) ->
  unconstrained (period (info tc)) tc -> t <= offset (info tc) ->
  let tc' := timeRequest t no_iterations T.maxVal T.maxVal tc in
  fst (checkTimeGrant tc') = MPR.next_step /\
  time_granted (snd (checkTimeGrant tc')) = period (info tc).
Proof.
  intros Hg Hb Hu Hin Hp Hd Hdo Hop (Hdep & Hblk & Hmax) Ht. cbn zeta.
  assert (getNextPossibleTime tc = offset (info tc)) as Hn.
  { unfold getNextPossibleTime. rewrite Hg. cbn. case_if; breflect; [done|lia]. }
  pose proof (timeRequest_frame t no_iterations T.maxVal T.maxVal tc) as (Hdeps & Hblock).
  destruct (timeRequest_eq t T.maxVal T.maxVal tc) as (e & tc1 & E1 & Hsame).
  rewrite E1 in *. rewrite Hu, Hn in Hsame.
  destruct Hsame as (S1 & S2 & S3 & S4 & S5 & S6 & S7 & S8). cbn in S1, S2, S3, S4, S5, S6, S7.
  rewrite Z.max_l in S3, S4, S5 by time_lia.
  assert (next_exec tc1 = period (info tc)) as He.
  { unfold next_exec, updateNextExecutionTime. cbn [snd].
    change (time_exec (tc1 <| time_exec := ?x |>)) with x.
    rewrite <- S6, <- S1, <- S3, <- S4, <- S5, <- S7, Hu, Hg, Z.min_id.
    destruct (Z.ltb_spec T.maxVal T.maxVal); [lia|]. rewrite Z.min_l by time_lia.
    destruct (Z.leb_spec (offset (info tc)) 0); [lia|].
    rewrite tsub_exact by time_lia. rewrite Z.sub_0_r.
    destruct (Z.ltb_spec T.timeZero (offset (info tc))); [|time_lia].
    unfold generateAllowedTime. rewrite <- S6, <- S2, Hb.
    destruct (Z.ltb_spec T.timeEpsilon (period (info tc))); [|lia].
    destruct (Z.eqb_spec (offset (info tc)) T.maxVal); [lia|].
    rewrite tsub_exact, Z.sub_0_r by time_lia.
    destruct (Z.ltb_spec (period (info tc)) (offset (info tc))); [lia|].
    rewrite tadd_exact by time_lia. lia. }
  rewrite <- He. apply unconstrained_grant; [|done]. rewrite He. split; [|by rewrite Hblock].
  rewrite Hdeps, Hdep. done.
Qed.
End Advance.

(** ** Where the period computation fails *)

(** A federate alone in execution at time zero, with a period. *)
Definition periodic (p : Time) : TimeCoordinator :=
  new_coordinator <| time_granted := 0 |> <| time_grantBase := 0 |> <| executionMode := true |>
    <| info ::= fun i => i <| period := p |> |>.

(** The quotient loses small differences.  With a period of one second, a
    federate at zero that asks for 10^8 seconds and one nanosecond is granted
    10^8 seconds, before the time it asked for: the distance in seconds as a
    binary64 number has lost the nanosecond. *)
Theorem period_quotient_loses_ticks :
  let tc := timeRequest (H := x86_64) (10 ^ 17 + 1) no_iterations T.maxVal T.maxVal
              (periodic (10 ^ 9)) in
  time_requested tc = 10 ^ 17 + 1 /\
  fst (checkTimeGrant (H := x86_64) tc) = MPR.next_step /\
  time_granted (snd (checkTimeGrant (H := x86_64) tc)) = 10 ^ 17.
Proof. vm_compute. auto. Qed.

(** The number of periods is an [int].  With a period of one microsecond, a
    federate at zero that asks for 2^31 periods (under 36 minutes) is granted,
    where the out-of-range conversion gives the least [int], a time before the
    one it holds. *)
Theorem period_count_overflows :
  let tc := timeRequest (H := x86_64) (2 ^ 31 * 1000) no_iterations T.maxVal T.maxVal
              (periodic 1000) in
  fst (checkTimeGrant (H := x86_64) tc) = MPR.next_step /\
  time_granted (snd (checkTimeGrant (H := x86_64) tc)) = - (2 ^ 31 * 1000).
Proof. vm_compute. auto. Qed.

(** ** Witnesses *)

Lemma period_loop_terminates_witness :
  exists k, 1 <= k /\
    period_loop (period_rounds 300 1000 (100 +t 300)) 300 1000 (100 +t 300) = Some (100 + k * 300) /\
    1000 <= 100 + k * 300.
Proof.
  destruct (period_loop_terminates 300 1000 100) as (k & H1 & H2 & H3 & _);
    [reflexivity|lia|vm_compute; discriminate|lia|vm_compute; discriminate|].
  exists k. auto.
Defined.

Lemma time_delta_respected_witness :
  1 <= time_granted (snd (checkTimeGrant (H := x86_64)
         (updateValueTime (H := x86_64) 400
           (timeRequest (H := x86_64) 700 no_iterations T.maxVal T.maxVal (periodic 0))))).
Proof.
  refine (proj2 (time_delta_respected (H := x86_64) (periodic 0) _ 700 T.maxVal T.maxVal
                   _ _ _ _ _ _ _)).
  - apply (bool_decide_eq_true_1 _). vm_compute. reflexivity.
  - reflexivity.
  - right. vm_compute. reflexivity.
  - left. reflexivity.
  - left. reflexivity.
  - eapply rtc_l; [|apply rtc_refl]. apply wait_value. right. vm_compute. reflexivity.
  - left. vm_compute. reflexivity.
Defined.

Lemma period_rounds_up_witness :
  exists k, generateAllowedTime (H := x86_64) 2500000000 (periodic (10 ^ 9)) = 0 + k * 10 ^ 9 /\
    1 <= k /\ 2500000000 <= 0 + k * 10 ^ 9.
Proof.
  destruct (period_rounds_up (H := x86_64) (periodic (10 ^ 9)) 2500000000)
    as (k & H1 & H2 & H3 & _);
    [reflexivity|split; vm_compute; discriminate|vm_compute; discriminate|reflexivity|reflexivity|
     reflexivity|vm_compute; reflexivity|].
  exists k. auto.
Defined.

Lemma offset_ignored_with_period_witness :
  let tc := periodic (10 ^ 9) <| info ::= fun i => i <| offset := 5 * 10 ^ 8 |> |> in
  time_granted (snd (checkTimeGrant (H := x86_64)
    (timeRequest (H := x86_64) (5 * 10 ^ 8) no_iterations T.maxVal T.maxVal tc))) = 10 ^ 9.
Proof.
  refine (proj2 (offset_ignored_with_period (H := x86_64)
    (periodic (10 ^ 9) <| info ::= fun i => i <| offset := 5 * 10 ^ 8 |> |>)
    (5 * 10 ^ 8) _ _ _ _ _ _ _ _ _ _)); try reflexivity.
  repeat split.
Defined.
