(* ===== verification/TimeBookkeeping.v ===== *)
(** * The bookkeeping of the time coordinator

    The invariant that every public operation keeps (sorted and consistent
    lists of dependencies and dependents, the time block, the time delta), and
    what leaving the federation tells the others. *)

From S2P Require Import Prelude HTime Identifiers ActionMessage Wire WireFacts WireSpec.
From S2P Require Import CoreTypes TimeDependencies TimeDependenciesSpec TimeCoordinator.
From S2P Require Import TimeCoordinatorFacts TimeCoordinatorSpec.

(** ** Lists *)

Lemma erase_first_perm x l : x ∈ l -> l ≡ₚ x :: erase_first x l.
Proof.
  induction l as [|y l IH]; intros Hx; [by apply not_elem_of_nil in Hx|].
  cbn [erase_first]. case_if; breflect; [by subst|].
  rewrite Permutation_swap. constructor. apply IH. set_solver.
Qed.

Lemma erase_first_absent x l : x ∉ l -> erase_first x l = l.
Proof.
  induction l as [|y l IH]; intros Hx; [done|]. cbn [erase_first].
  case_if; breflect; [set_solver|]. f_equal. apply IH. set_solver.
Qed.

(** The two records of a set of federates stay permutations of each other. *)
Lemma erase_both x l l' :
  l ≡ₚ x :: l' -> erase_first x l ≡ₚ l'.
Proof.
  intros Hp. apply (Permutation_cons_inv (a := x)). rewrite <- Hp.
  symmetry. apply erase_first_perm. rewrite Hp. left.
Qed.

(** ** The federates to tell on disconnection *)

Lemma connections_spec tc :
  sorted_keys id (connections tc) /\
  forall fed, fed ∈ connections tc <->
    fed ∈ dependents tc \/ exists d, d ∈ dependencies tc /\ fedID d = fed /\ Tnext d < T.maxVal.
Proof.
  unfold connections.
  destruct (set_of_list_spec (dependents tc) []) as [Ha Hb]; [constructor|].
  destruct (set_of_test_spec fedID (fun d => Tnext d <? T.maxVal) (dependencies tc) _ Ha) as [Hc Hd].
  split; [done|]. intros fed. rewrite Hd, Hb. setoid_rewrite Z.ltb_lt. set_solver.
Qed.

Section Disconnect.
Context `{Platform}.

Definition bye (tc : TimeCoordinator) (fed : global_federate_id) : ActionMessage :=
  newMessage cmd_disconnect <| ActionMessage.source_id := source_id tc |> <| dest_id := fed |>.

(** A federate that is told about itself only changes its own records. *)
Lemma processTimeMessage_bye_sent tc tc' fed :
  sent (snd (processTimeMessage (bye tc fed) tc')) = sent tc'.
Proof.
  change (processTimeMessage (bye tc fed) tc')
    with (process_dependency_time (bye tc fed) (removeDependent (source_id tc) tc')).
  assert (forall t, sent (snd (process_dependency_time (bye tc fed) t)) = sent t) as ->.
  { intros t. unfold process_dependency_time, update_dependencies.
    change (isDelayableMessage (bye tc fed) (source_id t)) with false. cbn iota.
    by destruct (updateTime (bye tc fed) (dependencies t)). }
  unfold removeDependent. destruct (dependents tc' !! _); [|done]. by case_if.
Qed.

Lemma disconnect_fold_sent tc feds : forall multi msgs tc',
  multi_holds multi msgs ->
  let others := filter (fun f => f <> source_id tc) feds in
  let '(multi', tc'') :=
    fold_left
      (fun '(multi, tc') fed =>
         if fed =? source_id tc then (multi, snd (processTimeMessage (bye tc fed) tc'))
         else (snd (appendMessage multi (bye tc fed)), tc'))
      feds (multi, tc') in
  sent tc'' = sent tc' /\
  multi_holds multi'
    (msgs ++ ((fun f => String.string_of_list_byte (to_string (bye tc f))) <$>
              take (255 - length msgs) others)).
Proof.
  induction feds as [|fed feds IH]; intros multi msgs tc' Hm; cbn [fold_left].
  { rewrite filter_nil, take_nil, app_nil_r. done. }
  destruct (Z.eqb_spec fed (source_id tc)) as [->|Hne].
  - rewrite filter_cons_False by (intros Hx; by apply Hx).
    specialize (IH multi msgs (snd (processTimeMessage (bye tc (source_id tc)) tc')) Hm).
    cbn zeta in *. destruct (fold_left _ feds _) as [m2 t2]. destruct IH as [Hs Hh].
    by rewrite Hs, processTimeMessage_bye_sent.
  - rewrite filter_cons_True by done. cbn zeta.
    destruct (Nat.lt_ge_cases (length msgs) 255) as [Hl|Hl].
    + pose proof (appendMessage_room multi msgs (bye tc fed) Hm Hl) as Hr.
      destruct (appendMessage multi (bye tc fed)) as [pos m1]. destruct Hr as [_ Hm1]. cbn [snd].
      specialize (IH m1 _ tc' Hm1). rewrite length_app in IH. cbn [length] in IH. cbn zeta in IH.
      destruct (fold_left _ feds _) as [m2 t2]. destruct IH as [Hs Hh]. split; [done|].
      replace (255 - length msgs)%nat with (S (255 - (length msgs + 1))) by lia.
      cbn [take fmap list_fmap]. rewrite <- app_assoc in Hh. exact Hh.
    + rewrite (appendMessage_full _ msgs) by done. cbn [snd].
      specialize (IH multi msgs tc' Hm). cbn zeta in IH.
      destruct (fold_left _ feds _) as [m2 t2]. destruct IH as [Hs Hh]. split; [done|].
      replace (255 - length msgs)%nat with 0%nat in * by lia. rewrite !take_0 in *. exact Hh.
Qed.

(** Leaving the federation.  Disconnecting tells exactly the dependents and
    the dependencies that are not finished, each once: nobody when there is
    none, one message when there is one, and otherwise one multi-message whose
    parts are the serialized notices to all of them but the federate itself, in
    order, up to the 255 parts that such a message holds. *)
Theorem disconnect_notifies (tc : TimeCoordinator) :
  exists told ms, sent (disconnect tc) = sent tc ++ ms /\
    sorted_keys id told /\
    (forall fed, fed ∈ told <->
       fed ∈ dependents tc \/
       exists d, d ∈ dependencies tc /\ fedID d = fed /\ Tnext d < T.maxVal) /\
    match told with
    | [] => ms = []
    | [fed] => ms = if fed =? source_id tc then [] else [bye tc fed]
    | _ => exists multi, ms = [multi] /\ messageAction multi = cmd_multi_message /\
        let others := take 255 (filter (fun f => f <> source_id tc) told) in
        counter multi = Z.of_nat (length others) /\
        stringData multi = (fun f => String.string_of_list_byte (to_string (bye tc f))) <$> others
    end.
Proof.
  destruct (connections_spec tc) as [Hsort Hspec].
  unfold disconnect. exists (connections tc).
  destruct (connections tc) as [|f1 [|f2 fs]] eqn:Ec.
  - exists []. split; [by rewrite app_nil_r|]. done.
  - case_if; breflect.
    + exists []. rewrite app_nil_r. split; [|done].
      exact (processTimeMessage_bye_sent tc tc f1).
    + exists [bye tc f1]. done.
  - set (feds := f1 :: f2 :: fs) in *.
    pose proof (disconnect_fold_sent tc feds (newMessage cmd_multi_message) [] tc multi_holds_new) as Hf.
    unfold bye in Hf at 1 2. cbn zeta in Hf.
    destruct (fold_left _ feds (newMessage cmd_multi_message, tc)) as [multi tc'].
    destruct Hf as (Hs & Ha & Hc & Hd). exists [multi]. split.
    + change (sent (sendMessageFunction multi tc')) with (sent tc' ++ [multi]). by rewrite Hs.
    + split; [done|]. split; [done|]. exists multi. split; [done|]. split; [done|].
      cbn [app length] in Hc, Hd. rewrite Nat.sub_0_r in Hc, Hd.
      rewrite length_fmap in Hc. split; [exact Hc|exact Hd].
Qed.
End Disconnect.

(** ** The invariant *)

Record tc_inv (tc : TimeCoordinator) : Prop := {
  inv_sorted : sorted_deps (dependencies tc);
  inv_deps_ok : Forall dep_ok (dependencies tc);
  inv_dependency_list : dependency_federates tc ≡ₚ fedID <$> dependencies tc;
  inv_dependents : sorted_keys id (dependents tc);
  inv_dependent_list : dependent_federates tc ≡ₚ dependents tc;
  inv_block : blocks_ok tc;
  inv_block_times : Forall (fun b => fst b <= T.maxVal) (timeBlocks tc);
  inv_delta : 0 < timeDelta (info tc);
  inv_base : time_grantBase tc = time_granted tc;
}.

(** The dependencies are the same federates, updated in place. *)
Definition deps_evolve (da db : list DependencyInfo) : Prop :=
  fedID <$> db = fedID <$> da /\ (Forall dep_ok da -> Forall dep_ok db).

(** A change that leaves the bookkeeping alone. *)
Definition evolves (a b : TimeCoordinator) : Prop :=
  deps_evolve (dependencies a) (dependencies b) /\
  dependency_federates b = dependency_federates a /\ dependents b = dependents a /\
  dependent_federates b = dependent_federates a /\ timeBlocks b = timeBlocks a /\
  time_block b = time_block a /\ timeDelta (info b) = timeDelta (info a) /\
  (time_grantBase a = time_granted a -> time_grantBase b = time_granted b).

#[export] Instance evolves_preorder : PreOrder evolves.
Proof.
  unfold evolves, deps_evolve. split; [intros a; naive_solver|].
  intros a b c Hab Hbc. destruct Hab as ((-> & H1) & -> & -> & -> & -> & -> & -> & H2) in Hbc |- *.
  naive_solver.
Qed.

Lemma evolves_inv a b : evolves a b -> tc_inv a -> tc_inv b.
Proof.
  intros ((Hids & Hok) & E1 & E2 & E3 & E4 & E5 & E6 & Hb) [].
  split; unfold sorted_deps, sorted_keys, blocks_ok in *; rewrite ?Hids, ?E1, ?E2, ?E3, ?E4, ?E5, ?E6;
    auto.
Qed.

Lemma deps_evolve_fmap (f : DependencyInfo -> DependencyInfo) da :
  (forall d, fedID (f d) = fedID d) -> (forall d, dep_ok d -> dep_ok (f d)) ->
  deps_evolve da (f <$> da).
Proof.
  intros H1 H2. split.
  - rewrite <- list_fmap_compose. apply list_fmap_ext. intros i d _. apply H1.
  - intros Hd. apply Forall_fmap. eapply Forall_impl; [exact Hd|]. intros d. apply H2.
Qed.

Lemma deps_evolve_refl da : deps_evolve da da.
Proof. done. Qed.

Lemma resetIteratingExecRequests_evolve da : deps_evolve da (resetIteratingExecRequests da).
Proof. apply deps_evolve_fmap; intros d; by case_if. Qed.

Lemma resetIteratingTimeRequests_evolve t da : deps_evolve da (resetIteratingTimeRequests t da).
Proof.
  apply deps_evolve_fmap; intros d; [by repeat case_if|]. unfold dep_ok.
  repeat case_if; cbn; lia.
Qed.

Lemma resetDependentEvents_evolve t da : deps_evolve da (resetDependentEvents t da).
Proof. apply deps_evolve_fmap; intros d; [done|]. unfold dep_ok. cbn. lia. Qed.

Lemma updateTime_evolve m da : deps_evolve da (snd (updateTime m da)).
Proof.
  unfold updateTime, getDependencyInfo, find_key.
  destruct (da !! _) as [d|] eqn:E; [|done]. case_if; [|done].
  pose proof (ProcessMessage_fedID m d) as F. pose proof (ProcessMessage_ok m d) as Hp.
  destruct (ProcessMessage m d) as [res d']. cbn [snd] in *. split.
  - by eapply fmap_insert_key.
  - intros Hok. apply Forall_insert; [done|]. apply Hp. rewrite Forall_lookup in Hok. by eapply Hok.
Qed.

(** Close a goal about a state that is an update of fields the bookkeeping does
    not read. *)
Ltac evolve :=
  split;
  [ first [ exact (deps_evolve_refl _) | exact (resetDependentEvents_evolve _ _)
          | exact (resetIteratingExecRequests_evolve _) | exact (updateTime_evolve _ _)
          | exact (resetIteratingTimeRequests_evolve _ _) ]
  | do 6 (split; [reflexivity|]); first [exact (fun E => E) | exact (fun _ => eq_refl)] ].

Section Operations.
Context `{Platform}.

Lemma transmit_evolves msg tc : evolves tc (transmitTimingMessage msg tc).
Proof. rewrite transmit_eq. evolve. Qed.

Lemma sendTimeRequest_evolves tc : evolves tc (sendTimeRequest tc).
Proof. rewrite sendTimeRequest_eq. evolve. Qed.

Lemma updateTimeFactors_evolves tc : evolves tc (snd (updateTimeFactors tc)).
Proof. destruct (updateTimeFactors_eq tc) as (u & n & a & b & ->). evolve. Qed.

Lemma enteringExecMode_evolves mode tc : evolves tc (enteringExecMode mode tc).
Proof.
  unfold enteringExecMode. case_if; [done|]. etrans; [|apply transmit_evolves]. evolve.
Qed.

Lemma timeRequest_evolves t it v m tc : evolves tc (timeRequest t it v m tc).
Proof.
  unfold timeRequest. destruct (if iterating _ then _ else _) as [nt nx].
  match goal with |- context [updateTimeFactors ?r] => transitivity (snd (updateTimeFactors r)) end.
  - etrans; [|apply updateTimeFactors_evolves]. evolve.
  - destruct (negb _); [apply sendTimeRequest_evolves|done].
Qed.

Lemma request_if_changed_evolves tc : evolves tc (request_if_changed tc).
Proof.
  unfold request_if_changed. rewrite updateNextExecutionTime_eq.
  assert (evolves tc (tc <| time_exec := next_exec tc |>)) as He by evolve.
  case_if; [|done]. etrans; [exact He|apply sendTimeRequest_evolves].
Qed.

Lemma updateValueTime_evolves t tc : evolves tc (updateValueTime t tc).
Proof.
  unfold updateValueTime. case_if; [case_if; [evolve|done]|]. case_if; [|done].
  assert (evolves tc (tc <| time_value := event_update_time t tc |>)) as He by evolve.
  case_if; [|done]. etrans; [exact He|apply request_if_changed_evolves].
Qed.

Lemma updateMessageTime_evolves t tc : evolves tc (updateMessageTime t tc).
Proof.
  unfold updateMessageTime. case_if; [case_if; [evolve|done]|]. case_if; [|done].
  assert (evolves tc (tc <| time_message := event_update_time t tc |>)) as He by evolve.
  case_if; [|done]. etrans; [exact He|apply request_if_changed_evolves].
Qed.

Lemma checkExecEntry_evolves tc : evolves tc (snd (checkExecEntry tc)).
Proof.
  unfold checkExecEntry. case_if; [done|]. case_if; [done|].
  destruct (exec_entry_result tc); try done; cbn [snd]; (etrans; [|apply transmit_evolves]); evolve.
Qed.

Lemma updateTimeGrant_evolves tc : evolves tc (updateTimeGrant tc).
Proof.
  rewrite updateTimeGrant_eq. destruct (iterating tc); evolve.
Qed.

(** *** The operations that change the lists *)

Lemma addDependency_inv fed tc : tc_inv tc -> tc_inv (snd (addDependency fed tc)).
Proof.
  intros []. unfold addDependency.
  pose proof (addDependency_sorted fed (dependencies tc) inv_sorted0) as Hs.
  rewrite addDependency_cases in * by done.
  destruct (getDependencyInfo fed (dependencies tc)); cbn [snd] in *; [by split|].
  split; try done; cbn.
  - apply Forall_forall. intros d. rewrite elem_of_insert_at. intros [->|Hd]; [by unfold dep_ok|].
    rewrite Forall_forall in inv_deps_ok0. by apply inv_deps_ok0.
  - rewrite insert_at_perm, fmap_cons, Permutation_app_comm. cbn. by rewrite inv_dependency_list0.
Qed.

Lemma removeDependency_inv fed tc : tc_inv tc -> tc_inv (removeDependency fed tc).
Proof.
  intros []. unfold removeDependency.
  split; try done; cbn; [by apply removeDependency_sorted| |].
  - unfold TimeDependencies.removeDependency. destruct (_ !! _); [|done]. case_if; [|done].
    unfold erase_at. apply Forall_app. split; [by apply Forall_take|by apply Forall_drop].
  - unfold TimeDependencies.removeDependency.
    destruct (dependencies tc !! dep_bound fed (dependencies tc)) as [d|] eqn:Ed;
      [destruct (Z.eqb_spec (fedID d) fed) as [<-|Hne]|].
    + apply erase_both. rewrite inv_dependency_list0, (erase_at_perm _ _ _ Ed) at 1. done.
    + rewrite erase_first_absent; [done|]. rewrite inv_dependency_list0, list_elem_of_fmap.
      intros (x & -> & Hx). pose proof (lower_bound_lookup fedID _ _ x inv_sorted0 Hx eq_refl) as E.
      unfold dep_bound in Ed. congruence.
    + rewrite erase_first_absent; [done|]. rewrite inv_dependency_list0, list_elem_of_fmap.
      intros (x & -> & Hx). pose proof (lower_bound_lookup fedID _ _ x inv_sorted0 Hx eq_refl) as E.
      unfold dep_bound in Ed. congruence.
Qed.

Lemma addDependent_cases fed tc :
  addDependent fed tc =
  if decide (dependents tc !! lower_bound id (dependents tc) fed = Some fed) then (false, tc)
  else (true, tc <| dependents := insert_at (lower_bound id (dependents tc) fed) fed (dependents tc) |>
                 <| dependent_federates ::= fun l => l ++ [fed] |>).
Proof.
  unfold addDependent. destruct (dependents tc) as [|d ds] eqn:E; [done|]. rewrite <- E.
  destruct (dependents tc !! _) as [x|] eqn:Ex.
  - destruct (Z.eqb_spec x fed) as [->|Hne]; [by rewrite decide_True|].
    rewrite decide_False by congruence. done.
  - rewrite decide_False by done. apply lookup_ge_None in Ex.
    unfold insert_at. rewrite firstn_all2, skipn_all2 by done. done.
Qed.

Lemma addDependent_inv fed tc : tc_inv tc -> tc_inv (snd (addDependent fed tc)).
Proof.
  intros []. rewrite addDependent_cases. case_decide as Hd; [by split|]. split; try done; cbn.
  - apply insert_at_sorted; [done|done|]. intros (y & Hy & E). cbn in E. subst y.
    apply Hd. by apply lower_bound_lookup.
  - rewrite insert_at_perm, Permutation_app_comm. cbn. by rewrite inv_dependent_list0.
Qed.

Lemma removeDependent_inv fed tc : tc_inv tc -> tc_inv (removeDependent fed tc).
Proof.
  intros []. unfold removeDependent.
  destruct (dependents tc !! lower_bound id (dependents tc) fed) as [d|] eqn:Ed; [|by split].
  case_if; breflect; [|by split]. subst d. split; try done; cbn; [by apply erase_at_sorted|].
  apply erase_both. rewrite inv_dependent_list0. by apply erase_at_perm.
Qed.

(** *** Messages *)

Lemma process_dependency_time_evolves cmd tc : evolves tc (snd (process_dependency_time cmd tc)).
Proof.
  assert (forall t, evolves t (snd (update_dependencies cmd t))) as Hu.
  { intros t. unfold update_dependencies. pose proof (updateTime_evolve cmd (dependencies t)) as He.
    destruct (updateTime cmd (dependencies t)) as [res deps]. cbn [snd] in *. by split. }
  unfold process_dependency_time. case_if; [|apply Hu].
  destruct (getDependencyInfo _ _); [|done]. case_if; [done|apply Hu].
Qed.

Lemma processTimeBlockMessage_inv cmd tc :
  actionTime cmd <= T.maxVal -> tc_inv tc -> tc_inv (snd (processTimeBlockMessage cmd tc)).
Proof.
  intros Hc []. destruct (processTimeBlockMessage_spec tc cmd) as (Hb & Ht1 & Ht2); [done|done|].
  assert (Forall (fun b => fst b <= T.maxVal) (timeBlocks (snd (processTimeBlockMessage cmd tc)))) as Hm.
  { destruct (decide (messageAction cmd = cmd_time_block)) as [E|].
    { rewrite Ht1 by done. apply Forall_app. split; [done|]. by repeat constructor. }
    destruct (decide (messageAction cmd = cmd_time_unblock)) as [E|].
    { destruct (Ht2 E) as [(l1 & t & l2 & El & -> & _)|[-> _]]; [|done].
      rewrite El, Forall_app, Forall_cons in inv_block_times0. rewrite Forall_app. tauto. }
    unfold processTimeBlockMessage. by rewrite !bool_decide_false by done. }
  split; try exact Hm; try exact Hb; unfold processTimeBlockMessage; case_if; [by case_if| |by case_if| |
    by case_if| |by case_if| |by case_if| |by case_if| |by case_if|].
  all: case_if; [|done]; destruct (timeBlocks tc); [done|]; destruct (default _ _); by case_if.
Qed.

Lemma processTimeMessage_inv cmd tc :
  actionTime cmd <= T.maxVal -> tc_inv tc -> tc_inv (snd (processTimeMessage cmd tc)).
Proof.
  intros Hc Hi. unfold processTimeMessage.
  pose proof (evolves_inv _ _ (process_dependency_time_evolves cmd tc) Hi) as H1.
  pose proof (removeDependent_inv (ActionMessage.source_id cmd) tc Hi) as Hr.
  pose proof (evolves_inv _ _ (process_dependency_time_evolves cmd
    (removeDependent (ActionMessage.source_id cmd) tc)) Hr) as H2.
  pose proof (processTimeBlockMessage_inv cmd tc Hc Hi) as H3.
  destruct (messageAction cmd); try done.
  case_if; [|done]. cbn [snd]. eapply evolves_inv; [|exact Hi].
  etrans; [|apply transmit_evolves]. evolve.
Qed.

Lemma disconnect_inv tc : tc_inv tc -> tc_inv (disconnect tc).
Proof.
  intros Hi. unfold disconnect.
  assert (forall m t, tc_inv t -> tc_inv (sendMessageFunction m t)) as Hsend.
  { intros m t Ht. eapply evolves_inv; [|exact Ht]. evolve. }
  assert (forall f t, tc_inv t -> tc_inv (snd (processTimeMessage (bye tc f) t))) as Hbye.
  { intros f t. apply processTimeMessage_inv. vm_compute. discriminate. }
  destruct (connections tc) as [|f1 [|f2 fs]]; [done|case_if; [by apply Hbye|by apply Hsend]|].
  match goal with |- context [fold_left ?g _ (_, tc)] =>
    assert (forall fl m t, tc_inv t -> tc_inv (snd (fold_left g fl (m, t)))) as Hf end.
  { induction fl as [|x fl IH]; intros m t Ht; cbn [fold_left]; [done|].
    destruct (x =? source_id tc); apply IH; [by apply Hbye|done]. }
  specialize (Hf (f1 :: f2 :: fs) (newMessage cmd_multi_message) tc Hi).
  destruct (fold_left _ _ _) as [multi t]. by apply Hsend.
Qed.

Lemma checkTimeGrant_inv tc : tc_inv tc -> tc_inv (snd (checkTimeGrant tc)).
Proof.
  intros Hi. pose proof (checkTimeGrant_cases tc) as C.
  assert (tc_inv (snd (updateTimeFactors tc))) as H1.
  { eapply evolves_inv; [apply updateTimeFactors_evolves|done]. }
  destruct C as [| | | |tc0 Htc].
  - apply disconnect_inv. eapply evolves_inv; [|exact H1]. evolve.
  - done.
  - eapply evolves_inv; [|exact H1]. etrans; [|apply updateTimeGrant_evolves]. evolve.
  - eapply evolves_inv; [|exact H1]. etrans; [|apply updateTimeGrant_evolves]. evolve.
  - assert (tc_inv tc0) as Htc0.
    { destruct Htc as [-> | ->]; [done|]. eapply evolves_inv; [|exact H1]. evolve. }
    case_if; [|done]. eapply evolves_inv; [apply sendTimeRequest_evolves|done].
Qed.

Lemma processDependencyUpdateMessage_inv cmd tc :
  tc_inv tc -> tc_inv (processDependencyUpdateMessage cmd tc).
Proof.
  intros Hi. unfold processDependencyUpdateMessage.
  destruct (messageAction cmd); try done;
    auto using addDependency_inv, removeDependency_inv, addDependent_inv, removeDependent_inv.
Qed.

(** Configuration keeps the time delta positive. *)
Lemma info_inv f tc :
  0 < timeDelta (f (info tc)) -> tc_inv tc -> tc_inv (tc <| info ::= f |>).
Proof. intros Hf []. by split. Qed.

Lemma setTimeProperty_inv p v tc : tc_inv tc -> tc_inv (setTimeProperty p v tc).
Proof.
  intros Hi. pose proof (inv_delta tc Hi) as Hd. unfold setTimeProperty.
  repeat case_if; breflect; try (apply info_inv; cbn; assumption || (cbn; done)); try done.
Qed.

Lemma processConfigUpdateMessage_inv cmd tc :
  tc_inv tc -> tc_inv (processConfigUpdateMessage cmd tc).
Proof.
  intros Hi. pose proof (inv_delta tc Hi) as Hd. unfold processConfigUpdateMessage.
  destruct (messageAction cmd); try done.
  - by apply setTimeProperty_inv.
  - unfold setIntProperty. case_if; [by apply info_inv|]. by apply setTimeProperty_inv.
  - unfold setOptionFlag. repeat case_if; try done; by apply info_inv.
Qed.

(** ** Every operation, as a transition system *)

Inductive tc_step : TimeCoordinator -> TimeCoordinator -> Prop :=
  | step_exec mode tc : tc_step tc (enteringExecMode mode tc)
  | step_request t it v m tc : tc_step tc (timeRequest t it v m tc)
  | step_value t tc : tc_step tc (updateValueTime t tc)
  | step_message t tc : tc_step tc (updateMessageTime t tc)
  | step_timing cmd tc :
      actionTime cmd <= T.maxVal -> tc_step tc (snd (processTimeMessage cmd tc))
  | step_dependency cmd tc : tc_step tc (processDependencyUpdateMessage cmd tc)
  | step_config cmd tc : tc_step tc (processConfigUpdateMessage cmd tc)
  | step_exec_check tc : tc_step tc (snd (checkExecEntry tc))
  | step_grant_check tc : tc_step tc (snd (checkTimeGrant tc))
  | step_disconnect tc : tc_step tc (disconnect tc).

Lemma tc_step_inv tc tc' : tc_step tc tc' -> tc_inv tc -> tc_inv tc'.
Proof.
  intros Hstep Hi. destruct Hstep;
    eauto using processTimeMessage_inv, processDependencyUpdateMessage_inv,
      processConfigUpdateMessage_inv, checkTimeGrant_inv, disconnect_inv, evolves_inv,
      enteringExecMode_evolves, timeRequest_evolves, updateValueTime_evolves,
      updateMessageTime_evolves, checkExecEntry_evolves.
Qed.

Lemma new_coordinator_inv : tc_inv new_coordinator.
Proof. split; try constructor; done. Qed.

(** C4: The bookkeeping invariant.  Whatever sequence of requests, updates,
    timing, dependency and configuration messages, checks and disconnections a
    coordinator goes through, its dependencies and dependents stay sorted
    without repetition, the lists it shows to other threads are permutations of
    them, the blocking time is the earliest block, the time delta is positive,
    each dependent event is not after the event, and grants are based on the
    granted time. *)
Theorem coordinator_invariant (id : global_federate_id) (tc : TimeCoordinator) :
  rtc tc_step (new_coordinator <| source_id := id |>) tc -> tc_inv tc.
Proof.
  intros Hr.
  assert (tc_inv (new_coordinator <| source_id := id |>)) as H0
    by (split; try constructor; done).
  revert H0. induction Hr as [|x y z Hxy Hyz IH]; intros H0; [done|].
  apply IH. by eapply tc_step_inv.
Qed.
End Operations.

Lemma coordinator_invariant_witness :
  tc_inv (timeRequest (H := x86_64) 1000 no_iterations T.maxVal T.maxVal
    (processDependencyUpdateMessage
       (newMessage cmd_add_interdependency <| ActionMessage.source_id := 131073 |>)
       (new_coordinator <| source_id := 131072 |>))).
Proof.
  apply (coordinator_invariant (H := x86_64) 131072).
  eapply rtc_l; [apply step_dependency|]. eapply rtc_l; [apply step_request|]. apply rtc_refl.
Defined.
