(* ===== verification/ForwardingTimeCoordinator.v ===== *)
(** * The forwarding time coordinator of a core or broker

    Models [src/helics/core/ForwardingTimeCoordinator.hpp] and
    [ForwardingTimeCoordinator.cpp]: a core or broker has no time of its own; it
    combines what its dependencies report into one report to its dependents.
    The messages handed to [sendMessageFunction] are appended to [sent];
    [has_sender] says whether the callback is set. *)

From S2P Require Import Prelude HTime Identifiers ActionMessage Wire CoreTypes TimeDependencies.

(** ** State *)

Record ForwardingTimeCoordinator := mkForwarding {
  time_next : Time;
  time_minminDe : Time;
  time_minDe : Time;
  time_state : time_state_t;
  lastMinFed : global_federate_id;
  dependencies : list DependencyInfo;
  dependents : list global_federate_id;
  has_sender : bool;
  source_id : global_federate_id;
  checkingExec : bool;
  executionMode : bool;
  iterating : bool;
  ignoreMinFed : bool;
  sent : list ActionMessage;
}.

#[export] Instance ForwardingTimeCoordinator_settable : Settable ForwardingTimeCoordinator := fun r =>
  mkForwarding (time_next r) (time_minminDe r) (time_minDe r) (time_state r) (lastMinFed r)
    (dependencies r) (dependents r) (has_sender r) (source_id r) (checkingExec r)
    (executionMode r) (iterating r) (ignoreMinFed r) (sent r).

Definition new_forwarding : ForwardingTimeCoordinator := {|
  time_next := T.timeZero; time_minminDe := T.timeZero; time_minDe := T.timeZero;
  time_state := time_requested; lastMinFed := GlobalFedId.invalid; dependencies := [];
  dependents := []; has_sender := false; source_id := 0; checkingExec := false;
  executionMode := false; iterating := false; ignoreMinFed := false; sent := [];
|}.

(** ** The minimum over the dependencies *)

Definition isBroker (id : global_federate_id) : bool := (id =? 1) || (0x70000000 <=? id).

Record minTimeSet := mkMinTime {
  minNext : Time;
  minminDe : Time;
  minDe : Time;
  minFed : global_federate_id;
  tState : time_state_t;
}.

#[export] Instance minTimeSet_settable : Settable minTimeSet := fun r =>
  mkMinTime (minNext r) (minminDe r) (minDe r) (minFed r) (tState r).

Definition new_minTime : minTimeSet := {|
  minNext := T.maxVal; minminDe := T.maxVal; minDe := T.maxVal;
  minFed := GlobalFedId.invalid; tState := time_requested;
|}.

(** The effect of one dependency on the next time and the state. *)
Definition min_next_step (dep : DependencyInfo) (mTime : minTimeSet) : minTimeSet :=
  if Tnext dep <? minNext mTime
  then mTime <| minNext := Tnext dep |> <| tState := TimeDependencies.time_state dep |>
  else if (Tnext dep =? minNext mTime) &&
          bool_decide (TimeDependencies.time_state dep = time_granted)
  then mTime <| tState := TimeDependencies.time_state dep |>
  else mTime.

(** Its effect on the dependent events. *)
Definition min_dependent_step (dep : DependencyInfo) (mTime : minTimeSet) : minTimeSet :=
  if Tnext dep <=? Tdemin dep then
    if Tdemin dep <? minminDe mTime
    then mTime <| minminDe := Tdemin dep |> <| minFed := fedID dep |>
    else if Tdemin dep =? minminDe mTime then mTime <| minFed := GlobalFedId.invalid |>
    else mTime
  else mTime <| minminDe := T.minusOne |>.

Definition min_event_step (dep : DependencyInfo) (mTime : minTimeSet) : minTimeSet :=
  if Te dep <? minDe mTime then mTime <| minDe := Te dep |> else mTime.

Definition min_step (ignore : global_federate_id) (mTime : minTimeSet) (dep : DependencyInfo)
    : minTimeSet :=
  if fedID dep =? ignore then mTime
  else min_event_step dep (min_dependent_step dep (min_next_step dep mTime)).

(** What follows the loop. *)
Definition finish_min (mTime : minTimeSet) : minTimeSet :=
  let mTime := mTime <| minminDe := Z.min (minDe mTime) (minminDe mTime) |> in
  if minminDe mTime <? T.maxVal then
    if minNext mTime <? minminDe mTime then mTime <| minNext := minminDe mTime |> else mTime
  else mTime.

Definition generateMinTimeSet (deps : list DependencyInfo) (ignore : global_federate_id)
    : minTimeSet :=
  finish_min (fold_left (min_step ignore) deps new_minTime).

Section Forwarding.
Context `{Platform}.

(** ** Sending *)

Definition sendMessageFunction (m : ActionMessage) (fc : ForwardingTimeCoordinator)
    : ForwardingTimeCoordinator := fc <| sent ::= fun l => l ++ [m] |>.

(** The same message, recomputed without what [iFed] reports. *)
Definition generateTimeRequestIgnoreDependency (msg : ActionMessage) (iFed : global_federate_id)
    (fc : ForwardingTimeCoordinator) : ActionMessage :=
  let mTime := generateMinTimeSet (dependencies fc) iFed in
  let nTime := copy_construct msg <| actionTime := minNext mTime |>
                 <| ActionMessage.Tdemin := minminDe mTime |>
                 <| ActionMessage.Te := minDe mTime |> <| dest_id := iFed |> in
  match tState mTime with
  | time_granted => setAction cmd_time_grant nTime
  | time_requested =>
      clearActionFlag iteration_requested_flag (setAction cmd_time_request nTime)
  | time_requested_iterative =>
      setActionFlag iteration_requested_flag (setAction cmd_time_request nTime)
  | _ => nTime
  end.

(** What one dependent is sent of a timing message: nothing when it reports a
    later time itself. *)
Definition timing_message_to (msg : ActionMessage) (fc : ForwardingTimeCoordinator)
    (dep : global_federate_id) : option ActionMessage :=
  match getDependencyInfo dep (dependencies fc) with
  | Some di =>
      if isBroker dep && negb (ignoreMinFed fc) &&
         ((Tnext di =? actionTime msg) || (fedID di =? lastMinFed fc))
      then Some (generateTimeRequestIgnoreDependency msg dep fc)
      else if actionTime msg <? Tnext di then None
      else Some (msg <| dest_id := dep |>)
  | None => Some (msg <| dest_id := dep |>)
  end.

Definition transmitTimingMessage (msg : ActionMessage) (fc : ForwardingTimeCoordinator)
    : ForwardingTimeCoordinator :=
  if has_sender fc then
    if bool_decide (messageAction msg = cmd_time_request) ||
       bool_decide (messageAction msg = cmd_time_grant)
    then fold_left (fun fc' dep => match timing_message_to msg fc dep with
                                   | Some m => sendMessageFunction m fc'
                                   | None => fc'
                                   end) (dependents fc) fc
    else fold_left (fun fc' dep => sendMessageFunction (msg <| dest_id := dep |>) fc')
           (dependents fc) fc
  else fc.

Definition sendTimeRequest (fc : ForwardingTimeCoordinator) : ForwardingTimeCoordinator :=
  if negb (has_sender fc) then fc
  else
    let upd :=
      if bool_decide (time_state fc = time_granted)
      then newMessage cmd_time_grant <| ActionMessage.source_id := source_id fc |>
             <| actionTime := time_next fc |>
      else newMessage cmd_time_request <| ActionMessage.source_id := source_id fc |>
             <| actionTime := time_next fc |> <| ActionMessage.Te := time_minDe fc |>
             <| ActionMessage.Tdemin := time_minminDe fc |> in
    transmitTimingMessage
      (if iterating fc then setActionFlag iteration_requested_flag upd else upd) fc.

Definition enteringExecMode (fc : ForwardingTimeCoordinator) : ForwardingTimeCoordinator :=
  if executionMode fc then fc
  else
    let fc := fc <| checkingExec := true |> in
    transmitTimingMessage (newMessage cmd_exec_request <| ActionMessage.source_id := source_id fc |>) fc.

(** ** Updating the combined times *)

(** The next time from the combined set, as [updateTimeFactors] adjusts it. *)
Definition combined_next (mTime : minTimeSet) : Time :=
  if minminDe mTime <? T.maxVal then
    if minNext mTime <? minminDe mTime then minminDe mTime else minNext mTime
  else minNext mTime.

Definition updateTimeFactors (fc : ForwardingTimeCoordinator) : ForwardingTimeCoordinator :=
  let mTime := generateMinTimeSet (dependencies fc) GlobalFedId.invalid in
  let next := combined_next mTime in
  let update :=
    negb (bool_decide (time_state fc = tState mTime)) || negb (minDe mTime =? time_minDe fc) ||
    negb (minminDe mTime =? time_minminDe fc) || negb (time_next fc =? next) ||
    (negb (minFed mTime =? lastMinFed fc) && isBroker (minFed mTime)) in
  let fc := fc <| time_state := tState mTime |> <| time_next := next |>
               <| time_minDe := minDe mTime |> <| time_minminDe := minminDe mTime |>
               <| lastMinFed := minFed mTime |> in
  if update then sendTimeRequest fc else fc.

(** ** Dependencies and dependents *)

Definition addDependency (fed : global_federate_id) (fc : ForwardingTimeCoordinator)
    : bool * ForwardingTimeCoordinator :=
  let '(added, deps) := TimeDependencies.addDependency fed (dependencies fc) in
  (added, fc <| dependencies := deps |>).

Definition addDependent (fed : global_federate_id) (fc : ForwardingTimeCoordinator)
    : bool * ForwardingTimeCoordinator :=
  match dependents fc with
  | [] => (true, fc <| dependents := [fed] |>)
  | _ =>
      let pos := lower_bound id (dependents fc) fed in
      match dependents fc !! pos with
      | None => (true, fc <| dependents ::= fun l => l ++ [fed] |>)
      | Some dep =>
          if dep =? fed then (false, fc) else (true, fc <| dependents ::= insert_at pos fed |>)
      end
  end.

Definition removeDependency (fed : global_federate_id) (fc : ForwardingTimeCoordinator)
    : ForwardingTimeCoordinator := fc <| dependencies ::= TimeDependencies.removeDependency fed |>.

Definition removeDependent (fed : global_federate_id) (fc : ForwardingTimeCoordinator)
    : ForwardingTimeCoordinator :=
  let pos := lower_bound id (dependents fc) fed in
  match dependents fc !! pos with
  | None => fc
  | Some dep => if dep =? fed then fc <| dependents ::= erase_at pos |> else fc
  end.

Definition getDependencies (fc : ForwardingTimeCoordinator) : list global_federate_id :=
  fedID <$> dependencies fc.

Definition hasActiveTimeDependencies (fc : ForwardingTimeCoordinator) : bool :=
  TimeDependencies.hasActiveTimeDependencies (dependencies fc).

Definition processDependencyUpdateMessage (cmd : ActionMessage) (fc : ForwardingTimeCoordinator)
    : ForwardingTimeCoordinator :=
  let fed := ActionMessage.source_id cmd in
  match messageAction cmd with
  | cmd_add_dependency => snd (addDependency fed fc)
  | cmd_remove_dependency => removeDependency fed fc
  | cmd_add_dependent => snd (addDependent fed fc)
  | cmd_remove_dependent => removeDependent fed fc
  | cmd_add_interdependency => snd (addDependent fed (snd (addDependency fed fc)))
  | cmd_remove_interdependency => removeDependent fed (removeDependency fed fc)
  | _ => fc
  end.

(** ** Messages *)

Definition update_dependencies (cmd : ActionMessage) (fc : ForwardingTimeCoordinator)
    : bool * ForwardingTimeCoordinator :=
  let '(res, deps) := updateTime cmd (dependencies fc) in
  (res, fc <| dependencies := deps |>).

Definition processTimeMessage (cmd : ActionMessage) (fc : ForwardingTimeCoordinator)
    : bool * ForwardingTimeCoordinator :=
  match messageAction cmd with
  | cmd_disconnect | cmd_disconnect_broker | cmd_disconnect_fed | cmd_disconnect_core
  | cmd_broadcast_disconnect =>
      update_dependencies cmd (removeDependent (ActionMessage.source_id cmd) fc)
  | _ => update_dependencies cmd fc
  end.

Definition checkExecEntry (fc : ForwardingTimeCoordinator)
    : MPR.message_processing_result * ForwardingTimeCoordinator :=
  if negb (checkIfReadyForExecEntry false (dependencies fc)) then (MPR.continue_processing, fc)
  else
    let fc := fc <| executionMode := true |> <| time_next := T.timeZero |>
                 <| time_state := time_granted |> <| time_minDe := T.timeZero |>
                 <| time_minminDe := T.timeZero |> in
    (MPR.next_step,
     transmitTimingMessage (newMessage cmd_exec_grant <| ActionMessage.source_id := source_id fc |>) fc).

(** ** Disconnection *)

Definition connections (fc : ForwardingTimeCoordinator) : list global_federate_id :=
  fold_left (fun s dep => if Tnext dep <? T.maxVal then set_insert (fedID dep) s else s)
    (dependencies fc) (fold_left (fun s d => set_insert d s) (dependents fc) []).

Definition disconnect (fc : ForwardingTimeCoordinator) : ForwardingTimeCoordinator :=
  let bye fed := newMessage cmd_disconnect <| ActionMessage.source_id := source_id fc |>
                   <| dest_id := fed |> in
  if has_sender fc then
    match connections fc with
    | [] => fc
    | [fed] =>
        if fed =? source_id fc then snd (processTimeMessage (bye fed) fc)
        else sendMessageFunction (bye fed) fc
    | feds =>
        let '(multi, fc) :=
          fold_left
            (fun '(multi, fc') fed =>
               if fed =? source_id fc then (multi, snd (processTimeMessage (bye fed) fc'))
               else (snd (appendMessage multi (bye fed)), fc'))
            feds (newMessage cmd_multi_message, fc) in
        sendMessageFunction multi fc
    end
  else fc.
End Forwarding.
