(* ===== verification/ForwardingSpec.v ===== *)
(** * The forwarding time coordinator: properties

    What the combined times are, what is forwarded to whom, and that a report
    is sent only when something changed. *)

From S2P Require Import Prelude HTime Identifiers ActionMessage Wire CoreTypes TimeDependencies.
From S2P Require Import TimeDependenciesSpec ForwardingTimeCoordinator.

(** ** The combined times *)

(** The least value of a field over some dependencies. *)
Definition min_by (f : DependencyInfo -> Time) (ds : list DependencyInfo) : Time :=
  fold_right (fun d t => Z.min (f d) t) T.maxVal ds.

Lemma min_by_app f l1 l2 : min_by f (l1 ++ l2) = Z.min (min_by f l1) (min_by f l2).
Proof.
  unfold min_by. induction l1 as [|d l1 IH]; cbn [fold_right app]; [|rewrite IH; lia].
  induction l2 as [|d l2 IH2]; cbn [fold_right app]; lia.
Qed.

Lemma min_by_le f ds : min_by f ds <= T.maxVal /\ forall d, d ∈ ds -> min_by f ds <= f d.
Proof.
  unfold min_by. induction ds as [|d ds [IH1 IH2]]; cbn [fold_right].
  - split; [lia|]. intros d Hd. by apply not_elem_of_nil in Hd.
  - split; [lia|]. intros x Hx. apply elem_of_cons in Hx as [->|Hx]; [lia|].
    specialize (IH2 x Hx). lia.
Qed.

Lemma min_by_attained f ds :
  min_by f ds = T.maxVal \/ exists d, d ∈ ds /\ min_by f ds = f d.
Proof.
  induction ds as [|d ds IH]; [by left|]. cbn [min_by fold_right]. fold (min_by f ds).
  destruct (Z.min_spec (f d) (min_by f ds)) as [[_ ->]|[_ ->]].
  - right. exists d. split; [left|done].
  - destruct IH as [->|(x & Hx & ->)]; [by left|]. right. exists x. split; [by right|done].
Qed.

(** A dependency whose dependent event can be trusted. *)
Definition trusted (d : DependencyInfo) : Prop := Tnext d <= Tdemin d.

#[export] Instance trusted_dec d : Decision (trusted d).
Proof. unfold trusted. apply _. Defined.

(** The dependency with the least dependent event, when there is one. *)
Definition sole_minimum (d : DependencyInfo) (ds : list DependencyInfo) : Prop :=
  Tdemin d < T.maxVal /\ Forall (fun d' => d' = d \/ Tdemin d < Tdemin d') ds.

(** What the loop has computed of the dependencies seen so far. *)
Record min_inv (ds : list DependencyInfo) (m : minTimeSet) : Prop := {
  mi_next : minNext m = min_by Tnext ds;
  mi_dependent : minminDe m = min_by Tdemin ds;
  mi_event : minDe m = min_by Te ds;
  mi_state : tState m = time_granted <->
             exists d, d ∈ ds /\ Tnext d = min_by Tnext ds /\
                       TimeDependencies.time_state d = time_granted;
  mi_fed : match decide (minFed m = GlobalFedId.invalid) with
           | left _ => ~ exists d, d ∈ ds /\ sole_minimum d ds
           | right _ => exists d, d ∈ ds /\ fedID d = minFed m /\ sole_minimum d ds
           end;
}.

Lemma min_next_step_spec d m :
  minminDe (min_next_step d m) = minminDe m /\ minDe (min_next_step d m) = minDe m /\
  minFed (min_next_step d m) = minFed m /\ minNext (min_next_step d m) = Z.min (minNext m) (Tnext d) /\
  (tState (min_next_step d m) = time_granted <->
   (Tnext d <= minNext m /\ TimeDependencies.time_state d = time_granted) \/
   (minNext m <= Tnext d /\ tState m = time_granted)).
Proof.
  unfold min_next_step. destruct (Z.ltb_spec (Tnext d) (minNext m)).
  { cbn. repeat split; try done; try lia; naive_solver lia. }
  destruct (Z.eqb_spec (Tnext d) (minNext m)) as [E|E]; cbn [andb].
  - case_bool_decide as Hg; cbn; repeat split; try done; try lia; naive_solver lia.
  - repeat split; try done; try lia; naive_solver lia.
Qed.

Lemma min_dependent_step_spec d m :
  trusted d ->
  minNext (min_dependent_step d m) = minNext m /\ minDe (min_dependent_step d m) = minDe m /\
  tState (min_dependent_step d m) = tState m /\
  minminDe (min_dependent_step d m) = Z.min (minminDe m) (Tdemin d) /\
  minFed (min_dependent_step d m) =
    if Tdemin d <? minminDe m then fedID d
    else if Tdemin d =? minminDe m then GlobalFedId.invalid else minFed m.
Proof.
  unfold trusted, min_dependent_step. intros Ht.
  destruct (Z.leb_spec (Tnext d) (Tdemin d)); [|lia].
  destruct (Z.ltb_spec (Tdemin d) (minminDe m)); [cbn; repeat split; lia|].
  destruct (Z.eqb_spec (Tdemin d) (minminDe m)); cbn; repeat split; lia.
Qed.

Lemma min_event_step_spec d m :
  minNext (min_event_step d m) = minNext m /\ minminDe (min_event_step d m) = minminDe m /\
  tState (min_event_step d m) = tState m /\ minFed (min_event_step d m) = minFed m /\
  minDe (min_event_step d m) = Z.min (minDe m) (Te d).
Proof. unfold min_event_step. case_if; breflect; cbn; repeat split; lia. Qed.

Lemma min_inv_new : min_inv [] new_minTime.
Proof.
  split; try done.
  - split; [done|]. intros (d & Hd & _). by apply not_elem_of_nil in Hd.
  - rewrite decide_True by done. intros (d & Hd & _). by apply not_elem_of_nil in Hd.
Qed.

Lemma sole_minimum_min d ds :
  d ∈ ds -> sole_minimum d ds -> Tdemin d = min_by Tdemin ds.
Proof.
  intros Hd [Hm Hs]. destruct (min_by_le Tdemin ds) as [H1 H2]. specialize (H2 d Hd).
  destruct (min_by_attained Tdemin ds) as [E|(x & Hx & E)]; [lia|].
  rewrite Forall_forall in Hs. destruct (Hs x Hx) as [->|]; [done|lia].
Qed.

Lemma sole_minimum_app x ds d :
  sole_minimum x (ds ++ [d]) <-> sole_minimum x ds /\ (d = x \/ Tdemin x < Tdemin d).
Proof. unfold sole_minimum. rewrite Forall_app, Forall_singleton. tauto. Qed.

(** One more dependency: which one is the only least. *)
Lemma min_fed_step ds d fed :
  d ∉ ds -> fedID d <> GlobalFedId.invalid ->
  match decide (fed = GlobalFedId.invalid) with
  | left _ => ~ exists x, x ∈ ds /\ sole_minimum x ds
  | right _ => exists x, x ∈ ds /\ fedID x = fed /\ sole_minimum x ds
  end ->
  let fed' := if Tdemin d <? min_by Tdemin ds then fedID d
              else if Tdemin d =? min_by Tdemin ds then GlobalFedId.invalid else fed in
  match decide (fed' = GlobalFedId.invalid) with
  | left _ => ~ exists x, x ∈ ds ++ [d] /\ sole_minimum x (ds ++ [d])
  | right _ => exists x, x ∈ ds ++ [d] /\ fedID x = fed' /\ sole_minimum x (ds ++ [d])
  end.
Proof.
  intros Hd Hid Hfed. cbn zeta.
  destruct (min_by_le Tdemin ds) as [Hmax Hle]. pose proof (min_by_attained Tdemin ds) as Hat.
  assert (forall x, x ∈ ds ++ [d] <-> x ∈ ds \/ x = d) as Hin by set_solver.
  destruct (Z.ltb_spec (Tdemin d) (min_by Tdemin ds)) as [Hlt|Hge].
  { rewrite decide_False by done. exists d. rewrite Hin, sole_minimum_app.
    split; [by right|]. split; [done|]. split; [|by left]. split; [lia|]. apply Forall_forall. intros x Hx. specialize (Hle x Hx). lia. }
  destruct (Z.eqb_spec (Tdemin d) (min_by Tdemin ds)) as [Heq|Hne].
  - rewrite decide_True by done. setoid_rewrite Hin. setoid_rewrite sole_minimum_app.
    intros (x & [Hx | ->] & Hs & Hdx).
    + pose proof (Hle x Hx). destruct Hdx as [->|]; [done|lia].
    + destruct Hs as [Hm Hs]. destruct Hat as [E|(y & Hy & E)]; [lia|].
      rewrite Forall_forall in Hs. destruct (Hs y Hy) as [->|]; [done|lia].
  - destruct (decide (fed = GlobalFedId.invalid)).
    + setoid_rewrite Hin. setoid_rewrite sole_minimum_app.
      intros (x & [Hx | ->] & Hs & Hdx); [eauto|].
      destruct Hs as [Hm Hs]. destruct Hat as [E|(y & Hy & E)]; [lia|].
      rewrite Forall_forall in Hs. destruct (Hs y Hy) as [->|]; [done|lia].
    + destruct Hfed as (x & Hx & Ef & Hs). exists x. rewrite Hin, sole_minimum_app.
      split; [by left|]. split; [done|]. split; [done|]. right. rewrite (sole_minimum_min x ds) by done. lia.
Qed.

Lemma min_inv_step ds d m :
  d ∉ ds -> fedID d <> GlobalFedId.invalid -> trusted d -> min_inv ds m ->
  min_inv (ds ++ [d]) (min_event_step d (min_dependent_step d (min_next_step d m))).
Proof.
  intros Hd Hid Ht [I1 I2 I3 I4 I5].
  destruct (min_next_step_spec d m) as (A1 & A2 & A3 & A4 & A5).
  destruct (min_dependent_step_spec d (min_next_step d m) Ht) as (B1 & B2 & B3 & B4 & B5).
  destruct (min_event_step_spec d (min_dependent_step d (min_next_step d m))) as (C1 & C2 & C3 & C4 & C5).
  split.
  - rewrite C1, B1, A4, I1, min_by_app. cbn. destruct (min_by_le Tnext ds). lia.
  - rewrite C2, B4, A1, I2, min_by_app. cbn. destruct (min_by_le Tdemin ds). lia.
  - rewrite C5, B2, A2, I3, min_by_app. cbn. destruct (min_by_le Te ds). lia.
  - rewrite C3, B3, A5, I1, I4, min_by_app. destruct (min_by_le Tnext ds) as [Hm Hle].
    change (min_by Tnext [d]) with (Z.min (Tnext d) T.maxVal).
    setoid_rewrite elem_of_app. setoid_rewrite list_elem_of_singleton. split.
    + intros [[? Hg]|[? (x & Hx & Ex & Hg)]]; [exists d|exists x]; (split; [tauto|]); (split; [lia|done]).
    + intros (x & [Hx | ->] & Ex & Hg); [|left; split; [lia|done]].
      right. specialize (Hle x Hx). split; [lia|]. exists x. split; [done|]. split; [lia|done].
  - rewrite C4, B5, A1, A3, I2. by apply min_fed_step.
Qed.

Lemma min_fold_inv ignore ds :
  NoDup ds -> Forall (fun d => fedID d <> GlobalFedId.invalid /\ trusted d /\ fedID d <> ignore) ds ->
  min_inv ds (fold_left (min_step ignore) ds new_minTime).
Proof.
  induction ds as [|d ds IH] using rev_ind; intros Hnd Hok; [apply min_inv_new|].
  rewrite fold_left_app. cbn [fold_left].
  apply NoDup_app in Hnd as (Hnd & Hdis & _). apply Forall_app in Hok as [Hok Hd].
  apply Forall_singleton in Hd as (Hid & Ht & Hig).
  unfold min_step at 1. rewrite (proj2 (Z.eqb_neq _ _) Hig).
  apply min_inv_step; [|done|done|by apply IH]. intros Hx. apply (Hdis d Hx). left.
Qed.

(** A dependency that is ignored is not there. *)
Lemma min_fold_filter ignore ds : forall m,
  fold_left (min_step ignore) ds m =
  fold_left (min_step ignore) (filter (fun d => fedID d <> ignore) ds) m.
Proof.
  induction ds as [|d ds IH]; intros m; [done|]. cbn [fold_left].
  destruct (decide (fedID d = ignore)) as [E|E].
  - rewrite filter_cons_False by tauto. rewrite <- IH. unfold min_step at 2.
    by rewrite (proj2 (Z.eqb_eq _ _) E).
  - rewrite filter_cons_True by done. cbn [fold_left]. apply IH.
Qed.

(** What is known of a dependency once it has asked for a time. *)
Definition good_dep (d : DependencyInfo) : Prop :=
  fedID d <> GlobalFedId.invalid /\ trusted d /\ dep_ok d.

Lemma good_filter (ignore : global_federate_id) ds :
  Forall good_dep ds -> Forall good_dep (filter (fun d => fedID d <> ignore) ds).
Proof. rewrite !Forall_forall. intros Hg d [_ Hd]%list_elem_of_filter. by apply Hg. Qed.

Lemma min_dependent_event ds : Forall dep_ok ds -> min_by Tdemin ds <= min_by Te ds.
Proof.
  unfold min_by, dep_ok. induction 1 as [|d ds Hd _ IH]; cbn [fold_right]; lia.
Qed.

Lemma min_next_dependent ds : Forall trusted ds -> min_by Tnext ds <= min_by Tdemin ds.
Proof.
  unfold min_by, trusted. induction 1 as [|d ds Hd _ IH]; cbn [fold_right]; lia.
Qed.

Lemma sorted_NoDup deps : sorted_deps deps -> NoDup deps.
Proof.
  intros Hs. apply (NoDup_fmap_1 (fun d => fedID d)).
  pose proof (sorted_NoDup_fst deps Hs) as Hn. by rewrite <- list_fmap_compose in Hn.
Qed.

Lemma generateMinTimeSet_spec deps ignore :
  let ds := filter (fun d => fedID d <> ignore) deps in
  let m := generateMinTimeSet deps ignore in
  sorted_deps deps -> Forall good_dep ds ->
  minDe m = min_by Te ds /\ minminDe m = min_by Tdemin ds /\
  minNext m = (if min_by Tdemin ds <? T.maxVal then min_by Tdemin ds else min_by Tnext ds) /\
  (tState m = time_granted <->
     exists d, d ∈ ds /\ Tnext d = min_by Tnext ds /\
               TimeDependencies.time_state d = time_granted) /\
  (forall d, d ∈ ds -> sole_minimum d ds -> minFed m = fedID d) /\
  (minFed m <> GlobalFedId.invalid -> exists d, d ∈ ds /\ fedID d = minFed m /\ sole_minimum d ds).
Proof.
  cbn zeta. intros Hs Hgood. unfold generateMinTimeSet. rewrite min_fold_filter.
  set (ds := filter _ deps) in *.
  assert (NoDup ds) as Hnd by (apply NoDup_filter; by apply sorted_NoDup).
  assert (Forall (fun d => fedID d <> GlobalFedId.invalid /\ trusted d /\ fedID d <> ignore) ds) as Hok.
  { apply Forall_forall. intros d Hd. rewrite Forall_forall in Hgood.
    destruct (Hgood d Hd) as (? & ? & _). split; [done|]. split; [done|].
    by apply list_elem_of_filter in Hd as [? _]. }
  destruct (min_fold_inv ignore ds Hnd Hok) as [I1 I2 I3 I4 I5].
  set (m := fold_left _ ds new_minTime) in *. clearbody m.
  assert (min_by Tdemin ds <= min_by Te ds) as H1.
  { apply min_dependent_event. eapply Forall_impl; [exact Hgood|]. by intros d (_ & _ & ?). }
  assert (min_by Tnext ds <= min_by Tdemin ds) as H2.
  { apply min_next_dependent. eapply Forall_impl; [exact Hgood|]. by intros d (_ & ? & _). }
  unfold finish_min. rewrite I2, I3, Z.min_r by done.
  change (minminDe (m <| minminDe := ?x |>)) with x.
  change (minNext (m <| minminDe := ?x |>)) with (minNext m). rewrite I1.
  assert (forall x, x ∈ ds -> sole_minimum x ds -> minFed m = fedID x) as Hu.
  { intros x Hx Hsx. destruct (decide (minFed m = GlobalFedId.invalid)); [destruct I5; eauto|].
    destruct I5 as (y & Hy & <- & Hsy). destruct Hsy as [_ Hsy]. rewrite Forall_forall in Hsy.
    destruct Hsx as [_ Hsx]. rewrite Forall_forall in Hsx.
    destruct (Hsy x Hx) as [->|?]; [done|]. destruct (Hsx y Hy) as [->|?]; [done|lia]. }
  assert (minFed m <> GlobalFedId.invalid ->
          exists d, d ∈ ds /\ fedID d = minFed m /\ sole_minimum d ds) as Hv.
  { intros Hf. by rewrite decide_False in I5 by done. }
  case_if; breflect; [case_if; breflect|]; cbn; rewrite ?I1, ?I3; repeat split; try done; try apply I4; lia.
Qed.

(** The combined report.  When the dependencies that are not ignored have
    consistent times, the combined event times are their minima, the combined
    next time is the least dependent event (or the least next time when there
    is no event to come), the state is granted exactly when some dependency at
    the least next time is, and the limiting federate is the one whose
    dependent event is strictly the least, when there is one. *)
Theorem combined_times (deps : list DependencyInfo) (ignore : global_federate_id) :
  let ds := filter (fun d => fedID d <> ignore) deps in
  let m := generateMinTimeSet deps ignore in
  sorted_deps deps -> Forall good_dep ds ->
  minDe m = min_by Te ds /\ minminDe m = min_by Tdemin ds /\
  minNext m = (if min_by Tdemin ds <? T.maxVal then min_by Tdemin ds else min_by Tnext ds) /\
  (tState m = time_granted <->
     exists d, d ∈ ds /\ Tnext d = min_by Tnext ds /\
               TimeDependencies.time_state d = time_granted) /\
  (forall d, d ∈ ds -> sole_minimum d ds -> minFed m = fedID d) /\
  (minFed m <> GlobalFedId.invalid -> exists d, d ∈ ds /\ fedID d = minFed m /\ sole_minimum d ds).
Proof. cbn zeta. apply generateMinTimeSet_spec. Qed.

(** ** What is sent *)

Section Forward.
Context `{Platform}.

Lemma send_some_eq (f : Z -> option ActionMessage) l : forall fc,
  fold_left (fun fc' dep => match f dep with
                            | Some m => sendMessageFunction m fc'
                            | None => fc'
                            end) l fc =
  fc <| sent ::= fun s => s ++ omap f l |>.
Proof.
  induction l as [|d l IH]; intros fc; cbn [fold_left].
  - destruct fc. cbn. by rewrite app_nil_r.
  - rewrite IH. cbn [omap list_omap]. destruct (f d) as [m|]; [|done].
    destruct fc. cbn. by rewrite <- app_assoc.
Qed.

Lemma send_each_eq (msg : ActionMessage) l : forall fc,
  fold_left (fun fc' dep => sendMessageFunction (msg <| dest_id := dep |>) fc') l fc =
  fc <| sent ::= fun s => s ++ ((fun d => msg <| dest_id := d |>) <$> l) |>.
Proof.
  induction l as [|d l IH]; intros fc; cbn [fold_left].
  - destruct fc. cbn. by rewrite app_nil_r.
  - rewrite IH. destruct fc. cbn. by rewrite <- app_assoc.
Qed.

(** The messages [transmitTimingMessage] sends. *)
Definition transmitted (msg : ActionMessage) (fc : ForwardingTimeCoordinator) : list ActionMessage :=
  if has_sender fc then
    if bool_decide (messageAction msg = cmd_time_request) ||
       bool_decide (messageAction msg = cmd_time_grant)
    then omap (timing_message_to msg fc) (dependents fc)
    else (fun d => msg <| dest_id := d |>) <$> dependents fc
  else [].

Lemma forward_transmit_eq msg fc :
  transmitTimingMessage msg fc = fc <| sent ::= fun s => s ++ transmitted msg fc |>.
Proof.
  unfold transmitTimingMessage, transmitted. destruct (has_sender fc) eqn:E.
  - destruct (_ || _); [apply send_some_eq|apply send_each_eq].
  - destruct fc. cbn. by rewrite app_nil_r.
Qed.

(** The report [sendTimeRequest] sends. *)
Definition report (fc : ForwardingTimeCoordinator) : ActionMessage :=
  let upd :=
    if bool_decide (time_state fc = time_granted)
    then newMessage cmd_time_grant <| ActionMessage.source_id := source_id fc |>
           <| actionTime := time_next fc |>
    else newMessage cmd_time_request <| ActionMessage.source_id := source_id fc |>
           <| actionTime := time_next fc |> <| ActionMessage.Te := time_minDe fc |>
           <| ActionMessage.Tdemin := time_minminDe fc |> in
  if iterating fc then setActionFlag iteration_requested_flag upd else upd.

Lemma forward_sendTimeRequest_eq fc :
  sendTimeRequest fc = fc <| sent ::= fun s => s ++ transmitted (report fc) fc |>.
Proof.
  unfold sendTimeRequest, transmitted. destruct (has_sender fc) eqn:E; cbn [negb].
  - rewrite forward_transmit_eq. unfold transmitted. by rewrite E.
  - destruct fc. cbn. by rewrite app_nil_r.
Qed.

(** The state [updateTimeFactors] keeps. *)
Definition updated (fc : ForwardingTimeCoordinator) : ForwardingTimeCoordinator :=
  let mTime := generateMinTimeSet (dependencies fc) GlobalFedId.invalid in
  fc <| time_state := tState mTime |> <| time_next := combined_next mTime |>
     <| time_minDe := minDe mTime |> <| time_minminDe := minminDe mTime |>
     <| lastMinFed := minFed mTime |>.

Lemma forward_updateTimeFactors_eq fc :
  updateTimeFactors fc = updated fc \/
  updateTimeFactors fc =
    updated fc <| sent ::= fun s => s ++ transmitted (report (updated fc)) (updated fc) |>.
Proof.
  unfold updateTimeFactors. fold (updated fc).
  destruct (_ || _ || _ || _ || _); [right; apply forward_sendTimeRequest_eq|by left].
Qed.

(** Quiescence.  Once the combined times have been brought up to date,
    doing so again changes nothing and sends nothing: a broker reports only
    what changed. *)
Theorem update_is_quiescent (fc : ForwardingTimeCoordinator) :
  updateTimeFactors (updateTimeFactors fc) = updateTimeFactors fc.
Proof.
  assert (forall ms, updateTimeFactors (updated fc <| sent ::= fun s => s ++ ms |>) =
                     updated fc <| sent ::= fun s => s ++ ms |>) as Hq.
  { intros ms. unfold updateTimeFactors, updated.
    set (m := generateMinTimeSet (dependencies fc) GlobalFedId.invalid).
    change (dependencies (_ <| sent ::= _ |>)) with (dependencies fc). fold m.
    change (time_state (_ <| sent ::= _ |>)) with (tState m).
    change (time_minDe (_ <| sent ::= _ |>)) with (minDe m).
    change (time_minminDe (_ <| sent ::= _ |>)) with (minminDe m).
    change (time_next (_ <| sent ::= _ |>)) with (combined_next m).
    change (lastMinFed (_ <| sent ::= _ |>)) with (minFed m).
    rewrite bool_decide_true, !Z.eqb_refl by done. cbn [negb orb andb]. by destruct fc. }
  destruct (forward_updateTimeFactors_eq fc) as [-> | ->]; [|apply Hq].
  specialize (Hq []). assert (updated fc <| sent ::= fun s => s ++ [] |> = updated fc) as E.
  { destruct fc. cbn. by rewrite app_nil_r. }
  by rewrite E in Hq.
Qed.

(** No echo.  The report recomputed for a broker does not depend on what
    that broker itself has reported: two coordinators whose dependencies differ
    in that broker only give it the same report. *)
Theorem no_echo (fc fc' : ForwardingTimeCoordinator) (msg : ActionMessage)
    (broker : global_federate_id) :
  filter (fun d => fedID d <> broker) (dependencies fc) =
  filter (fun d => fedID d <> broker) (dependencies fc') ->
  generateTimeRequestIgnoreDependency msg broker fc =
  generateTimeRequestIgnoreDependency msg broker fc'.
Proof.
  intros E. unfold generateTimeRequestIgnoreDependency, generateMinTimeSet.
  by rewrite (min_fold_filter _ (dependencies fc)), E, <- min_fold_filter.
Qed.

(** The times of a request are in order, and no dependency that is not its
    destination can cause an event before it. *)
Definition trusted_request (deps : list DependencyInfo) (m : ActionMessage) : Prop :=
  messageAction m = cmd_time_request ->
  actionTime m <= ActionMessage.Tdemin m /\ ActionMessage.Tdemin m <= ActionMessage.Te m /\
  forall d, d ∈ deps -> fedID d <> dest_id m -> actionTime m <= Tdemin d.

Lemma min_set_ordered deps ignore :
  sorted_deps deps -> Forall good_dep (filter (fun d => fedID d <> ignore) deps) ->
  let m := generateMinTimeSet deps ignore in
  minNext m <= minminDe m /\ minminDe m <= minDe m /\
  (forall d, d ∈ deps -> fedID d <> ignore -> minNext m <= Tdemin d) /\
  combined_next m = minNext m.
Proof.
  intros Hs Hg. cbn zeta.
  destruct (generateMinTimeSet_spec deps ignore Hs Hg) as (E1 & E2 & E3 & _).
  set (ds := filter _ deps) in *.
  assert (min_by Tdemin ds <= min_by Te ds) as H1.
  { apply min_dependent_event. eapply Forall_impl; [exact Hg|]. by intros d (_ & _ & ?). }
  assert (min_by Tnext ds <= min_by Tdemin ds) as H2.
  { apply min_next_dependent. eapply Forall_impl; [exact Hg|]. by intros d (_ & ? & _). }
  unfold combined_next. rewrite E1, E2, E3.
  assert ((if min_by Tdemin ds <? T.maxVal then min_by Tdemin ds else min_by Tnext ds) <=
          min_by Tdemin ds) as H3 by (case_if; lia).
  split; [done|]. split; [done|]. split.
  - intros d Hd Hne. etrans; [exact H3|]. apply (min_by_le Tdemin ds).
    apply list_elem_of_filter. done.
  - repeat (case_if; breflect; try lia).
Qed.

(** C5: Reports can be trusted.  If every dependency of a core or broker has
    consistent times, then so has every request it sends when its combined
    times change, those recomputed for other brokers included: the next time
    is at most the dependent event, which is at most the event, and it is not
    after the dependent event of any dependency but the addressee. *)
Theorem reports_are_trusted (fc : ForwardingTimeCoordinator) :
  sorted_deps (dependencies fc) -> Forall good_dep (dependencies fc) ->
  exists ms, sent (updateTimeFactors fc) = sent fc ++ ms /\
             Forall (trusted_request (dependencies fc)) ms.
Proof.
  intros Hs Hg.
  assert (forall ignore, Forall good_dep (filter (fun d => fedID d <> ignore) (dependencies fc))) as Hf.
  { intros ignore. by apply good_filter. }
  destruct (forward_updateTimeFactors_eq fc) as [-> | ->].
  { exists []. split; [|constructor]. symmetry. apply app_nil_r. }
  eexists. split; [reflexivity|].
  assert (forall dep, trusted_request (dependencies fc)
            (report (updated fc) <| dest_id := dep |>)) as Hplain.
  { intros dep Ha.
    destruct (min_set_ordered (dependencies fc) GlobalFedId.invalid Hs (Hf _)) as (H1 & H2 & H3 & H4).
    assert (forall d, d ∈ dependencies fc -> minNext
              (generateMinTimeSet (dependencies fc) GlobalFedId.invalid) <= Tdemin d) as H5.
    { intros d Hd. apply H3; [done|]. rewrite Forall_forall in Hg. by destruct (Hg d Hd). }
    unfold report in *.
    destruct (bool_decide_reflect (time_state (updated fc) = time_granted)).
    { exfalso. by destruct (iterating (updated fc)). }
    destruct (iterating (updated fc)); cbn -[combined_next generateMinTimeSet]; rewrite H4;
      (split; [done|]; split; [done|]; intros d Hd _; by apply H5). }
  unfold transmitted. destruct (has_sender (updated fc)); [|constructor].
  destruct (_ || _); [|apply Forall_fmap, Forall_true; intros dep; apply Hplain].
  apply Forall_forall. intros m (dep & Hdep & Hm)%list_elem_of_omap.
  unfold timing_message_to in Hm.
  destruct (getDependencyInfo dep (dependencies (updated fc))) as [di|]; [|injection Hm as <-; apply Hplain].
  destruct (_ && _ && _); [|case_match; [done|injection Hm as <-; apply Hplain]].
  injection Hm as <-. intros _.
  destruct (min_set_ordered (dependencies fc) dep Hs (Hf _)) as (H1 & H2 & H3 & _).
  unfold generateTimeRequestIgnoreDependency.
  change (dependencies (updated fc)) with (dependencies fc).
  set (ms := generateMinTimeSet (dependencies fc) dep) in *. clearbody ms.
  destruct (tState ms); cbn; (split; [done|]; split; [done|]; exact H3).
Qed.
End Forward.

(** ** Witnesses *)

Definition two_reports : ForwardingTimeCoordinator :=
  new_forwarding <| has_sender := true |> <| source_id := 1879048192 |> <| dependents := [131074] |>
    <| dependencies :=
         [newDependency 131072 <| TimeDependencies.time_state := time_requested |>
            <| Tnext := 100 |> <| Tdemin := 300 |> <| Te := 400 |>;
          newDependency 131073 <| TimeDependencies.time_state := time_granted |>
            <| Tnext := 200 |> <| Tdemin := 200 |> <| Te := 200 |>] |>.

Lemma two_reports_good :
  sorted_deps (dependencies two_reports) /\ Forall good_dep (dependencies two_reports).
Proof.
  split; [unfold sorted_deps, sorted_keys; repeat constructor|].
  repeat constructor; try discriminate; unfold trusted, dep_ok; cbn; lia.
Qed.

Lemma combined_times_witness :
  minFed (generateMinTimeSet (dependencies two_reports) GlobalFedId.invalid) = 131073 /\
  minDe (generateMinTimeSet (dependencies two_reports) GlobalFedId.invalid) =
    min_by Te (filter (fun d => fedID d <> GlobalFedId.invalid) (dependencies two_reports)).
Proof.
  split; [reflexivity|].
  refine (proj1 (combined_times (dependencies two_reports) GlobalFedId.invalid _ _)).
  - apply two_reports_good.
  - apply good_filter, two_reports_good.
Defined.

Lemma no_echo_witness :
  generateTimeRequestIgnoreDependency (newMessage cmd_time_grant) 131072 two_reports =
  generateTimeRequestIgnoreDependency (newMessage cmd_time_grant) 131072
    (removeDependency 131072 two_reports).
Proof. apply no_echo. reflexivity. Defined.

Lemma reports_are_trusted_witness :
  exists ms, sent (updateTimeFactors two_reports) = sent two_reports ++ ms /\
             Forall (trusted_request (dependencies two_reports)) ms.
Proof. apply reports_are_trusted; apply two_reports_good. Defined.
