(* ===== verification/NamedInputInfo.v ===== *)
(** * Inputs of a federate

    Models [src/helics/core/NamedInputInfo.hpp] and [NamedInputInfo.cpp]: the
    values an input has received from each of its sources, those it shows and
    those that wait for their time.  A [shared_ptr<const data_block>] is an
    optional string: the block is never changed through it. *)

From S2P Require Import Prelude HTime Identifiers ActionMessage.

(** ** State *)

Record dataRecord := mkRecord {
  rtime : Time;
  riteration : Z;
  rdata : option string;
}.

#[export] Instance dataRecord_settable : Settable dataRecord := fun r =>
  mkRecord (rtime r) (riteration r) (rdata r).

#[export] Instance dataRecord_eq_dec : EqDecision dataRecord.
Proof. solve_decision. Defined.

Definition empty_record : dataRecord := mkRecord T.minVal 0 None.

Record NamedInputInfo := mkInput {
  id : global_handle;
  key : string;
  type : string;
  inputType : string;
  units : string;
  required : bool;
  optional : bool;
  has_target : bool;
  only_update_on_change : bool;
  not_interruptible : bool;
  strict_type_matching : bool;
  single_source : bool;
  current_data : list dataRecord;
  input_sources : list global_handle;
  deactivated : list Time;
  source_types : list (string * string);
  data_queues : list (list dataRecord);
}.

#[export] Instance NamedInputInfo_settable : Settable NamedInputInfo := fun r =>
  mkInput (id r) (key r) (type r) (inputType r) (units r) (required r) (optional r)
    (has_target r) (only_update_on_change r) (not_interruptible r) (strict_type_matching r)
    (single_source r) (current_data r) (input_sources r) (deactivated r) (source_types r)
    (data_queues r).

Definition new_input (handle : global_handle) (key_ type_ units_ : string) : NamedInputInfo := {|
  id := handle; key := key_; type := type_; inputType := ""; units := units_; required := false;
  optional := false; has_target := false; only_update_on_change := false;
  not_interruptible := false; strict_type_matching := false; single_source := false;
  current_data := []; input_sources := []; deactivated := []; source_types := [];
  data_queues := [];
|}.

(** ** Reading *)

Definition getAllData (inp : NamedInputInfo) : list (option string) := rdata <$> current_data inp.

Definition getData_at (index : Z) (inp : NamedInputInfo) : option string :=
  if isValidIndex index (current_data inp)
  then current_data inp !! Z.to_nat index ≫= rdata else None.

(** The loop of [getData]: the latest time and its position so far. *)
Definition latest_step (acc : Z * Z * Time) (cd : dataRecord) : Z * Z * Time :=
  let '(ind, mxind, mxTime) := acc in
  if mxTime <? rtime cd then (ind + 1, ind, rtime cd) else (ind + 1, mxind, mxTime).

Definition getData (inp : NamedInputInfo) : option string :=
  let '(_, mxind, _) := fold_left latest_step (current_data inp) (0, -1, T.minVal) in
  if 0 <=? mxind then current_data inp !! Z.to_nat mxind ≫= rdata else None.

(** ** Receiving *)

Definition recordComparison (rec1 rec2 : dataRecord) : bool :=
  if rtime rec1 <? rtime rec2 then true
  else if rtime rec1 =? rtime rec2 then riteration rec1 <? riteration rec2 else false.

(** [std::upper_bound] on a sorted range: before the first element that is
    after the new one. *)
Fixpoint upper_insert (r : dataRecord) (q : list dataRecord) : list dataRecord :=
  match q with
  | [] => [r]
  | r' :: q' => if recordComparison r r' then r :: q else r' :: upper_insert r q'
  end.

Definition add_to_queue (r : dataRecord) (q : list dataRecord) : list dataRecord :=
  match last q with
  | None => q ++ [r]
  | Some b => if rtime b <? rtime r then q ++ [r] else upper_insert r q
  end.

(** The position of the first of the sources that is [h]. *)
Fixpoint source_index (h : global_handle) (l : list global_handle) : option nat :=
  match l with
  | [] => None
  | h' :: l' => if Handle.eqb h' h then Some 0%nat else S <$> source_index h l'
  end.

Definition addData (source_id : global_handle) (valueTime : Time) (iteration : Z)
    (data : option string) (inp : NamedInputInfo) : NamedInputInfo :=
  match source_index source_id (input_sources inp) with
  | None => inp
  | Some index =>
      if nth index (deactivated inp) T.maxVal <? valueTime then inp
      else inp <| data_queues ::= alter (add_to_queue (mkRecord valueTime iteration data)) index |>
  end.

(** ** Sources *)

Definition addSource (newSource : global_handle) (stype sunits : string) (inp : NamedInputInfo)
    : NamedInputInfo :=
  let inp := inp <| input_sources ::= fun l => l ++ [newSource] |>
                 <| source_types ::= fun l => l ++ [(stype, sunits)] |> in
  inp <| data_queues ::= resize (length (input_sources inp)) [] |>
      <| current_data ::= resize (length (input_sources inp)) empty_record |>
      <| deactivated ::= fun l => l ++ [T.maxVal] |>
      <| has_target := true |>.

(** [pop_back] while the last record is after [minTime] *)
Fixpoint pop_after (minTime : Time) (q : list dataRecord) : list dataRecord :=
  match q with
  | [] => []
  | r :: q' =>
      match pop_after minTime q' with
      | [] => if minTime <? rtime r then [] else [r]
      | q'' => r :: q''
      end
  end.

Definition removeSource (sourceToRemove : global_handle) (minTime : Time) (inp : NamedInputInfo)
    : NamedInputInfo :=
  let matches ii := match input_sources inp !! ii with
                    | Some h => Handle.eqb h sourceToRemove
                    | None => false
                    end in
  inp <| data_queues ::= imap (fun ii q => if matches ii then pop_after minTime q else q) |>
      <| deactivated ::= imap (fun ii t => if matches ii then minTime else t) |>.

Definition clearFutureData (inp : NamedInputInfo) : NamedInputInfo :=
  inp <| data_queues ::= fmap (fun _ => []) |>.

(** ** Moving to a new time *)

(** The result and the value shown for one source. *)
Definition updateData (on_change : bool) (update cur : dataRecord) : bool * dataRecord :=
  if negb on_change || bool_decide (rdata cur = None) then (true, update)
  else if bool_decide (rdata cur <> rdata update) then (true, update)
  else if rtime cur =? rtime update then (false, cur <| riteration := riteration update |>)
  else (false, cur).

(** Advance while the next record passes the test: the last record passed, and
    those that remain. *)
Fixpoint advance (test : dataRecord -> bool) (last : dataRecord) (q : list dataRecord)
    : dataRecord * list dataRecord :=
  match q with
  | [] => (last, [])
  | r :: q' => if test r then advance test r q' else (last, q)
  end.

(** What one queue gives up at a time; [None] is the early return. *)
Definition first_ready (newTime : Time)
    (k : dataRecord -> list dataRecord -> dataRecord * list dataRecord) (q : list dataRecord)
    : option (dataRecord * list dataRecord) :=
  match q with
  | [] => None
  | r :: q' => if newTime <? rtime r then None else Some (k r q')
  end.

Definition take_up_to (newTime : Time) : list dataRecord -> option (dataRecord * list dataRecord) :=
  first_ready newTime (advance (fun r => rtime r <? newTime)).

Definition take_inclusive (newTime : Time)
    : list dataRecord -> option (dataRecord * list dataRecord) :=
  first_ready newTime (advance (fun r => rtime r <=? newTime)).

Definition take_next_iteration (newTime : Time)
    : list dataRecord -> option (dataRecord * list dataRecord) :=
  first_ready newTime (fun r q =>
    let '(last, rest) := advance (fun r => rtime r <? newTime) r q in
    match rest with
    | [] => (last, rest)
    | c :: _ =>
        if rtime c =? newTime then
          let cindex := riteration last in
          advance (fun r => (rtime r =? newTime) && (riteration r =? cindex)) last rest
        else (last, rest)
    end).

(** The loop over the queues: a queue with nothing ready ends it with the
    result false. *)
Fixpoint update_queues (on_change : bool)
    (take_ : list dataRecord -> option (dataRecord * list dataRecord))
    (queues : list (list dataRecord)) (current : list dataRecord) (updated : bool)
    : bool * list (list dataRecord) * list dataRecord :=
  match queues, current with
  | q :: queues', cur :: current' =>
      match take_ q with
      | None => (false, queues, current)
      | Some (last, rest) =>
          let '(res, cur) := updateData on_change last cur in
          let '(u, qs, cs) := update_queues on_change take_ queues' current' (updated || res) in
          (u, rest :: qs, cur :: cs)
      end
  | _, _ => (updated, queues, current)
  end.

Definition update_with (take_ : list dataRecord -> option (dataRecord * list dataRecord))
    (inp : NamedInputInfo) : bool * NamedInputInfo :=
  let '(u, qs, cs) := update_queues (only_update_on_change inp) take_ (data_queues inp)
                        (current_data inp) false in
  (u, inp <| data_queues := qs |> <| current_data := cs |>).

Definition updateTimeUpTo (newTime : Time) : NamedInputInfo -> bool * NamedInputInfo :=
  update_with (take_up_to newTime).
Definition updateTimeNextIteration (newTime : Time) : NamedInputInfo -> bool * NamedInputInfo :=
  update_with (take_next_iteration newTime).
Definition updateTimeInclusive (newTime : Time) : NamedInputInfo -> bool * NamedInputInfo :=
  update_with (take_inclusive newTime).

Definition nextValueTime (inp : NamedInputInfo) : Time :=
  if not_interruptible inp then T.maxVal
  else fold_left (fun nvtime q => match q with
                                  | [] => nvtime
                                  | r :: _ => if rtime r <? nvtime then rtime r else nvtime
                                  end) (data_queues inp) T.maxVal.

(** ** Types *)

Definition convertible_set : list string :=
  ["double_vector"; "complex_vector"; "vector"; "double"; "float"; "bool"; "char"; "uchar";
   "int32"; "int64"; "uint32"; "uint64"; "int16"; "string"; "complex"; "complex_f";
   "named_point"]%string.

Definition one_of (s : string) (l : list string) : bool := bool_decide (s ∈ l).

Definition checkTypeMatch (type1 type2 : string) (strict_match : bool) : bool :=
  if one_of type1 [""; type2; "def"; "any"; "raw"]%string then true
  else if strict_match then false
  else if one_of type2 [""; "def"; "any"]%string then true
  else if one_of type1 convertible_set then one_of type2 convertible_set
  else bool_decide (type2 = "raw"%string).
