(* ===== verification/InputSpec.v ===== *)
(** * Inputs: properties

    The queues stay sorted and bounded by the removal of their source, a move
    in time shows the latest value that is due and keeps the later ones, and
    the cases in which a value never shows. *)

From S2P Require Import Prelude HTime Identifiers ActionMessage NamedInputInfo.

(** ** The invariant *)

(** The order of the queues: by time, then by iteration. *)
Definition rec_le (a b : dataRecord) : Prop :=
  rtime a < rtime b \/ (rtime a = rtime b /\ riteration a <= riteration b).

#[export] Instance rec_le_dec a b : Decision (rec_le a b).
Proof. unfold rec_le. apply _. Defined.

#[export] Instance rec_le_preorder : PreOrder rec_le.
Proof. unfold rec_le. split; [intros a; lia|intros a b c; lia]. Qed.

Lemma recordComparison_spec a b : recordComparison a b = true <-> ~ rec_le b a.
Proof.
  unfold recordComparison, rec_le. repeat case_if; breflect; rewrite ?Z.ltb_lt; split; try done; lia.
Qed.

Definition sorted_queue (q : list dataRecord) : Prop := StronglySorted rec_le q.

Record input_inv (inp : NamedInputInfo) : Prop := {
  inv_queues : length (data_queues inp) = length (input_sources inp);
  inv_current : length (current_data inp) = length (input_sources inp);
  inv_deactivated : length (deactivated inp) = length (input_sources inp);
  inv_types : length (source_types inp) = length (input_sources inp);
  inv_sorted : Forall sorted_queue (data_queues inp);
  inv_live : Forall2 (fun q t => Forall (fun r => rtime r <= t) q) (data_queues inp) (deactivated inp);
}.

Lemma sorted_app q1 q2 :
  sorted_queue (q1 ++ q2) <->
  sorted_queue q1 /\ sorted_queue q2 /\ forall a b, a ∈ q1 -> b ∈ q2 -> rec_le a b.
Proof.
  unfold sorted_queue. rewrite StronglySorted_app. split.
  - intros (H1 & H2 & H3). auto.
  - intros (H1 & H2 & H3). auto.
Qed.

Lemma upper_insert_spec r q :
  sorted_queue q -> sorted_queue (upper_insert r q) /\ upper_insert r q ≡ₚ r :: q.
Proof.
  unfold sorted_queue. induction 1 as [|x q Hq IH Hx]; cbn [upper_insert].
  - split; [repeat constructor|done].
  - destruct (recordComparison r x) eqn:E.
    + apply recordComparison_spec in E. split; [|done]. constructor; [by constructor|].
      assert (rec_le r x) by (unfold rec_le in *; lia). constructor; [done|].
      eapply Forall_impl; [exact Hx|]. intros y Hy. by etrans.
    + destruct IH as [IH1 IH2]. split; [|rewrite IH2; apply Permutation_swap].
      constructor; [done|]. rewrite IH2. constructor; [|done].
      destruct (decide (rec_le x r)) as [|Hn]; [done|].
      apply recordComparison_spec in Hn. congruence.
Qed.

Lemma add_to_queue_spec r q :
  sorted_queue q -> sorted_queue (add_to_queue r q) /\ add_to_queue r q ≡ₚ r :: q.
Proof.
  intros Hs. unfold add_to_queue. destruct (last q) as [b|] eqn:El.
  - destruct (Z.ltb_spec (rtime b) (rtime r)) as [Hlt|]; [|by apply upper_insert_spec].
    split; [|symmetry; apply Permutation_cons_append].
    apply sorted_app. split; [done|]. split; [repeat constructor|].
    intros x y Hx Hy. apply list_elem_of_singleton in Hy as ->.
    apply last_Some in El as [q' ->]. apply elem_of_app in Hx as [Hx|Hx].
    + apply sorted_app in Hs as (_ & _ & Hs). specialize (Hs x b Hx ltac:(left)).
      unfold rec_le in *. lia.
    + apply list_elem_of_singleton in Hx as ->. unfold rec_le. lia.
  - apply last_None in El as ->. split; [repeat constructor|done].
Qed.

(** Popping from the end of a sorted queue keeps exactly what is not after. *)
Lemma pop_after_filter t q :
  sorted_queue q -> pop_after t q = filter (fun r => rtime r <= t) q.
Proof.
  unfold sorted_queue. induction 1 as [|r q Hq IH Hr]; [done|]. cbn [pop_after]. rewrite IH.
  destruct (decide (rtime r <= t)) as [Hle|Hgt].
  - rewrite filter_cons_True by done. destruct (filter _ q); [|done].
    destruct (Z.ltb_spec t (rtime r)); [lia|done].
  - rewrite filter_cons_False by done.
    assert (filter (fun r => rtime r <= t) q = []) as ->.
    { destruct (filter _ q) as [|x l] eqn:E; [done|].
      assert (x ∈ filter (fun r => rtime r <= t) q) as Hx by (rewrite E; left).
      apply list_elem_of_filter in Hx as [Hx1 Hx2]. rewrite Forall_forall in Hr.
      specialize (Hr x Hx2). unfold rec_le in Hr. lia. }
    destruct (Z.ltb_spec t (rtime r)); [done|lia].
Qed.

Lemma sorted_filter P `{forall x, Decision (P x)} q : sorted_queue q -> sorted_queue (filter P q).
Proof.
  unfold sorted_queue. induction 1 as [|r q Hq IH Hr]; [constructor|].
  destruct (decide (P r)); [rewrite filter_cons_True by done|by rewrite filter_cons_False by done].
  constructor; [done|]. apply Forall_forall. intros x [_ Hx]%list_elem_of_filter.
  rewrite Forall_forall in Hr. by apply Hr.
Qed.

Lemma source_index_spec h l i : source_index h l = Some i -> l !! i = Some h /\
  forall j, (j < i)%nat -> l !! j <> Some h.
Proof.
  revert i. induction l as [|h' l IH]; intros i; cbn [source_index]; [done|].
  destruct (Handle.eqb h' h) eqn:E.
  - intros [= <-]. apply HandleFacts.eqb_eq in E as ->. split; [done|]. lia.
  - intros (j & Hj & ->)%fmap_Some. destruct (IH j Hj) as [H1 H2]. split; [done|].
    intros [|k] Hk; cbn; [intros [= ->]|apply H2; lia].
    assert (Handle.eqb h h = true) by by apply HandleFacts.eqb_eq. congruence.
Qed.

(** ** Taking from a queue *)

Lemma advance_split test q : forall lst,
  exists pre rest, q = pre ++ rest /\ advance test lst q = (List.last pre lst, rest) /\
    Forall (fun r => test r = true) pre /\
    (rest = [] \/ exists r rest', rest = r :: rest' /\ test r = false).
Proof.
  induction q as [|r q IH]; intros lst; cbn [advance].
  - exists [], []. repeat split; [constructor|by left].
  - destruct (test r) eqn:E.
    + destruct (IH r) as (pre & rest & -> & -> & Hp & Hr).
      exists (r :: pre), rest. split; [done|]. split; [|split; [by constructor|done]].
      f_equal. destruct pre as [|x pre]; [done|]. cbn [List.last].
      clear. revert x. induction pre as [|y pre IH2]; intros x; [done|]. apply IH2.
    + exists [], (r :: q). split; [done|]. split; [done|]. split; [constructor|]. right. eauto.
Qed.

(** What is taken is a beginning of the queue. *)
Definition takes_prefix (take_ : list dataRecord -> option (dataRecord * list dataRecord)) : Prop :=
  forall q lst rest, take_ q = Some (lst, rest) -> rest `suffix_of` q.

Lemma advance_suffix test lst q : snd (advance test lst q) `suffix_of` q.
Proof.
  destruct (advance_split test q lst) as (pre & rest & -> & -> & _). by apply suffix_app_r.
Qed.

Lemma first_ready_prefix t k :
  (forall r q, snd (k r q) `suffix_of` q) -> takes_prefix (first_ready t k).
Proof.
  intros Hk q lst rest. unfold first_ready. destruct q as [|r q]; [done|].
  destruct (t <? rtime r); [done|]. intros [= E]. specialize (Hk r q). rewrite E in Hk. cbn in Hk.
  by apply suffix_cons_r.
Qed.

Lemma take_up_to_prefix t : takes_prefix (take_up_to t).
Proof. apply first_ready_prefix. intros r q. apply advance_suffix. Qed.

Lemma take_inclusive_prefix t : takes_prefix (take_inclusive t).
Proof. apply first_ready_prefix. intros r q. apply advance_suffix. Qed.

Lemma take_next_iteration_prefix t : takes_prefix (take_next_iteration t).
Proof.
  apply first_ready_prefix. intros r q.
  pose proof (advance_suffix (fun r => rtime r <? t) r q) as H1.
  destruct (advance _ r q) as [lst rest]. cbn [snd] in H1.
  destruct rest as [|c rest]; [done|]. case_if; [|done].
  etrans; [apply advance_suffix|done].
Qed.

Lemma update_queues_frame oc take_ queues : forall current u,
  takes_prefix take_ -> length queues = length current ->
  let '(_, qs, cs) := update_queues oc take_ queues current u in
  Forall2 (fun q' q => q' `suffix_of` q) qs queues /\ length cs = length current.
Proof.
  induction queues as [|q queues IH]; intros [|cur current] u Ht Hl; try discriminate Hl; cbn [update_queues].
  - split; [constructor|done].
  - assert (Forall2 (fun q' q => q' `suffix_of` q) (q :: queues) (q :: queues)) as Hrefl.
    { apply Forall_Forall2_diag, Forall_true. done. }
    destruct (take_ q) as [[lst rest]|] eqn:E; [|done].
    destruct (updateData oc lst cur) as [res cur'].
    specialize (IH current (u || res) Ht ltac:(by injection Hl)).
    destruct (update_queues oc take_ queues current (u || res)) as [[u' qs] cs].
    destruct IH as [H1 H2]. split; [|cbn; lia]. constructor; [by eapply Ht|done].
Qed.

(** *** Every operation keeps the invariant *)

Lemma suffix_sorted q' q : q' `suffix_of` q -> sorted_queue q -> sorted_queue q'.
Proof. intros [pre ->] Hs. by apply sorted_app in Hs as (_ & ? & _). Qed.

Lemma update_with_inv take_ inp :
  takes_prefix take_ -> input_inv inp -> input_inv (snd (update_with take_ inp)).
Proof.
  intros Ht []. unfold update_with.
  pose proof (update_queues_frame (only_update_on_change inp) take_ (data_queues inp)
    (current_data inp) false Ht ltac:(congruence)) as Hf.
  destruct (update_queues _ _ _ _ _) as [[u qs] cs]. destruct Hf as [H1 H2]. cbn [snd].
  pose proof (Forall2_length _ _ _ H1) as Hl. split; cbn; try congruence.
  - apply Forall_forall. intros q' Hq'. apply list_elem_of_lookup in Hq' as [i Hi].
    destruct (Forall2_lookup_l _ _ _ _ _ H1 Hi) as (q & Hq & Hs). eapply suffix_sorted; [exact Hs|].
    rewrite Forall_lookup in inv_sorted0. by eapply inv_sorted0.
  - apply Forall2_same_length_lookup_2; [congruence|]. intros i q' t Hq' Ht'.
    destruct (Forall2_lookup_l _ _ _ _ _ H1 Hq') as (q & Hq & [pre ->]).
    pose proof (Forall2_lookup_lr _ _ _ _ _ _ inv_live0 Hq Ht') as Hlive.
    by apply Forall_app in Hlive as [_ ?].
Qed.

Lemma addData_inv h t it d inp : input_inv inp -> input_inv (addData h t it d inp).
Proof.
  intros []. unfold addData. destruct (source_index h (input_sources inp)) as [i|] eqn:Ei; [|by split].
  destruct (Z.ltb_spec (nth i (deactivated inp) T.maxVal) t) as [Hlt|Hle]; [by split|].
  split; cbn; try done.
  - by rewrite length_alter.
  - apply Forall_alter; [done|]. intros q Hq _.
    rewrite Forall_lookup in inv_sorted0. by apply add_to_queue_spec, inv_sorted0 with i.
  - apply Forall2_same_length_lookup_2; [rewrite length_alter; congruence|].
    intros j q t' Hq Ht'. destruct (decide (j = i)) as [->|Hne].
    + rewrite list_lookup_alter_eq in Hq. apply fmap_Some in Hq as (q0 & Hq0 & ->).
      pose proof (Forall2_lookup_lr _ _ _ _ _ _ inv_live0 Hq0 Ht') as Hlive. cbn in Hlive.
      rewrite Forall_lookup in inv_sorted0.
      rewrite (proj2 (add_to_queue_spec _ q0 (inv_sorted0 i q0 Hq0))). constructor; [|done]. cbn.
      rewrite (nth_lookup_Some _ _ _ _ Ht') in Hle. done.
    + rewrite list_lookup_alter_ne in Hq by done. by eapply (Forall2_lookup_lr _ _ _ _ _ _ inv_live0).
Qed.

Lemma addSource_inv h ty un inp : input_inv inp -> input_inv (addSource h ty un inp).
Proof.
  intros []. unfold addSource. split; cbn; rewrite ?length_resize, ?length_app; cbn; try lia.
  - rewrite resize_ge by lia.
    replace (length (input_sources inp) + 1 - length (data_queues inp))%nat with 1%nat by lia.
    apply Forall_app. split; [done|]. repeat constructor.
  - rewrite resize_ge by lia.
    replace (length (input_sources inp) + 1 - length (data_queues inp))%nat with 1%nat by lia.
    apply Forall2_app; [done|]. repeat constructor.
Qed.

Lemma removeSource_inv h t inp : input_inv inp -> input_inv (removeSource h t inp).
Proof.
  intros []. unfold removeSource. split; cbn; rewrite ?length_imap; try done.
  - apply Forall_lookup. intros i q Hq. rewrite list_lookup_imap in Hq.
    apply fmap_Some in Hq as (q0 & Hq0 & ->). rewrite Forall_lookup in inv_sorted0.
    destruct (match input_sources inp !! i with Some h' => Handle.eqb h' h | None => false end); [|by eapply inv_sorted0].
    rewrite pop_after_filter by by eapply inv_sorted0. apply sorted_filter. by eapply inv_sorted0.
  - apply Forall2_same_length_lookup_2; [rewrite !length_imap; congruence|].
    intros i q t' Hq Ht'. rewrite list_lookup_imap in Hq. rewrite list_lookup_imap in Ht'.
    apply fmap_Some in Hq as (q0 & Hq0 & ->). apply fmap_Some in Ht' as (t0 & Ht0 & ->).
    pose proof (Forall2_lookup_lr _ _ _ _ _ _ inv_live0 Hq0 Ht0) as Hlive. cbn in Hlive.
    destruct (match input_sources inp !! i with Some h' => Handle.eqb h' h | None => false end); [|done].
    rewrite Forall_lookup in inv_sorted0. rewrite pop_after_filter by by eapply inv_sorted0.
    apply Forall_forall. by intros x [? _]%list_elem_of_filter.
Qed.

Lemma clearFutureData_inv inp : input_inv inp -> input_inv (clearFutureData inp).
Proof.
  intros []. unfold clearFutureData. split; cbn; rewrite ?length_fmap; try done.
  - apply Forall_fmap, Forall_true. constructor.
  - apply Forall2_same_length_lookup_2; [rewrite length_fmap; congruence|]. intros i q t Hq _.
    rewrite list_lookup_fmap in Hq. apply fmap_Some in Hq as (q0 & _ & ->). constructor.
Qed.

Inductive input_step : NamedInputInfo -> NamedInputInfo -> Prop :=
  | in_add h t it d inp : input_step inp (addData h t it d inp)
  | in_source h ty un inp : input_step inp (addSource h ty un inp)
  | in_remove h t inp : input_step inp (removeSource h t inp)
  | in_clear inp : input_step inp (clearFutureData inp)
  | in_up_to t inp : input_step inp (snd (updateTimeUpTo t inp))
  | in_inclusive t inp : input_step inp (snd (updateTimeInclusive t inp))
  | in_iteration t inp : input_step inp (snd (updateTimeNextIteration t inp)).

Lemma input_step_inv inp inp' : input_step inp inp' -> input_inv inp -> input_inv inp'.
Proof.
  intros Hstep Hi. destruct Hstep; [by apply addData_inv|by apply addSource_inv|
    by apply removeSource_inv|by apply clearFutureData_inv| | |]; apply update_with_inv; try done.
  - apply take_up_to_prefix.
  - apply take_inclusive_prefix.
  - apply take_next_iteration_prefix.
Qed.

(** The queues of an input.  Whatever sequence of values, new and removed
    sources and moves in time an input goes through, it has one queue, one
    current value and one limit for each source, each queue is sorted by time
    and iteration, and it holds no value after the removal of its source. *)
Theorem input_invariant (h : global_handle) (k ty un : string) (inp : NamedInputInfo) :
  rtc input_step (new_input h k ty un) inp -> input_inv inp.
Proof.
  intros Hr. assert (input_inv (new_input h k ty un)) as H0 by (split; try constructor; done).
  revert H0. induction Hr as [|x y z Hxy Hyz IH]; intros H0; [done|].
  apply IH. by eapply input_step_inv.
Qed.

Lemma input_invariant_witness :
  input_inv (addData (GlobalHandle 131073 4) 700 0 (Some "7"%string)
    (addData (GlobalHandle 131073 4) 900 0 (Some "9"%string)
      (addSource (GlobalHandle 131073 4) "double" "V"
        (new_input (GlobalHandle 131072 1) "in" "double" "V")))).
Proof.
  apply (input_invariant (GlobalHandle 131072 1) "in" "double" "V").
  eapply rtc_l; [apply in_source|]. eapply rtc_l; [apply in_add|].
  eapply rtc_l; [apply in_add|]. apply rtc_refl.
Defined.

(** ** What a move in time shows *)

(** A queue has something to show at [t]. *)
Definition due (t : Time) (q : list dataRecord) : Prop := Exists (fun r => rtime r <= t) q.

Lemma sorted_due_head t r q : sorted_queue (r :: q) -> due t (r :: q) <-> rtime r <= t.
Proof.
  intros [_ Hr]%StronglySorted_inv. unfold due. split; [|by constructor].
  intros Hx%Exists_exists. destruct Hx as (x & Hin & Hx). apply elem_of_cons in Hin as [->|Hin]; [done|].
  rewrite Forall_forall in Hr. specialize (Hr x Hin). unfold rec_le in Hr. lia.
Qed.

Lemma last_default {A} (x : A) l : last (x :: l) = Some (List.last l x).
Proof.
  revert x. induction l as [|y l IH]; intros x; [done|]. cbn [last]. rewrite IH. f_equal.
  destruct l as [|z l]; [done|]. cbn [List.last]. clear. revert z.
  induction l as [|w l IH]; intros z; [done|]. apply IH.
Qed.

Lemma take_inclusive_spec t q :
  sorted_queue q ->
  take_inclusive t q =
    (lst ← last (filter (fun r => rtime r <= t) q); Some (lst, filter (fun r => t < rtime r) q)).
Proof.
  intros Hs. unfold take_inclusive, first_ready. destruct q as [|r q]; [done|].
  destruct (Z.ltb_spec t (rtime r)) as [Hlt|Hle].
  - rewrite (filter_none (fun r => rtime r <= t)); [done|]. apply Forall_forall. intros x Hx Hxt.
    apply (proj1 (Z.le_ngt (rtime r) t)); [|done]. apply (sorted_due_head t r q Hs). apply Exists_exists. eauto.
  - destruct (advance_split (fun r => rtime r <=? t) q r) as (pre & rest & -> & Ha & Hp & Hrest).
    rewrite Ha. rewrite (filter_cons_True (fun r => rtime r <= t)) by done.
    rewrite (filter_cons_False (fun r => t < rtime r)) by lia.
    rewrite !filter_app. apply (Forall_impl _ (fun r => rtime r <= t)) in Hp; [|intros; lia].
    assert (Forall (fun r => t < rtime r) rest) as Hlate.
    { destruct Hrest as [->|(x & rest' & -> & Hx)]; [constructor|].
      apply StronglySorted_inv in Hs as [Hs _]. apply sorted_app in Hs as (_ & Hs & _).
      apply StronglySorted_inv in Hs as [_ Hs]. constructor; [lia|].
      eapply Forall_impl; [exact Hs|]. intros y Hy. unfold rec_le in Hy. lia. }
    rewrite (filter_all (fun r => rtime r <= t) pre) by done.
    rewrite (filter_none (fun r => rtime r <= t) rest) by (eapply Forall_impl; [exact Hlate|]; cbn; lia).
    rewrite (filter_none (fun r => t < rtime r) pre) by (eapply Forall_impl; [exact Hp|]; cbn; lia).
    rewrite (filter_all (fun r => t < rtime r) rest) by done. rewrite app_nil_r, last_default. done.
Qed.

Lemma due_last t q : due t q <-> is_Some (last (filter (fun r => rtime r <= t) q)).
Proof.
  rewrite last_is_Some. unfold due. rewrite Exists_exists. split.
  - intros (x & Hx & Hle) Hn. assert (x ∈ filter (fun r => rtime r <= t) q) as Hf by by apply list_elem_of_filter.
    rewrite Hn in Hf. by apply not_elem_of_nil in Hf.
  - destruct (filter _ q) as [|x l] eqn:E; [done|]. intros _. exists x.
    assert (x ∈ filter (fun r => rtime r <= t) q) as Hf by (rewrite E; left).
    by apply list_elem_of_filter in Hf as [??].
Qed.

(** The latest record of a queue that is due. *)
Definition latest_due (t : Time) (q : list dataRecord) : option dataRecord :=
  last (filter (fun r => rtime r <= t) q).

(** An input that is told of changes only: the value that came is the one that
    is shown. *)
Definition repeats (on_change : bool) (r cur : dataRecord) : bool :=
  on_change && bool_decide (is_Some (rdata cur)) && bool_decide (rdata r = rdata cur).

(** What is shown then: the record that came, or the one before, which has the
    number of the last iteration at its time. *)
Definition shown (on_change : bool) (r cur : dataRecord) : dataRecord :=
  if repeats on_change r cur
  then cur <| riteration := if rtime cur =? rtime r then riteration r else riteration cur |>
  else r.

Lemma shown_data on_change r cur : rdata (shown on_change r cur) = rdata r.
Proof. unfold shown, repeats. destruct on_change; cbn; repeat case_bool_decide; by try congruence. Qed.

Lemma shown_all_data on_change news : forall current, (length news <= length current)%nat ->
  rdata <$> zip_with (shown on_change) news current = rdata <$> news.
Proof.
  induction news as [|r news IH]; intros [|cur current] Hl; cbn in *; try done; [lia|].
  rewrite shown_data. f_equal. apply IH. lia.
Qed.

Lemma updateData_shown on_change r cur :
  updateData on_change r cur = (negb (repeats on_change r cur), shown on_change r cur).
Proof.
  unfold updateData, shown, repeats. destruct on_change; cbn; [|done].
  destruct cur as [ct ci [cd|]], r as [rt ri rd]; cbn; [|done].
  repeat case_bool_decide; try done; try congruence. all: try (by destruct (ct =? rt)).
  all: exfalso; eauto.
Qed.

Lemma update_queues_inclusive t oc pre : forall post current u,
  Forall sorted_queue (pre ++ post) -> length (pre ++ post) = length current ->
  Forall (due t) pre -> (forall q, head post = Some q -> ~ due t q) ->
  let '(res, qs, cs) := update_queues oc (take_inclusive t) (pre ++ post) current u in
  exists news, Some <$> news = latest_due t <$> pre /\
  res = bool_decide (post = []) && (u || existsb (fun p => negb (repeats oc (fst p) (snd p))) (zip news current)) /\
  qs = (filter (fun r => t < rtime r) <$> pre) ++ post /\
  cs = zip_with (shown oc) news current ++ drop (length pre) current.
Proof.
  induction pre as [|q pre IH]; intros post [|cur current] u Hs Hl Hpre Hpost;
    cbn [app fmap list_fmap length drop] in *; try discriminate Hl.
  - destruct post; [|discriminate Hl]. cbn. exists []. by rewrite orb_false_r.
  - destruct post as [|q post]; [discriminate Hl|]. cbn [update_queues].
    apply Forall_cons in Hs as [Hs _]. rewrite take_inclusive_spec by done.
    specialize (Hpost q eq_refl). rewrite due_last in Hpost.
    destruct (last _) as [lst|]; [destruct Hpost; eauto|]. cbn. by exists [].
  - cbn [update_queues]. apply Forall_cons in Hs as [Hs Hss]. apply Forall_cons in Hpre as [Hq Hpre].
    rewrite take_inclusive_spec by done. apply due_last in Hq as [lst Hlst]. rewrite Hlst.
    cbn [mbind option_bind]. rewrite updateData_shown.
    specialize (IH post current (u || negb (repeats oc lst cur)) Hss ltac:(by injection Hl) Hpre Hpost).
    destruct (update_queues _ _ (pre ++ post) current _) as [[res qs] cs].
    destruct IH as (news & Hnews & -> & -> & ->). exists (lst :: news). cbn [fmap list_fmap zip_with existsb fst snd].
    split; [unfold latest_due at 1; rewrite Hlst; by f_equal|]. split; [by rewrite orb_assoc|]. done.
Qed.

Lemma fold_nvtime t qs : forall acc,
  t < acc -> Forall (Forall (fun r => t < rtime r)) qs ->
  t < fold_left (fun nvtime q => match q with
                                 | [] => nvtime
                                 | r :: _ => if rtime r <? nvtime then rtime r else nvtime
                                 end) qs acc.
Proof.
  induction qs as [|q qs IH]; intros acc Hacc H; [done|]. cbn [fold_left].
  apply Forall_cons in H as [Hq H]. apply IH; [|done]. destruct q as [|r q]; [done|].
  apply Forall_cons in Hq as [Hq _]. by case_if.
Qed.

(** C35: A move of an input to a time, [updateTimeInclusive].  The sources are
    served in the order they were added, up to the first that has nothing due:
    each of those shows the data of its latest record due at the time and keeps
    exactly its later records.  It shows that record itself, except that an
    input which is told of changes only keeps the record it shows when the data
    are the same, with the iteration of the new one if their times are equal.
    The other sources keep what they show and all that they hold, and the move
    reports a change exactly when there are none of them and one of the records
    did not repeat what was shown.  If all sources were served, the next value
    the input reports is after the time. *)
Theorem input_move (t : Time) (inp : NamedInputInfo) (pre post : list (list dataRecord)) :
  let oc := only_update_on_change inp in
  input_inv inp -> t < T.maxVal ->
  data_queues inp = pre ++ post -> Forall (due t) pre ->
  (forall q, head post = Some q -> ~ due t q) ->
  let '(res, inp') := updateTimeInclusive t inp in
  exists news, Some <$> news = latest_due t <$> pre /\
  res = bool_decide (post = []) &&
        existsb (fun p => negb (repeats oc (fst p) (snd p))) (zip news (current_data inp)) /\
  data_queues inp' = (filter (fun r => t < rtime r) <$> pre) ++ post /\
  current_data inp' = zip_with (shown oc) news (current_data inp) ++ drop (length pre) (current_data inp) /\
  rdata <$> zip_with (shown oc) news (current_data inp) = rdata <$> news /\
  (post = [] -> t < nextValueTime inp').
Proof.
  intros oc [] Ht Hd Hpre Hpost. unfold updateTimeInclusive, update_with. rewrite Hd.
  pose proof (update_queues_inclusive t oc pre post (current_data inp) false
    ltac:(by rewrite <- Hd) ltac:(rewrite <- Hd; congruence) Hpre Hpost) as Hu. fold oc.
  destruct (update_queues _ _ _ _ _) as [[res qs] cs]. destruct Hu as (news & Hnews & -> & -> & ->).
  exists news. split_and!; try done.
  - apply shown_all_data. apply (f_equal length) in Hnews. rewrite !length_fmap in Hnews.
    assert (length (pre ++ post) = length (current_data inp)) as Hl by (rewrite <- Hd; congruence).
    rewrite length_app in Hl. lia.
  - intros ->. unfold nextValueTime. cbn. case_if; [done|]. apply fold_nvtime; [done|]. rewrite app_nil_r.
    apply Forall_fmap, Forall_true. intros q. apply Forall_forall. by intros r [??]%list_elem_of_filter.
Qed.

Definition two_sources : NamedInputInfo :=
  addData (GlobalHandle 131074 5) 800 0 (Some "8"%string)
    (addData (GlobalHandle 131073 4) 900 0 (Some "9"%string)
      (addData (GlobalHandle 131073 4) 700 0 (Some "7"%string)
        (addSource (GlobalHandle 131074 5) "double" "V"
          (addSource (GlobalHandle 131073 4) "double" "V"
            (new_input (GlobalHandle 131072 1) "in" "double" "V"))))).

Lemma two_sources_inv : input_inv two_sources.
Proof.
  unfold two_sources. repeat apply addData_inv. repeat apply addSource_inv.
  split; try constructor; done.
Qed.

(** the same, told of changes only, and the first source shows the value that comes again *)
Definition repeating : NamedInputInfo :=
  two_sources <| only_update_on_change := true |>
    <| current_data := [mkRecord 600 0 (Some "7"%string); empty_record] |>.

Lemma other_shown_inv oc cur inp :
  length cur = length (current_data inp) -> input_inv inp ->
  input_inv (inp <| only_update_on_change := oc |> <| current_data := cur |>).
Proof. destruct inp. cbn. intros Hl []. split; cbn in *; try done. congruence. Qed.

Lemma repeating_inv : input_inv repeating.
Proof. apply other_shown_inv; [vm_compute; reflexivity|apply two_sources_inv]. Qed.

Lemma input_move_witness :
  exists s q, data_queues repeating = [[mkRecord 700 0 (Some "7"%string); s]; q] /\
  let '(res, inp') := updateTimeInclusive 750 repeating in
  res = false /\ data_queues inp' = [[s]; q] /\
  current_data inp' = [mkRecord 600 0 (Some "7"%string); empty_record].
Proof.
  eexists _, _. split; [reflexivity|].
  pose proof (input_move 750 repeating
    [[mkRecord 700 0 (Some "7"%string); mkRecord 900 0 (Some "9"%string)]]
    [[mkRecord 800 0 (Some "8"%string)]] repeating_inv ltac:(done) eq_refl) as H.
  specialize (H ltac:(repeat constructor; done)).
  specialize (H ltac:(intros q [= <-]; rewrite sorted_due_head by (apply SSorted_cons; constructor); cbn; lia)).
  destruct (updateTimeInclusive 750 repeating) as [res inp'].
  destruct H as (news & Hn & -> & -> & -> & _). destruct news as [|r [|? ?]]; try discriminate Hn.
  injection Hn as ->. split; [done|]. split; done.
Defined.

(** ** A source that comes back *)

Lemma source_index_app h l l' i : source_index h l = Some i -> source_index h (l ++ l') = Some i.
Proof.
  revert i. induction l as [|h' l IH]; intros i; cbn [source_index app]; [done|].
  destruct (Handle.eqb h' h); [done|]. intros (j & Hj & ->)%fmap_Some. by rewrite (IH j Hj).
Qed.

(** A source that is removed and connected again is never heard: the
    search for the source finds its first, deactivated entry, so that a value
    after the removal is dropped whatever entries follow. *)
Theorem readded_source_is_mute (h : global_handle) (i : nat) (inp : NamedInputInfo)
    (removed t : Time) (ty un : string) (it : Z) (d : option string) :
  input_inv inp -> source_index h (input_sources inp) = Some i -> removed < t ->
  let inp' := addSource h ty un (removeSource h removed inp) in
  addData h t it d inp' = inp' /\ last (input_sources inp') = Some h /\
  last (deactivated inp') = Some T.maxVal.
Proof.
  intros [] Hi Hlt inp'. split; [|split].
  - unfold addData. change (input_sources inp') with (input_sources inp ++ [h]).
    rewrite (source_index_app h _ [h] i Hi).
    pose proof (proj1 (source_index_spec _ _ _ Hi)) as Hh.
    assert (is_Some (deactivated inp !! i)) as [t0 Ht0].
    { apply lookup_lt_is_Some. rewrite inv_deactivated0. by eapply lookup_lt_Some. }
    assert (deactivated inp' !! i = Some removed) as Hd.
    { subst inp'. cbn. rewrite lookup_app_l by (rewrite length_imap; by eapply lookup_lt_Some).
      rewrite list_lookup_imap, Ht0, Hh. cbn.
      by rewrite (proj2 (HandleFacts.eqb_eq h h) eq_refl). }
    rewrite (nth_lookup_Some _ _ _ _ Hd). destruct (Z.ltb_spec removed t); [done|lia].
  - subst inp'. cbn. apply last_snoc.
  - subst inp'. cbn. apply last_snoc.
Qed.

Lemma readded_source_is_mute_witness :
  let inp := addSource (GlobalHandle 131073 4) "double" "V"
               (removeSource (GlobalHandle 131073 4) 900 two_sources) in
  addData (GlobalHandle 131073 4) 1000 0 (Some "10"%string) inp = inp.
Proof.
  apply (readded_source_is_mute (GlobalHandle 131073 4) 0 two_sources 900 1000 "double" "V" 0
    (Some "10"%string) two_sources_inv eq_refl). done.
Defined.
