(* ===== verification/HandleManager.v ===== *)
(** * The registry of interfaces

    Models [src/helics/core/BasicHandleInfo.hpp], [HandleManager.hpp] and
    [HandleManager.cpp]: the publications, inputs, endpoints and filters a core
    or a broker knows, kept in one sequence that is searched by position, by
    name within a kind, and by the 64-bit key of the global handle.  The
    members [type_in] and [type_out] are references to [type] and [units]. *)

From Stdlib Require Import Ascii.
From stdpp Require Import pretty.
From S2P Require Import Prelude HTime Identifiers ActionMessage.

(** ** Handles *)

(** The constructors stay qualified: [Kind.filter] is not the filter of lists. *)
Module Kind.
Inductive handle_type := unknown | publication | input | endpoint | filter.

#[global] Instance handle_type_eq_dec : EqDecision handle_type.
Proof. solve_decision. Defined.

(** the character of the enumeration *)
Definition handle_type_char (h : handle_type) : ascii :=
  match h with
  | unknown => "u" | publication => "p" | input => "i" | endpoint => "e" | filter => "f"
  end%char.
End Kind.
Import Kind (handle_type).

Definition mapped_flag : Z := extra_flag1.
Definition has_source_filter_flag : Z := extra_flag2.
Definition has_dest_filter_flag : Z := extra_flag3.
Definition has_non_cloning_dest_filter_flag : Z := extra_flag4.

Module Basic.
Record BasicHandleInfo := mkBasicHandle {
  handle : global_handle;
  local_fed_id : local_federate_id;
  handleType : handle_type;
  used : bool;
  flags : Z;
  key : string;
  type : string;
  units : string;
  interface_info : string;
}.

#[global] Instance BasicHandleInfo_settable : Settable BasicHandleInfo := fun r =>
  mkBasicHandle (handle r) (local_fed_id r) (handleType r) (used r) (flags r) (key r) (type r)
    (units r) (interface_info r).

(** The constructors: the blank, and that from the data. *)
Definition blank : BasicHandleInfo := {|
  handle := Handle.default_handle; local_fed_id := LocalFedId.invalid; handleType := Kind.unknown;
  used := false; flags := 0; key := ""; type := ""; units := ""; interface_info := "";
|}.

Definition new_handle (federate_id : global_federate_id) (handle_id : interface_handle)
    (type_of_handle : handle_type) (key_name type_name unit_name : string) : BasicHandleInfo := {|
  handle := GlobalHandle federate_id handle_id; local_fed_id := LocalFedId.invalid;
  handleType := type_of_handle; used := false; flags := 0; key := key_name; type := type_name;
  units := unit_name; interface_info := "";
|}.

Definition getInterfaceHandle (h : BasicHandleInfo) : interface_handle := Identifiers.handle (handle h).
Definition getFederateId (h : BasicHandleInfo) : global_federate_id := fed_id (handle h).
Definition setInfoField (info : string) (h : BasicHandleInfo) : BasicHandleInfo :=
  h <| interface_info := info |>.
End Basic.
Import Basic (BasicHandleInfo).

(** ** The registry *)

Record HandleManager := mkHandleManager {
  handles : list BasicHandleInfo;
  publications : gmap string interface_handle;
  endpoints : gmap string interface_handle;
  inputs : gmap string interface_handle;
  filters : gmap string interface_handle;
  unique_ids : gmap Z Z;
}.

#[export] Instance HandleManager_settable : Settable HandleManager := fun r =>
  mkHandleManager (handles r) (publications r) (endpoints r) (inputs r) (filters r) (unique_ids r).

Definition empty_manager : HandleManager := mkHandleManager [] ∅ ∅ ∅ ∅ ∅.

(** [std::unordered_map::emplace] does nothing for a key that is there. *)
Definition emplace `{Countable K} {V} (k : K) (v : V) (m : gmap K V) : gmap K V :=
  match m !! k with Some _ => m | None => <[k := v]> m end.

(** [handles.size ()] as an [int32_t] *)
Definition next_index (hm : HandleManager) : Z := int32 (Z.of_nat (length (handles hm))).

Definition addSearchFields (h : BasicHandleInfo) (index : Z) (hm : HandleManager) : HandleManager :=
  let hm := match Basic.handleType h with
            | Kind.endpoint => hm <| endpoints ::= emplace (Basic.key h) index |>
            | Kind.publication => hm <| publications ::= emplace (Basic.key h) index |>
            | Kind.filter => if bool_decide (Basic.key h <> "") then hm <| filters ::= emplace (Basic.key h) index |>
                        else hm
            | Kind.input => hm <| inputs ::= emplace (Basic.key h) index |>
            | Kind.unknown => hm
            end in
  hm <| unique_ids ::= emplace (Handle.to_uint64 (Basic.handle h)) index |>.

Definition generateName (what : handle_type) (hm : HandleManager) : string :=
  let size := pretty (N.of_nat (length (handles hm))) in
  match what with
  | Kind.endpoint => "_ept_" +:+ size
  | Kind.input => "_input_" +:+ size
  | Kind.publication => "_pub_" +:+ size
  | Kind.filter => "_filter_" +:+ size
  | Kind.unknown => "_handle_" +:+ size
  end.

(** *** Adding *)

(** [addHandle (const BasicHandleInfo &)] *)
Definition addHandle_info (otherHandle : BasicHandleInfo) (hm : HandleManager) : HandleManager :=
  let index := next_index hm in
  addSearchFields otherHandle index (hm <| handles ::= fun l => l ++ [otherHandle] |>).

Definition act_key (what : handle_type) (key : string) (hm : HandleManager) : string :=
  if bool_decide (key <> "") then key else generateName what hm.

Definition addHandle_with (fed_id : global_federate_id) (local_id : interface_handle)
    (what : handle_type) (key type units : string) (hm : HandleManager)
    : BasicHandleInfo * HandleManager :=
  let index := next_index hm in
  let h := Basic.new_handle fed_id local_id what (act_key what key hm) type units in
  (h, addSearchFields h index (hm <| handles ::= fun l => l ++ [h] |>)).

Definition addHandle (fed_id : global_federate_id) (what : handle_type)
    (key type units : string) (hm : HandleManager) : BasicHandleInfo * HandleManager :=
  let local_id := next_index hm in
  let h := Basic.new_handle fed_id local_id what (act_key what key hm) type units in
  (h, addSearchFields h local_id (hm <| handles ::= fun l => l ++ [h] |>)).

Definition addHandleAtIndex (otherHandle : BasicHandleInfo) (index : Z) (hm : HandleManager)
    : HandleManager :=
  if index =? next_index hm then addHandle_info otherHandle hm
  else if isValidIndex index (handles hm) then
    addSearchFields otherHandle index (hm <| handles ::= <[Z.to_nat index := otherHandle]> |>)
  else if 0 <? index then
    addSearchFields otherHandle index
      (hm <| handles ::= fun l => <[Z.to_nat index := otherHandle]>
                                    (resize (Z.to_nat (index + 1)) Basic.blank l) |>)
  else hm.

(** *** Removing *)

Definition removeHandle (h : global_handle) (hm : HandleManager) : HandleManager :=
  let key := Handle.to_uint64 h in
  match unique_ids hm !! key with
  | None => hm
  | Some index =>
      let info := default Basic.blank (handles hm !! Z.to_nat index) in
      let hm := hm <| unique_ids ::= delete key |> in
      let hm := if bool_decide (Basic.key info <> "") then
                  match Basic.handleType info with
                  | Kind.endpoint => hm <| endpoints ::= delete (Basic.key info) |>
                  | Kind.publication => hm <| publications ::= delete (Basic.key info) |>
                  | Kind.filter => hm <| filters ::= delete (Basic.key info) |>
                  | Kind.input => hm <| inputs ::= delete (Basic.key info) |>
                  | Kind.unknown => hm
                  end
                else hm in
      hm <| handles ::= <[Z.to_nat index := Basic.blank]> |>
  end.

(** *** Searching *)

Definition getHandleInfo (index : Z) (hm : HandleManager) : option BasicHandleInfo :=
  if isValidIndex index (handles hm) then handles hm !! Z.to_nat index else None.

(** [handles[index]] of an index that was found *)
Definition at_index (index : Z) (hm : HandleManager) : option BasicHandleInfo :=
  handles hm !! Z.to_nat index.

Definition findHandle (id : global_handle) (hm : HandleManager) : option BasicHandleInfo :=
  index ← unique_ids hm !! Handle.to_uint64 id; at_index index hm.

Definition getEndpoint (name : string) (hm : HandleManager) : option BasicHandleInfo :=
  index ← endpoints hm !! name; at_index index hm.
Definition getPublication (name : string) (hm : HandleManager) : option BasicHandleInfo :=
  index ← publications hm !! name; at_index index hm.
Definition getInput (name : string) (hm : HandleManager) : option BasicHandleInfo :=
  index ← inputs hm !! name; at_index index hm.
Definition getFilter (name : string) (hm : HandleManager) : option BasicHandleInfo :=
  index ← filters hm !! name; at_index index hm.

Definition get_of_type (what : handle_type) (index : Z) (hm : HandleManager)
    : option BasicHandleInfo :=
  hand ← getHandleInfo index hm;
  if bool_decide (Basic.handleType hand = what) then Some hand else None.

Definition getEndpoint_at : Z -> HandleManager -> option BasicHandleInfo := get_of_type Kind.endpoint.
Definition getPublication_at : Z -> HandleManager -> option BasicHandleInfo := get_of_type Kind.publication.
Definition getFilter_at : Z -> HandleManager -> option BasicHandleInfo := get_of_type Kind.filter.

Definition getLocalFedID (index : Z) (hm : HandleManager) : local_federate_id :=
  match getHandleInfo index hm with
  | Some hand => Basic.local_fed_id hand
  | None => LocalFedId.invalid
  end.

(** *** Options *)

Definition helics_handle_option_connection_required : Z := 397.
Definition helics_handle_option_connection_optional : Z := 402.
Definition helics_handle_option_single_connection_only : Z := 407.
Definition helics_handle_option_only_transmit_on_change : Z := 6.
Definition helics_handle_option_only_update_on_change : Z := 8.

Definition set_option (option : Z) (val : bool) (hand : BasicHandleInfo) : BasicHandleInfo :=
  if option =? helics_handle_option_connection_required then
    if val then hand <| Basic.flags ::= clear_flag optional_flag |>
                     <| Basic.flags ::= set_flag required_flag |>
    else hand <| Basic.flags ::= clear_flag required_flag |>
  else if option =? helics_handle_option_connection_optional then
    if val then hand <| Basic.flags ::= clear_flag required_flag |>
                     <| Basic.flags ::= set_flag optional_flag |>
    else hand <| Basic.flags ::= clear_flag optional_flag |>
  else hand.

Definition setHandleOption (index option : Z) (val : bool) (hm : HandleManager) : HandleManager :=
  if isValidIndex index (handles hm)
  then hm <| handles ::= alter (set_option option val) (Z.to_nat index) |> else hm.

Definition getHandleOption (index option : Z) (hm : HandleManager) : bool :=
  match getHandleInfo index hm with
  | None => false
  | Some hand =>
      let checkActionFlag := check_flag (Basic.flags hand) in
      if option =? helics_handle_option_only_update_on_change then checkActionFlag extra_flag1
      else if option =? helics_handle_option_only_transmit_on_change then checkActionFlag extra_flag2
      else if option =? helics_handle_option_connection_required then checkActionFlag required_flag
      else if option =? helics_handle_option_connection_optional then checkActionFlag optional_flag
      else if option =? helics_handle_option_single_connection_only then checkActionFlag extra_flag4
      else false
  end.
