(* ===== verification/HandleSpec.v ===== *)
(** * The registry of interfaces: properties

    An abstract registry is a finite map from the 64-bit keys of handles to
    their data; the sequence with its five indices implements it, for clients
    that register each key and each name of a kind once, as cores and brokers
    check before they add. *)

From S2P Require Import Prelude HTime Identifiers ActionMessage HandleManager.
Import ActionMessageFacts.
Import Kind (handle_type).
Import Basic (BasicHandleInfo).

Abbreviation Registry := (gmap Z BasicHandleInfo).

Definition key_of (h : BasicHandleInfo) : Z := Handle.to_uint64 (Basic.handle h).

Definition registered (what : handle_type) (name : string) (h : BasicHandleInfo) (R : Registry) : Prop :=
  Basic.handleType h = what /\ Basic.key h = name /\ R !! key_of h = Some h.

(** ** The representation *)

Definition name_index (what : handle_type) (hm : HandleManager) : gmap string Z :=
  match what with
  | Kind.endpoint => endpoints hm
  | Kind.publication => publications hm
  | Kind.input => inputs hm
  | Kind.filter => filters hm
  | Kind.unknown => ∅
  end.

Record represents (hm : HandleManager) (R : Registry) : Prop := {
  rep_some : forall u i, unique_ids hm !! u = Some i ->
    0 <= i /\ exists h, handles hm !! Z.to_nat i = Some h /\ R !! u = Some h;
  rep_none : forall u, unique_ids hm !! u = None -> R !! u = None;
  rep_key : forall u h, R !! u = Some h -> u = key_of h /\ Basic.key h <> ""%string /\
    Basic.handleType h <> Kind.unknown;
  rep_name : forall what k i, name_index what hm !! k = Some i ->
    exists u h, unique_ids hm !! u = Some i /\ R !! u = Some h /\ Basic.handleType h = what /\ Basic.key h = k;
  rep_named : forall u h i, R !! u = Some h -> unique_ids hm !! u = Some i ->
    name_index (Basic.handleType h) hm !! Basic.key h = Some i;
}.

Lemma empty_represents : represents empty_manager ∅.
Proof. split; try done. intros [] k i; cbn; by rewrite lookup_empty. Qed.

Section representation.
Context (hm : HandleManager) (R : Registry) (Hrep : represents hm R).

Lemma rep_lookup u : (i ← unique_ids hm !! u; at_index i hm) = R !! u.
Proof.
  destruct (unique_ids hm !! u) as [i|] eqn:E; cbn; unfold at_index.
  - by destruct (rep_some _ _ Hrep u i E) as (_ & h & -> & ->).
  - by rewrite (rep_none _ _ Hrep u E).
Qed.

Lemma rep_index_inj u1 u2 i :
  unique_ids hm !! u1 = Some i -> unique_ids hm !! u2 = Some i -> u1 = u2.
Proof.
  intros H1 H2. destruct (rep_some _ _ Hrep _ _ H1) as (_ & h1 & Hi1 & HR1).
  destruct (rep_some _ _ Hrep _ _ H2) as (_ & h2 & Hi2 & HR2). simplify_eq.
  destruct (rep_key _ _ Hrep _ _ HR1) as [-> _]. by destruct (rep_key _ _ Hrep _ _ HR2) as [-> _].
Qed.

Lemma rep_present u h : R !! u = Some h -> exists i, unique_ids hm !! u = Some i.
Proof.
  intros HR. destruct (unique_ids hm !! u) as [i|] eqn:E; [by eauto|].
  rewrite (rep_none _ _ Hrep u E) in HR. done.
Qed.

Lemma rep_search what name h :
  (i ← name_index what hm !! name; at_index i hm) = Some h <-> registered what name h R.
Proof.
  split.
  - intros (i & Hi & Hh)%bind_Some. destruct (rep_name _ _ Hrep _ _ _ Hi) as (u & h' & Hu & HR & Ht & Hk).
    destruct (rep_some _ _ Hrep _ _ Hu) as (_ & h2 & Hi2 & HR2). unfold at_index in Hh. simplify_eq.
    destruct (rep_key _ _ Hrep _ _ HR) as [-> _]. done.
  - intros (<- & <- & HR). destruct (rep_present _ _ HR) as [i Hi].
    rewrite (rep_named _ _ Hrep _ _ _ HR Hi). cbn.
    destruct (rep_some _ _ Hrep _ _ Hi) as (_ & h2 & Hi2 & HR2). unfold at_index. simplify_eq. done.
Qed.

(** A position that is blank or beyond the end is in no index. *)
Definition free_slot (i : Z) : Prop :=
  0 <= i /\ default Basic.blank (handles hm !! Z.to_nat i) = Basic.blank.

Lemma free_unindexed i u : free_slot i -> unique_ids hm !! u <> Some i.
Proof.
  intros [_ Hf] Hu. destruct (rep_some _ _ Hrep _ _ Hu) as (_ & h & Hh & HR).
  rewrite Hh in Hf. cbn in Hf. subst h. by destruct (rep_key _ _ Hrep _ _ HR) as (_ & ? & _).
Qed.
End representation.

(** ** Adding *)

Lemma emplace_fresh `{Countable K} {V} (k : K) (v : V) m : m !! k = None -> emplace k v m = <[k := v]> m.
Proof. unfold emplace. by intros ->. Qed.

Lemma addSearchFields_ids h i hm :
  unique_ids (addSearchFields h i hm) = emplace (key_of h) i (unique_ids hm).
Proof. unfold addSearchFields. by destruct (Basic.handleType h); try case_match. Qed.

Lemma addSearchFields_handles h i hm : handles (addSearchFields h i hm) = handles hm.
Proof. unfold addSearchFields. by destruct (Basic.handleType h); try case_match. Qed.

Lemma addSearchFields_names what h i hm :
  Basic.key h <> ""%string -> Basic.handleType h <> Kind.unknown ->
  name_index what (addSearchFields h i hm) =
    if decide (Basic.handleType h = what) then emplace (Basic.key h) i (name_index what hm)
    else name_index what hm.
Proof.
  intros Hk Hu. unfold addSearchFields. destruct (Basic.handleType h) eqn:E; try done;
    rewrite ?bool_decide_true by done; destruct what; done.
Qed.

(** The key and the name that a new handle must not share, as callers check. *)
Definition fresh (h : BasicHandleInfo) (R : Registry) : Prop :=
  Basic.key h <> ""%string /\ Basic.handleType h <> Kind.unknown /\ R !! key_of h = None /\
  forall h', ~ registered (Basic.handleType h) (Basic.key h) h' R.

Lemma fresh_index hm R h :
  represents hm R -> fresh h R ->
  unique_ids hm !! key_of h = None /\ name_index (Basic.handleType h) hm !! Basic.key h = None.
Proof.
  intros Hrep (Hk & Ht & Hid & Hn). split.
  - destruct (unique_ids hm !! _) as [i|] eqn:E; [|done].
    destruct (rep_some _ _ Hrep _ _ E) as (_ & h' & _ & HR). congruence.
  - destruct (name_index _ hm !! _) as [i|] eqn:E; [|done].
    destruct (rep_name _ _ Hrep _ _ _ E) as (u & h' & Hu & HR & Ht' & Hk').
    destruct (Hn h'). split; [done|]. split; [done|]. by destruct (rep_key _ _ Hrep _ _ HR) as [-> _].
Qed.

(** Writing a fresh handle at a free position and indexing it. *)
Lemma add_at_represents hm R h i hs :
  represents hm R -> fresh h R -> free_slot hm i ->
  hs !! Z.to_nat i = Some h ->
  (forall j h', handles hm !! j = Some h' -> j <> Z.to_nat i -> hs !! j = Some h') ->
  represents (addSearchFields h i (hm <| handles := hs |>)) (<[key_of h := h]> R).
Proof.
  intros Hrep Hfresh Hfree Hi Hrest.
  pose proof (fresh_index _ _ _ Hrep Hfresh) as [Hid Hnm]. destruct Hfresh as (Hk & Ht & HR & _).
  assert (unique_ids (addSearchFields h i (hm <| handles := hs |>)) = <[key_of h := i]> (unique_ids hm)) as Eids.
  { rewrite addSearchFields_ids. by apply emplace_fresh. }
  assert (forall what, name_index what (addSearchFields h i (hm <| handles := hs |>)) =
    if decide (Basic.handleType h = what) then <[Basic.key h := i]> (name_index what hm)
    else name_index what hm) as Enm.
  { intros what. rewrite addSearchFields_names by done.
    replace (name_index what (hm <| handles := hs |>)) with (name_index what hm) by by destruct what.
    case_decide as E; [|done]. subst what. by apply emplace_fresh. }
  split.
  - rewrite Eids. intros u j [[<- <-]|[Hne Hu]]%lookup_insert_Some.
    + rewrite addSearchFields_handles. split; [apply Hfree|]. exists h. by rewrite lookup_insert_eq.
    + destruct (rep_some _ _ Hrep _ _ Hu) as (H0 & h' & Hh' & HR'). split; [done|]. exists h'.
      rewrite addSearchFields_handles, lookup_insert_ne by done. split; [|done].
      apply Hrest; [done|]. intros E. assert (j = i) as -> by (destruct Hfree; lia).
      by apply (free_unindexed _ _ Hrep i u).
  - rewrite Eids. intros u [Hu Hne]%lookup_insert_None. rewrite lookup_insert_ne by done.
    by apply (rep_none _ _ Hrep).
  - intros u h' [[<- <-]|[Hne Hu]]%lookup_insert_Some; [done|]. by apply (rep_key _ _ Hrep).
  - intros what k j. rewrite Enm, Eids. case_decide as E.
    + subst what. intros [[<- <-]|[Hne Hu]]%lookup_insert_Some.
      * exists (key_of h), h. by rewrite !lookup_insert_eq.
      * destruct (rep_name _ _ Hrep _ _ _ Hu) as (u & h' & Hu' & HR' & ? & ?). exists u, h'.
        rewrite !lookup_insert_ne by congruence. done.
    + intros Hu. destruct (rep_name _ _ Hrep _ _ _ Hu) as (u & h' & Hu' & HR' & ? & ?). exists u, h'.
      rewrite !lookup_insert_ne by congruence. done.
  - intros u h' j. rewrite Enm, Eids. intros [[<- <-]|[Hne Hu]]%lookup_insert_Some.
    + rewrite lookup_insert_eq, decide_True by done. intros [= <-]. by rewrite lookup_insert_eq.
    + rewrite lookup_insert_ne by done. intros Hj. pose proof (rep_named _ _ Hrep _ _ _ Hu Hj) as Hn.
      case_decide as E; [|done]. rewrite lookup_insert_ne; [done|]. intros Ek. congruence.
Qed.

(** A new position at the end, while positions fit in 32 bits. *)
Lemma append_represents hm R h :
  represents hm R -> fresh h R -> Z.of_nat (length (handles hm)) < 2 ^ 31 ->
  represents (addSearchFields h (next_index hm) (hm <| handles ::= fun l => l ++ [h] |>))
    (<[key_of h := h]> R).
Proof.
  intros Hrep Hf Hl. assert (next_index hm = Z.of_nat (length (handles hm))) as E.
  { unfold next_index. apply swrap_id; [lia|]. unfold in_signed. lia. }
  change (hm <| handles ::= fun l => l ++ [h] |>) with (hm <| handles := handles hm ++ [h] |>).
  rewrite E. apply add_at_represents; try done.
  - split; [lia|]. rewrite Nat2Z.id, lookup_ge_None_2 by done. done.
  - by rewrite Nat2Z.id, list_lookup_middle.
  - intros j h' Hj _. by apply lookup_app_l_Some.
Qed.

Lemma addHandleAtIndex_represents hm R h i :
  represents hm R -> fresh h R -> free_slot hm i -> 0 <= i < 2 ^ 31 ->
  Z.of_nat (length (handles hm)) < 2 ^ 31 ->
  represents (addHandleAtIndex h i hm) (<[key_of h := h]> R).
Proof.
  intros Hrep Hf Hfree Hi Hl. unfold addHandleAtIndex. destruct (Z.eqb_spec i (next_index hm)) as [_|Hne].
  { by apply append_represents. }
  assert (next_index hm = Z.of_nat (length (handles hm))) as E.
  { unfold next_index. apply swrap_id; [lia|]. unfold in_signed. lia. }
  unfold isValidIndex. destruct (_ && _) eqn:Ev.
  - change (hm <| handles ::= <[Z.to_nat i:=h]> |>) with (hm <| handles := <[Z.to_nat i:=h]> (handles hm) |>).
    apply add_at_represents; try done.
    + apply list_lookup_insert_eq. lia.
    + intros j h' Hj Hne'. by rewrite list_lookup_insert_ne.
  - destruct (Z.ltb_spec 0 i) as [_|Hle]; [|lia].
    match goal with |- context [hm <| handles ::= ?f |>] =>
      change (hm <| handles ::= f |>) with (hm <| handles := f (handles hm) |>) end.
    apply add_at_represents; try done.
    + apply list_lookup_insert_eq. rewrite length_resize. lia.
    + intros j h' Hj Hne'. rewrite list_lookup_insert_ne by done.
      pose proof (lookup_lt_Some _ _ _ Hj). rewrite lookup_resize by lia. done.
Qed.

(** ** Removing and changing *)

Lemma removeHandle_represents hm R g :
  represents hm R -> represents (removeHandle g hm) (delete (Handle.to_uint64 g) R).
Proof.
  intros Hrep. unfold removeHandle. destruct (unique_ids hm !! Handle.to_uint64 g) as [i|] eqn:Ei.
  2: { rewrite delete_id; [done|]. by apply (rep_none _ _ Hrep). }
  destruct (rep_some _ _ Hrep _ _ Ei) as (H0 & h & Hh & HR). rewrite Hh. cbn [default from_option Datatypes.id].
  destruct (rep_key _ _ Hrep _ _ HR) as (Hug & Hk & Ht). rewrite bool_decide_true by done.
  set (hm' := _ <| handles ::= _ |>).
  assert (unique_ids hm' = delete (Handle.to_uint64 g) (unique_ids hm)) as Eids
    by (subst hm'; by destruct (Basic.handleType h)).
  assert (handles hm' = <[Z.to_nat i := Basic.blank]> (handles hm)) as Ehs
    by (subst hm'; by destruct (Basic.handleType h)).
  assert (forall what, name_index what hm' =
    if decide (Basic.handleType h = what) then delete (Basic.key h) (name_index what hm)
    else name_index what hm) as Enm.
  { intros what. subst hm'. destruct (Basic.handleType h), what; done. }
  clearbody hm'. split.
  - rewrite Eids, Ehs. intros u j [Hne Hu]%lookup_delete_Some.
    destruct (rep_some _ _ Hrep _ _ Hu) as (H1 & h' & Hh' & HR'). split; [done|]. exists h'.
    rewrite lookup_delete_ne by done. split; [|done]. rewrite list_lookup_insert_ne; [done|].
    intros E. assert (i = j) as -> by lia. by destruct Hne; eapply rep_index_inj.
  - rewrite Eids. intros u [<-|Hu]%lookup_delete_None; [by rewrite lookup_delete_eq|].
    apply lookup_delete_None. right. by apply (rep_none _ _ Hrep).
  - intros u h' [_ HR']%lookup_delete_Some. by apply (rep_key _ _ Hrep).
  - rewrite Eids. intros what k j. rewrite Enm. intros Hj.
    assert (name_index what hm !! k = Some j /\ (Basic.handleType h = what -> Basic.key h <> k)) as [Hn Hd].
    { case_decide; [|done]. by apply lookup_delete_Some in Hj as [? ?]. }
    destruct (rep_name _ _ Hrep _ _ _ Hn) as (u & h' & Hu' & HR' & Ht' & Hk'). exists u, h'.
    assert (Handle.to_uint64 g <> u) by (intros <-; simplify_eq; by apply Hd).
    rewrite !lookup_delete_ne by done. done.
  - rewrite Eids. intros u h' j [Hne HR']%lookup_delete_Some [_ Hj]%lookup_delete_Some. rewrite Enm.
    pose proof (rep_named _ _ Hrep _ _ _ HR' Hj) as Hn. case_decide as E; [|done].
    apply lookup_delete_Some. split; [|done]. intros Ek. destruct Hne.
    pose proof (rep_named _ _ Hrep _ _ _ HR Ei) as Hn2. rewrite E, Ek in Hn2. simplify_eq.
    by eapply rep_index_inj.
Qed.

(** What a change of the handle at a position does to the registry. *)
Definition alter_index (f : BasicHandleInfo -> BasicHandleInfo) (i : Z) (hm : HandleManager)
    (R : Registry) : Registry :=
  map_imap (fun u h => Some (if decide (unique_ids hm !! u = Some i) then f h else h)) R.

Lemma set_option_frame o v h :
  Basic.handle (set_option o v h) = Basic.handle h /\
  Basic.handleType (set_option o v h) = Basic.handleType h /\
  Basic.key (set_option o v h) = Basic.key h.
Proof. unfold set_option. by case_ifs. Qed.

Lemma alter_index_lookup f i hm R u h :
  alter_index f i hm R !! u = Some h <->
  exists h0, R !! u = Some h0 /\ h = if decide (unique_ids hm !! u = Some i) then f h0 else h0.
Proof.
  unfold alter_index. rewrite map_lookup_imap. split.
  - intros (h0 & HR & [= <-])%bind_Some. eauto.
  - intros (h0 & -> & ->). done.
Qed.

Lemma setHandleOption_represents hm R i o v :
  represents hm R -> represents (setHandleOption i o v hm) (alter_index (set_option o v) i hm R).
Proof.
  intros Hrep. set (g := set_option o v).
  assert (forall u h, alter_index g i hm R !! u = Some h -> exists h0, R !! u = Some h0 /\
    Basic.handle h = Basic.handle h0 /\ Basic.handleType h = Basic.handleType h0 /\
    Basic.key h = Basic.key h0) as Hback.
  { intros u h (h0 & HR & ->)%alter_index_lookup. exists h0. split; [done|]. case_decide; [|done].
    apply set_option_frame. }
  assert (unique_ids (setHandleOption i o v hm) = unique_ids hm /\
    forall what, name_index what (setHandleOption i o v hm) = name_index what hm) as [Eids Enm].
  { unfold setHandleOption. case_if; [|done]. split; [done|]. by intros []. }
  split.
  - rewrite Eids. intros u j Hu. destruct (rep_some _ _ Hrep _ _ Hu) as (H0 & h & Hh & HR).
    split; [done|]. unfold setHandleOption. destruct (isValidIndex i (handles hm)) eqn:Ev.
    + cbn. destruct (decide (j = i)) as [->|Hne].
      * exists (g h). rewrite list_lookup_alter_eq, Hh. split; [done|]. apply alter_index_lookup.
        exists h. by rewrite decide_True.
      * exists h. unfold isValidIndex in Ev. rewrite list_lookup_alter_ne by lia. split; [done|].
        apply alter_index_lookup. exists h. rewrite decide_False by congruence. done.
    + exists h. split; [done|]. apply alter_index_lookup. exists h. rewrite decide_False; [done|].
      intros E. simplify_eq. unfold isValidIndex in Ev. pose proof (lookup_lt_Some _ _ _ Hh). lia.
  - rewrite Eids. intros u Hu. destruct (alter_index g i hm R !! u) as [h|] eqn:E; [|done].
    apply Hback in E as (h0 & HR & _). rewrite (rep_none _ _ Hrep u Hu) in HR. done.
  - intros u h (h0 & HR & Eh & Et & Ek)%Hback. unfold key_of. rewrite Eh, Et, Ek.
    by apply (rep_key _ _ Hrep).
  - intros what k j. rewrite Enm, Eids. intros Hj.
    destruct (rep_name _ _ Hrep _ _ _ Hj) as (u & h & Hu & HR & Ht & Hk).
    assert (is_Some (alter_index g i hm R !! u)) as [h' Hh'].
    { eexists. apply alter_index_lookup. eauto. }
    exists u, h'. apply Hback in Hh' as Hb. destruct Hb as (h0 & HR0 & _ & -> & ->). simplify_eq. done.
  - intros u h j. rewrite Enm, Eids. intros (h0 & HR & _ & -> & ->)%Hback. by apply (rep_named _ _ Hrep).
Qed.

(** ** The refinement *)

(** What a core or a broker does to its registry, beside what it does to the
    abstract one.  A blank position is one that [resize] or a removal left. *)
Inductive reg_step : HandleManager * Registry -> HandleManager * Registry -> Prop :=
  | reg_add fed what key ty un hm R :
      let '(h, hm') := addHandle fed what key ty un hm in
      fresh h R -> Z.of_nat (length (handles hm)) < 2 ^ 31 ->
      reg_step (hm, R) (hm', <[key_of h := h]> R)
  | reg_add_with fed local what key ty un hm R :
      let '(h, hm') := addHandle_with fed local what key ty un hm in
      fresh h R -> Z.of_nat (length (handles hm)) < 2 ^ 31 ->
      reg_step (hm, R) (hm', <[key_of h := h]> R)
  | reg_add_info h hm R :
      fresh h R -> Z.of_nat (length (handles hm)) < 2 ^ 31 ->
      reg_step (hm, R) (addHandle_info h hm, <[key_of h := h]> R)
  | reg_add_at h i hm R :
      fresh h R -> free_slot hm i -> 0 <= i < 2 ^ 31 -> Z.of_nat (length (handles hm)) < 2 ^ 31 ->
      reg_step (hm, R) (addHandleAtIndex h i hm, <[key_of h := h]> R)
  | reg_remove g hm R : reg_step (hm, R) (removeHandle g hm, delete (Handle.to_uint64 g) R)
  | reg_option i o v hm R :
      reg_step (hm, R) (setHandleOption i o v hm, alter_index (set_option o v) i hm R).

Lemma reg_step_represents s s' : reg_step s s' -> represents (fst s) (snd s) -> represents (fst s') (snd s').
Proof.
  destruct 1; intros Hrep; cbn [fst snd] in *; try by apply append_represents.
  - by apply addHandleAtIndex_represents.
  - by apply removeHandle_represents.
  - by apply setHandleOption_represents.
Qed.

Lemma reg_reachable s s' :
  rtc reg_step s s' -> represents (fst s) (snd s) -> represents (fst s') (snd s').
Proof.
  induction 1 as [|x y z Hxy Hyz IH]; [done|]. intros Hrep. apply IH. by eapply reg_step_represents.
Qed.

(** C28: The registry of interfaces is a finite map.  After any sequence of
    registrations with new keys and new names, removals and changes of options,
    searching the sequence by the key of a handle gives what the map holds for
    it, and searching a name among the interfaces of a kind gives exactly the
    registered interface of that kind with that name. *)
Theorem registry_refinement (hm : HandleManager) (R : Registry) :
  rtc reg_step (empty_manager, ∅) (hm, R) ->
  (forall g, findHandle g hm = R !! Handle.to_uint64 g) /\
  (forall name h, getEndpoint name hm = Some h <-> registered Kind.endpoint name h R) /\
  (forall name h, getPublication name hm = Some h <-> registered Kind.publication name h R) /\
  (forall name h, getInput name hm = Some h <-> registered Kind.input name h R) /\
  (forall name h, getFilter name hm = Some h <-> registered Kind.filter name h R).
Proof.
  intros Hr. pose proof (reg_reachable _ _ Hr empty_represents) as Hrep. cbn [fst snd] in Hrep.
  split; [intros g; apply (rep_lookup _ _ Hrep)|].
  split; [|split; [|split]]; intros name h.
  - apply (rep_search _ _ Hrep Kind.endpoint).
  - apply (rep_search _ _ Hrep Kind.publication).
  - apply (rep_search _ _ Hrep Kind.input).
  - apply (rep_search _ _ Hrep Kind.filter).
Qed.

Lemma registry_refinement_witness :
  getPublication "_pub_1" (snd (addHandle 131073 Kind.publication "" "double" "V"
    (snd (addHandle 131073 Kind.input "in" "double" "V" empty_manager)))) =
  Some (Basic.new_handle 131073 1 Kind.publication "_pub_1" "double" "V").
Proof.
  set (h1 := Basic.new_handle 131073 0 Kind.input "in" "double" "V").
  set (h2 := Basic.new_handle 131073 1 Kind.publication "_pub_1" "double" "V").
  apply (registry_refinement _ (<[key_of h2 := h2]> (<[key_of h1 := h1]> ∅))); [|done].
  eapply rtc_l; [apply (reg_add 131073 Kind.input "in" "double" "V" empty_manager ∅)|].
  - split; [done|]. split; [done|]. split; [done|]. by intros h' (_ & _ & ?).
  - done.
  - eapply rtc_l; [apply (reg_add 131073 Kind.publication "" "double" "V")|apply rtc_refl].
    + split; [done|]. split; [done|]. split; [done|].
      intros h' (Ht & _ & [[_ <-]|[_ ?]]%lookup_insert_Some); done.
    + done.
Defined.

(** ** Options *)

(** Options of an interface.  Making a connection required or optional
    reads back and makes it not the other; but the bit of an optional
    connection is also the one that transmitting only on change is read from,
    which therefore becomes set. *)
Theorem handle_options (i : Z) (v : bool) (hm : HandleManager) :
  isValidIndex i (handles hm) = true ->
  let set o v := setHandleOption i o v hm in
  getHandleOption i helics_handle_option_connection_required
    (set helics_handle_option_connection_required v) = v /\
  getHandleOption i helics_handle_option_connection_optional
    (set helics_handle_option_connection_optional v) = v /\
  getHandleOption i helics_handle_option_connection_optional
    (set helics_handle_option_connection_required true) = false /\
  getHandleOption i helics_handle_option_connection_required
    (set helics_handle_option_connection_optional true) = false /\
  getHandleOption i helics_handle_option_only_transmit_on_change
    (set helics_handle_option_connection_optional true) = true.
Proof.
  intros Hv set. assert (exists h, handles hm !! Z.to_nat i = Some h) as [h Hh].
  { unfold isValidIndex in Hv. destruct (handles hm !! Z.to_nat i) eqn:E; [by eauto|].
    apply lookup_ge_None in E. lia. }
  assert (forall o v, getHandleInfo i (set o v) = Some (set_option o v h)) as Hget.
  { intros o b. subst set. unfold setHandleOption. rewrite Hv. unfold getHandleInfo.
    replace (isValidIndex i _) with true.
    - cbn. by rewrite list_lookup_alter_eq, Hh.
    - unfold isValidIndex in *. cbn. by rewrite length_alter. }
  unfold getHandleOption. rewrite !Hget. clear Hget. cbn.
  unfold required_flag, optional_flag, extra_flag2.
  destruct v; cbn [Basic.flags]; rewrite !check_set_flag, !check_clear_flag by lia; done.
Qed.

Lemma handle_options_witness :
  let hm := setHandleOption 0 helics_handle_option_connection_optional true
    (snd (addHandle 131073 Kind.input "in" "double" "V" empty_manager)) in
  getHandleOption 0 helics_handle_option_only_transmit_on_change hm = true.
Proof. apply (handle_options 0 true). reflexivity. Defined.
