(* ===== verification/UnknownHandleManager.v ===== *)
(** * Links that wait for an interface

    Models [src/helics/core/UnknownHandleManager.hpp] and
    [UnknownHandleManager.cpp]: the links a broker was asked for whose other
    side is not registered yet, kept until it is, and the questions asked about
    them when the federation starts.  An [unordered_multimap] is a list of
    pairs: it keeps duplicates, and no claim depends on its order. *)

From Stdlib Require Import Ascii.
From S2P Require Import Prelude HTime Identifiers ActionMessage HandleManager.
Import ActionMessageFacts.
Import Kind (handle_type).

(** ** State *)

Definition targetInfo : Type := global_handle * Z.

Abbreviation multimap V := (list (string * V)).

Record UnknownHandleManager := mkUnknowns {
  unknown_publications : multimap targetInfo;
  unknown_endpoints : multimap targetInfo;
  unknown_inputs : multimap targetInfo;
  unknown_filters : multimap targetInfo;
  unknown_links : multimap string;
  unknown_src_filters : multimap string;
  unknown_dest_filters : multimap string;
}.

#[export] Instance UnknownHandleManager_settable : Settable UnknownHandleManager := fun r =>
  mkUnknowns (unknown_publications r) (unknown_endpoints r) (unknown_inputs r) (unknown_filters r)
    (unknown_links r) (unknown_src_filters r) (unknown_dest_filters r).

Definition no_unknowns : UnknownHandleManager := mkUnknowns [] [] [] [] [] [] [].

(** [emplace], [equal_range] and [erase] of a multimap *)
Definition mm_emplace {V} (k : string) (v : V) (m : multimap V) : multimap V := m ++ [(k, v)].
Definition getTargets {V} (m : multimap V) (target : string) : list V :=
  snd <$> filter (fun kv => fst kv = target) m.
Definition mm_erase {V} (k : string) (m : multimap V) : multimap V := filter (fun kv => fst kv <> k) m.

(** ** Adding *)

Definition addUnknownPublication (key : string) (target : global_handle) (flags : Z)
    (um : UnknownHandleManager) : UnknownHandleManager :=
  um <| unknown_publications ::= mm_emplace key (target, flags) |>.
Definition addUnknownInput (key : string) (target : global_handle) (flags : Z)
    (um : UnknownHandleManager) : UnknownHandleManager :=
  um <| unknown_inputs ::= mm_emplace key (target, flags) |>.
Definition addUnknownEndpoint (key : string) (target : global_handle) (flags : Z)
    (um : UnknownHandleManager) : UnknownHandleManager :=
  um <| unknown_endpoints ::= mm_emplace key (target, flags) |>.
Definition addUnknownFilter (key : string) (target : global_handle) (flags : Z)
    (um : UnknownHandleManager) : UnknownHandleManager :=
  um <| unknown_filters ::= mm_emplace key (target, flags) |>.
Definition addDataLink (source target : string) (um : UnknownHandleManager) : UnknownHandleManager :=
  um <| unknown_links ::= mm_emplace source target |>.
Definition addSourceFilterLink (filter endpoint : string) (um : UnknownHandleManager)
    : UnknownHandleManager :=
  um <| unknown_src_filters ::= mm_emplace filter endpoint |>.
Definition addDestinationFilterLink (filter endpoint : string) (um : UnknownHandleManager)
    : UnknownHandleManager :=
  um <| unknown_dest_filters ::= mm_emplace filter endpoint |>.

(** ** Searching *)

Definition checkForInputs (newInput : string) (um : UnknownHandleManager) : list targetInfo :=
  getTargets (unknown_inputs um) newInput.
Definition checkForPublications (newPublication : string) (um : UnknownHandleManager)
    : list targetInfo := getTargets (unknown_publications um) newPublication.
Definition checkForLinks (newSource : string) (um : UnknownHandleManager) : list string :=
  getTargets (unknown_links um) newSource.
Definition checkForEndpoints (newEndpoint : string) (um : UnknownHandleManager) : list targetInfo :=
  getTargets (unknown_endpoints um) newEndpoint.
Definition checkForFilters (newFilter : string) (um : UnknownHandleManager) : list targetInfo :=
  getTargets (unknown_filters um) newFilter.
Definition checkForFilterSourceTargets (newFilter : string) (um : UnknownHandleManager)
    : list string := getTargets (unknown_src_filters um) newFilter.
Definition checkForFilterDestTargets (newFilter : string) (um : UnknownHandleManager)
    : list string := getTargets (unknown_dest_filters um) newFilter.

(** ** Questions *)

Definition empty_map {V} (m : multimap V) : bool := match m with [] => true | _ => false end.

Definition hasUnknowns (um : UnknownHandleManager) : bool :=
  negb (empty_map (unknown_publications um) && empty_map (unknown_endpoints um) &&
        empty_map (unknown_inputs um) && empty_map (unknown_filters um) &&
        empty_map (unknown_links um) && empty_map (unknown_dest_filters um) &&
        empty_map (unknown_src_filters um)).

(** The test of the flag word of an entry, [(flags & make_flags (flag)) != 0]. *)
Definition has_flag (flag : Z) (kv : string * targetInfo) : bool :=
  negb (Z.land (snd (snd kv)) (make_flags flag) =? 0).

Definition hasNonOptionalUnknowns (um : UnknownHandleManager) : bool :=
  let nonOptional kv := negb (has_flag optional_flag kv) in
  if negb (empty_map (unknown_links um) && empty_map (unknown_dest_filters um) &&
           empty_map (unknown_src_filters um)) then true
  else existsb nonOptional (unknown_publications um) || existsb nonOptional (unknown_endpoints um) ||
       existsb nonOptional (unknown_inputs um) || existsb nonOptional (unknown_filters um).

Definition hasRequiredUnknowns (um : UnknownHandleManager) : bool :=
  existsb (has_flag required_flag) (unknown_publications um) ||
  existsb (has_flag required_flag) (unknown_endpoints um) ||
  existsb (has_flag required_flag) (unknown_inputs um) ||
  existsb (has_flag required_flag) (unknown_filters um).

(** The calls of the callback, in the order of the maps. *)
Definition calls (test : string * targetInfo -> bool) (type : ascii) (m : multimap targetInfo)
    : list (string * ascii * global_handle) :=
  flat_map (fun kv => if test kv then [(fst kv, type, fst (snd kv))] else []) m.

Definition process_all (test : string * targetInfo -> bool) (um : UnknownHandleManager)
    : list (string * ascii * global_handle) :=
  calls test "p" (unknown_publications um) ++ calls test "e" (unknown_endpoints um) ++
  calls test "i" (unknown_inputs um) ++ calls test "f" (unknown_filters um).

Definition processNonOptionalUnknowns (um : UnknownHandleManager)
    : list (string * ascii * global_handle) :=
  process_all (fun kv => negb (has_flag optional_flag kv)) um.
Definition processRequiredUnknowns (um : UnknownHandleManager)
    : list (string * ascii * global_handle) := process_all (has_flag required_flag) um.

(** ** Clearing *)

Definition clearInput (newInput : string) (um : UnknownHandleManager) : UnknownHandleManager :=
  um <| unknown_inputs ::= mm_erase newInput |>.
Definition clearPublication (newPublication : string) (um : UnknownHandleManager)
    : UnknownHandleManager :=
  um <| unknown_publications ::= mm_erase newPublication |> <| unknown_links ::= mm_erase newPublication |>.
Definition clearEndpoint (newEndpoint : string) (um : UnknownHandleManager) : UnknownHandleManager :=
  um <| unknown_endpoints ::= mm_erase newEndpoint |>.
Definition clearFilter (newFilter : string) (um : UnknownHandleManager) : UnknownHandleManager :=
  um <| unknown_filters ::= mm_erase newFilter |> <| unknown_src_filters ::= mm_erase newFilter |>
     <| unknown_dest_filters ::= mm_erase newFilter |>.

(** The loop that erases while it iterates. *)
Fixpoint erase_federate (id : global_federate_id) (m : multimap targetInfo) : multimap targetInfo :=
  match m with
  | [] => []
  | kv :: m' => if fed_id (fst (snd kv)) =? id then erase_federate id m' else kv :: erase_federate id m'
  end.

Definition clearFederateUnknowns (id : global_federate_id) (um : UnknownHandleManager)
    : UnknownHandleManager :=
  um <| unknown_publications ::= erase_federate id |> <| unknown_endpoints ::= erase_federate id |>
     <| unknown_filters ::= erase_federate id |> <| unknown_inputs ::= erase_federate id |>.

(** ** Properties *)

(** An entry of the manager, by the kind of interface that is missing. *)
Definition waiting (what : handle_type) (k : string) (t : targetInfo) (um : UnknownHandleManager) : Prop :=
  match what with
  | Kind.publication => (k, t) ∈ unknown_publications um
  | Kind.endpoint => (k, t) ∈ unknown_endpoints um
  | Kind.input => (k, t) ∈ unknown_inputs um
  | Kind.filter => (k, t) ∈ unknown_filters um
  | Kind.unknown => False
  end.

Definition linked (um : UnknownHandleManager) : Prop :=
  unknown_links um <> [] \/ unknown_src_filters um <> [] \/ unknown_dest_filters um <> [].

Lemma has_flag_check flag kv : 0 <= flag < 16 -> has_flag flag kv = check_flag (snd (snd kv)) flag.
Proof.
  intros Hf. unfold has_flag, check_flag, make_flags. do 3 f_equal.
  rewrite Z.shiftl_mul_pow2, Z.mul_1_l by lia. unfold uwrap. apply Z.mod_small. split; [lia|].
  apply Z.pow_lt_mono_r; lia.
Qed.

Lemma elem_of_calls test ty m name c g :
  (name, c, g) ∈ calls test ty m <-> c = ty /\ exists fl, (name, (g, fl)) ∈ m /\ test (name, (g, fl)) = true.
Proof.
  unfold calls. rewrite list_elem_of_In, in_flat_map. split.
  - intros ([k [g' fl]] & Hin & Hc). destruct (test _) eqn:E; [|done]. destruct Hc as [[= -> <- ->]|[]].
    split; [done|]. exists fl. by rewrite list_elem_of_In.
  - intros (-> & fl & Hin & Ht). exists (name, (g, fl)). rewrite Ht. split; [by apply list_elem_of_In|by left].
Qed.

Lemma elem_of_process test um name c g :
  (name, c, g) ∈ process_all test um <->
  exists what fl, c = Kind.handle_type_char what /\ waiting what name (g, fl) um /\ test (name, (g, fl)) = true.
Proof.
  unfold process_all. rewrite !elem_of_app, !elem_of_calls. split.
  - intros [(-> & fl & ? & ?)|[(-> & fl & ? & ?)|[(-> & fl & ? & ?)|(-> & fl & ? & ?)]]];
      [exists Kind.publication|exists Kind.endpoint|exists Kind.input|exists Kind.filter]; eauto.
  - intros (what & fl & -> & Hw & Ht). destruct what; cbn in Hw; [done| | | |]; naive_solver.
Qed.

Lemma existsb_calls test ty m : existsb test m = false <-> calls test ty m = [].
Proof.
  induction m as [|kv m IH]; [done|]. cbn [existsb calls flat_map]. destruct (test kv); [done|]. exact IH.
Qed.

Lemma process_nil test um :
  existsb test (unknown_publications um) || existsb test (unknown_endpoints um) ||
  existsb test (unknown_inputs um) || existsb test (unknown_filters um) = false <->
  process_all test um = [].
Proof.
  unfold process_all. rewrite !orb_false_iff, !app_nil, !(existsb_calls test). naive_solver.
Qed.

Lemma not_false_nonempty {A} (b : bool) (l : list A) : (b = false <-> l = []) -> (b = true <-> l <> []).
Proof. destruct b, l; naive_solver. Qed.

(** The report of missing interfaces.  A federation is told that required
    interfaces are missing exactly when the list it is given is not empty, and
    the list names exactly the waiting entries with the required flag.  For
    those that are not optional the answer also counts the links for which
    neither side is known, which the list never names. *)
Theorem unknowns_reported (um : UnknownHandleManager) :
  (hasRequiredUnknowns um = true <-> processRequiredUnknowns um <> []) /\
  (hasNonOptionalUnknowns um = true <-> linked um \/ processNonOptionalUnknowns um <> []) /\
  (forall name c g, (name, c, g) ∈ processRequiredUnknowns um <->
    exists what fl, c = Kind.handle_type_char what /\ waiting what name (g, fl) um /\
      check_flag fl required_flag = true) /\
  (forall name c g, (name, c, g) ∈ processNonOptionalUnknowns um <->
    exists what fl, c = Kind.handle_type_char what /\ waiting what name (g, fl) um /\
      check_flag fl optional_flag = false).
Proof.
  split; [apply not_false_nonempty, process_nil|]. split.
  - unfold hasNonOptionalUnknowns, linked, processNonOptionalUnknowns.
    pose proof (not_false_nonempty _ _ (process_nil (fun kv => negb (has_flag optional_flag kv)) um)) as Hn.
    destruct (unknown_links um), (unknown_src_filters um), (unknown_dest_filters um); naive_solver.
  - split; intros name c g; unfold processRequiredUnknowns, processNonOptionalUnknowns; rewrite elem_of_process.
    + by setoid_rewrite has_flag_check.
    + setoid_rewrite negb_true_iff. by setoid_rewrite has_flag_check.
Qed.

(** The operations by the kind of the missing interface. *)
Definition add_unknown (what : handle_type) (k : string) (g : global_handle) (fl : Z)
    (um : UnknownHandleManager) : UnknownHandleManager :=
  match what with
  | Kind.publication => addUnknownPublication k g fl um
  | Kind.endpoint => addUnknownEndpoint k g fl um
  | Kind.input => addUnknownInput k g fl um
  | Kind.filter => addUnknownFilter k g fl um
  | Kind.unknown => um
  end.

Definition check_for (what : handle_type) (k : string) (um : UnknownHandleManager) : list targetInfo :=
  match what with
  | Kind.publication => checkForPublications k um
  | Kind.endpoint => checkForEndpoints k um
  | Kind.input => checkForInputs k um
  | Kind.filter => checkForFilters k um
  | Kind.unknown => []
  end.

Definition clear_of (what : handle_type) (k : string) (um : UnknownHandleManager) : UnknownHandleManager :=
  match what with
  | Kind.publication => clearPublication k um
  | Kind.endpoint => clearEndpoint k um
  | Kind.input => clearInput k um
  | Kind.filter => clearFilter k um
  | Kind.unknown => um
  end.

Lemma elem_of_targets {V} (m : multimap V) k v : v ∈ getTargets m k <-> (k, v) ∈ m.
Proof.
  unfold getTargets. rewrite list_elem_of_fmap. setoid_rewrite list_elem_of_filter. split.
  - by intros ([k' v'] & -> & <- & ?).
  - intros H. by exists (k, v).
Qed.

Lemma targets_erase {V} (m : multimap V) k k' :
  getTargets (mm_erase k m) k' = if decide (k = k') then [] else getTargets m k'.
Proof.
  unfold getTargets, mm_erase. induction m as [|[k0 v0] m IH]; [by case_decide|].
  destruct (decide (k0 = k)) as [->|Hne].
  - rewrite filter_cons_False by auto. rewrite IH. case_decide as E; [done|].
    by rewrite filter_cons_False by done.
  - rewrite (filter_cons_True _ (k0, v0) m) by done. destruct (decide (k0 = k')) as [->|Hne'].
    + rewrite !filter_cons_True by done. rewrite decide_False in * by done. cbn. by rewrite IH.
    + rewrite !filter_cons_False by done. exact IH.
Qed.

Lemma targets_emplace {V} (m : multimap V) k v k' :
  getTargets (mm_emplace k v m) k' = getTargets m k' ++ (if decide (k = k') then [v] else []).
Proof.
  unfold getTargets, mm_emplace. rewrite filter_app, fmap_app. f_equal. case_decide.
  - by rewrite filter_cons_True.
  - by rewrite filter_cons_False.
Qed.

Lemma erase_federate_filter id m :
  erase_federate id m = filter (fun kv => fed_id (fst (snd kv)) <> id) m.
Proof.
  induction m as [|kv m IH]; [done|]. cbn [erase_federate]. destruct (Z.eqb_spec (fed_id (fst (snd kv))) id).
  - rewrite filter_cons_False by auto. exact IH.
  - rewrite filter_cons_True by done. by f_equal.
Qed.

(** Waiting links are found and cleared.  A search gives the targets
    waiting for the name of a kind; a new entry is found with them; clearing a
    name removes its entries, those of no other name or kind, and clearing a
    federate removes exactly the entries that wait on its behalf. *)
Theorem unknowns_resolved (what what' : handle_type) (k k' : string) (g : global_handle) (fl : Z)
    (id : global_federate_id) (t : targetInfo) (um : UnknownHandleManager) :
  what <> Kind.unknown ->
  (t ∈ check_for what k um <-> waiting what k t um) /\
  check_for what' k' (add_unknown what k g fl um) =
    check_for what' k' um ++ (if decide (what = what' /\ k = k') then [(g, fl)] else []) /\
  check_for what' k' (clear_of what k um) =
    (if decide (what = what' /\ k = k') then [] else check_for what' k' um) /\
  (waiting what k t (clearFederateUnknowns id um) <-> waiting what k t um /\ fed_id (fst t) <> id).
Proof.
  intros Hw. split; [by destruct what; try apply elem_of_targets|]. split; [|split].
  - destruct what, what'; cbn; try done; try (rewrite decide_False, app_nil_r by naive_solver; done);
      etransitivity; try apply targets_emplace; f_equal; repeat case_decide; naive_solver.
  - destruct what, what'; cbn; try done; try (rewrite decide_False by naive_solver; done);
      etransitivity; try apply targets_erase; repeat case_decide; naive_solver.
  - destruct what; cbn; [done|..]; rewrite erase_federate_filter, list_elem_of_filter; cbn; naive_solver.
Qed.

Lemma unknowns_resolved_witness :
  check_for Kind.input "load" (clear_of Kind.publication "load"
    (addUnknownInput "load" (GlobalHandle 131073 2) 4 no_unknowns)) = [(GlobalHandle 131073 2, 4)].
Proof.
  destruct (unknowns_resolved Kind.publication Kind.input "load" "load" (GlobalHandle 131073 2) 4 0
    (GlobalHandle 131073 2, 4) (addUnknownInput "load" (GlobalHandle 131073 2) 4 no_unknowns)
    ltac:(done)) as (_ & _ & H & _).
  rewrite H. reflexivity.
Defined.
