(* ===== verification/EndpointInfo.v ===== *)
(** * Endpoints and publications of a federate

    Models [src/helics/core/EndpointInfo.hpp], [EndpointInfo.cpp],
    [PublicationInfo.hpp] and [PublicationInfo.cpp]: the messages that wait at
    an endpoint, and the last value and the subscribers of a publication.  The
    guard of the queue serializes the operations, each of which is one step. *)

From S2P Require Import Prelude HTime Identifiers CoreData.

(** ** Endpoints *)

Module Endpoint.
Record EndpointInfo := mkEndpoint {
  id : global_handle;
  key : string;
  type : string;
  message_queue : list Message;
  hasFilter : bool;
}.

#[global] Instance EndpointInfo_settable : Settable EndpointInfo := fun r =>
  mkEndpoint (id r) (key r) (type r) (message_queue r) (hasFilter r).

Definition new_endpoint (handle : global_handle) (key_ type_ : string) : EndpointInfo :=
  mkEndpoint handle key_ type_ [] false.

Definition getMessage (maxTime : Time) (ep : EndpointInfo) : option Message * EndpointInfo :=
  match message_queue ep with
  | [] => (None, ep)
  | msg :: q => if time msg <=? maxTime then (Some msg, ep <| message_queue := q |>) else (None, ep)
  end.

Definition firstMessageTime (ep : EndpointInfo) : Time :=
  match message_queue ep with [] => T.maxVal | msg :: _ => time msg end.

(** which of two messages comes first; [std::string] compares the bytes *)
Definition msgSorter (m1 m2 : Message) : bool :=
  if negb (time m1 =? time m2) then time m1 <? time m2
  else String.ltb (original_source m1) (original_source m2).

(** [std::stable_sort], by insertion: an element stays before those that come
    after it in the sequence and are not before it in the order *)
Fixpoint stable_insert (m : Message) (q : list Message) : list Message :=
  match q with
  | [] => [m]
  | m' :: q' => if msgSorter m' m then m' :: stable_insert m q' else m :: q
  end.

Definition stable_sort (q : list Message) : list Message := foldr stable_insert [] q.

Definition addMessage (message : Message) (ep : EndpointInfo) : EndpointInfo :=
  ep <| message_queue ::= fun q => stable_sort (q ++ [message]) |>.

Definition clearQueue (ep : EndpointInfo) : EndpointInfo := ep <| message_queue := [] |>.

Fixpoint count_ready (maxTime : Time) (q : list Message) : Z :=
  match q with
  | [] => 0
  | msg :: q' => if time msg <=? maxTime then 1 + count_ready maxTime q' else 0
  end.

(** the counter is an [int32_t] *)
Definition queueSize (maxTime : Time) (ep : EndpointInfo) : Z :=
  int32 (count_ready maxTime (message_queue ep)).
End Endpoint.

(** ** Publications *)

Module Publication.
Record PublicationInfo := mkPublication {
  id : global_handle;
  subscribers : list global_handle;
  key : string;
  type : string;
  units : string;
  data : string;
  has_update : bool;
  only_update_on_change : bool;
  required : bool;
  buffer_data : bool;
  single_destination : bool;
}.

#[global] Instance PublicationInfo_settable : Settable PublicationInfo := fun r =>
  mkPublication (id r) (subscribers r) (key r) (type r) (units r) (data r) (has_update r)
    (only_update_on_change r) (required r) (buffer_data r) (single_destination r).

Definition new_publication (pid : global_handle) (pkey ptype punits : string) : PublicationInfo :=
  mkPublication pid [] pkey ptype punits "" false false false false false.

Definition CheckSetValue (dataToCheck : string) (pub : PublicationInfo) : bool * PublicationInfo :=
  if negb (String.length dataToCheck =? String.length (data pub))%nat || bool_decide (data pub <> dataToCheck)
  then (true, pub <| data := dataToCheck |>) else (false, pub).

Definition removeSubscriber (subscriberToRemove : global_handle) (pub : PublicationInfo)
    : PublicationInfo :=
  pub <| subscribers ::= filter (fun h => Handle.eqb h subscriberToRemove = false) |>.
End Publication.

(** ** Properties *)

Module EndpointFacts.
Import Endpoint.

(** The order in which messages are received: by time, then by the name of the
    original source. *)
Definition msg_le (a b : Message) : Prop := msgSorter b a = false.

#[export] Instance msg_le_dec a b : Decision (msg_le a b) := bool_eq_dec _ _.

Lemma string_ltb_lt a b : String.ltb a b = true <-> String.compare a b = Lt.
Proof. unfold String.ltb. by destruct (String.compare a b). Qed.

Lemma string_compare_refl a : String.compare a a = Eq.
Proof. induction a as [|c a IH]; cbn; [done|]. unfold Ascii.compare. by rewrite N.compare_refl. Qed.

Lemma string_compare_trans_lt a b c :
  String.compare a b = Lt -> String.compare b c = Lt -> String.compare a c = Lt.
Proof.
  revert b c. induction a as [|x a IH]; intros [|y b] [|z c]; cbn; try done.
  unfold Ascii.compare.
  destruct (N.compare_spec (Ascii.N_of_ascii x) (Ascii.N_of_ascii y)) as [Hxy|Hxy|Hxy]; try done;
    destruct (N.compare_spec (Ascii.N_of_ascii y) (Ascii.N_of_ascii z)) as [Hyz|Hyz|Hyz]; try done;
    destruct (N.compare_spec (Ascii.N_of_ascii x) (Ascii.N_of_ascii z)) as [Hxz|Hxz|Hxz]; try lia; try done.
  apply IH.
Qed.

Lemma msgSorter_spec a b :
  msgSorter a b = true <->
  time a < time b \/ (time a = time b /\ String.compare (original_source a) (original_source b) = Lt).
Proof.
  unfold msgSorter. destruct (Z.eqb_spec (time a) (time b)) as [E|E]; cbn.
  - rewrite string_ltb_lt. split; [by right|]. by intros [?|[_ ?]]; [lia|].
  - rewrite Z.ltb_lt. split; [by left|]. by intros [?|[? _]].
Qed.

Lemma msg_le_spec a b :
  msg_le a b <->
  time a < time b \/ (time a = time b /\ String.compare (original_source b) (original_source a) <> Lt).
Proof.
  unfold msg_le. rewrite <- not_true_iff_false, msgSorter_spec. split; [|intros; lia || naive_solver lia].
  intros H. destruct (Z.lt_trichotomy (time a) (time b)) as [?|[E|?]]; [by left| |destruct H; left; lia].
  right. split; [done|]. intros Hc. apply H. right. split; [lia|done].
Qed.

Lemma string_not_lt a b : String.compare b a <> Lt <-> String.compare a b = Lt \/ a = b.
Proof.
  rewrite (String.compare_antisym a b). split.
  - destruct (String.compare b a) eqn:E; [|done|by left]. intros _. right. symmetry. by apply String.compare_eq_iff.
  - intros [H| ->] Hc; [by rewrite Hc in H|].
    by rewrite string_compare_refl in Hc.
Qed.

#[export] Instance msg_le_preorder : PreOrder msg_le.
Proof.
  split.
  - intros a. rewrite msg_le_spec, string_not_lt. auto.
  - intros a b c. rewrite !msg_le_spec, !string_not_lt.
    intros [?|[? [?| ->]]] [?|[? [?| ?]]]; try (left; lia); right; split; try lia;
      try (left; by eapply string_compare_trans_lt); try (left; congruence); right; congruence.
Qed.

Lemma msg_le_total a b : ~ msg_le a b -> msg_le b a.
Proof.
  rewrite !msg_le_spec. intros H. destruct (Z.lt_trichotomy (time b) (time a)) as [?|[E|?]];
    [by left| |destruct H; by left].
  right. split; [done|]. intros Hc. apply H. right. split; [done|]. intros Hc2.
  pose proof (string_compare_trans_lt _ _ _ Hc Hc2) as H3.
  by rewrite string_compare_refl in H3.
Qed.

Lemma msg_le_time a b : msg_le a b -> time a <= time b.
Proof. rewrite msg_le_spec. lia. Qed.

Definition sorted_msgs (q : list Message) : Prop := StronglySorted msg_le q.

Lemma stable_insert_le m q : Forall (msg_le m) q -> stable_insert m q = m :: q.
Proof. destruct 1 as [|m' q Hm _]; [done|]. cbn. unfold msg_le in Hm. by rewrite Hm. Qed.

(** A message goes after all those that are not after it. *)
Lemma stable_sort_snoc q m :
  sorted_msgs q ->
  stable_sort (q ++ [m]) = filter (fun x => msg_le x m) q ++ m :: filter (fun x => ~ msg_le x m) q.
Proof.
  unfold sorted_msgs, stable_sort. induction 1 as [|x q Hq IH Hx]; [done|].
  cbn [app foldr]. rewrite IH. clear IH.
  assert (Forall (msg_le x) (filter (fun x => ~ msg_le x m) q)) as Hx2.
  { apply Forall_forall. intros y [_ Hy]%list_elem_of_filter. rewrite Forall_forall in Hx. by apply Hx. }
  destruct (decide (msg_le x m)) as [Hle|Hgt].
  - rewrite (filter_cons_True (fun x => msg_le x m)) by done.
    rewrite (filter_cons_False (fun x => ~ msg_le x m)) by tauto.
    apply stable_insert_le, Forall_app. split; [|by constructor].
    apply Forall_forall. intros y [_ Hy]%list_elem_of_filter. rewrite Forall_forall in Hx. by apply Hx.
  - assert (Forall (fun y => ~ msg_le y m) q) as Hall.
    { eapply Forall_impl; [exact Hx|]. intros y Hy Hym. destruct Hgt. by etrans. }
    rewrite (filter_cons_False (fun x => msg_le x m)) by done.
    rewrite (filter_cons_True (fun x => ~ msg_le x m)) by done.
    assert (filter (fun x => msg_le x m) q = []) as ->.
    { apply filter_none. done. }
    cbn. unfold msg_le in Hgt. apply not_false_iff_true in Hgt. rewrite Hgt. f_equal.
    by apply stable_insert_le.
Qed.

Lemma sorted_msgs_snoc q m : sorted_msgs q -> sorted_msgs (stable_sort (q ++ [m])).
Proof.
  intros Hs. rewrite stable_sort_snoc by done. unfold sorted_msgs in *.
  assert (forall P `{forall x, Decision (P x)}, StronglySorted msg_le (filter P q)) as Hf.
  { intros P HP. clear -Hs. induction Hs as [|x q Hq IH Hx]; [constructor|].
    destruct (decide (P x)); [rewrite filter_cons_True by done|by rewrite filter_cons_False by done].
    constructor; [done|]. apply Forall_forall. intros y [_ Hy]%list_elem_of_filter.
    rewrite Forall_forall in Hx. by apply Hx. }
  apply StronglySorted_app. split; [|split; [apply Hf|]].
  - intros a b [Ha _]%list_elem_of_filter [->|[Hb _]%list_elem_of_filter]%elem_of_cons; [done|].
    etrans; [done|]. by apply msg_le_total.
  - constructor; [apply Hf|]. apply Forall_forall. intros b [Hb _]%list_elem_of_filter. by apply msg_le_total.
Qed.

Lemma count_ready_filter t q :
  sorted_msgs q -> count_ready t q = Z.of_nat (length (filter (fun m => time m <= t) q)).
Proof.
  unfold sorted_msgs. induction 1 as [|x q Hq IH Hx]; [done|]. cbn [count_ready].
  destruct (Z.leb_spec (time x) t) as [Hle|Hgt].
  - rewrite filter_cons_True by done. rewrite IH. cbn [length]. lia.
  - rewrite filter_cons_False by lia. replace (filter _ q) with (@nil Message); [done|].
    symmetry. apply filter_none. eapply Forall_impl; [exact Hx|].
    intros y Hy%msg_le_time. lia.
Qed.

Inductive endpoint_step : EndpointInfo -> EndpointInfo -> Prop :=
  | ep_add m ep : endpoint_step ep (addMessage m ep)
  | ep_get t ep : endpoint_step ep (snd (getMessage t ep))
  | ep_clear ep : endpoint_step ep (clearQueue ep).

Lemma endpoint_step_sorted ep ep' :
  endpoint_step ep ep' -> sorted_msgs (message_queue ep) -> sorted_msgs (message_queue ep').
Proof.
  destruct 1 as [m ep|t ep|ep]; intros Hs.
  - by apply sorted_msgs_snoc.
  - unfold getMessage. destruct (message_queue ep) as [|x q] eqn:E; cbn; [by rewrite E|].
    case_if; cbn; [|by rewrite E]. by apply StronglySorted_inv in Hs as [? _].
  - constructor.
Qed.

Lemma reachable_sorted h k ty ep :
  rtc endpoint_step (new_endpoint h k ty) ep -> sorted_msgs (message_queue ep).
Proof.
  intros Hr. assert (sorted_msgs (message_queue (new_endpoint h k ty))) as H0 by constructor.
  revert H0. induction Hr as [|x y z Hxy _ IH]; intros H0; [done|]. apply IH. by eapply endpoint_step_sorted.
Qed.
End EndpointFacts.

Section EndpointClaims.
Import Endpoint EndpointFacts.

(** C36: Messages at an endpoint.  Whatever messages arrived and were taken, a
    receive gives a message that is due and before which no other comes in the
    order of time and original source, exactly when one is due; the count is
    that of the messages due, and the next message time the earliest; a new
    message goes behind all that are not after it, so that messages of one
    source and time are received in the order they came. *)
Theorem messages_in_order (h : global_handle) (k ty : string) (ep : EndpointInfo) (t : Time) (m : Message) :
  rtc endpoint_step (new_endpoint h k ty) ep -> Z.of_nat (length (message_queue ep)) < 2 ^ 31 ->
  match getMessage t ep with
  | (Some msg, ep') => time msg <= t /\ message_queue ep = msg :: message_queue ep' /\
      Forall (msg_le msg) (message_queue ep')
  | (None, ep') => ep' = ep /\ Forall (fun msg => t < time msg) (message_queue ep)
  end /\
  queueSize t ep = Z.of_nat (length (filter (fun msg => time msg <= t) (message_queue ep))) /\
  Forall (fun msg => firstMessageTime ep <= time msg) (message_queue ep) /\
  message_queue (addMessage m ep) =
    filter (fun x => msg_le x m) (message_queue ep) ++ m :: filter (fun x => ~ msg_le x m) (message_queue ep).
Proof.
  intros Hr Hlen. pose proof (reachable_sorted _ _ _ _ Hr) as Hs. split; [|split; [|split]].
  - unfold getMessage. destruct (message_queue ep) as [|x q] eqn:E; [by rewrite ?E|].
    apply StronglySorted_inv in Hs as [_ Hx]. destruct (Z.leb_spec (time x) t); [by rewrite ?E|].
    split; [done|]. rewrite ?E. constructor; [done|]. eapply Forall_impl; [exact Hx|]. intros y Hy%msg_le_time. lia.
  - unfold queueSize. rewrite count_ready_filter by done. apply swrap_id; [lia|]. unfold in_signed.
    pose proof (length_filter (fun msg => time msg <= t) (message_queue ep)). lia.
  - unfold firstMessageTime. destruct (message_queue ep) as [|x q]; [constructor|].
    apply StronglySorted_inv in Hs as [_ Hx]. constructor; [done|].
    eapply Forall_impl; [exact Hx|]. intros y Hy. by apply msg_le_time.
  - by apply stable_sort_snoc.
Qed.

Definition note (t : Time) (src : string) : Message := empty_message <| time := t |> <| original_source := src |>.

Lemma messages_in_order_witness :
  let ep := addMessage (note 5 "b") (addMessage (note 7 "a") (new_endpoint (GlobalHandle 131072 3) "e" "")) in
  message_queue (addMessage (note 5 "a") ep) = [note 5 "a"; note 5 "b"; note 7 "a"].
Proof.
  intros ep.
  assert (rtc endpoint_step (new_endpoint (GlobalHandle 131072 3) "e" "") ep) as Hr.
  { eapply rtc_l; [apply ep_add|]. eapply rtc_l; [apply ep_add|]. apply rtc_refl. }
  destruct (messages_in_order _ _ _ ep 6 (note 5 "a") Hr ltac:(done)) as (_ & _ & _ & H). rewrite H. reflexivity.
Defined.
End EndpointClaims.
