(* ===== verification/InterfaceInfo.v ===== *)
(** * The interfaces of a federate

    Models [src/helics/core/InterfaceInfo.hpp] and [InterfaceInfo.cpp].  The
    container of the interfaces, [gmlc::containers::DualMappedPointerVector],
    and the formatting library are not part of the repository: the container
    is the class [DualMapped] with its documented behaviour [DualMappedLaws],
    and [fmt_format] is any function from a format and its arguments. *)

From S2P Require Import Prelude HTime Identifiers CoreData ActionMessage NamedInputInfo EndpointInfo.
Import Endpoint (EndpointInfo) Publication (PublicationInfo).

(** ** The container

    A sequence of objects, each found under a name and under a handle.  The
    code changes an object through the pointer that a search or a loop gives
    it, which is [dm_modify], [dm_modify_back] or [dm_modify_all]. *)
Class DualMapped (C : Type -> Type) := {
  dm_empty : forall V, C V;
  dm_insert : forall {V}, string -> interface_handle -> V -> C V -> C V;
  dm_find_name : forall {V}, string -> C V -> option V;
  dm_find : forall {V}, interface_handle -> C V -> option V;
  dm_elements : forall {V}, C V -> list V;
  dm_modify : forall {V}, interface_handle -> (V -> V) -> C V -> C V;
  dm_modify_back : forall {V}, (V -> V) -> C V -> C V;
  dm_modify_all : forall {V}, (V -> V) -> C V -> C V;
}.

Class DualMappedLaws (C : Type -> Type) `{DualMapped C} : Prop := {
  dm_find_insert : forall V k h h' (v : V) c,
    dm_find_name k c = None -> dm_find h c = None ->
    dm_find h' (dm_insert k h v c) = if decide (h = h') then Some v else dm_find h' c;
  dm_find_modify : forall V h h' (f : V -> V) c,
    dm_find h' (dm_modify h f c) = if decide (h = h') then f <$> dm_find h' c else dm_find h' c;
  dm_find_modify_all : forall V h (f : V -> V) c, dm_find h (dm_modify_all f c) = f <$> dm_find h c;
  dm_find_modify_back : forall V k h h' (v : V) (f : V -> V) c,
    dm_find_name k c = None -> dm_find h c = None ->
    dm_find h' (dm_modify_back f (dm_insert k h v c)) =
      if decide (h = h') then Some (f v) else dm_find h' c;
}.

Module Opt.
(** [defs::options], the numbers of the options of an interface *)
Definition connection_required : Z := 397.
Definition connection_optional : Z := 402.
Definition single_connection_only : Z := 407.
Definition multiple_connections_allowed : Z := 409.
Definition handle_only_transmit_on_change : Z := 6.
Definition handle_only_update_on_change : Z := 8.
Definition buffer_data : Z := 411.
Definition ignore_interrupts : Z := 475.
Definition strict_type_checking : Z := 414.
Definition connection_failure : Z := -2.
End Opt.

Module Interfaces.
Section Interfaces.
Context {C : Type -> Type} `{DualMapped C} (fmt_format : string -> list string -> string).

Record InterfaceInfo := mkInterfaces {
  global_id : global_federate_id;
  only_update_on_change : bool;
  publications : C PublicationInfo;
  endpoints : C EndpointInfo;
  inputs : C NamedInputInfo;
}.

#[global] Instance InterfaceInfo_settable : Settable InterfaceInfo := fun r =>
  mkInterfaces (global_id r) (only_update_on_change r) (publications r) (endpoints r) (inputs r).

Definition new_interfaces : InterfaceInfo :=
  mkInterfaces GlobalFedId.invalid false (dm_empty _) (dm_empty _) (dm_empty _).

(** ** Creating *)

Definition createPublication (handle : interface_handle) (key type units : string)
    (ii : InterfaceInfo) : InterfaceInfo :=
  ii <| publications ::= dm_insert key handle
          (Publication.new_publication (GlobalHandle (global_id ii) handle) key type units) |>.

Definition createInput (handle : interface_handle) (key type units : string) (ii : InterfaceInfo)
    : InterfaceInfo :=
  ii <| inputs ::= fun c =>
          dm_modify_back (fun ipt => ipt <| NamedInputInfo.only_update_on_change := only_update_on_change ii |>)
            (dm_insert key handle (new_input (GlobalHandle (global_id ii) handle) key type units) c) |>.

Definition createEndpoint (handle : interface_handle) (endpointName type : string)
    (ii : InterfaceInfo) : InterfaceInfo :=
  ii <| endpoints ::= dm_insert endpointName handle
          (Endpoint.new_endpoint (GlobalHandle (global_id ii) handle) endpointName type) |>.

Definition setGlobalId (newglobalId : global_federate_id) (ii : InterfaceInfo) : InterfaceInfo :=
  ii <| global_id := newglobalId |>.

Definition setChangeUpdateFlag (updateFlag : bool) (ii : InterfaceInfo) : InterfaceInfo :=
  if negb (Bool.eqb updateFlag (only_update_on_change ii)) then
    ii <| only_update_on_change := updateFlag |>
       <| inputs ::= dm_modify_all (fun ip => ip <| NamedInputInfo.only_update_on_change := updateFlag |>) |>
  else ii.

Definition getChangeUpdateFlag (ii : InterfaceInfo) : bool := only_update_on_change ii.

(** ** Searching *)

Definition getPublication_name (n : string) (ii : InterfaceInfo) : option PublicationInfo :=
  dm_find_name n (publications ii).
Definition getPublication (h : interface_handle) (ii : InterfaceInfo) : option PublicationInfo :=
  dm_find h (publications ii).
Definition getInput_name (n : string) (ii : InterfaceInfo) : option NamedInputInfo :=
  dm_find_name n (inputs ii).
Definition getInput (h : interface_handle) (ii : InterfaceInfo) : option NamedInputInfo :=
  dm_find h (inputs ii).
Definition getEndpoint_name (n : string) (ii : InterfaceInfo) : option EndpointInfo :=
  dm_find_name n (endpoints ii).
Definition getEndpoint (h : interface_handle) (ii : InterfaceInfo) : option EndpointInfo :=
  dm_find h (endpoints ii).

(** ** Options *)

(** The assignment an option of an input stands for; [None] is the default. *)
Definition input_option (opt : Z) (value : bool) : option (NamedInputInfo -> NamedInputInfo) :=
  if opt =? Opt.ignore_interrupts then Some (fun i => i <| not_interruptible := value |>)
  else if opt =? Opt.handle_only_update_on_change
  then Some (fun i => i <| NamedInputInfo.only_update_on_change := value |>)
  else if opt =? Opt.connection_required then Some (fun i => i <| required := value |>)
  else if opt =? Opt.connection_optional then Some (fun i => i <| required := negb value |>)
  else if opt =? Opt.single_connection_only then Some (fun i => i <| single_source := value |>)
  else if opt =? Opt.multiple_connections_allowed then Some (fun i => i <| single_source := negb value |>)
  else if opt =? Opt.strict_type_checking then Some (fun i => i <| strict_type_matching := value |>)
  else None.

Definition setInputProperty (h : interface_handle) (opt : Z) (value : bool) (ii : InterfaceInfo)
    : bool * InterfaceInfo :=
  match getInput h ii with
  | None => (false, ii)
  | Some _ => match input_option opt value with
              | None => (false, ii)
              | Some f => (true, ii <| inputs ::= dm_modify h f |>)
              end
  end.

Definition getInputProperty (h : interface_handle) (opt : Z) (ii : InterfaceInfo) : bool :=
  match getInput h ii with
  | None => false
  | Some ipt =>
      if opt =? Opt.ignore_interrupts then not_interruptible ipt
      else if opt =? Opt.handle_only_update_on_change then NamedInputInfo.only_update_on_change ipt
      else if opt =? Opt.connection_required then required ipt
      else if opt =? Opt.connection_optional then negb (required ipt)
      else if opt =? Opt.single_connection_only then single_source ipt
      else if opt =? Opt.multiple_connections_allowed then negb (single_source ipt)
      else if opt =? Opt.strict_type_checking then strict_type_matching ipt
      else false
  end.

Definition publication_option (opt : Z) (value : bool) : option (PublicationInfo -> PublicationInfo) :=
  if opt =? Opt.handle_only_transmit_on_change
  then Some (fun p => p <| Publication.only_update_on_change := value |>)
  else if opt =? Opt.connection_required then Some (fun p => p <| Publication.required := value |>)
  else if opt =? Opt.connection_optional then Some (fun p => p <| Publication.required := negb value |>)
  else if opt =? Opt.single_connection_only
  then Some (fun p => p <| Publication.single_destination := value |>)
  else if opt =? Opt.multiple_connections_allowed
  then Some (fun p => p <| Publication.single_destination := negb value |>)
  else if opt =? Opt.buffer_data then Some (fun p => p <| Publication.buffer_data := value |>)
  else None.

Definition setPublicationProperty (h : interface_handle) (opt : Z) (value : bool)
    (ii : InterfaceInfo) : bool * InterfaceInfo :=
  match getPublication h ii with
  | None => (false, ii)
  | Some _ => match publication_option opt value with
              | None => (false, ii)
              | Some f => (true, ii <| publications ::= dm_modify h f |>)
              end
  end.

Definition getPublicationProperty (h : interface_handle) (opt : Z) (ii : InterfaceInfo) : bool :=
  match getPublication h ii with
  | None => false
  | Some pub =>
      if opt =? Opt.handle_only_transmit_on_change then Publication.only_update_on_change pub
      else if opt =? Opt.connection_required then Publication.required pub
      else if opt =? Opt.connection_optional then negb (Publication.required pub)
      else if opt =? Opt.single_connection_only then Publication.single_destination pub
      else if opt =? Opt.multiple_connections_allowed then negb (Publication.single_destination pub)
      else if opt =? Opt.buffer_data then Publication.buffer_data pub
      else false
  end.

Definition setEndpointProperty (h : interface_handle) (opt : Z) (value : bool)
    (ii : InterfaceInfo) : bool * InterfaceInfo := (false, ii).
Definition getEndpointProperty (h : interface_handle) (opt : Z) (ii : InterfaceInfo) : bool := false.

(** ** Checking before initialization *)

Definition issue (text : string) (args : list string) : Z * string :=
  (Opt.connection_failure, fmt_format text args).

Definition input_issues (ipt : NamedInputInfo) : list (Z * string) :=
  (if required ipt && negb (has_target ipt)
   then [issue "Input {} is required but has no connection" [key ipt]] else []) ++
  (if single_source ipt && (1 <? length (input_sources ipt))%nat
   then [issue "Input {} is single source only but has more than one connection" [key ipt]] else []) ++
  flat_map (fun source =>
    if checkTypeMatch (type ipt) (fst source) (strict_type_matching ipt) then []
    else [issue "Input {} source has mismatched types {} is not compatible with {}"
            [key ipt; type ipt; fst source]]) (source_types ipt).

Definition publication_issues (pub : PublicationInfo) : list (Z * string) :=
  (if Publication.required pub && (length (Publication.subscribers pub) =? 0)%nat
   then [issue "Publication {} is required but has no subscribers" [Publication.key pub]] else []) ++
  (if Publication.single_destination pub && (1 <? length (Publication.subscribers pub))%nat
   then [issue "Publication {} is single source only but has more than one connection"
           [Publication.key pub]] else []).

Definition checkInterfacesForIssues (ii : InterfaceInfo) : list (Z * string) :=
  flat_map input_issues (dm_elements (inputs ii)) ++
  flat_map publication_issues (dm_elements (publications ii)).
End Interfaces.
Arguments InterfaceInfo : clear implicits.
End Interfaces.

(** ** Properties *)

Section InterfaceClaims.
Import Interfaces.
Context {C : Type -> Type} `{DualMapped C} (fmt_format : string -> list string -> string).

(** An input that may start: connected if it must be, not connected twice if
    it must not, and compatible with each of its sources. *)
Definition input_ok (ipt : NamedInputInfo) : Prop :=
  (required ipt = true -> has_target ipt = true) /\
  (single_source ipt = true -> (length (input_sources ipt) <= 1)%nat) /\
  Forall (fun source => checkTypeMatch (type ipt) (fst source) (strict_type_matching ipt) = true)
    (source_types ipt).

Definition publication_ok (pub : PublicationInfo) : Prop :=
  (Publication.required pub = true -> Publication.subscribers pub <> []) /\
  (Publication.single_destination pub = true -> (length (Publication.subscribers pub) <= 1)%nat).

Lemma flat_map_nil {A B} (f : A -> list B) l : flat_map f l = [] <-> Forall (fun x => f x = []) l.
Proof.
  induction l as [|x l IH]; cbn; [done|]. rewrite app_nil, Forall_cons, IH. done.
Qed.

Lemma input_issues_nil ipt : input_issues fmt_format ipt = [] <-> input_ok ipt.
Proof.
  unfold input_issues, input_ok. rewrite !app_nil, flat_map_nil. f_equiv; [|f_equiv].
  - destruct (required ipt), (has_target ipt); cbn; naive_solver.
  - destruct (single_source ipt), (Nat.ltb_spec 1 (length (input_sources ipt))); cbn; split;
      try done; intros; lia.
  - apply Forall_iff. intros s. by destruct (checkTypeMatch _ _ _).
Qed.

Lemma publication_issues_nil pub : publication_issues fmt_format pub = [] <-> publication_ok pub.
Proof.
  unfold publication_issues, publication_ok. rewrite app_nil. f_equiv.
  - destruct (Publication.required pub), (Publication.subscribers pub); cbn; naive_solver.
  - destruct (Publication.single_destination pub), (Nat.ltb_spec 1 (length (Publication.subscribers pub)));
      cbn; split; try done; intros; lia.
Qed.

Lemma issues_are_failures (ii : InterfaceInfo C) :
  Forall (fun i => fst i = Opt.connection_failure) (checkInterfacesForIssues fmt_format ii).
Proof.
  unfold checkInterfacesForIssues.
  apply Forall_forall. intros i. rewrite list_elem_of_In, in_app_iff, !in_flat_map.
  intros [(x & _ & Hi)|(x & _ & Hi)].
  + unfold input_issues in Hi. rewrite !in_app_iff, in_flat_map in Hi.
    destruct Hi as [Hi|[Hi|(s & _ & Hi)]]; case_match; try done; by destruct Hi as [<-|[]].
  + unfold publication_issues in Hi. rewrite in_app_iff in Hi.
    destruct Hi as [Hi|Hi]; case_match; try done; by destruct Hi as [<-|[]].
Qed.

(** The check before initialization.  It reports nothing exactly when every
    input and every publication of the federate may start, and whatever it
    reports is a failed connection. *)
Theorem interfaces_checked (ii : InterfaceInfo C) :
  (checkInterfacesForIssues fmt_format ii = [] <->
   Forall input_ok (dm_elements (inputs ii)) /\ Forall publication_ok (dm_elements (publications ii))) /\
  Forall (fun i => fst i = Opt.connection_failure) (checkInterfacesForIssues fmt_format ii).
Proof.
  unfold checkInterfacesForIssues. split.
  - rewrite app_nil, !flat_map_nil. f_equiv; apply Forall_iff.
    + apply input_issues_nil.
    + apply publication_issues_nil.
  - apply issues_are_failures.
Qed.

(** Options of inputs.  An option that an input has is accepted and reads
    back; other inputs keep theirs.  Required and optional are one another's
    negation: an input that is made not optional becomes required. *)
Theorem input_options `{!DualMappedLaws C} (h : interface_handle) (o : Z) (v : bool) (ii : InterfaceInfo C) :
  is_Some (getInput h ii) -> is_Some (input_option o v) ->
  let '(used, ii') := setInputProperty h o v ii in
  used = true /\ getInputProperty h o ii' = v /\
  (forall h' o', h' <> h -> getInputProperty h' o' ii' = getInputProperty h' o' ii) /\
  (o = Opt.connection_optional -> getInputProperty h Opt.connection_required ii' = negb v).
Proof.
  intros [ipt Hipt] [f Hf]. unfold setInputProperty. rewrite Hipt, Hf.
  assert (forall h', getInput h' (ii <| inputs ::= dm_modify h f |>) =
    if decide (h = h') then f <$> getInput h' ii else getInput h' ii) as Hget.
  { intros h'. apply dm_find_modify. }
  split; [done|]. unfold getInputProperty. split; [|split].
  - rewrite Hget, decide_True, Hipt by done. cbn [fmap option_fmap option_map]. unfold input_option in Hf.
    repeat case_if; try discriminate Hf; injection Hf as <-; try done; cbn; apply negb_involutive.
  - intros h' o' Hne. rewrite Hget, decide_False by done. done.
  - intros ->. injection Hf as <-. rewrite Hget, decide_True, Hipt by done. done.
Qed.

(** A new input follows the current flag of the federate, and a change of the
    flag reaches every input. *)
Lemma created_input `{!DualMappedLaws C} h k ty un (ii : InterfaceInfo C) :
  getInput_name k ii = None -> getInput h ii = None ->
  getInput h (createInput h k ty un ii) =
    Some (new_input (GlobalHandle (global_id ii) h) k ty un
            <| NamedInputInfo.only_update_on_change := only_update_on_change ii |>).
Proof.
  intros Hk Hh. unfold getInput, createInput. cbn. rewrite dm_find_modify_back by done.
  by rewrite decide_True.
Qed.

Lemma created_endpoint `{!DualMappedLaws C} h k ty (ii : InterfaceInfo C) :
  getEndpoint_name k ii = None -> getEndpoint h ii = None ->
  getEndpoint h (createEndpoint h k ty ii) = Some (Endpoint.new_endpoint (GlobalHandle (global_id ii) h) k ty).
Proof.
  intros Hk Hh. unfold getEndpoint, createEndpoint. cbn. rewrite dm_find_insert by done.
  by rewrite decide_True.
Qed.

Lemma change_flag_followed `{!DualMappedLaws C} h b (ii : InterfaceInfo C) ipt :
  b <> only_update_on_change ii -> getInput h ii = Some ipt ->
  getInput h (setChangeUpdateFlag b ii) = Some (ipt <| NamedInputInfo.only_update_on_change := b |>).
Proof.
  intros Hb Hi. unfold setChangeUpdateFlag. rewrite (proj2 (eqb_false_iff _ _) Hb). cbn.
  unfold getInput in *. cbn. by rewrite dm_find_modify_all, Hi.
Qed.
End InterfaceClaims.

(** A container with these laws: the list of the objects with their names and
    handles. *)
Module ListContainer.
Definition C (V : Type) : Type := list (string * Z * V).

#[local] Instance list_container : DualMapped C := {
  dm_empty _ := [];
  dm_insert _ k h v c :=
    if existsb (fun e => bool_decide (fst (fst e) = k) || (snd (fst e) =? h)) c then c
    else c ++ [(k, h, v)];
  dm_find_name _ k c := snd <$> List.find (fun e => bool_decide (fst (fst e) = k)) c;
  dm_find _ h c := snd <$> List.find (fun e => snd (fst e) =? h) c;
  dm_elements _ c := snd <$> c;
  dm_modify _ h f c := (fun e => if snd (fst e) =? h then (fst e, f (snd e)) else e) <$> c;
  dm_modify_back _ f c :=
    match last c with None => c | Some e => removelast c ++ [(fst e, f (snd e))] end;
  dm_modify_all _ f c := (fun e => (fst e, f (snd e))) <$> c;
}.

Section Laws.
Context {V : Type}.
Implicit Types (c : C V) (f : V -> V).

Lemma find_none h c : dm_find h c = None <-> Forall (fun e => (snd (fst e) =? h) = false) c.
Proof.
  cbn. split.
  - intros Hn. apply fmap_None in Hn. apply Forall_forall. intros e He.
    by apply (List.find_none _ _ Hn), list_elem_of_In.
  - intros Hf. induction Hf as [|e c He _ IH]; [done|]. cbn. by rewrite He.
Qed.

Lemma fresh_insert k h (v : V) c :
  dm_find_name k c = None -> dm_find h c = None -> dm_insert k h v c = c ++ [(k, h, v)].
Proof.
  intros Hk Hh. cbn. replace (existsb _ c) with false; [done|]. symmetry.
  apply not_true_iff_false. intros (e & He & Hb)%existsb_exists.
  apply find_none in Hh. rewrite Forall_forall in Hh. specialize (Hh e (proj2 (list_elem_of_In _ _) He)).
  apply fmap_None in Hk. pose proof (List.find_none _ _ Hk e He) as Hn. cbn in Hn. by rewrite Hn, Hh in Hb.
Qed.

Lemma find_snoc k h h' (v : V) c :
  dm_find h c = None ->
  dm_find h' (c ++ [(k, h, v)]) = if decide (h = h') then Some v else dm_find h' c.
Proof.
  intros Hh. apply find_none in Hh. cbn. induction Hh as [|e c He _ IH]; cbn.
  - destruct (Z.eqb_spec h h'); [by rewrite decide_True|by rewrite decide_False].
  - case_decide as E; [|by destruct (_ =? h')]. subst h'. by rewrite He.
Qed.

Lemma find_modify h h' f c :
  dm_find h' (dm_modify h f c) = if decide (h = h') then f <$> dm_find h' c else dm_find h' c.
Proof.
  cbn. induction c as [|e c IH]; cbn; [by case_decide|].
  destruct (Z.eqb_spec (snd (fst e)) h) as [E|E]; cbn.
  - destruct (Z.eqb_spec (snd (fst e)) h') as [E'|E']; cbn; [by rewrite decide_True by congruence|exact IH].
  - destruct (Z.eqb_spec (snd (fst e)) h') as [E'|E']; cbn; [by rewrite decide_False by congruence|exact IH].
Qed.

Lemma find_modify_all h f c : dm_find h (dm_modify_all f c) = f <$> dm_find h c.
Proof. cbn. induction c as [|e c IH]; [done|]. cbn. by destruct (_ =? h). Qed.
End Laws.

#[local] Instance list_container_laws : DualMappedLaws C.
Proof.
  split; intros V.
  - intros k h h' v c Hk Hh. rewrite (fresh_insert k h v c Hk Hh). by apply find_snoc.
  - intros. apply find_modify.
  - intros. apply find_modify_all.
  - intros k h h' v f c Hk Hh. rewrite (fresh_insert k h v c Hk Hh).
    replace (@dm_modify_back C _ V f (c ++ [(k, h, v)])) with (c ++ [(k, h, f v)]).
    + by apply find_snoc.
    + cbn. by rewrite last_snoc, removelast_last.
Qed.
End ListContainer.

Section ListWitness.
Import Interfaces ListContainer.
#[local] Existing Instance list_container.
#[local] Existing Instance list_container_laws.

Lemma input_options_witness :
  let ii := createInput 3 "in" "double" "V" (@new_interfaces C _) in
  getInputProperty 3 Opt.connection_required
    (snd (setInputProperty 3 Opt.connection_optional false ii)) = true.
Proof.
  pose proof (input_options 3 Opt.connection_optional false
    (createInput 3 "in" "double" "V" (@new_interfaces C _)) ltac:(by eexists) ltac:(by eexists)) as Hw.
  cbn zeta. destruct (setInputProperty _ _ _ _) as [used ii']. by apply Hw.
Defined.
End ListWitness.
