(* ===== verification/MessageTimer.v ===== *)
(** * Timers that send messages

    Models [src/helics/core/MessageTimer.hpp] and [MessageTimer.cpp]: a timer
    is an index, a message and a time, and the callback of the timer library
    sends the message.  The timers of asio are the parameter [SteadyTimers].
    When a callback comes, and with which error code, is up to that library and
    its thread: the theorems hold for callbacks at any time.  Each reading of
    the clock is an argument, in nanoseconds.  What is given to [sendFunction]
    is the result of an operation. *)

From S2P Require Import Prelude HTime Identifiers CoreData ActionMessage.

(** What the code uses of [asio::steady_timer]: the expiry that was set is the
    one that is read. *)
Class SteadyTimers := {
  steady_timer : Type;
  make_timer : steady_timer;
  expires_at : steady_timer -> Z;
  set_expires_at : Z -> steady_timer -> steady_timer;
  async_wait : steady_timer -> steady_timer;
  cancel : steady_timer -> steady_timer;
  expires_at_set t x : expires_at (set_expires_at t x) = t;
  expires_at_wait x : expires_at (async_wait x) = expires_at x;
  expires_at_cancel x : expires_at (cancel x) = expires_at x;
}.
#[export] Hint Rewrite @expires_at_set @expires_at_wait @expires_at_cancel : helics.

(** [asio::error::operation_aborted], or another value of the error code *)
Inductive timer_code := operation_aborted | other_code.

(** The message that is left where one was moved from. *)
Definition moved_from (m : ActionMessage) : ActionMessage := m <| payload := ""%string |> <| stringData := [] |>.

Module Timer.
Section Timer.
Context `{SteadyTimers}.

Record MessageTimer := mkMessageTimer {
  buffers : list ActionMessage;
  expirationTimes : list Z;
  timers : list steady_timer;
}.

#[global] Instance MessageTimer_settable : Settable MessageTimer := fun r =>
  mkMessageTimer (buffers r) (expirationTimes r) (timers r).

Definition new_timer : MessageTimer := mkMessageTimer [] [] [].

Definition size (mt : MessageTimer) : Z := int32 (Z.of_nat (length (timers mt))).
Definition valid_index (index : Z) (mt : MessageTimer) : bool := (0 <=? index) && (index <? size mt).

(** A vector at a position that is in its range. *)
Definition at_index {A} (f : A -> A) (index : Z) : list A -> list A := alter f (Z.to_nat index).

Definition sendMessage (now : Z) (timerIndex : Z) (mt : MessageTimer) : list ActionMessage * MessageTimer :=
  if valid_index timerIndex mt then
    match expirationTimes mt !! Z.to_nat timerIndex, buffers mt !! Z.to_nat timerIndex with
    | Some e, Some b =>
        if e <=? now then
          if bool_decide (messageAction b <> cmd_ignore) then
            ([copy_construct b],
             mt <| buffers ::= at_index (fun b => setAction cmd_ignore (moved_from b)) timerIndex |>)
          else ([], mt)
        else ([], mt)
    | _, _ => ([], mt)
    end
  else ([], mt).

Definition processTimerCallback (now : Z) (index : Z) (ec : timer_code) (mt : MessageTimer)
    : list ActionMessage * MessageTimer :=
  match ec with operation_aborted => ([], mt) | other_code => sendMessage now index mt end.

(** The three [push_back]. *)
Definition push_timer (expirationTime : Z) (mess : ActionMessage) (mt : MessageTimer) : MessageTimer :=
  let timer := set_expires_at expirationTime make_timer in
  mt <| buffers ::= fun l => l ++ [copy_construct mess] |>
     <| expirationTimes ::= fun l => l ++ [expirationTime] |>
     <| timers ::= fun l => l ++ [timer] |>.

(** The clock is read by the function, and again by the callback it may make. *)
Definition addTimer (now now_cb : Z) (expirationTime : Z) (mess : ActionMessage) (mt : MessageTimer)
    : Z * list ActionMessage * MessageTimer :=
  let index := size mt in
  let mt := push_timer expirationTime mess mt in
  if now <? expirationTime then
    (index, [], mt <| timers ::= alter async_wait (pred (length (timers mt))) |>)
  else let '(sent, mt) := processTimerCallback now_cb index other_code mt in (index, sent, mt).

Definition addTimerFromNow (now now_add now_cb : Z) (time : Z) (mess : ActionMessage) (mt : MessageTimer)
    : Z * list ActionMessage * MessageTimer :=
  addTimer now_add now_cb (int64 (now + time)) mess mt.

Definition cancelTimer (index : Z) (mt : MessageTimer) : MessageTimer :=
  if valid_index index mt then
    mt <| buffers ::= at_index (setAction cmd_ignore) index |> <| timers ::= at_index cancel index |>
  else mt.

Definition cancelAll (mt : MessageTimer) : MessageTimer :=
  mt <| buffers ::= fmap (setAction cmd_ignore) |> <| timers ::= fmap cancel |>.

Definition updateTimer_message (timerIndex : Z) (expirationTime : Z) (mess : ActionMessage) (mt : MessageTimer)
    : MessageTimer :=
  if valid_index timerIndex mt then
    mt <| timers ::= at_index (set_expires_at expirationTime) timerIndex |>
       <| expirationTimes ::= at_index (fun _ => expirationTime) timerIndex |>
       <| buffers ::= at_index (fun b => copy_assign b mess) timerIndex |>
       <| timers ::= at_index async_wait timerIndex |>
  else mt.

(** whether the message at the index is still to be sent *)
Definition armed (timerIndex : Z) (mt : MessageTimer) : bool :=
  match buffers mt !! Z.to_nat timerIndex with
  | Some b => bool_decide (messageAction b <> cmd_ignore)
  | None => false
  end.

(** The end of the two functions that change only the time. *)
Definition set_time (timerIndex : Z) (newTime : Z) (mt : MessageTimer) : bool * MessageTimer :=
  (armed timerIndex mt,
   mt <| timers ::= at_index (set_expires_at newTime) timerIndex |>
      <| expirationTimes ::= at_index (fun _ => newTime) timerIndex |>
      <| timers ::= at_index async_wait timerIndex |>).

Definition addTimeToTimer (timerIndex : Z) (time : Z) (mt : MessageTimer) : bool * MessageTimer :=
  if valid_index timerIndex mt then
    match timers mt !! Z.to_nat timerIndex with
    | Some tmr => set_time timerIndex (int64 (expires_at tmr + time)) mt
    | None => (false, mt)
    end
  else (false, mt).

Definition updateTimer (timerIndex : Z) (expirationTime : Z) (mt : MessageTimer) : bool * MessageTimer :=
  if valid_index timerIndex mt then set_time timerIndex expirationTime mt else (false, mt).

Definition updateMessage (timerIndex : Z) (mess : ActionMessage) (mt : MessageTimer) : MessageTimer :=
  if valid_index timerIndex mt then mt <| buffers ::= at_index (fun b => copy_assign b mess) timerIndex |> else mt.

(** ** Events *)

(** Operations of the owner and callbacks of the library, in the order in which
    they get the lock. *)
Inductive event :=
  | Add (now now_cb expirationTime : Z) (mess : ActionMessage)
  | Cancel (index : Z)
  | CancelAll
  | UpdateBoth (index expirationTime : Z) (mess : ActionMessage)
  | AddTime (index time : Z)
  | UpdateTime (index expirationTime : Z)
  | UpdateMessage (index : Z) (mess : ActionMessage)
  | Callback (now index : Z) (ec : timer_code).

(** What an event sends, with the index that sends it. *)
Definition occurs (e : event) (mt : MessageTimer) : list (Z * ActionMessage) * MessageTimer :=
  match e with
  | Add now now_cb t mess =>
      let '(i, sent, mt') := addTimer now now_cb t mess mt in (pair i <$> sent, mt')
  | Cancel i => ([], cancelTimer i mt)
  | CancelAll => ([], cancelAll mt)
  | UpdateBoth i t mess => ([], updateTimer_message i t mess mt)
  | AddTime i t => ([], snd (addTimeToTimer i t mt))
  | UpdateTime i t => ([], snd (updateTimer i t mt))
  | UpdateMessage i mess => ([], updateMessage i mess mt)
  | Callback now i ec => let '(sent, mt') := processTimerCallback now i ec mt in (pair i <$> sent, mt')
  end.

Fixpoint occur (es : list event) (mt : MessageTimer) : list (Z * ActionMessage) * MessageTimer :=
  match es with
  | [] => ([], mt)
  | e :: es =>
      let '(sent, mt) := occurs e mt in
      let '(sent', mt) := occur es mt in (sent ++ sent', mt)
  end.
End Timer.
Arguments MessageTimer {_}.
End Timer.

(** ** The three vectors agree *)

Module TimerFacts.
Import Timer.
Section Facts.
Context `{SteadyTimers}.
Implicit Types (mt : MessageTimer) (es : list event).

(** Each timer has a buffer, and the time that is kept beside it. *)
Record timer_inv mt : Prop := {
  ti_times : expires_at <$> timers mt = expirationTimes mt;
  ti_buffers : length (buffers mt) = length (timers mt);
}.

Lemma alter_fmap_expires (f : steady_timer -> steady_timer) (g : Z -> Z) (n : nat) (l : list steady_timer) :
  (forall x, expires_at (f x) = g (expires_at x)) -> expires_at <$> alter f n l = alter g n (expires_at <$> l).
Proof. intros Hf. revert n. induction l as [|x l IH]; intros [|n]; cbn; [done..|by rewrite Hf|by rewrite IH]. Qed.

Lemma alter_same (f : steady_timer -> steady_timer) (n : nat) (l : list steady_timer) :
  (forall x, expires_at (f x) = expires_at x) -> expires_at <$> alter f n l = expires_at <$> l.
Proof. intros Hf. rewrite (alter_fmap_expires f (fun t => t)) by done. by rewrite list_alter_id. Qed.

Lemma new_timer_inv : timer_inv new_timer.
Proof. done. Qed.

Lemma send_inv now i mt : timer_inv mt -> timer_inv (snd (sendMessage now i mt)).
Proof.
  intros [Ht Hb]. unfold sendMessage. repeat case_match; try done.
  split; [done|]. cbn. unfold at_index. by rewrite length_alter.
Qed.

Lemma callback_inv now i ec mt : timer_inv mt -> timer_inv (snd (processTimerCallback now i ec mt)).
Proof. intros Hi. destruct ec; [done|by apply send_inv]. Qed.

Lemma set_time_inv i t mt : timer_inv mt -> timer_inv (snd (set_time i t mt)).
Proof.
  intros [Ht Hb]. split; cbn; unfold at_index; [|by rewrite !length_alter].
  rewrite alter_same by apply expires_at_wait.
  rewrite (alter_fmap_expires _ (fun _ => t)) by (intros; apply expires_at_set). by rewrite Ht.
Qed.

Lemma push_timer_inv t mess mt : timer_inv mt -> timer_inv (push_timer t mess mt).
Proof.
  intros [Ht Hb]. split; cbn; [by rewrite fmap_app, Ht; cbn; rewrite expires_at_set|rewrite !length_app; cbn; lia].
Qed.

Lemma occurs_inv e mt : timer_inv mt -> timer_inv (snd (occurs e mt)).
Proof.
  intros Hi. pose proof Hi as [Ht Hb]. destruct e; cbn [occurs snd].
  - unfold addTimer. pose proof (push_timer_inv expirationTime mess mt Hi) as Hi'.
    case_if.
    + destruct Hi' as [Ht' Hb']. split; cbn in *; [|by rewrite length_alter].
      by rewrite alter_same by apply expires_at_wait.
    + pose proof (callback_inv now_cb (size mt) other_code _ Hi') as Hc.
      destruct (processTimerCallback _ _ _ _). exact Hc.
  - unfold cancelTimer. case_if; [|done]. split; cbn; unfold at_index; [|by rewrite !length_alter].
    by rewrite alter_same by apply expires_at_cancel.
  - split; cbn; [|by rewrite !length_fmap]. rewrite <- list_fmap_compose, <- Ht.
    apply list_fmap_ext. intros; apply expires_at_cancel.
  - unfold updateTimer_message. case_if; [|done]. destruct (set_time_inv index expirationTime mt Hi) as [Ht' Hb'].
    split; cbn in *; [done|]. unfold at_index in *. by rewrite length_alter.
  - unfold addTimeToTimer. repeat case_match; try done. by apply set_time_inv.
  - unfold updateTimer. case_match; [|done]. by apply set_time_inv.
  - unfold updateMessage. case_match; [|done]. split; [done|]. cbn. unfold at_index. by rewrite length_alter.
  - pose proof (callback_inv now index ec mt Hi) as Hc. destruct (processTimerCallback _ _ _ _). exact Hc.
Qed.

(** ** One message, one sending *)

(** Nothing but callbacks concerns the timer. *)
Definition undisturbed (i : Z) (e : event) : Prop :=
  match e with
  | Add _ _ _ _ | Callback _ _ _ => True
  | CancelAll => False
  | Cancel j | UpdateBoth j _ _ | AddTime j _ | UpdateTime j _ | UpdateMessage j _ => j <> i
  end.

(** A callback of the timer that comes when its time is reached. *)
Definition due (i t : Z) (e : event) : bool :=
  match e with Callback now j other_code => (j =? i) && (t <=? now) | _ => false end.

Definition sends_of (i : Z) (sent : list (Z * ActionMessage)) : list ActionMessage :=
  snd <$> List.filter (fun p => fst p =? i) sent.

(** What the timer holds. *)
Definition holds (i : Z) (b : ActionMessage) (t : Z) mt : Prop :=
  timer_inv mt /\ 0 <= i < Z.of_nat (length (timers mt)) /\
  buffers mt !! Z.to_nat i = Some b /\ expirationTimes mt !! Z.to_nat i = Some t.

Lemma sends_of_app i a b : sends_of i (a ++ b) = sends_of i a ++ sends_of i b.
Proof. unfold sends_of. by rewrite List.filter_app, fmap_app. Qed.

Lemma sends_of_self i l : sends_of i (pair i <$> l) = l.
Proof. unfold sends_of. induction l as [|x l IH]; cbn; [done|]. rewrite Z.eqb_refl. cbn. by f_equal. Qed.

Lemma sends_of_other i j l : j <> i -> sends_of i (pair j <$> l) = [].
Proof.
  intros Hn. unfold sends_of. induction l as [|x l IH]; cbn; [done|]. by destruct (Z.eqb_spec j i).
Qed.

Lemma size_small mt : Z.of_nat (length (timers mt)) < 2 ^ 31 -> size mt = Z.of_nat (length (timers mt)).
Proof. intros Hl. apply swrap_id; [lia|]. unfold in_signed. cbn. lia. Qed.

(** A change at another index is not seen at this one. *)
Lemma at_other {A} (f : A -> A) (i j : Z) (l : list A) :
  0 <= i -> 0 <= j -> j <> i -> at_index f j l !! Z.to_nat i = l !! Z.to_nat i.
Proof. intros Hi Hj Hn. apply list_lookup_alter_ne. lia. Qed.

Lemma valid_nonneg j mt : valid_index j mt = true -> 0 <= j.
Proof. unfold valid_index. intros. breflect. lia. Qed.

(** The callback of another index. *)
Lemma callback_other now i j ec b t mt :
  holds i b t mt -> j <> i -> holds i b t (snd (processTimerCallback now j ec mt)).
Proof.
  intros (Hi & Hr & Hb & Ht) Hn. split; [by apply callback_inv|].
  destruct ec; [done|]. unfold processTimerCallback, sendMessage. destruct (valid_index j mt) eqn:Ev; [|done].
  pose proof (valid_nonneg j mt Ev). repeat case_match; try done.
  split; [done|]. split; [|done]. cbn. by rewrite at_other by lia.
Qed.

(** What is sent by an event of which the timer takes no notice. *)
Definition unnoticed (i : Z) (b : ActionMessage) (t : Z) (e : event) mt : Prop :=
  holds i b t (snd (occurs e mt)) /\ sends_of i (fst (occurs e mt)) = [].

Lemma owner_unnoticed i b t e mt :
  holds i b t mt -> undisturbed i e ->
  match e with Add _ _ _ _ | Callback _ _ _ => False | _ => True end -> unnoticed i b t e mt.
Proof.
  intros (Hi & Hr & Hb & Ht) Hu He. pose proof (occurs_inv e mt Hi) as Hinv.
  destruct e; cbn [undisturbed] in *; try done; (split; [split; [exact Hinv|]|reflexivity]); clear Hinv.
  all: cbn [occurs snd]; unfold cancelTimer, updateTimer_message, addTimeToTimer, updateTimer, updateMessage.
  all: destruct (valid_index index mt) eqn:Ev; [|done]; pose proof (valid_nonneg _ _ Ev).
  all: repeat case_match; try done; cbn; rewrite ?at_other by lia.
  all: unfold at_index; rewrite ?length_alter; try done; rewrite ?Hb, ?Ht; done.
Qed.

Lemma push_timer_holds i b t t' mess mt : holds i b t mt -> holds i b t (push_timer t' mess mt).
Proof.
  intros (Hi & Hr & Hb & Ht). split; [by apply push_timer_inv|]. cbn. rewrite length_app. cbn.
  split; [lia|]. split; by apply lookup_app_l_Some.
Qed.

Lemma add_unnoticed i b t now now_cb t' mess mt :
  holds i b t mt -> Z.of_nat (length (timers mt)) < 2 ^ 31 -> unnoticed i b t (Add now now_cb t' mess) mt.
Proof.
  intros Hh Hs. pose proof (push_timer_holds i b t t' mess mt Hh) as Hp. destruct Hh as (Hi & Hr & Hb & Ht).
  pose proof (occurs_inv (Add now now_cb t' mess) mt Hi) as Hinv.
  unfold unnoticed. cbn [occurs] in *. unfold addTimer in *. rewrite (size_small mt Hs) in *.
  assert (Z.of_nat (length (timers mt)) <> i) as Hne by lia. case_if.
  - split; [|done]. split; [exact Hinv|]. destruct Hp as (_ & Hr' & Hb' & Ht'). split; [|done].
    cbn [snd]. cbn. rewrite length_alter. exact Hr'.
  - pose proof (callback_other now_cb i _ other_code b t _ Hp Hne) as Hc.
    destruct (processTimerCallback _ _ _ _) as [sent mt']. split; [exact Hc|]. by apply sends_of_other.
Qed.

(** One event: what the timer sends, and what it holds then. *)
Lemma occurs_holds i b t e mt :
  holds i b t mt -> undisturbed i e -> Z.of_nat (length (timers mt)) < 2 ^ 31 ->
  if due i t e && bool_decide (messageAction b <> cmd_ignore)
  then sends_of i (fst (occurs e mt)) = [copy_construct b] /\
       exists b', messageAction b' = cmd_ignore /\ holds i b' t (snd (occurs e mt))
  else unnoticed i b t e mt.
Proof.
  intros Hh Hu Hs. destruct e; cbn [due andb].
  2-7: by apply owner_unnoticed.
  - by apply add_unnoticed.
  - destruct ec; [by split|]. destruct (Z.eqb_spec index i) as [->|Hn]; cbn [andb].
    + pose proof Hh as (Hi & Hr & Hb & Ht).
      assert (valid_index i mt = true) as Ev by (unfold valid_index; rewrite size_small; lia).
      unfold unnoticed. cbn [occurs]. unfold processTimerCallback, sendMessage. rewrite Ev, Ht, Hb.
      destruct (t <=? now) eqn:Etn; cbn [andb]; [|by split]. case_bool_decide; [|by split]. cbn [fst snd].
      rewrite (sends_of_self i [copy_construct b]). split; [done|]. exists (setAction cmd_ignore (moved_from b)). split; [done|].
      split; [destruct Hi as [H1 H2]; split; [exact H1|cbn; unfold at_index; by rewrite length_alter]|].
      cbn. split; [done|]. split; [|done]. unfold at_index. by rewrite list_lookup_alter_eq, Hb.
    + pose proof (callback_other now i index other_code b t mt Hh Hn) as Hc. unfold unnoticed. cbn [occurs].
      destruct (processTimerCallback _ _ _ _). split; [exact Hc|]. by apply sends_of_other.
Qed.

(** The number of timers grows by one at most. *)
Lemma occurs_length e mt :
  Z.of_nat (length (timers (snd (occurs e mt)))) <= Z.of_nat (length (timers mt)) + 1.
Proof.
  assert (forall now i ec mt, length (timers (snd (processTimerCallback now i ec mt))) = length (timers mt)) as Hc.
  { intros now i ec mt'. unfold processTimerCallback, sendMessage. repeat case_match; done. }
  destruct e; cbn [occurs snd]; unfold addTimer, cancelTimer, updateTimer_message, addTimeToTimer, updateTimer,
    updateMessage, set_time.
  1: case_if; [cbn; rewrite length_alter, length_app; cbn; lia|].
  1: specialize (Hc now_cb (size mt) other_code (push_timer expirationTime mess mt)).
  8: specialize (Hc now index ec mt).
  1,8: destruct (processTimerCallback _ _ _ _); cbn in *; rewrite Hc, ?length_app; cbn; lia.
  all: repeat case_match; cbn; unfold at_index; rewrite ?length_alter, ?length_fmap; lia.
Qed.

(** Every event in turn. *)
Lemma occur_sends i t es : forall b mt,
  holds i b t mt -> Forall (undisturbed i) es -> Z.of_nat (length (timers mt)) + Z.of_nat (length es) < 2 ^ 31 ->
  sends_of i (fst (occur es mt)) =
    if existsb (due i t) es && bool_decide (messageAction b <> cmd_ignore) then [copy_construct b] else [].
Proof.
  induction es as [|e es IH]; intros b mt Hh Hall Hs; [done|]. cbn [length] in Hs.
  apply Forall_cons in Hall as [Hu Hall]. cbn [occur existsb].
  pose proof (occurs_holds i b t e mt Hh Hu ltac:(lia)) as Ho. pose proof (occurs_length e mt) as Hl.
  unfold unnoticed in Ho. destruct (occurs e mt) as [sent mt1]. cbn [fst snd] in *.
  destruct (occur es mt1) as [sent' mt2] eqn:E. cbn [fst]. rewrite sends_of_app.
  change sent' with (fst (sent', mt2)). rewrite <- E.
  destruct (due i t e && bool_decide _) eqn:Ed.
  - apply andb_prop in Ed as [-> ->]. destruct Ho as (-> & b' & Hb' & Hh').
    rewrite (IH b' mt1 Hh' Hall ltac:(lia)), Hb'. cbn. by rewrite andb_false_r.
  - destruct Ho as (Hh' & ->). rewrite (IH b mt1 Hh' Hall ltac:(lia)). cbn [app].
    destruct (due i t e); [|done]. cbn [andb] in Ed. by rewrite Ed, !andb_false_r.
Qed.
End Facts.
End TimerFacts.

Section Claims.
Import Timer TimerFacts.
Context `{SteadyTimers}.

(** C30: A timer sends its message once.  After a timer was given a message and
    a time, and as long as it is not given others, callbacks may come at any
    time, any number of times, with any error code, and other timers may be
    added, changed or cancelled: the message is sent exactly once if some
    callback comes when the time is reached and is not an abort, and not at all
    otherwise.  A timer that was cancelled sends nothing, even if its callback
    was already under way. *)
Theorem timer_sends_once (mt : MessageTimer) (i t : Z) (mess : ActionMessage) (es : list event) :
  timer_inv mt -> 0 <= i < Z.of_nat (length (timers mt)) -> messageAction mess <> cmd_ignore ->
  Forall (undisturbed i) es -> Z.of_nat (length (timers mt)) + Z.of_nat (length es) < 2 ^ 31 ->
  sends_of i (fst (occur es (updateTimer_message i t mess mt))) =
    (if existsb (due i t) es then [copy_construct mess] else []) /\
  sends_of i (fst (occur es (cancelTimer i mt))) = [].
Proof.
  intros Hi Hr Hm Hall Hs. pose proof Hi as [Ht Hb].
  destruct (lookup_lt_is_Some_2 (buffers mt) (Z.to_nat i)) as [b Eb]; [lia|].
  destruct (lookup_lt_is_Some_2 (expirationTimes mt) (Z.to_nat i)) as [t0 Et].
  { rewrite <- Ht, length_fmap. lia. }
  assert (valid_index i mt = true) as Ev by (unfold valid_index; rewrite size_small; lia).
  split.
  - rewrite (occur_sends i t es (copy_assign b mess)).
    + by rewrite bool_decide_true, andb_true_r by done.
    + split; [exact (occurs_inv (UpdateBoth i t mess) mt Hi)|]. unfold updateTimer_message. rewrite Ev. cbn.
      unfold at_index. rewrite !length_alter, !list_lookup_alter_eq, Eb, Et. done.
    + done.
    + unfold updateTimer_message. rewrite Ev. cbn. unfold at_index. by rewrite !length_alter.
  - rewrite (occur_sends i t0 es (setAction cmd_ignore b)).
    + cbn. by rewrite andb_false_r.
    + split; [exact (occurs_inv (Cancel i) mt Hi)|]. unfold cancelTimer. rewrite Ev. cbn.
      unfold at_index. rewrite !length_alter, !list_lookup_alter_eq, Eb, Et. done.
    + done.
    + unfold cancelTimer. rewrite Ev. cbn. unfold at_index. by rewrite !length_alter.
Qed.
End Claims.

(** A timer as its expiry and the number of waits. *)
Definition counted_timers : SteadyTimers := {|
  steady_timer := Z * nat; make_timer := (0, 0%nat); expires_at := fst;
  set_expires_at t _ := (t, 0%nat); async_wait x := (fst x, S (snd x)); cancel x := (fst x, 0%nat);
  expires_at_set _ _ := eq_refl; expires_at_wait _ := eq_refl; expires_at_cancel _ := eq_refl;
|}.

Section Example_.
Import Timer TimerFacts.
#[local] Existing Instance counted_timers.

Lemma timer_sends_once_witness :
  let mt := snd (addTimer 0 0 50 (newMessage cmd_tick) new_timer) in
  sends_of 0 (fst (occur [Callback 90 0 other_code; Callback 120 0 other_code; Callback 130 0 other_code]
    (updateTimer_message 0 100 (newMessage cmd_force_time_grant) mt))) = [newMessage cmd_force_time_grant].
Proof.
  refine (proj1 (timer_sends_once (snd (addTimer 0 0 50 (newMessage cmd_tick) new_timer)) 0 100
    (newMessage cmd_force_time_grant) [Callback 90 0 other_code; Callback 120 0 other_code; Callback 130 0 other_code]
    _ _ _ _ _)).
  - exact (occurs_inv (Add 0 0 50 (newMessage cmd_tick)) new_timer new_timer_inv).
  - split; reflexivity || discriminate.
  - discriminate.
  - repeat constructor.
  - reflexivity.
Defined.
End Example_.
