(* ===== verification/FederateState.v ===== *)
(** * A federate

    Models [src/helics/core/FederateState.hpp] and [FederateState.cpp]: the
    state of one federate over its time coordinator and its interfaces, and the
    processing of the commands it receives.  [queue.pop ()] waits for the next
    command, so the commands that arrive are an argument of [processQueue].
    What the federate hands to its core is appended to [routed], what the
    coordinator sends to the [sent] of the coordinator, and what goes back to
    the federate's own queue to [pushed].  The flag [processing], a lock, is
    free when an operation begins.  Log output is left out. *)

From stdpp Require Import pretty.
From S2P Require Import Prelude HTime Identifiers CoreData ActionMessage CoreTypes.
From S2P Require Import TimeDependencies TimeCoordinator NamedInputInfo EndpointInfo InterfaceInfo HandleManager.
Import Interfaces (InterfaceInfo) Kind (handle_type).

Definition startupTime : Time := T.minVal.
Definition initialTime : Time := T.of_double (Double.of_Z (-1000000)).

Module Fed.
Section Federate.
Context `{Platform} {C : Type -> Type} `{DualMapped C} (fmt_format : string -> list string -> string).

(** ** State *)

Record FederateState := mkFederate {
  name : string;
  timeCoord : TimeCoordinator;
  local_id : local_federate_id;
  global_id : global_federate_id;
  state : federate_state;
  only_transmit_on_change : bool;
  realtime : bool;
  observer : bool;
  source_only : bool;
  ignore_time_mismatch_warnings : bool;
  strict_input_type_checking : bool;
  interfaceInformation : InterfaceInfo C;
  errorCode : Z;
  has_parent : bool;
  errorString : string;
  rt_lag : Time;
  rt_lead : Time;
  iterating : bool;
  timeGranted_mode : bool;
  logLevel : Z;
  interfaceFlags : Z;
  delayQueues : list (global_federate_id * list ActionMessage);
  events : list interface_handle;
  delayedFederates : list global_federate_id;
  time_granted : Time;
  allowed_send_time : Time;
  routed : list ActionMessage;
  pushed : list ActionMessage;
}.

#[global] Instance FederateState_settable : Settable FederateState := fun r =>
  mkFederate (name r) (timeCoord r) (local_id r) (global_id r) (state r) (only_transmit_on_change r)
    (realtime r) (observer r) (source_only r) (ignore_time_mismatch_warnings r)
    (strict_input_type_checking r) (interfaceInformation r) (errorCode r) (has_parent r)
    (errorString r) (rt_lag r) (rt_lead r) (iterating r) (timeGranted_mode r) (logLevel r)
    (interfaceFlags r) (delayQueues r) (events r) (delayedFederates r) (time_granted r)
    (allowed_send_time r) (routed r) (pushed r).

Definition new_federate (name_ : string) : FederateState := {|
  name := name_; timeCoord := new_coordinator; local_id := LocalFedId.invalid;
  global_id := GlobalFedId.invalid; state := HELICS_CREATED; only_transmit_on_change := false;
  realtime := false; observer := false; source_only := false;
  ignore_time_mismatch_warnings := false; strict_input_type_checking := false;
  interfaceInformation := Interfaces.new_interfaces; errorCode := 0; has_parent := false;
  errorString := ""; rt_lag := T.timeZero; rt_lead := T.timeZero; iterating := false;
  timeGranted_mode := false; logLevel := 1; interfaceFlags := 0; delayQueues := []; events := [];
  delayedFederates := []; time_granted := startupTime; allowed_send_time := startupTime;
  routed := []; pushed := [];
|}.

(** The transitions that are allowed. *)
Definition setState (newState : federate_state) (fs : FederateState) : FederateState :=
  if bool_decide (state fs = newState) then fs
  else match newState with
       | HELICS_ERROR | HELICS_FINISHED | HELICS_CREATED | HELICS_TERMINATING => fs <| state := newState |>
       | HELICS_INITIALIZING =>
           if bool_decide (state fs = HELICS_CREATED) then fs <| state := newState |> else fs
       | HELICS_EXECUTING =>
           if bool_decide (state fs = HELICS_INITIALIZING) then fs <| state := newState |> else fs
       | HELICS_UNKNOWN => fs
       end.

Definition routeMessage (msg : ActionMessage) (fs : FederateState) : FederateState :=
  if has_parent fs then fs <| routed ::= fun l => l ++ [msg] |> else fs <| pushed ::= fun l => l ++ [msg] |>.

Definition addAction (action : ActionMessage) (fs : FederateState) : FederateState :=
  if bool_decide (messageAction action <> cmd_ignore) then fs <| pushed ::= fun l => l ++ [action] |> else fs.

(** ** Configuration *)

Definition setTimeProperty (timeProperty : Z) (propertyVal : Time) (fs : FederateState) : FederateState :=
  if timeProperty =? Prop_.rt_lag then fs <| rt_lag := propertyVal |>
  else if timeProperty =? Prop_.rt_lead then fs <| rt_lead := propertyVal |>
  else if timeProperty =? Prop_.rt_tolerance then fs <| rt_lag := propertyVal |> <| rt_lead := propertyVal |>
  else fs <| timeCoord ::= TimeCoordinator.setTimeProperty timeProperty propertyVal |>.

Definition setIntProperty (intProperty propertyVal : Z) (fs : FederateState) : FederateState :=
  if intProperty =? Prop_.log_level then fs <| logLevel := propertyVal |>
  else if intProperty =? Prop_.rt_lag then fs <| rt_lag := T.of_double (Double.of_Z propertyVal) |>
  else if intProperty =? Prop_.rt_lead then fs <| rt_lead := T.of_double (Double.of_Z propertyVal) |>
  else if intProperty =? Prop_.rt_tolerance then
    let fs := fs <| rt_lag := T.of_double (Double.of_Z propertyVal) |> in fs <| rt_lead := rt_lag fs |>
  else fs <| timeCoord ::= setIntProperty intProperty propertyVal |>.

(** the position of a state in the enumeration *)
Definition state_code (s : federate_state) : Z :=
  match s with
  | HELICS_CREATED => 0 | HELICS_INITIALIZING => 1 | HELICS_EXECUTING => 2
  | HELICS_TERMINATING => 3 | HELICS_ERROR => 4 | HELICS_FINISHED => 5 | HELICS_UNKNOWN => 6
  end.

(** [defs::flags] that alias options of interfaces *)
Definition flag_connections_required : Z := Opt.connection_required.
Definition flag_connections_optional : Z := Opt.connection_optional.
Definition flag_strict_input_type_checking : Z := Opt.strict_type_checking.

Definition setOptionFlag (optionFlag : Z) (value : bool) (fs : FederateState) : FederateState :=
  if optionFlag =? Flag.only_transmit_on_change then fs <| only_transmit_on_change := value |>
  else if optionFlag =? Flag.only_update_on_change
  then fs <| interfaceInformation ::= Interfaces.setChangeUpdateFlag value |>
  else if optionFlag =? flag_strict_input_type_checking then fs <| strict_input_type_checking := value |>
  else if optionFlag =? Flag.realtime then
    if value then if state_code (state fs) <? state_code HELICS_EXECUTING then fs <| realtime := true |> else fs
    else fs <| realtime := false |>
  else if optionFlag =? Flag.source_only then
    if bool_decide (state fs = HELICS_CREATED) then
      let fs := fs <| source_only := value |> in if value then fs <| observer := false |> else fs
    else fs
  else if optionFlag =? Flag.observer then
    if bool_decide (state fs = HELICS_CREATED) then
      let fs := fs <| observer := value |> in if value then fs <| source_only := false |> else fs
    else fs
  else if optionFlag =? Flag.ignore_time_mismatch_warnings then fs <| ignore_time_mismatch_warnings := value |>
  else if optionFlag =? Opt.buffer_data then fs
  else if optionFlag =? flag_connections_required then
    if value then fs <| interfaceFlags ::= fun f => Z.lor f (make_flags required_flag) |>
    else fs <| interfaceFlags ::= fun f => uint16 (Z.land f (Z.lnot (make_flags required_flag))) |>
  else if optionFlag =? flag_connections_optional then
    if value then fs <| interfaceFlags ::= fun f => Z.lor f (make_flags optional_flag) |>
    else fs <| interfaceFlags ::= fun f => uint16 (Z.land f (Z.lnot (make_flags optional_flag))) |>
  else fs <| timeCoord ::= TimeCoordinator.setOptionFlag optionFlag value |>.

(** The constructor, from the properties of a [CoreFederateInfo]. *)
Definition make_federate (name_ : string) (timeProps : list (Z * Time)) (intProps : list (Z * Z))
    (flagProps : list (Z * bool)) : FederateState :=
  let fs := fold_left (fun fs p => setTimeProperty (fst p) (snd p) fs) timeProps (new_federate name_) in
  let fs := fold_left (fun fs p => setIntProperty (fst p) (snd p) fs) intProps fs in
  fold_left (fun fs p => setOptionFlag (fst p) (snd p) fs) flagProps fs.

(** A setter of an interface, with the flag that it was used. *)
Definition with_interfaces (f : InterfaceInfo C -> bool * InterfaceInfo C) (fs : FederateState) : FederateState :=
  fs <| interfaceInformation ::= fun ii => snd (f ii) |>.

(** the character in the low byte of the counter; an endpoint takes the setter
    of inputs *)
Definition setInterfaceProperty (cmd : ActionMessage) (fs : FederateState) : FederateState :=
  if bool_decide (messageAction cmd <> cmd_interface_configure) then fs
  else
    let value := checkActionFlag cmd indicator_flag in
    let c := uint8 (counter cmd) in
    if c =? 105 then with_interfaces (Interfaces.setInputProperty (dest_handle cmd) (messageID cmd) value) fs
    else if c =? 112
    then with_interfaces (Interfaces.setPublicationProperty (dest_handle cmd) (messageID cmd) value) fs
    else if c =? 101
    then with_interfaces (Interfaces.setInputProperty (dest_handle cmd) (messageID cmd) value) fs
    else fs.

Definition checkInterfaces (fs : FederateState) : Z * FederateState :=
  match Interfaces.checkInterfacesForIssues fmt_format (interfaceInformation fs) with
  | [] => (0, fs)
  | i :: _ => let fs := fs <| errorCode := fst i |> <| errorString := snd i |> in (errorCode fs, fs)
  end.

(** ** Interfaces *)

Definition getInput (h : interface_handle) (fs : FederateState) : option NamedInputInfo :=
  Interfaces.getInput h (interfaceInformation fs).

(** Assigning to the object that a search for the handle gave. *)
Definition put_input (h : interface_handle) (ipt : NamedInputInfo) (fs : FederateState) : FederateState :=
  fs <| interfaceInformation ::= fun ii => ii <| Interfaces.inputs ::= dm_modify h (fun _ => ipt) |> |>.
Definition put_publication (h : interface_handle) (pub : Publication.PublicationInfo) (fs : FederateState)
    : FederateState :=
  fs <| interfaceInformation ::= fun ii => ii <| Interfaces.publications ::= dm_modify h (fun _ => pub) |> |>.
Definition put_endpoint (h : interface_handle) (ep : Endpoint.EndpointInfo) (fs : FederateState)
    : FederateState :=
  fs <| interfaceInformation ::= fun ii => ii <| Interfaces.endpoints ::= dm_modify h (fun _ => ep) |> |>.

Definition createInterface (htype : handle_type) (handle : interface_handle) (key type units : string)
    (fs : FederateState) : FederateState :=
  let flagged f o set fs := if check_flag (interfaceFlags fs) f then with_interfaces (set handle o true) fs else fs in
  match htype with
  | Kind.publication =>
      let fs := fs <| interfaceInformation ::= Interfaces.createPublication handle key type units |> in
      let fs := flagged required_flag Opt.connection_required Interfaces.setPublicationProperty fs in
      flagged optional_flag Opt.connection_optional Interfaces.setPublicationProperty fs
  | Kind.input =>
      let fs := fs <| interfaceInformation ::= Interfaces.createInput handle key type units |> in
      let fs := if strict_input_type_checking fs
                then with_interfaces (Interfaces.setInputProperty handle Opt.strict_type_checking true) fs
                else fs in
      let fs := flagged required_flag Opt.connection_required Interfaces.setInputProperty fs in
      flagged optional_flag Opt.connection_optional Interfaces.setInputProperty fs
  | Kind.endpoint => fs <| interfaceInformation ::= Interfaces.createEndpoint handle key type |>
  | _ => fs
  end.

(** [static_cast<handle_type>] of the counter *)
Definition handle_type_of (c : Z) : handle_type :=
  let c := uint8 c in
  if c =? 112 then Kind.publication else if c =? 105 then Kind.input
  else if c =? 101 then Kind.endpoint else if c =? 102 then Kind.filter else Kind.unknown.

(** One message to each of the targets. *)
Definition tell_all (rem : ActionMessage) (targets : list global_handle) (fs : FederateState) : FederateState :=
  fold_left (fun fs target => routeMessage (setDestination target rem) fs) targets fs.

Definition closeInterface (handle : interface_handle) (type : handle_type) (fs : FederateState)
    : FederateState :=
  match type with
  | Kind.publication =>
      match Interfaces.getPublication handle (interfaceInformation fs) with
      | None => fs
      | Some pub =>
          let rem := setSource (Publication.id pub) (newMessage cmd_remove_publication)
                       <| actionTime := time_granted fs |> in
          put_publication handle (pub <| Publication.subscribers := [] |>)
            (tell_all rem (Publication.subscribers pub) fs)
      end
  | Kind.endpoint =>
      match Interfaces.getEndpoint handle (interfaceInformation fs) with
      | None => fs
      | Some ept => put_endpoint handle (Endpoint.clearQueue ept) fs
      end
  | Kind.input =>
      match getInput handle fs with
      | None => fs
      | Some ipt =>
          let rem := setSource (NamedInputInfo.id ipt) (newMessage cmd_remove_subscriber)
                       <| actionTime := time_granted fs |> in
          put_input handle (clearFutureData (ipt <| input_sources := [] |>))
            (tell_all rem (input_sources ipt) fs)
      end
  | _ => fs
  end.

Definition nextValueTime (fs : FederateState) : Time :=
  fold_left (fun first inp => let nvt := NamedInputInfo.nextValueTime inp in
                              if (time_granted fs <=? nvt) && (nvt <? first) then nvt else first)
    (dm_elements (Interfaces.inputs (interfaceInformation fs))) T.maxVal.

Definition nextMessageTime (fs : FederateState) : Time :=
  fold_left (fun first ep => let t := Endpoint.firstMessageTime ep in
                             if (time_granted fs <=? t) && (t <? first) then t else first)
    (dm_elements (Interfaces.endpoints (interfaceInformation fs))) T.maxVal.

(** The inputs moved to a time, with those that changed in [events]. *)
Definition fill_events (move : NamedInputInfo -> bool * NamedInputInfo) (fs : FederateState) : FederateState :=
  let ipts := dm_elements (Interfaces.inputs (interfaceInformation fs)) in
  fs <| events := (fun ipt => Identifiers.handle (NamedInputInfo.id ipt)) <$>
                    List.filter (fun ipt => fst (move ipt)) ipts |>
     <| interfaceInformation ::= fun ii => ii <| Interfaces.inputs ::= dm_modify_all (fun ipt => snd (move ipt)) |> |>.

Definition fillEventVectorUpTo (currentTime : Time) : FederateState -> FederateState :=
  fill_events (updateTimeUpTo currentTime).
Definition fillEventVectorInclusive (currentTime : Time) : FederateState -> FederateState :=
  fill_events (updateTimeInclusive currentTime).
Definition fillEventVectorNextIteration (currentTime : Time) : FederateState -> FederateState :=
  fill_events (updateTimeNextIteration currentTime).

(** ** Delayed commands *)

Definition addFederateToDelay (fed : global_federate_id) (fs : FederateState) : FederateState :=
  let push fs := fs <| delayedFederates ::= fun l => l ++ [fed] |> in
  if match last (delayedFederates fs) with None => true | Some b => b <? fed end then push fs
  else
    let pos := lower_bound Datatypes.id (delayedFederates fs) fed in
    match delayedFederates fs !! pos with
    | None => push fs
    | Some res => if negb (res =? fed) then fs <| delayedFederates ::= insert_at pos fed |> else fs
    end.

Definition messageShouldBeDelayed (cmd : ActionMessage) (fs : FederateState) : bool :=
  match delayedFederates fs with
  | [] => false
  | [f] => ActionMessage.source_id cmd =? f
  | [f; g] => (ActionMessage.source_id cmd =? f) || (ActionMessage.source_id cmd =? g)
  | feds =>
      match feds !! lower_bound Datatypes.id feds (ActionMessage.source_id cmd) with
      | None => false
      | Some res => res =? ActionMessage.source_id cmd
      end
  end.

(** [delayQueues[fed].push_back (cmd)] on a [std::map], sorted by the key *)
Fixpoint push_delayed (fed : global_federate_id) (cmd : ActionMessage)
    (m : list (global_federate_id * list ActionMessage)) : list (global_federate_id * list ActionMessage) :=
  match m with
  | [] => [(fed, [cmd])]
  | (f, q) :: m' =>
      if f =? fed then (f, q ++ [cmd]) :: m'
      else if fed <? f then (fed, [cmd]) :: m else (f, q) :: push_delayed fed cmd m'
  end.

Definition delay_queue (fed : global_federate_id) (fs : FederateState) : list ActionMessage :=
  default [] (snd <$> List.find (fun e => fst e =? fed) (delayQueues fs)).

Definition pop_delayed (fed : global_federate_id) (fs : FederateState) : FederateState :=
  fs <| delayQueues ::= fmap (fun e => if fst e =? fed then (fst e, tail (snd e)) else e) |>.

(** The commands of one queue, until one is delayed or ends the processing.
    A command is removed after it is processed. *)
Fixpoint drain (process : ActionMessage -> FederateState -> option (MPR.message_processing_result * FederateState))
    (fuel : nat) (fed : global_federate_id) (fs : FederateState)
    : option (MPR.message_processing_result * FederateState) :=
  match fuel with
  | O => None
  | S fuel =>
      match delay_queue fed fs with
      | [] => Some (MPR.continue_processing, fs)
      | cmd :: _ =>
          if messageShouldBeDelayed cmd fs then Some (MPR.delay_message, fs)
          else
            '(ret, fs) ← process cmd fs;
            match ret with
            | MPR.delay_message => Some (ret, fs)
            | MPR.continue_processing => drain process fuel fed (pop_delayed fed fs)
            | _ => Some (ret, pop_delayed fed fs)
            end
      end
  end.

Fixpoint drain_all (process : ActionMessage -> FederateState -> option (MPR.message_processing_result * FederateState))
    (feds : list global_federate_id) (ret : MPR.message_processing_result) (fs : FederateState)
    : option (MPR.message_processing_result * FederateState) :=
  match feds with
  | [] => Some (ret, fs)
  | fed :: feds =>
      '(ret, fs) ← drain process (S (length (delay_queue fed fs))) fed fs;
      if MPR.returnableResult ret then Some (ret, fs) else drain_all process feds ret fs
  end.

Definition processDelayQueue
    (process : ActionMessage -> FederateState -> option (MPR.message_processing_result * FederateState))
    (fs : FederateState) : option (MPR.message_processing_result * FederateState) :=
  let fs := fs <| delayedFederates := [] |> in
  drain_all process (fst <$> delayQueues fs) MPR.continue_processing fs.

(** ** Commands *)

Abbreviation result := (MPR.message_processing_result * FederateState)%type.

Definition carry_on (fs : FederateState) : result := (MPR.continue_processing, fs).

(** the granted times as the coordinator has them *)
Definition update_granted (fs : FederateState) : FederateState :=
  fs <| time_granted := getGrantedTime (timeCoord fs) |>
     <| allowed_send_time := allowedSendTime (timeCoord fs) |>.

(** [CMD_EXEC_CHECK] *)
Definition exec_check (fs : FederateState) : result :=
  if bool_decide (state fs <> HELICS_INITIALIZING) then carry_on fs
  else if timeGranted_mode fs then carry_on fs
  else
    let '(grant, tc) := checkExecEntry (timeCoord fs) in
    let fs := fs <| timeCoord := tc |> in
    match grant with
    | MPR.next_step => (grant, setState HELICS_EXECUTING fs <| timeGranted_mode := true |>)
    | MPR.continue_processing => carry_on fs
    | _ => (grant, fs <| timeGranted_mode := true |>)
    end.

(** [CMD_TIME_CHECK], and the end of the commands that disconnect *)
Definition time_check (fs : FederateState) : result :=
  if bool_decide (state fs <> HELICS_EXECUTING) then carry_on fs
  else if timeGranted_mode fs then carry_on fs
  else
    let '(ret, tc) := checkTimeGrant (timeCoord fs) in
    let fs := fs <| timeCoord := tc |> in
    if MPR.returnableResult ret then (ret, update_granted fs <| timeGranted_mode := true |>)
    else carry_on fs.

(** The [switch] on [processTimeMessage], with what follows it. *)
Definition timing (cmd : ActionMessage) (follow : FederateState -> result) (fs : FederateState) : result :=
  let '(res, tc) := processTimeMessage cmd (timeCoord fs) in
  let fs := fs <| timeCoord := tc |> in
  match res with
  | delay_processing => (MPR.delay_message, addFederateToDelay (ActionMessage.source_id cmd) fs)
  | no_effect => carry_on fs
  | processed => follow fs
  end.

Definition requested_iteration (cmd : ActionMessage) : iteration_request :=
  if checkActionFlag cmd iteration_requested_flag
  then if checkActionFlag cmd required_flag then force_iteration else iterate_if_needed
  else no_iterations.

(** A request of the federate itself: the delayed commands are taken first. *)
Definition after_delayed (delayed : FederateState -> option result) (check : FederateState -> result)
    (fs : FederateState) : option result :=
  '(ret, fs) ← delayed fs;
  if MPR.returnableResult ret then Some (ret, fs) else Some (check fs).

Definition own_request (cmd : ActionMessage) (fs : FederateState) : bool :=
  (ActionMessage.source_id cmd =? global_id fs) && (dest_id cmd =? parent_broker_id).

Definition init_grant (fs : FederateState) : result :=
  if bool_decide (state fs = HELICS_CREATED) then
    let fs := setState HELICS_INITIALIZING fs <| timeGranted_mode := true |> in
    let '(pcode, fs) := checkInterfaces fs in
    (if negb (pcode =? 0) then MPR.error else MPR.next_step, fs)
  else carry_on fs.

(** A block, or the end of one. *)
Definition time_block_command (cmd : ActionMessage) (fs : FederateState) : result :=
  let '(res, tc) := processTimeMessage cmd (timeCoord fs) in
  let fs := fs <| timeCoord := tc |> in
  match res with
  | processed =>
      if negb (timeGranted_mode fs) then
        if bool_decide (state fs = HELICS_INITIALIZING) then exec_check fs
        else if bool_decide (state fs = HELICS_EXECUTING) then time_check fs else carry_on fs
      else carry_on fs
  | _ => carry_on fs
  end.

(** [state] is neither [HELICS_FINISHED] nor [HELICS_TERMINATING] *)
Definition connected (fs : FederateState) : bool :=
  bool_decide (state fs <> HELICS_FINISHED) && bool_decide (state fs <> HELICS_TERMINATING).

Definition disconnect_own (cmd : ActionMessage) (fs : FederateState) : result :=
  if connected fs then
    let fs := fs <| timeCoord ::= disconnect |> in
    let fs := setState HELICS_TERMINATING fs in
    carry_on (if has_parent fs
              then fs <| routed ::= fun l => l ++ [cmd <| dest_id := parent_broker_id |>] |> else fs)
  else carry_on fs.

Definition disconnect_ack (cmd : ActionMessage) (fs : FederateState) : result :=
  if (dest_id cmd =? global_id fs) && (ActionMessage.source_id cmd =? parent_broker_id) then
    let fs := if connected fs then fs <| timeCoord ::= disconnect |> else fs in
    (MPR.halted, setState HELICS_FINISHED fs)
  else carry_on fs.

Definition force_time_grant (cmd : ActionMessage) (fs : FederateState) : result :=
  if actionTime cmd <? time_granted fs then carry_on fs
  else
    let fs := fs <| timeCoord ::= fun tc => snd (processTimeMessage cmd tc) |> in
    (MPR.next_step, update_granted fs <| timeGranted_mode := true |>).

Definition receive_message (cmd : ActionMessage) (fs : FederateState) : result :=
  match Interfaces.getEndpoint (dest_handle cmd) (interfaceInformation fs) with
  | None => carry_on fs
  | Some epi =>
      let fs := fs <| timeCoord ::= updateMessageTime (actionTime cmd) |> in
      carry_on (put_endpoint (dest_handle cmd) (Endpoint.addMessage (createMessageFromCommand cmd) epi) fs)
  end.

(** One source of the input.  The payload is moved into the first record: a
    string that was moved from is empty. *)
Definition receive_from (cmd : ActionMessage) (acc : string * NamedInputInfo * TimeCoordinator)
    (src : global_handle) : string * NamedInputInfo * TimeCoordinator :=
  let '(payload, subI, tc) := acc in
  if (ActionMessage.source_id cmd =? fed_id src) && (source_handle cmd =? Identifiers.handle src) then
    let subI := addData src (actionTime cmd) (counter cmd) (Some payload) subI in
    (""%string, subI, if negb (not_interruptible subI) then updateValueTime (actionTime cmd) tc else tc)
  else acc.

Definition receive_value (cmd : ActionMessage) (fs : FederateState) : result :=
  match getInput (dest_handle cmd) fs with
  | None => carry_on fs
  | Some subI =>
      let '(_, subI', tc) := fold_left (receive_from cmd) (input_sources subI)
                               (payload cmd, subI, timeCoord fs) in
      carry_on (put_input (dest_handle cmd) subI' (fs <| timeCoord := tc |>))
  end.

Definition error_command (cmd : ActionMessage) (fs : FederateState) : result :=
  let fs := setState HELICS_ERROR fs in
  let text := if bool_decide (payload cmd = "")
              then let s := commandErrorString (messageID cmd) in
                   if bool_decide (s = "unknown") then s +:+ " code:" +:+ pretty (messageID cmd) else s
              else payload cmd in
  (MPR.error, fs <| errorString := text |> <| errorCode := messageID cmd |>).

Definition add_publisher (cmd : ActionMessage) (fs : FederateState) : result :=
  match getInput (dest_handle cmd) fs with
  | None => carry_on fs
  | Some subI =>
      let subI := addSource (getSource cmd) (getString 0 cmd) (getString 1 cmd) subI in
      let subI := if bool_decide (inputType subI = "") then subI <| inputType := getString 0 cmd |> else subI in
      carry_on (put_input (dest_handle cmd) subI
        (fs <| timeCoord ::= fun tc => snd (addDependency (ActionMessage.source_id cmd) tc) |>))
  end.

Definition add_subscriber (cmd : ActionMessage) (fs : FederateState) : result :=
  match Interfaces.getPublication (dest_handle cmd) (interfaceInformation fs) with
  | None => carry_on fs
  | Some pubI =>
      carry_on (put_publication (dest_handle cmd)
        (pubI <| Publication.subscribers ::= fun l =>
                   l ++ [GlobalHandle (ActionMessage.source_id cmd) (source_handle cmd)] |>)
        (fs <| timeCoord ::= fun tc => snd (addDependent (ActionMessage.source_id cmd) tc) |>))
  end.

Definition remove_publication (cmd : ActionMessage) (fs : FederateState) : result :=
  match getInput (dest_handle cmd) fs with
  | None => carry_on fs
  | Some subI =>
      let t := if negb (actionTime cmd =? T.timeZero) then actionTime cmd else time_granted fs in
      carry_on (put_input (dest_handle cmd) (removeSource (getSource cmd) t subI) fs)
  end.

Definition remove_subscriber (cmd : ActionMessage) (fs : FederateState) : result :=
  match Interfaces.getPublication (dest_handle cmd) (interfaceInformation fs) with
  | None => carry_on fs
  | Some pubI =>
      carry_on (put_publication (dest_handle cmd) (Publication.removeSubscriber (getSource cmd) pubI) fs)
  end.

Definition fed_ack (cmd : ActionMessage) (fs : FederateState) : result :=
  if bool_decide (state fs <> HELICS_CREATED) then carry_on fs
  else if bool_decide (ActionMessage.name cmd = name fs) then
    if checkActionFlag cmd error_flag then
      (MPR.error, setState HELICS_ERROR fs <| errorString := commandErrorString (messageID cmd) |>)
    else
      let fs := fs <| global_id := dest_id cmd |>
                   <| interfaceInformation ::= Interfaces.setGlobalId (dest_id cmd) |> in
      (MPR.next_step, fs <| timeCoord ::= fun tc => tc <| TimeCoordinator.source_id := global_id fs |> |>)
  else carry_on fs.

Definition stop_command (fs : FederateState) : result :=
  (MPR.halted, setState HELICS_FINISHED fs <| timeCoord ::= disconnect |>).

(** The [switch] of [processActionMessage], with the processing of delayed
    commands that it may begin. *)
Definition dispatch (delayed : FederateState -> option result) (cmd : ActionMessage) (fs : FederateState)
    : option result :=
  match messageAction cmd with
  | cmd_time_block | cmd_time_unblock => Some (time_block_command cmd fs)
  | cmd_init_grant => Some (init_grant fs)
  | cmd_exec_request =>
      if own_request cmd fs then
        let fs := fs <| timeCoord ::= enteringExecMode (requested_iteration cmd) |>
                     <| timeGranted_mode := false |> in
        after_delayed delayed exec_check fs
      else Some (timing cmd exec_check fs)
  | cmd_exec_grant => Some (timing cmd exec_check fs)
  | cmd_exec_check => Some (exec_check fs)
  | cmd_terminate_immediately => Some (MPR.halted, setState HELICS_FINISHED fs)
  | cmd_stop => Some (stop_command fs)
  | cmd_disconnect_fed_ack => Some (disconnect_ack cmd fs)
  | cmd_disconnect_fed | cmd_disconnect =>
      if ActionMessage.source_id cmd =? global_id fs then Some (disconnect_own cmd fs)
      else Some (timing cmd time_check fs)
  | cmd_broadcast_disconnect | cmd_disconnect_broker | cmd_disconnect_core =>
      Some (timing cmd time_check fs)
  | cmd_close_interface =>
      Some (carry_on (if ActionMessage.source_id cmd =? global_id fs
                      then closeInterface (source_handle cmd) (handle_type_of (counter cmd)) fs else fs))
  | cmd_time_request =>
      if own_request cmd fs then
        let fs := fs <| timeCoord ::= timeRequest (actionTime cmd) (requested_iteration cmd)
                                        (nextValueTime fs) (nextMessageTime fs) |>
                     <| timeGranted_mode := false |> in
        after_delayed delayed time_check fs
      else Some (timing cmd time_check fs)
  | cmd_time_grant => Some (timing cmd time_check fs)
  | cmd_time_check => Some (time_check fs)
  | cmd_force_time_grant => Some (force_time_grant cmd fs)
  | cmd_send_message => Some (receive_message cmd fs)
  | cmd_pub => Some (receive_value cmd fs)
  | cmd_error => Some (error_command cmd fs)
  | cmd_add_publisher => Some (add_publisher cmd fs)
  | cmd_add_subscriber => Some (add_subscriber cmd fs)
  | cmd_add_dependency | cmd_remove_dependency | cmd_add_dependent | cmd_remove_dependent
  | cmd_add_interdependency | cmd_remove_interdependency =>
      Some (carry_on (if dest_id cmd =? global_id fs
                      then fs <| timeCoord ::= processDependencyUpdateMessage cmd |> else fs))
  | cmd_remove_publication => Some (remove_publication cmd fs)
  | cmd_remove_subscriber => Some (remove_subscriber cmd fs)
  | cmd_fed_ack => Some (fed_ack cmd fs)
  | cmd_fed_configure_time => Some (carry_on (setTimeProperty (messageID cmd) (actionTime cmd) fs))
  | cmd_fed_configure_int => Some (carry_on (setIntProperty (messageID cmd) (counter cmd) fs))
  | cmd_fed_configure_flag =>
      Some (carry_on (setOptionFlag (messageID cmd) (checkActionFlag cmd indicator_flag) fs))
  | cmd_interface_configure => Some (carry_on (setInterfaceProperty cmd fs))
  | _ => Some (carry_on fs)
  end.

(** [processActionMessage] and [processDelayQueue] call each other; [depth]
    bounds the nesting, and [None] is a nesting that is too deep. *)
Fixpoint processActionMessage (depth : nat) (cmd : ActionMessage) (fs : FederateState) : option result :=
  match depth with
  | O => None
  | S depth => dispatch (processDelayQueue (processActionMessage depth)) cmd fs
  end.

(** Whether the federate returns to its caller, or waits for a command. *)
Inductive outcome := returned (ret : MPR.message_processing_result) | waiting.

Fixpoint process_incoming (depth : nat) (incoming : list ActionMessage)
    (ret : MPR.message_processing_result) (fs : FederateState)
    : option (outcome * list ActionMessage * FederateState) :=
  if MPR.returnableResult ret then Some (returned ret, incoming, fs)
  else match incoming with
       | [] => Some (waiting, [], fs)
       | cmd :: incoming =>
           if messageShouldBeDelayed cmd fs then
             process_incoming depth incoming ret
               (fs <| delayQueues ::= push_delayed (ActionMessage.source_id cmd) cmd |>)
           else
             '(ret, fs) ← processActionMessage depth cmd fs;
             process_incoming depth incoming ret
               match ret with
               | MPR.delay_message => fs <| delayQueues ::= push_delayed (ActionMessage.source_id cmd) cmd |>
               | _ => fs
               end
       end.

Definition processQueue (depth : nat) (incoming : list ActionMessage) (fs : FederateState)
    : option (outcome * list ActionMessage * FederateState) :=
  if bool_decide (state fs = HELICS_FINISHED) then Some (returned MPR.halted, incoming, fs)
  else if bool_decide (state fs = HELICS_ERROR) then Some (returned MPR.error, incoming, fs)
  else
    '(ret, fs) ← processDelayQueue (processActionMessage depth) fs;
    process_incoming depth incoming ret fs.

(** ** Operations of the caller *)

Definition reset (fs : FederateState) : FederateState :=
  fs <| global_id := GlobalFedId.invalid |>
     <| interfaceInformation ::= Interfaces.setGlobalId GlobalFedId.invalid |>
     <| local_id := LocalFedId.invalid |> <| state := HELICS_CREATED |>
     <| pushed := [] |> <| delayQueues := [] |>.

Definition reInit (fs : FederateState) : FederateState :=
  fs <| state := HELICS_INITIALIZING |> <| pushed := [] |> <| delayQueues := [] |>.

Definition getCurrentIteration (fs : FederateState) : Z := TimeCoordinator.getCurrentIteration (timeCoord fs).

(** [None]: a handle that is no publication, whose null pointer is followed *)
Definition checkAndSetValue (pub_id : interface_handle) (data : string) (fs : FederateState)
    : option (bool * FederateState) :=
  if negb (only_transmit_on_change fs) then Some (true, fs)
  else
    pub ← Interfaces.getPublication pub_id (interfaceInformation fs);
    let '(res, pub) := Publication.CheckSetValue data pub in
    Some (res, put_publication pub_id pub fs).

Definition getQueueSize_of (handle_ : interface_handle) (fs : FederateState) : Z :=
  match Interfaces.getEndpoint handle_ (interfaceInformation fs) with
  | Some epI => uint64 (Endpoint.queueSize (time_granted fs) epI)
  | None => 0
  end.

Definition getQueueSize (fs : FederateState) : Z :=
  fold_left (fun cnt ep => uint64 (cnt + uint64 (Endpoint.queueSize (time_granted fs) ep)))
    (dm_elements (Interfaces.endpoints (interfaceInformation fs))) 0.

Definition receive (handle_ : interface_handle) (fs : FederateState) : option Message * FederateState :=
  match Interfaces.getEndpoint handle_ (interfaceInformation fs) with
  | Some epI =>
      let '(msg, epI) := Endpoint.getMessage (time_granted fs) epI in (msg, put_endpoint handle_ epI fs)
  | None => (None, fs)
  end.

(** The endpoint with the earliest message, and its time. *)
Definition earliest_endpoint (fs : FederateState) : Time * option Endpoint.EndpointInfo :=
  fold_left (fun '(earliest_time, endpointI) end_point =>
               let t := Endpoint.firstMessageTime end_point in
               if t <? earliest_time then (t, Some end_point) else (earliest_time, endpointI))
    (dm_elements (Interfaces.endpoints (interfaceInformation fs))) (T.maxVal, None).

(** The message, and the handle it was received on, which is not assigned when
    no endpoint has a message.  An endpoint is kept under its own handle. *)
Definition receiveAny (id_ : interface_handle) (fs : FederateState)
    : option Message * interface_handle * FederateState :=
  match earliest_endpoint fs with
  | (_, None) => (None, id_, fs)
  | (earliest_time, Some endpointI) =>
      if earliest_time <=? time_granted fs then
        let h := Identifiers.handle (Endpoint.id endpointI) in
        let '(result, ep) := Endpoint.getMessage (time_granted fs) endpointI in
        (result, h, put_endpoint h ep fs)
      else (None, InterfaceHandle.invalid, fs)
  end.

(** Before initialization a configuration takes effect at once, later it waits
    in the queue. *)
Definition setProperties (cmd : ActionMessage) (fs : FederateState) : FederateState :=
  if bool_decide (state fs = HELICS_CREATED) then
    match messageAction cmd with
    | cmd_fed_configure_flag => setOptionFlag (messageID cmd) (checkActionFlag cmd indicator_flag) fs
    | cmd_fed_configure_time => setTimeProperty (messageID cmd) (actionTime cmd) fs
    | cmd_fed_configure_int => setIntProperty (messageID cmd) (counter cmd) fs
    | cmd_interface_configure => setInterfaceProperty cmd fs
    | _ => fs
    end
  else
    match messageAction cmd with
    | cmd_fed_configure_flag | cmd_fed_configure_time | cmd_fed_configure_int
    | cmd_interface_configure => addAction cmd fs
    | _ => fs
    end.

Definition getTimeProperty (timeProperty : Z) (fs : FederateState) : Time :=
  if (timeProperty =? Prop_.rt_lag) || (timeProperty =? Prop_.rt_tolerance) then rt_lag fs
  else if timeProperty =? Prop_.rt_lead then rt_lead fs
  else TimeCoordinator.getTimeProperty timeProperty (timeCoord fs).

Definition getIntegerProperty (intProperty : Z) (fs : FederateState) : Z :=
  if intProperty =? Prop_.log_level then logLevel fs
  else TimeCoordinator.getIntegerProperty intProperty (timeCoord fs).

Definition getOptionFlag (optionFlag : Z) (fs : FederateState) : option bool :=
  if optionFlag =? Flag.only_transmit_on_change then Some (only_transmit_on_change fs)
  else if optionFlag =? Flag.only_update_on_change
  then Some (Interfaces.getChangeUpdateFlag (interfaceInformation fs))
  else if optionFlag =? Flag.realtime then Some (realtime fs)
  else if optionFlag =? Flag.observer then Some (observer fs)
  else if optionFlag =? Flag.source_only then Some (source_only fs)
  else if optionFlag =? flag_connections_required
  then Some (negb (Z.land (interfaceFlags fs) (make_flags required_flag) =? 0))
  else if optionFlag =? flag_connections_optional
  then Some (negb (Z.land (interfaceFlags fs) (make_flags optional_flag) =? 0))
  else if optionFlag =? flag_strict_input_type_checking then Some (strict_input_type_checking fs)
  else TimeCoordinator.getOptionFlag optionFlag (timeCoord fs).

Definition getHandleOption (handle : interface_handle) (iType : handle_type) (option : Z)
    (fs : FederateState) : bool :=
  match iType with
  | Kind.input => Interfaces.getInputProperty handle option (interfaceInformation fs)
  | Kind.publication => Interfaces.getPublicationProperty handle option (interfaceInformation fs)
  | Kind.endpoint => Interfaces.getEndpointProperty handle option (interfaceInformation fs)
  | _ => false
  end.

Definition publicationCount (fs : FederateState) : Z :=
  int32 (Z.of_nat (length (dm_elements (Interfaces.publications (interfaceInformation fs))))).
Definition endpointCount (fs : FederateState) : Z :=
  int32 (Z.of_nat (length (dm_elements (Interfaces.endpoints (interfaceInformation fs))))).
Definition inputCount (fs : FederateState) : Z :=
  int32 (Z.of_nat (length (dm_elements (Interfaces.inputs (interfaceInformation fs))))).
End Federate.
End Fed.
