(* ===== verification/FederateSpec.v ===== *)
(** * A federate: properties

    The commands a federate processes keep its coordinator and its delayed
    commands consistent, move its state only forward, and end: a command of the
    federate itself is never delayed, so the processing of delayed commands
    never begins another.  A value that comes through a source connected twice
    is lost. *)

From S2P Require Import Prelude HTime Identifiers CoreData ActionMessage CoreTypes.
From S2P Require Import TimeDependencies TimeCoordinator TimeCoordinatorFacts TimeBookkeeping.
From S2P Require Import NamedInputInfo EndpointInfo InterfaceInfo HandleManager FederateState.
Import Fed Interfaces (InterfaceInfo) Kind (handle_type).

(** ** The coordinator keeps its identity *)

Section Coordinator.
Context `{Platform}.
Implicit Types (tc : TimeCoordinator).

(** The invariant of a coordinator that belongs to [me]. *)
Definition tc_ok (me : global_federate_id) tc : Prop := tc_inv tc /\ TimeCoordinator.source_id tc = me.

Abbreviation tsource := TimeCoordinator.source_id.

Lemma transmit_source m tc : tsource (transmitTimingMessage m tc) = tsource tc.
Proof. by rewrite transmit_eq. Qed.

Lemma sendTimeRequest_source tc : tsource (sendTimeRequest tc) = tsource tc.
Proof. by rewrite sendTimeRequest_eq. Qed.

Lemma updateTimeFactors_source tc : tsource (snd (updateTimeFactors tc)) = tsource tc.
Proof. by destruct (updateTimeFactors_eq tc) as (? & ? & ? & ? & ->). Qed.

Lemma request_if_changed_source tc : tsource (request_if_changed tc) = tsource tc.
Proof.
  unfold request_if_changed. rewrite updateNextExecutionTime_eq.
  case_match; by rewrite ?sendTimeRequest_source.
Qed.

Lemma updateTimeGrant_source tc : tsource (updateTimeGrant tc) = tsource tc.
Proof. by rewrite updateTimeGrant_eq. Qed.

Lemma addDependency_source f tc : tsource (snd (addDependency f tc)) = tsource tc.
Proof. unfold addDependency. destruct (TimeDependencies.addDependency _ _) as [[] ?]; done. Qed.

Lemma addDependent_source f tc : tsource (snd (addDependent f tc)) = tsource tc.
Proof. unfold addDependent. repeat case_match; done. Qed.

Lemma removeDependent_source f tc : tsource (removeDependent f tc) = tsource tc.
Proof. unfold removeDependent. repeat case_match; done. Qed.

Lemma process_dependency_time_source cmd tc : tsource (snd (process_dependency_time cmd tc)) = tsource tc.
Proof.
  unfold process_dependency_time, update_dependencies.
  destruct (updateTime cmd (dependencies tc)). repeat case_match; done.
Qed.

Lemma processTimeBlockMessage_source cmd tc : tsource (snd (processTimeBlockMessage cmd tc)) = tsource tc.
Proof.
  unfold processTimeBlockMessage. case_if; [by case_if|]. case_if; [|done].
  destruct (timeBlocks tc) as [|b l]; [done|]. destruct (default _ _). by case_if.
Qed.

Lemma processTimeMessage_source cmd tc : tsource (snd (processTimeMessage cmd tc)) = tsource tc.
Proof.
  unfold processTimeMessage.
  assert (forall f, tsource (snd (process_dependency_time cmd (removeDependent f tc))) = tsource tc) as Hr.
  { intros f. by rewrite process_dependency_time_source, removeDependent_source. }
  pose proof (process_dependency_time_source cmd tc) as Hp.
  destruct (messageAction cmd); try done; try apply processTimeBlockMessage_source.
  case_if; [|done]. cbn [snd]. by rewrite transmit_source.
Qed.

Lemma disconnect_source tc : tsource (disconnect tc) = tsource tc.
Proof.
  unfold disconnect. destruct (connections tc) as [|f1 [|f2 fs]]; [done|case_match; [|done]|].
  - apply processTimeMessage_source.
  - match goal with |- context [fold_left ?g _ (_, tc)] =>
      assert (forall fl m t, tsource t = tsource tc -> tsource (snd (fold_left g fl (m, t))) = tsource tc) as Hf end.
    { induction fl as [|x fl IH]; intros m t Ht; cbn [fold_left]; [done|].
      case_match; apply IH; [|done]. by rewrite processTimeMessage_source. }
    specialize (Hf (f1 :: f2 :: fs) (newMessage cmd_multi_message) tc eq_refl).
    by destruct (fold_left _ _ _).
Qed.

Lemma checkTimeGrant_source tc : tsource (snd (checkTimeGrant tc)) = tsource tc.
Proof.
  pose proof (updateTimeFactors_source tc) as Hu. destruct (checkTimeGrant_cases tc) as [| | | |tc0 Htc].
  - by rewrite disconnect_source.
  - done.
  - by rewrite updateTimeGrant_source.
  - by rewrite updateTimeGrant_source.
  - destruct Htc as [-> | ->]; case_match; rewrite ?sendTimeRequest_source; done.
Qed.

Lemma enteringExecMode_source it tc : tsource (enteringExecMode it tc) = tsource tc.
Proof. unfold enteringExecMode. case_match; [done|]. by rewrite transmit_source. Qed.

Lemma timeRequest_source t it v m tc : tsource (timeRequest t it v m tc) = tsource tc.
Proof.
  unfold timeRequest. match goal with |- context [let '(_, _) := ?p in _] => destruct p end.
  case_match; rewrite ?sendTimeRequest_source, updateTimeFactors_source; done.
Qed.

Lemma updateValueTime_source t tc : tsource (updateValueTime t tc) = tsource tc.
Proof. unfold updateValueTime. repeat case_match; rewrite ?request_if_changed_source; done. Qed.

Lemma updateMessageTime_source t tc : tsource (updateMessageTime t tc) = tsource tc.
Proof. unfold updateMessageTime. repeat case_match; rewrite ?request_if_changed_source; done. Qed.

Lemma checkExecEntry_source tc : tsource (snd (checkExecEntry tc)) = tsource tc.
Proof. unfold checkExecEntry. repeat case_match; cbn [snd]; rewrite ?transmit_source; done. Qed.

Lemma setTimeProperty_source p v tc : tsource (TimeCoordinator.setTimeProperty p v tc) = tsource tc.
Proof. unfold TimeCoordinator.setTimeProperty. repeat case_match; done. Qed.

(** *** Every operation of the federate on its coordinator *)

Lemma tc_ok_step me tc tc' : tc_step tc tc' -> tsource tc' = tsource tc -> tc_ok me tc -> tc_ok me tc'.
Proof. intros Hs Es [Hi <-]. split; [by eapply tc_step_inv|done]. Qed.

Lemma tc_ok_exec me it tc : tc_ok me tc -> tc_ok me (enteringExecMode it tc).
Proof. apply tc_ok_step; [constructor|apply enteringExecMode_source]. Qed.

Lemma tc_ok_request me t it v m tc : tc_ok me tc -> tc_ok me (timeRequest t it v m tc).
Proof. apply tc_ok_step; [constructor|apply timeRequest_source]. Qed.

Lemma tc_ok_value me t tc : tc_ok me tc -> tc_ok me (updateValueTime t tc).
Proof. apply tc_ok_step; [constructor|apply updateValueTime_source]. Qed.

Lemma tc_ok_message me t tc : tc_ok me tc -> tc_ok me (updateMessageTime t tc).
Proof. apply tc_ok_step; [constructor|apply updateMessageTime_source]. Qed.

Lemma tc_ok_timing me cmd tc :
  actionTime cmd <= T.maxVal -> tc_ok me tc -> tc_ok me (snd (processTimeMessage cmd tc)).
Proof. intros Ht. apply tc_ok_step; [by constructor|apply processTimeMessage_source]. Qed.

Lemma tc_ok_add_dependency me f tc : tc_ok me tc -> tc_ok me (snd (addDependency f tc)).
Proof. intros [Hi <-]. split; [by apply addDependency_inv|apply addDependency_source]. Qed.

Lemma tc_ok_add_dependent me f tc : tc_ok me tc -> tc_ok me (snd (addDependent f tc)).
Proof. intros [Hi <-]. split; [by apply addDependent_inv|apply addDependent_source]. Qed.

Lemma tc_ok_dependency me cmd tc : tc_ok me tc -> tc_ok me (processDependencyUpdateMessage cmd tc).
Proof.
  apply tc_ok_step; [constructor|]. unfold processDependencyUpdateMessage.
  destruct (messageAction cmd); try done;
    rewrite ?addDependent_source, ?addDependency_source, ?removeDependent_source; done.
Qed.

Lemma tc_ok_exec_check me tc : tc_ok me tc -> tc_ok me (snd (checkExecEntry tc)).
Proof. apply tc_ok_step; [constructor|apply checkExecEntry_source]. Qed.

Lemma tc_ok_grant me tc : tc_ok me tc -> tc_ok me (snd (checkTimeGrant tc)).
Proof. apply tc_ok_step; [constructor|apply checkTimeGrant_source]. Qed.

Lemma tc_ok_disconnect me tc : tc_ok me tc -> tc_ok me (disconnect tc).
Proof. apply tc_ok_step; [constructor|apply disconnect_source]. Qed.

Lemma tc_ok_time_property me p v tc : tc_ok me tc -> tc_ok me (TimeCoordinator.setTimeProperty p v tc).
Proof. intros [Hi <-]. split; [by apply setTimeProperty_inv|apply setTimeProperty_source]. Qed.

Lemma tc_ok_int_property me p v tc : tc_ok me tc -> tc_ok me (TimeCoordinator.setIntProperty p v tc).
Proof.
  intros Hi. unfold TimeCoordinator.setIntProperty. case_if; [|by apply tc_ok_time_property].
  destruct Hi as [Hi <-]. split; [|done]. apply info_inv; [|done]. apply (inv_delta tc Hi).
Qed.

Lemma tc_ok_flag me f v tc : tc_ok me tc -> tc_ok me (TimeCoordinator.setOptionFlag f v tc).
Proof.
  intros [Hi <-]. unfold TimeCoordinator.setOptionFlag. pose proof (inv_delta tc Hi).
  repeat case_if; split; try done; by apply info_inv.
Qed.
End Coordinator.

Create HintDb federate.
#[local] Hint Resolve tc_ok_exec tc_ok_request tc_ok_value tc_ok_message tc_ok_timing
  tc_ok_add_dependency tc_ok_add_dependent tc_ok_dependency tc_ok_exec_check tc_ok_grant
  tc_ok_disconnect tc_ok_time_property tc_ok_int_property tc_ok_flag : federate.

(** ** What a command does to a federate *)

Section Federate.
Context `{Platform} {C : Type -> Type} `{DualMapped C} (fmt_format : string -> list string -> string).
Context (me : global_federate_id).
Abbreviation FederateState := (@FederateState C).
Abbreviation result := (MPR.message_processing_result * FederateState)%type.
Implicit Types (fs : FederateState) (cmd : ActionMessage).

(** A time fits in 64 bits, and a federate is given one identifier. *)
Definition cmd_ok cmd : Prop :=
  actionTime cmd <= T.maxVal /\ (messageAction cmd = cmd_fed_ack -> dest_id cmd = me).

Record fed_inv fs : Prop := {
  inv_tc : tc_ok me (timeCoord fs);
  inv_id : Fed.global_id fs = me;
  inv_delayed : me ∉ delayedFederates fs;
  inv_queues : Forall (fun e => fst e <> me /\
    Forall (fun c => ActionMessage.source_id c = fst e /\ cmd_ok c) (snd e)) (delayQueues fs);
}.

(** How far a federate is. *)
Definition rank (s : federate_state) : Z :=
  match s with
  | HELICS_CREATED => 0 | HELICS_INITIALIZING => 1 | HELICS_EXECUTING => 2
  | HELICS_TERMINATING | HELICS_ERROR | HELICS_FINISHED | HELICS_UNKNOWN => 3
  end.

Definition grants (ret : MPR.message_processing_result) : Prop := ret = MPR.next_step \/ ret = MPR.iterating.

(** The federate shows the time that its coordinator granted. *)
Definition shows_grant fs : Prop :=
  timeGranted_mode fs = true /\ Fed.time_granted fs = TimeCoordinator.time_granted (timeCoord fs) /\
  allowed_send_time fs = allowedSendTime (timeCoord fs).

Record step_ok fs (r : result) : Prop := {
  ok_inv : fed_inv (snd r);
  ok_rank : rank (state fs) <= rank (state (snd r));
  ok_init : state (snd r) = HELICS_INITIALIZING -> state fs = HELICS_INITIALIZING \/
    (state fs = HELICS_CREATED /\ MPR.returnableResult (fst r) = true);
  ok_exec : state (snd r) = HELICS_EXECUTING -> state fs = HELICS_EXECUTING \/
    (state fs = HELICS_INITIALIZING /\ fst r = MPR.next_step);
  ok_grant : 2 <= rank (state fs) -> grants (fst r) -> shows_grant (snd r);
}.

(** A command of another federate leaves the delayed commands in place. *)
Definition step_ok' fs (r : result) : Prop := step_ok fs r /\ delayQueues (snd r) = delayQueues fs.

(** A change of the coordinator and of what is not tracked. *)
Definition quiet fs fs' : Prop :=
  state fs' = state fs /\ Fed.global_id fs' = Fed.global_id fs /\
  delayedFederates fs' = delayedFederates fs /\ delayQueues fs' = delayQueues fs /\
  (tc_ok me (timeCoord fs) -> tc_ok me (timeCoord fs')).

#[local] Instance quiet_preorder : PreOrder quiet.
Proof. unfold quiet. split; [intros a; naive_solver|]. intros a b c. naive_solver congruence. Qed.

Lemma quiet_inv fs fs' : quiet fs fs' -> fed_inv fs -> fed_inv fs'.
Proof. intros (Es & Ei & Ed & Eq & Ht) []. split; rewrite ?Ei, ?Ed, ?Eq; auto. Qed.

Lemma stay_ok fs ret fs' :
  fed_inv fs -> quiet fs fs' -> (2 <= rank (state fs) -> grants ret -> shows_grant fs') ->
  step_ok' fs (ret, fs').
Proof.
  intros Hi Hq Hg. pose proof (quiet_inv _ _ Hq Hi). destruct Hq as (Es & _ & _ & Eq & _).
  split; [|exact Eq]. split; cbn; rewrite ?Es; auto; lia.
Qed.

Lemma quiet_ok fs fs' : fed_inv fs -> quiet fs fs' -> step_ok' fs (carry_on fs').
Proof. intros Hi Hq. apply stay_ok; [done|done|]. by intros _ [?|?]. Qed.

(** Two parts of the processing of one command. *)
Lemma step_ok_seq fs ret fs1 r :
  step_ok fs (ret, fs1) -> MPR.returnableResult ret = false -> step_ok fs1 r -> step_ok fs r.
Proof.
  intros [] Hret []. cbn in *. split; [done|lia| | |].
  - intros E. destruct (ok_init1 E) as [E1|[E1 E2]].
    + destruct (ok_init0 E1) as [?|[? ?]]; [by left|congruence].
    + right. split; [|done]. destruct (state fs) eqn:Es; rewrite E1 in *; cbn in *; done || lia.
  - intros E. destruct (ok_exec1 E) as [E1|[E1 E2]].
    + destruct (ok_exec0 E1) as [?|[? ->]]; [by left|done].
    + destruct (ok_init0 E1) as [?|[? ?]]; [by right|congruence].
  - intros Hr. apply ok_grant1. lia.
Qed.

Lemma setState_end fs s :
  rank s = 3 -> s <> HELICS_UNKNOWN -> state (setState s fs) = s.
Proof.
  intros Hr Hu. unfold setState. case_bool_decide as E; [done|]. by destruct s.
Qed.

Lemma setState_frame fs s :
  timeCoord (setState s fs) = timeCoord fs /\ Fed.global_id (setState s fs) = Fed.global_id fs /\
  delayedFederates (setState s fs) = delayedFederates fs /\ delayQueues (setState s fs) = delayQueues fs.
Proof. unfold setState. repeat case_match; done. Qed.

(** A command that ends the federate. *)
Lemma end_ok fs s ret fs' :
  fed_inv fs -> rank s = 3 -> s <> HELICS_UNKNOWN -> (~ grants ret) ->
  state fs' = s -> Fed.global_id fs' = Fed.global_id fs -> delayedFederates fs' = delayedFederates fs ->
  delayQueues fs' = delayQueues fs -> tc_ok me (timeCoord fs') -> step_ok' fs (ret, fs').
Proof.
  intros [] Hr Hu Hg Es Ei Ed Eq Ht. split; [|done]. split; cbn; rewrite ?Es.
  - split; rewrite ?Ei, ?Ed, ?Eq; done.
  - rewrite Hr. destruct (state fs); cbn; lia.
  - intros ->. done.
  - intros ->. done.
  - done.
Qed.

(** *** The commands one by one *)

Ltac quietly := split; [reflexivity|]; do 3 (split; [reflexivity|]); cbn; auto with federate.

Lemma tell_all_quiet rem targets : forall fs, quiet fs (tell_all rem targets fs).
Proof.
  induction targets as [|g targets IH]; intros fs; cbn; [done|].
  etrans; [|apply IH]. unfold routeMessage. case_match; quietly.
Qed.

Lemma closeInterface_quiet h ty fs : quiet fs (closeInterface h ty fs).
Proof.
  unfold closeInterface. repeat (case_match; try done);
    try (etrans; [apply tell_all_quiet|]); quietly.
Qed.

Lemma setTimeProperty_quiet p v fs : quiet fs (Fed.setTimeProperty p v fs).
Proof. unfold Fed.setTimeProperty. repeat case_if; quietly. Qed.

Lemma setIntProperty_quiet p v fs : quiet fs (Fed.setIntProperty p v fs).
Proof. unfold Fed.setIntProperty. repeat case_if; quietly. Qed.

Lemma setOptionFlag_quiet f v fs : quiet fs (Fed.setOptionFlag f v fs).
Proof. unfold Fed.setOptionFlag. repeat (case_match; try done); quietly. Qed.

Lemma setInterfaceProperty_quiet cmd fs : quiet fs (setInterfaceProperty cmd fs).
Proof. unfold setInterfaceProperty. repeat case_match; quietly. Qed.

Lemma checkInterfaces_quiet fs : quiet fs (snd (checkInterfaces fmt_format fs)).
Proof. unfold checkInterfaces. case_match; quietly. Qed.

Lemma receive_value_ok cmd fs : fed_inv fs -> step_ok' fs (receive_value cmd fs).
Proof.
  intros Hi. unfold receive_value. case_match; [|by apply quiet_ok].
  match goal with |- context [fold_left (receive_from cmd) ?l ?a] =>
    assert (tc_ok me (timeCoord fs) -> tc_ok me (snd (fold_left (receive_from cmd) l a))) as Hf end.
  { generalize (payload cmd) as pl. generalize (timeCoord fs) as tc.
    generalize n at 2 as ipt. generalize (input_sources n) as l.
    induction l as [|src l IH]; intros ipt tc pl Ht; cbn [fold_left]; [done|].
    unfold receive_from at 2. case_match; [|by apply IH]. apply IH. case_match; auto with federate. }
  destruct (fold_left _ _ _) as [[pl subI'] tc]. apply quiet_ok; [done|]. quietly.
Qed.

Lemma quiet_commands_ok cmd fs :
  fed_inv fs ->
  step_ok' fs (receive_message cmd fs) /\ step_ok' fs (add_publisher cmd fs) /\
  step_ok' fs (add_subscriber cmd fs) /\ step_ok' fs (remove_publication cmd fs) /\
  step_ok' fs (remove_subscriber cmd fs).
Proof.
  intros Hi. unfold receive_message, add_publisher, add_subscriber, remove_publication, remove_subscriber.
  repeat split_and!; case_match; apply quiet_ok; try done; try quietly; by case_match.
Qed.

Lemma exec_check_ok fs : fed_inv fs -> step_ok' fs (exec_check fs).
Proof.
  intros Hi. unfold exec_check. case_bool_decide as Es; [by apply quiet_ok|].
  case_match; [by apply quiet_ok|].
  pose proof (tc_ok_exec_check me (timeCoord fs) (inv_tc fs Hi)) as Ht.
  destruct (checkExecEntry (timeCoord fs)) as [grant tc]. cbn [snd] in Ht.
  assert (fed_inv (fs <| timeCoord := tc |>)) as Hi'.
  { eapply quiet_inv; [|exact Hi]. quietly. }
  destruct grant; cbn.
  - apply quiet_ok; [done|quietly].
  - apply stay_ok; [done|quietly|]. rewrite Es. cbn. lia.
  - destruct (setState_frame (fs <| timeCoord := tc |>) HELICS_EXECUTING) as (E1 & E2 & E3 & E4).
    assert (state (setState HELICS_EXECUTING (fs <| timeCoord := tc |>)) = HELICS_EXECUTING) as E5.
    { unfold setState. cbn. rewrite Es. done. }
    set (fs1 := setState HELICS_EXECUTING _) in *. clearbody fs1.
    assert (fed_inv fs1) as Hi1 by (destruct Hi'; split; rewrite ?E1, ?E2, ?E3, ?E4; done).
    split; [|exact E4]. split; cbn [fst snd].
    + eapply quiet_inv; [|exact Hi1]. quietly.
    + change (rank (state fs) <= rank (state fs1)). by rewrite E5, Es.
    + change (state fs1 = HELICS_INITIALIZING -> state fs = HELICS_INITIALIZING \/
        (state fs = HELICS_CREATED /\ MPR.returnableResult MPR.next_step = true)). by left.
    + by right.
    + rewrite Es. cbn. lia.
  - apply stay_ok; [done|quietly|]. rewrite Es. cbn. lia.
  - apply stay_ok; [done|quietly|]. rewrite Es. cbn. lia.
  - apply stay_ok; [done|quietly|]. rewrite Es. cbn. lia.
Qed.

Lemma time_check_ok fs : fed_inv fs -> step_ok' fs (time_check fs).
Proof.
  intros Hi. unfold time_check. case_bool_decide as Es; [by apply quiet_ok|].
  case_match; [by apply quiet_ok|].
  pose proof (tc_ok_grant me (timeCoord fs) (inv_tc fs Hi)) as Ht.
  destruct (checkTimeGrant (timeCoord fs)) as [ret tc]. cbn [snd] in Ht.
  case_match; [|apply quiet_ok; [done|quietly]]. apply stay_ok; [done|quietly|done].
Qed.

(** Only grants of other federates are delayed. *)
Lemma processTimeMessage_delay cmd tc :
  fst (processTimeMessage cmd tc) = delay_processing ->
  ActionMessage.source_id cmd <> TimeCoordinator.source_id tc.
Proof.
  assert (forall t, fst (process_dependency_time cmd t) = delay_processing ->
    ActionMessage.source_id cmd <> TimeCoordinator.source_id t) as Hp.
  { intros t. unfold process_dependency_time, update_dependencies.
    destruct (updateTime cmd (dependencies t)) as [[] ?];
      destruct (isDelayableMessage cmd (TimeCoordinator.source_id t)) eqn:E; try done;
      unfold isDelayableMessage in E; apply andb_true_iff in E as [_ E];
      intros _; breflect; lia. }
  unfold processTimeMessage. intros Hd.
  assert (fst (processTimeBlockMessage cmd tc) <> delay_processing) as Hb.
  { unfold processTimeBlockMessage. case_if; [done|]. case_if; [|done].
    destruct (timeBlocks tc); [done|]. destruct (default _ _). by case_if. }
  pose proof (Hp (removeDependent (ActionMessage.source_id cmd) tc)) as Hr.
  rewrite removeDependent_source in Hr. specialize (Hp tc).
  destruct (messageAction cmd); auto; try done. by destruct (_ <? actionTime cmd).
Qed.

Lemma addFederateToDelay_spec fed fs f :
  f ∈ delayedFederates (addFederateToDelay fed fs) -> f = fed \/ f ∈ delayedFederates fs.
Proof.
  unfold addFederateToDelay. repeat case_match; cbn;
    rewrite ?elem_of_app, ?list_elem_of_singleton, ?elem_of_insert_at; tauto.
Qed.

Lemma addFederateToDelay_frame fed fs :
  timeCoord (addFederateToDelay fed fs) = timeCoord fs /\ state (addFederateToDelay fed fs) = state fs /\
  Fed.global_id (addFederateToDelay fed fs) = Fed.global_id fs /\
  delayQueues (addFederateToDelay fed fs) = delayQueues fs.
Proof. unfold addFederateToDelay. repeat case_match; done. Qed.

Lemma timing_ok cmd follow fs :
  cmd_ok cmd -> fed_inv fs -> (forall fs', fed_inv fs' -> step_ok' fs' (follow fs')) ->
  step_ok' fs (timing cmd follow fs).
Proof.
  intros [Hc _] Hi Hf. unfold timing.
  pose proof (tc_ok_timing me cmd (timeCoord fs) Hc (inv_tc fs Hi)) as Ht.
  pose proof (processTimeMessage_delay cmd (timeCoord fs)) as Hd.
  destruct (processTimeMessage cmd (timeCoord fs)) as [res tc]. cbn [fst snd] in *.
  assert (quiet fs (fs <| timeCoord := tc |>)) as Hq by quietly.
  destruct res; [by apply quiet_ok| |].
  - destruct (Hf _ (quiet_inv _ _ Hq Hi)) as [Hs Eq]. split; [|by rewrite Eq].
    eapply step_ok_seq; [apply (quiet_ok _ _ Hi Hq)|done|done].
  - destruct (addFederateToDelay_frame (ActionMessage.source_id cmd) (fs <| timeCoord := tc |>))
      as (E1 & E2 & E3 & E4).
    pose proof (addFederateToDelay_spec (ActionMessage.source_id cmd) (fs <| timeCoord := tc |>) me) as Hs.
    set (fs1 := addFederateToDelay _ _) in *. clearbody fs1. split; [|exact E4].
    split; cbn [fst snd]; rewrite ?E2; auto; [|done|by intros _ [?|?]].
    destruct Hi. split; rewrite ?E1, ?E3, ?E4; try done.
    intros [E|E]%Hs; [|done]. apply (Hd eq_refl). rewrite <- E. symmetry. apply inv_tc0.
Qed.

Lemma time_block_ok cmd fs : cmd_ok cmd -> fed_inv fs -> step_ok' fs (time_block_command cmd fs).
Proof.
  intros [Hc _] Hi. unfold time_block_command.
  pose proof (tc_ok_timing me cmd (timeCoord fs) Hc (inv_tc fs Hi)) as Ht.
  destruct (processTimeMessage cmd (timeCoord fs)) as [res tc]. cbn [snd] in Ht.
  assert (quiet fs (fs <| timeCoord := tc |>)) as Hq by quietly.
  pose proof (quiet_ok _ _ Hi Hq) as Hs. pose proof (quiet_inv _ _ Hq Hi) as Hi'.
  assert (forall r, step_ok' (fs <| timeCoord := tc |>) r -> step_ok' fs r) as Hseq.
  { intros r [Hr Eq]. split; [|by rewrite Eq]. eapply step_ok_seq; [apply Hs|done|done]. }
  destruct res; [done| |done]. case_match; [|done]. case_match; [by apply Hseq, exec_check_ok|].
  case_match; [by apply Hseq, time_check_ok|done].
Qed.

Lemma init_grant_ok fs : fed_inv fs -> step_ok' fs (init_grant fmt_format fs).
Proof.
  intros Hi. unfold init_grant. case_bool_decide as Es; [|by apply quiet_ok].
  set (fs1 := setState HELICS_INITIALIZING fs <| timeGranted_mode := true |>).
  assert (state fs1 = HELICS_INITIALIZING /\ fed_inv fs1 /\ delayQueues fs1 = delayQueues fs) as (E1 & Hi1 & Eq).
  { subst fs1. unfold setState. rewrite Es. cbn. destruct Hi. done. }
  pose proof (checkInterfaces_quiet fs1) as Hq. clearbody fs1.
  destruct (checkInterfaces fmt_format fs1) as [pcode fs2]. cbn [snd] in Hq.
  pose proof (quiet_inv _ _ Hq Hi1) as Hi2. destruct Hq as (Es2 & _ & _ & Eq2 & _). rewrite E1 in Es2.
  split; [|cbn; congruence]. split; cbn [fst snd]; rewrite ?Es2, ?Es; try done.
  intros _. right. split; [done|]. by case_match.
Qed.

Lemma fed_ack_ok cmd fs :
  messageAction cmd = cmd_fed_ack -> cmd_ok cmd -> fed_inv fs -> step_ok' fs (fed_ack cmd fs).
Proof.
  intros Ha [_ Hm] Hi. unfold fed_ack. case_bool_decide as Es; [by apply quiet_ok|].
  case_bool_decide; [|by apply quiet_ok]. case_match.
  - destruct (setState_frame fs HELICS_ERROR) as (E1 & E2 & E3 & E4).
    apply (end_ok fs HELICS_ERROR); try done; [by intros [?|?]|by apply setState_end|]. cbn. rewrite E1. apply Hi.
  - rewrite (Hm Ha). apply stay_ok; [done| |rewrite Es; cbn; lia].
    split; [done|]. split; [symmetry; apply (inv_id fs Hi)|]. split; [done|]. split; [done|].
    cbn. intros [Hi' _]. split; [by destruct Hi'|done].
Qed.

Lemma force_time_grant_ok cmd fs : cmd_ok cmd -> fed_inv fs -> step_ok' fs (force_time_grant cmd fs).
Proof.
  intros [Hc _] Hi. unfold force_time_grant. case_match; [by apply quiet_ok|].
  apply stay_ok; [done|quietly|done].
Qed.

Lemma ending_ok cmd fs :
  fed_inv fs ->
  step_ok' fs (MPR.halted, setState HELICS_FINISHED fs) /\ step_ok' fs (stop_command fs) /\
  step_ok' fs (disconnect_ack cmd fs) /\ step_ok' fs (disconnect_own cmd fs) /\
  step_ok' fs (error_command cmd fs).
Proof.
  intros Hi. pose proof (inv_tc fs Hi) as Ht.
  assert (forall ret, ret <> MPR.next_step -> ret <> MPR.iterating -> ~ grants ret) as Hg.
  { by intros ret ? ? [?|?]. }
  unfold stop_command, disconnect_ack, disconnect_own, error_command. split_and!.
  - destruct (setState_frame fs HELICS_FINISHED) as (E1 & E2 & E3 & E4).
    apply (end_ok fs HELICS_FINISHED); auto; try done; [by apply setState_end|by rewrite E1].
  - destruct (setState_frame fs HELICS_FINISHED) as (E1 & E2 & E3 & E4).
    apply (end_ok fs HELICS_FINISHED); auto; try done; [by apply setState_end|].
    cbn. rewrite E1. by apply tc_ok_disconnect.
  - case_match; [|by apply quiet_ok]. set (fs1 := if connected fs then _ else fs).
    assert (tc_ok me (timeCoord fs1)) as Ht1 by (subst fs1; case_match; [by apply tc_ok_disconnect|done]).
    assert (Fed.global_id fs1 = Fed.global_id fs /\ delayedFederates fs1 = delayedFederates fs /\
      delayQueues fs1 = delayQueues fs) as (F1 & F2 & F3) by (subst fs1; by case_match).
    clearbody fs1. destruct (setState_frame fs1 HELICS_FINISHED) as (E1 & E2 & E3 & E4).
    apply (end_ok fs HELICS_FINISHED); auto; try done; try congruence; by apply setState_end.
  - case_match; [|by apply quiet_ok]. set (fs1 := fs <| timeCoord ::= disconnect |>).
    assert (tc_ok me (timeCoord fs1)) as Ht1 by by apply tc_ok_disconnect.
    destruct (setState_frame fs1 HELICS_TERMINATING) as (E1 & E2 & E3 & E4).
    pose proof (setState_end fs1 HELICS_TERMINATING eq_refl ltac:(done)) as E5.
    set (fs2 := setState HELICS_TERMINATING fs1) in *. rewrite <- E1 in Ht1. clearbody fs2.
    apply (end_ok fs HELICS_TERMINATING); auto; try done; case_match; done.
  - destruct (setState_frame fs HELICS_ERROR) as (E1 & E2 & E3 & E4).
    apply (end_ok fs HELICS_ERROR); auto; try done; [by apply setState_end|]. cbn. by rewrite E1.
Qed.

(** A command of another federate, or one that is no request: the delayed
    commands are not looked at. *)
Lemma dispatch_other cmd fs :
  cmd_ok cmd -> fed_inv fs ->
  (messageAction cmd = cmd_exec_request \/ messageAction cmd = cmd_time_request -> own_request cmd fs = false) ->
  exists r, step_ok' fs r /\ forall delayed, dispatch fmt_format delayed cmd fs = Some r.
Proof.
  intros Hc Hi Ho. unfold dispatch.
  pose proof (quiet_ok _ _ Hi (reflexivity fs)) as Hid.
  pose proof (ending_ok cmd fs Hi) as (Hend1 & Hend2 & Hend3 & Hend4 & Hend5).
  pose proof (quiet_commands_ok cmd fs Hi) as (Hq1 & Hq2 & Hq3 & Hq4 & Hq5).
  destruct (messageAction cmd) eqn:Ea; rewrite ?Ho by auto; try (eexists; split; [|intros; reflexivity]);
    eauto using time_block_ok, init_grant_ok, fed_ack_ok, force_time_grant_ok, timing_ok, exec_check_ok,
      time_check_ok, receive_value_ok, quiet_ok, setTimeProperty_quiet, setIntProperty_quiet,
      setOptionFlag_quiet, setInterfaceProperty_quiet.
  1-2: case_match; eexists; (split; [|reflexivity]); auto using timing_ok, time_check_ok.
  all: apply quiet_ok; [done|]; case_match; try done; quietly || apply closeInterface_quiet.
Qed.

(** *** Delayed commands *)

Lemma messageShouldBeDelayed_elem cmd fs :
  messageShouldBeDelayed cmd fs = true -> ActionMessage.source_id cmd ∈ delayedFederates fs.
Proof.
  unfold messageShouldBeDelayed. destruct (delayedFederates fs) as [|a [|b [|c l]]].
  - done.
  - intros E. breflect. rewrite E. left.
  - intros E. apply orb_true_iff in E as [E|E]; breflect; rewrite E; repeat constructor.
  - set (feds := a :: b :: c :: l). destruct (feds !! _) as [res|] eqn:E; [|done].
    intros Er. breflect. subst res. by eapply list_elem_of_lookup_2.
Qed.

Lemma delay_queue_ok fed fs :
  fed_inv fs -> Forall (fun c => ActionMessage.source_id c <> me /\ cmd_ok c) (delay_queue fed fs).
Proof.
  intros []. unfold delay_queue. destruct (List.find _ (delayQueues fs)) as [[f q]|] eqn:E; [|constructor].
  apply List.find_some in E as [Hin _]. apply list_elem_of_In in Hin.
  rewrite Forall_forall in inv_queues0. destruct (inv_queues0 _ Hin) as [Hne Hq]. cbn in *.
  eapply Forall_impl; [exact Hq|]. intros c [-> Hc]. done.
Qed.

Lemma delay_queue_pop fed fs : delay_queue fed (pop_delayed fed fs) = tail (delay_queue fed fs).
Proof.
  unfold delay_queue, pop_delayed. cbn. induction (delayQueues fs) as [|e l IH]; [done|].
  cbn. destruct (fst e =? fed) eqn:E; cbn; rewrite E; [done|exact IH].
Qed.

Lemma pop_ok fed fs ret fs' : step_ok fs (ret, fs') -> step_ok fs (ret, pop_delayed fed fs').
Proof.
  intros []. split; try done. destruct ok_inv0. split; try done. cbn in *.
  apply Forall_fmap. eapply Forall_impl; [exact inv_queues0|]. intros e [Hne Hq]. cbn.
  case_match; [|done]. split; [done|]. cbn. destruct (snd e); [done|]. by apply Forall_cons in Hq as [_ ?].
Qed.

Lemma push_delayed_ok fed cmd m :
  fed <> me -> ActionMessage.source_id cmd = fed -> cmd_ok cmd ->
  let ok := Forall (fun e => fst e <> me /\
    Forall (fun c => ActionMessage.source_id c = fst e /\ cmd_ok c) (snd e)) in
  ok m -> ok (push_delayed fed cmd m).
Proof.
  intros Hne Hs Hc ok Hm. induction Hm as [|[f q] m [H1 H2] Hm IH]; cbn.
  - apply Forall_singleton. split; [done|]. by apply Forall_singleton.
  - case_if; [|case_if].
    + breflect. constructor; [|done]. split; [done|]. apply Forall_app. split; [done|].
      apply Forall_singleton. split; [cbn; congruence|done].
    + constructor; [|by constructor]. split; [done|]. by apply Forall_singleton.
    + constructor; [done|exact IH].
Qed.

(** What is required of the processing of a delayed command. *)
Definition handles_others (process : ActionMessage -> FederateState -> option result) : Prop :=
  forall cmd fs, cmd_ok cmd -> fed_inv fs -> ActionMessage.source_id cmd <> me ->
    exists r, process cmd fs = Some r /\ step_ok' fs r.

Section Delayed.
Context (process : ActionMessage -> FederateState -> option result) (Hp : handles_others process).

Lemma drain_ok fed fuel : forall fs,
  fed_inv fs -> (length (delay_queue fed fs) < fuel)%nat ->
  exists r, drain process fuel fed fs = Some r /\ step_ok fs r.
Proof.
  induction fuel as [|fuel IH]; intros fs Hi Hl; [lia|]. cbn [drain].
  pose proof (quiet_ok _ _ Hi (reflexivity fs)) as [Hid _].
  pose proof (delay_queue_ok fed fs Hi) as Hq.
  destruct (delay_queue fed fs) as [|cmd rest] eqn:Eq; [by eauto|].
  apply Forall_cons in Hq as [[Hne Hc] _]. case_match.
  { eexists. split; [done|]. apply stay_ok; [done|done|]. by intros _ [?|?]. }
  destruct (Hp cmd fs Hc Hi Hne) as ([ret fs'] & -> & Hs & Eqs). cbn.
  pose proof (pop_ok fed _ _ _ Hs) as Hpop.
  destruct ret; eauto.
  destruct (IH (pop_delayed fed fs')) as (r & -> & Hr).
  - apply Hpop.
  - rewrite delay_queue_pop. unfold delay_queue. cbn in Eqs. rewrite Eqs.
    change (length (tail (delay_queue fed fs)) < fuel)%nat. rewrite Eq. cbn in *. lia.
  - eexists. split; [done|]. by eapply step_ok_seq.
Qed.

Lemma drain_all_ok feds : forall ret fs,
  fed_inv fs -> (~ grants ret) ->
  exists r, drain_all process feds ret fs = Some r /\ step_ok fs r.
Proof.
  induction feds as [|fed feds IH]; intros ret fs Hi Hr; cbn [drain_all].
  - eexists. split; [done|]. by apply stay_ok.
  - destruct (drain_ok fed (S (length (delay_queue fed fs))) fs Hi ltac:(lia)) as ([ret1 fs1] & -> & Hs). cbn.
    destruct (MPR.returnableResult ret1) eqn:E; [by eauto|].
    destruct (IH ret1 fs1) as (r & -> & Hr1); [apply Hs|by intros [-> | ->]|].
    eexists. split; [done|]. by eapply step_ok_seq.
Qed.

Lemma processDelayQueue_ok fs :
  fed_inv fs -> exists r, processDelayQueue process fs = Some r /\ step_ok fs r.
Proof.
  intros Hi. unfold processDelayQueue.
  assert (fed_inv (fs <| delayedFederates := [] |>)) as Hi'.
  { destruct Hi. split; try done. cbn. apply not_elem_of_nil. }
  destruct (drain_all_ok (fst <$> delayQueues (fs <| delayedFederates := [] |>))
    MPR.continue_processing _ Hi') as (r & -> & Hr); [by intros [?|?]|]. eexists. split; [done|]. destruct Hr. by split.
Qed.
End Delayed.

Lemma own_request_other cmd fs :
  fed_inv fs -> ActionMessage.source_id cmd <> me -> own_request cmd fs = false.
Proof.
  intros [] Hne. unfold own_request. rewrite inv_id0. by rewrite (proj2 (Z.eqb_neq _ _) Hne).
Qed.

Lemma process_others depth : handles_others (processActionMessage fmt_format (S depth)).
Proof.
  intros cmd fs Hc Hi Hne. destruct (dispatch_other cmd fs Hc Hi (fun _ => own_request_other _ _ Hi Hne)) as (r & Hr & Hd).
  exists r. split; [|done]. apply Hd.
Qed.

Lemma after_delayed_ok process check fs fs0 :
  handles_others process -> fed_inv fs -> quiet fs0 fs ->
  (forall fs', fed_inv fs' -> step_ok' fs' (check fs')) -> fed_inv fs0 ->
  exists r, after_delayed (processDelayQueue process) check fs = Some r /\ step_ok fs0 r.
Proof.
  intros Hp Hi Hq Hc Hi0. unfold after_delayed.
  destruct (processDelayQueue_ok process Hp fs Hi) as ([ret fs1] & -> & Hs). cbn.
  assert (forall r, step_ok fs r -> step_ok fs0 r) as Hseq.
  { intros r. eapply step_ok_seq; [apply (quiet_ok _ _ Hi0 Hq)|done]. }
  destruct (MPR.returnableResult ret) eqn:E; [by eauto|]. eexists. split; [done|]. apply Hseq.
  eapply step_ok_seq; [exact Hs|done|]. apply Hc, Hs.
Qed.

Lemma process_ok depth cmd fs :
  cmd_ok cmd -> fed_inv fs ->
  exists r, processActionMessage fmt_format (S (S depth)) cmd fs = Some r /\ step_ok fs r.
Proof.
  intros Hc Hi.
  change (processActionMessage fmt_format (S (S depth)) cmd fs) with
    (dispatch fmt_format (processDelayQueue (processActionMessage fmt_format (S depth))) cmd fs).
  destruct (own_request cmd fs) eqn:Ho.
  2: { destruct (dispatch_other cmd fs Hc Hi (fun _ => Ho)) as (r & [Hr _] & Hd). eauto. }
  destruct (decide (messageAction cmd = cmd_exec_request)) as [Ea|Ea];
    [|destruct (decide (messageAction cmd = cmd_time_request)) as [Eb|Eb]].
  - unfold dispatch. rewrite Ea, Ho.
    assert (quiet fs (fs <| timeCoord ::= enteringExecMode (requested_iteration cmd) |>
                         <| timeGranted_mode := false |>)) as Hq by quietly.
    eapply after_delayed_ok; eauto using process_others, exec_check_ok, quiet_inv.
  - unfold dispatch. rewrite Eb, Ho.
    match goal with |- context [after_delayed _ _ ?f] => assert (quiet fs f) as Hq by quietly end.
    eapply after_delayed_ok; eauto using process_others, time_check_ok, quiet_inv.
  - destruct (dispatch_other cmd fs Hc Hi) as (r & [Hr _] & Hd); [by intros [?|?]|]. eauto.
Qed.

(** *** What is delayed *)

Lemma exec_check_no_delay fs : fst (exec_check fs) <> MPR.delay_message.
Proof.
  unfold exec_check. do 2 (case_match; [done|]).
  assert (fst (checkExecEntry (timeCoord fs)) <> MPR.delay_message) as Hn.
  { unfold checkExecEntry, exec_entry_result. repeat (case_match; try done). }
  destruct (checkExecEntry (timeCoord fs)) as [[] tc]; done.
Qed.

Lemma time_check_no_delay fs : fst (time_check fs) <> MPR.delay_message.
Proof.
  unfold time_check. do 2 (case_match; [done|]).
  destruct (checkTimeGrant (timeCoord fs)) as [ret tc]. destruct (MPR.returnableResult ret) eqn:E; [|done].
  intros Hr. cbn in Hr. by rewrite Hr in E.
Qed.

Lemma timing_delay cmd follow fs :
  fed_inv fs -> (forall fs', fst (follow fs') <> MPR.delay_message) ->
  fst (timing cmd follow fs) = MPR.delay_message -> ActionMessage.source_id cmd <> me.
Proof.
  intros [[_ Hid] _ _ _] Hf. unfold timing. pose proof (processTimeMessage_delay cmd (timeCoord fs)) as Hd.
  destruct (processTimeMessage cmd (timeCoord fs)) as [[] tc]; [done|by intros ?%Hf|].
  intros _. rewrite <- Hid. by apply Hd.
Qed.

Lemma after_delayed_no_delay delayed check fs fs' :
  (forall fs', fst (check fs') <> MPR.delay_message) ->
  after_delayed delayed check fs <> Some (MPR.delay_message, fs').
Proof.
  intros Hc. unfold after_delayed. destruct (delayed fs) as [[ret fs1]|]; [|done]. cbn.
  destruct (MPR.returnableResult ret) eqn:E.
  - intros [= -> _]. done.
  - intros [= Ec]. apply (Hc fs1). by rewrite Ec.
Qed.

Lemma plain_no_delay (r : result) cmd fs :
  r ∈ [fed_ack cmd fs; disconnect_ack cmd fs; disconnect_own cmd fs; init_grant fmt_format fs;
       time_block_command cmd fs; receive_value cmd fs; force_time_grant cmd fs; receive_message cmd fs;
       add_publisher cmd fs; add_subscriber cmd fs; remove_subscriber cmd fs; remove_publication cmd fs;
       exec_check fs; time_check fs] ->
  fst r <> MPR.delay_message.
Proof.
  pose proof exec_check_no_delay as He. pose proof time_check_no_delay as Ht.
  revert r. apply Forall_forall. repeat (constructor; [|]); try done.
  - unfold fed_ack. repeat (case_match; try done).
  - unfold disconnect_ack. by case_match.
  - unfold disconnect_own. by case_match.
  - unfold init_grant. case_match; [|done]. destruct (checkInterfaces _ _). by case_match.
  - unfold time_block_command. destruct (processTimeMessage _ _) as [[] ?]; try done.
    repeat (case_match; try done).
  - unfold receive_value. case_match; [|done]. by destruct (fold_left _ _ _) as [[? ?] ?].
  - unfold force_time_grant. by case_match.
  - unfold receive_message. by case_match.
  - unfold add_publisher. by case_match.
  - unfold add_subscriber. by case_match.
  - unfold remove_subscriber. by case_match.
  - unfold remove_publication. by case_match.
Qed.

Lemma dispatch_delay delayed cmd fs fs' :
  fed_inv fs -> dispatch fmt_format delayed cmd fs = Some (MPR.delay_message, fs') ->
  ActionMessage.source_id cmd <> me.
Proof.
  intros Hi. unfold dispatch.
  pose proof exec_check_no_delay as He. pose proof time_check_no_delay as Ht.
  assert (forall r, Some r = Some (MPR.delay_message, fs') -> fst r = MPR.delay_message) as Hr by by intros r [= ->].
  destruct (messageAction cmd); try discriminate; try (intros [=]; fail); repeat case_match;
    try (intros Hd; by apply after_delayed_no_delay in Hd); intros Hd%Hr;
    try (by eapply timing_delay; [exact Hi| |exact Hd]); exfalso; revert Hd; apply (plain_no_delay _ cmd fs);
    rewrite !elem_of_cons; repeat first [left; reflexivity|right].
Qed.

(** ** The queue of a federate *)

Definition outcome_result (o : outcome) : MPR.message_processing_result :=
  match o with returned ret => ret | waiting => MPR.continue_processing end.

Definition push_cmd cmd fs : FederateState :=
  fs <| delayQueues ::= push_delayed (ActionMessage.source_id cmd) cmd |>.

Lemma push_inv cmd fs :
  cmd_ok cmd -> ActionMessage.source_id cmd <> me -> fed_inv fs -> fed_inv (push_cmd cmd fs).
Proof. intros Hc Hne []. split; try done. by apply push_delayed_ok. Qed.

Lemma push_step_ok cmd fs r :
  fed_inv fs -> step_ok (push_cmd cmd fs) r -> step_ok fs r.
Proof. intros Hi []. by split. Qed.

(** The result of a queue that is processed: where it stopped, and that the
    commands before are used up. *)
Definition queue_ok incoming fs (x : option (outcome * list ActionMessage * FederateState)) : Prop :=
  exists o consumed rest fs', x = Some (o, rest, fs') /\ incoming = consumed ++ rest /\
    (o = waiting -> rest = []) /\ step_ok fs (outcome_result o, fs').

Lemma queue_ok_cons cmd incoming fs fs1 ret x :
  step_ok fs (ret, fs1) -> MPR.returnableResult ret = false ->
  queue_ok incoming fs1 x -> queue_ok (cmd :: incoming) fs x.
Proof.
  intros Hs Hr (o & consumed & rest & fs' & -> & -> & Hw & Hok).
  exists o, (cmd :: consumed), rest, fs'. split_and!; try done. by eapply step_ok_seq.
Qed.

Lemma process_incoming_ok depth incoming : forall ret fs,
  Forall cmd_ok incoming -> fed_inv fs -> MPR.returnableResult ret = false ->
  queue_ok incoming fs (process_incoming fmt_format (S (S depth)) incoming ret fs).
Proof.
  induction incoming as [|cmd incoming IH]; intros ret fs Hall Hi Hr;
    cbn -[processActionMessage]; rewrite Hr; pose proof (quiet_ok _ _ Hi (reflexivity fs)) as [Hid _].
  { exists waiting, [], [], fs. done. }
  apply Forall_cons in Hall as [Hc Hall]. destruct (messageShouldBeDelayed cmd fs) eqn:Ed.
  - assert (ActionMessage.source_id cmd <> me) as Hne.
    { intros E. apply messageShouldBeDelayed_elem in Ed. rewrite E in Ed. by apply (inv_delayed fs Hi). }
    pose proof (push_inv cmd fs Hc Hne Hi) as Hpi. eapply (queue_ok_cons _ _ _ (push_cmd cmd fs) ret); [|done|by apply IH].
    apply (push_step_ok cmd); [done|]. apply stay_ok; [done|done|]. by intros _ [-> | ->].
  - destruct (process_ok depth cmd fs Hc Hi) as ([ret1 fs1] & E & Hs). rewrite E.
    change (mbind ?f (Some ?x)) with (f x). cbn beta iota.
    destruct (MPR.returnableResult ret1) eqn:Er.
    + exists (returned ret1), [cmd], incoming, fs1.
      destruct incoming; cbn; rewrite Er; destruct ret1; split_and!; done.
    + eapply queue_ok_cons; [|exact Er|apply IH; [done| |done]]; destruct ret1; try done; try apply Hs.
      * destruct Hs. split; try done. apply push_inv; [done| |done]. exact (dispatch_delay _ cmd fs fs1 Hi E).
      * apply push_inv; [done| |apply Hs]. exact (dispatch_delay _ cmd fs fs1 Hi E).
Qed.

Lemma processQueue_ok depth incoming fs :
  Forall cmd_ok incoming -> fed_inv fs ->
  queue_ok incoming fs (processQueue fmt_format (S (S depth)) incoming fs).
Proof.
  intros Hall Hi. unfold processQueue.
  assert (forall ret, (~ grants ret) -> queue_ok incoming fs (Some (returned ret, incoming, fs))) as Hstop.
  { intros ret Hg. exists (returned ret), [], incoming, fs. split_and!; try done. by apply stay_ok. }
  case_match; [apply Hstop; by intros [?|?]|]. case_match; [apply Hstop; by intros [?|?]|].
  destruct (processDelayQueue_ok _ (process_others (S depth)) fs Hi) as ([ret fs1] & -> & Hs). cbn [mbind option_bind].
  destruct (MPR.returnableResult ret) eqn:Er.
  - exists (returned ret), [], incoming, fs1. destruct incoming; cbn; rewrite Er; split_and!; done.
  - destruct (process_incoming_ok depth incoming ret fs1 Hall ltac:(apply Hs) Er)
      as (o & consumed & rest & fs' & -> & -> & Hw & Hok).
    exists o, consumed, rest, fs'. split_and!; try done. by eapply step_ok_seq.
Qed.
End Federate.

(** ** Claims *)

Section Claims.
Context `{Platform} {C : Type -> Type} `{DualMapped C} (fmt_format : string -> list string -> string).

(** C8: The processing of the queue ends.  For a federate whose coordinator and
    delayed commands are consistent, and any sequence of incoming commands, two
    levels of nesting are enough: the commands are used in order until one
    gives a result to the caller or none is left, and the federate is
    consistent again, none of its own commands being delayed. *)
Theorem federate_queue_ends (me : global_federate_id) (incoming : list ActionMessage)
    (fs : @Fed.FederateState C) :
  fed_inv me fs -> Forall (cmd_ok me) incoming ->
  exists o consumed rest fs',
    processQueue fmt_format 2 incoming fs = Some (o, rest, fs') /\
    incoming = consumed ++ rest /\ (o = waiting -> rest = []) /\ fed_inv me fs'.
Proof.
  intros Hi Hall.
  destruct (processQueue_ok fmt_format me 0 incoming fs Hall Hi) as (o & consumed & rest & fs' & E & E2 & Hw & Hs).
  exists o, consumed, rest, fs'. split_and!; try done. apply Hs.
Qed.

(** C7: The life of a federate.  Whatever commands arrive, its state never goes
    back: it is initializing only if it was or if it was just created and now
    returns, it is executing only if it was or if it was initializing and
    returns with the next step, and a federate that executes and returns with
    a granted time shows the time and the allowed send time of its
    coordinator. *)
Theorem federate_lifecycle (me : global_federate_id) (depth : nat) (incoming rest : list ActionMessage)
    (fs fs' : @Fed.FederateState C) (o : outcome) :
  fed_inv me fs -> Forall (cmd_ok me) incoming ->
  processQueue fmt_format (S (S depth)) incoming fs = Some (o, rest, fs') ->
  rank (state fs) <= rank (state fs') /\
  (state fs' = HELICS_INITIALIZING ->
    state fs = HELICS_INITIALIZING \/
    (state fs = HELICS_CREATED /\ MPR.returnableResult (outcome_result o) = true)) /\
  (state fs' = HELICS_EXECUTING ->
    state fs = HELICS_EXECUTING \/ (state fs = HELICS_INITIALIZING /\ o = returned MPR.next_step)) /\
  (state fs = HELICS_EXECUTING -> grants (outcome_result o) -> shows_grant fs').
Proof.
  intros Hi Hall E.
  destruct (processQueue_ok fmt_format me depth incoming fs Hall Hi) as (o' & ? & ? & ? & E2 & _ & _ & []).
  rewrite E in E2. injection E2 as <- <- <-. cbn [fst snd] in *. split; [done|]. split; [done|]. split.
  - intros Ex. destruct (ok_exec0 Ex) as [?|[? Ho]]; [by left|]. right. split; [done|].
    destruct o; [cbn in Ho; by subst|done].
  - intros Es. apply ok_grant0. by rewrite Es.
Qed.

(** A source connected twice.  An input that is connected two times to one
    publication shows an empty value whatever is published: the payload is
    moved into the record of the first connection and what is left of it is
    added to the same queue by the second. *)
Theorem duplicate_source_blanks (cmd : ActionMessage) (tc : TimeCoordinator) (g : global_handle)
    (k ty un : string) :
  actionTime cmd <= T.maxVal ->
  let inp := addSource (getSource cmd) ty un (addSource (getSource cmd) ty un (new_input g k ty un)) in
  let '(_, inp', _) := fold_left (receive_from cmd) (input_sources inp) (payload cmd, inp, tc) in
  getData_at 0 (snd (updateTimeInclusive (actionTime cmd) inp')) = Some ""%string.
Proof.
  intros Ht inp. set (h := getSource cmd).
  change (fold_left (receive_from cmd) (input_sources inp)) with (fold_left (receive_from cmd) [h; h]).
  assert (forall p i t, receive_from cmd (p, i, t) h =
    (""%string, addData h (actionTime cmd) (counter cmd) (Some p) i,
     if negb (not_interruptible (addData h (actionTime cmd) (counter cmd) (Some p) i))
     then updateValueTime (actionTime cmd) t else t)) as Hrec.
  { intros p i t. unfold receive_from. subst h. cbn. by rewrite !Z.eqb_refl. }
  cbn [fold_left]. rewrite !Hrec. clear Hrec.
  assert (Handle.eqb h h = true) as Eh by by apply HandleFacts.eqb_eq.
  assert (T.maxVal <? actionTime cmd = false) as Et by lia.
  assert (forall q d, addData h (actionTime cmd) (counter cmd) d (inp <| data_queues := [q; []] |>) =
    inp <| data_queues := [add_to_queue (mkRecord (actionTime cmd) (counter cmd) d) q; []] |>) as Hadd.
  { intros q d. unfold addData.
    change (source_index h _) with (if Handle.eqb h h then Some 0%nat else S <$> source_index h [h]). rewrite Eh.
    change (nth 0 (deactivated (inp <| data_queues := [q; []] |>)) T.maxVal) with T.maxVal. by rewrite Et. }
  change inp with (inp <| data_queues := [[]; []] |>). rewrite !Hadd.
  unfold add_to_queue at 2. cbn [last app]. unfold add_to_queue. cbn [last rtime].
  rewrite Z.ltb_irrefl. cbn [upper_insert]. unfold recordComparison. cbn [rtime riteration].
  rewrite Z.ltb_irrefl, Z.eqb_refl, Z.ltb_irrefl.
  unfold updateTimeInclusive, update_with, take_inclusive. cbn. rewrite Z.ltb_irrefl. cbn.
  by rewrite Z.leb_refl.
Qed.

End Claims.

(** *** A federate to apply them to *)

Section Example_.
Import ListContainer.
#[local] Existing Instance list_container.
#[local] Existing Instance x86_64.

(** A federate that was just registered, and its admission to initialization. *)
Definition registered_federate : @Fed.FederateState C :=
  new_federate "load" <| Fed.global_id := 131072 |>
    <| timeCoord := new_coordinator <| TimeCoordinator.source_id := 131072 |> |>.

Definition admission : list ActionMessage := [newMessage cmd_init_grant].

Lemma registered_inv : fed_inv 131072 registered_federate.
Proof.
  split; [split; [|done]|done|apply not_elem_of_nil|constructor].
  destruct new_coordinator_inv. by split.
Qed.

Lemma admission_ok : Forall (cmd_ok 131072) admission.
Proof. apply Forall_singleton. by split. Qed.

Lemma federate_queue_ends_witness :
  exists o consumed rest fs',
    processQueue (fun f _ => f) 2 admission registered_federate = Some (o, rest, fs') /\
    admission = consumed ++ rest /\ (o = waiting -> rest = []) /\ fed_inv 131072 fs'.
Proof. apply federate_queue_ends; [apply registered_inv|apply admission_ok]. Defined.

Lemma federate_lifecycle_witness :
  exists o rest fs', processQueue (fun f _ => f) 2 admission registered_federate = Some (o, rest, fs') /\
    state fs' = HELICS_INITIALIZING /\ rank (state registered_federate) <= rank (state fs').
Proof.
  eexists _, _, _. split; [reflexivity|]. split; [reflexivity|].
  apply (federate_lifecycle (fun f _ => f) 131072 0 admission [] registered_federate _
    (returned MPR.next_step) registered_inv admission_ok). reflexivity.
Defined.

Lemma duplicate_source_blanks_witness :
  let cmd := newMessage cmd_pub <| ActionMessage.source_id := 131073 |> <| source_handle := 4 |>
               <| actionTime := 700 |> <| payload := "7"%string |> in
  let inp := addSource (getSource cmd) "double" "V" (addSource (getSource cmd) "double" "V"
               (new_input (GlobalHandle 131072 1) "in" "double" "V")) in
  let '(_, inp', _) := fold_left (receive_from cmd) (input_sources inp) (payload cmd, inp, new_coordinator) in
  getData_at 0 (snd (updateTimeInclusive 700 inp')) = Some ""%string.
Proof.
  intros cmd. apply (duplicate_source_blanks cmd new_coordinator (GlobalHandle 131072 1) "in" "double" "V").
  discriminate.
Defined.
End Example_.
