(* ===== verification/FederateCalls.v ===== *)
(** * A federate: the calls in which it waits

    Models the functions of [src/helics/core/FederateState.cpp] by which a
    federate enters a mode, requests a time or ends: each puts its request into
    the queue of the federate and processes the queue until it has an answer.
    The queue holds the commands in [pushed]; those that arrive while the call
    runs are an argument.  A reading of the clock is an argument too, in
    nanoseconds.

    The flag [processing] is a lock.  Of the callers that come at the same time
    one processes the queue, by the function [*_first]; each of the others
    waits for the lock and answers from the state it then finds, by the
    function [*_late].  *)

From S2P Require Import Prelude HTime Identifiers CoreData ActionMessage CoreTypes TimeDependencies TimeCoordinator NamedInputInfo EndpointInfo InterfaceInfo HandleManager MessageTimer FederateState.
Import Fed Timer.

(** A call gives a value, or waits for commands that have not arrived. *)
Inductive reply (A : Type) := replied (a : A) | blocked.
Arguments replied {A} a.
Arguments blocked {A}.

(** [static_cast<iteration_result>]; two codes are outside of the enumeration *)
Definition to_iteration_result (ret : MPR.message_processing_result) : option ItRes.iteration_result :=
  match ret with
  | MPR.next_step => Some ItRes.next_step
  | MPR.iterating => Some ItRes.iterating
  | MPR.halted => Some ItRes.halted
  | MPR.error => Some ItRes.error
  | MPR.continue_processing | MPR.delay_message => None
  end.

Record iteration_time := mkIterationTime { grantedTime : Time; result_state : ItRes.iteration_result }.

Module FedCalls.
Section Calls.
Context `{Platform} {C : Type -> Type} `{DualMapped C} `{SteadyTimers}.
Context (fmt_format : string -> list string -> string) (depth : nat).
Local Abbreviation FederateState := (Fed.FederateState (C := C)).

(** What a federate keeps for its real-time mode. *)
Record RealTime := mkRealTime {
  mTimer : option MessageTimer;
  start_clock_time : Z;
  realTimeTimerIndex : Z;
}.

#[global] Instance RealTime_settable : Settable RealTime := fun r =>
  mkRealTime (mTimer r) (start_clock_time r) (realTimeTimerIndex r).

Definition no_timer : RealTime := mkRealTime None 0 (-1).

(** [processQueue] on the queue of the federate; what it does not use stays in
    the queue. *)
Definition serve (arriving : list ActionMessage) (fs : FederateState) : option (outcome * FederateState) :=
  '(o, rest, fs') ← processQueue fmt_format depth (pushed fs ++ arriving) (fs <| pushed := [] |>);
  Some (o, fs' <| pushed ::= fun own => rest ++ own |>).

(** The queue processed, and what follows with the result. *)
Definition serving {A} (arriving : list ActionMessage) (fs : FederateState)
    (k : MPR.message_processing_result -> FederateState -> option (reply A * FederateState))
    : option (reply A * FederateState) :=
  '(o, fs) ← serve arriving fs;
  match o with waiting => Some (blocked, fs) | returned ret => k ret fs end.

(** The flags of a request to iterate. *)
Definition request_flags (iterate : iteration_request) (cmd : ActionMessage) : ActionMessage :=
  match iterate with
  | force_iteration => setActionFlag required_flag (setActionFlag iteration_requested_flag cmd)
  | iterate_if_needed => setActionFlag iteration_requested_flag cmd
  | no_iterations => cmd
  end.

(** ** Set up *)

Definition waitSetup_first (arriving : list ActionMessage) (fs : FederateState)
    : option (reply ItRes.iteration_result * FederateState) :=
  serving arriving fs (fun ret fs => r ← to_iteration_result ret; Some (replied r, fs)).

(** [None]: the call begins anew *)
Definition waitSetup_late (fs : FederateState) : option ItRes.iteration_result :=
  match state fs with
  | HELICS_CREATED => None
  | HELICS_ERROR => Some ItRes.error
  | HELICS_FINISHED => Some ItRes.halted
  | _ => Some ItRes.next_step
  end.

(** ** Modes *)

Definition enterInitializingMode_first (arriving : list ActionMessage) (fs : FederateState)
    : option (reply ItRes.iteration_result * FederateState) :=
  serving arriving fs (fun ret fs =>
    let fs := match ret with
              | MPR.next_step => fs <| time_granted := initialTime |> <| allowed_send_time := initialTime |>
              | _ => fs
              end in
    r ← to_iteration_result ret; Some (replied r, fs)).

Definition enterInitializingMode_late (fs : FederateState) : option ItRes.iteration_result :=
  match state fs with
  | HELICS_ERROR => Some ItRes.error
  | HELICS_FINISHED => Some ItRes.halted
  | HELICS_CREATED => None
  | _ => Some ItRes.next_step
  end.

Definition exec_command (iterate : iteration_request) (fs : FederateState) : ActionMessage :=
  request_flags iterate (newMessage cmd_exec_request <| ActionMessage.source_id := Fed.global_id fs |>).

(** the values that are due when execution is entered, or iterated *)
Definition exec_events (iterate : iteration_request) (ret : MPR.message_processing_result) (fs : FederateState)
    : FederateState :=
  match iterate with
  | force_iteration => fillEventVectorNextIteration (Fed.time_granted fs) fs
  | iterate_if_needed =>
      match ret with
      | MPR.next_step => fillEventVectorUpTo (Fed.time_granted fs) fs
      | _ => fillEventVectorNextIteration (Fed.time_granted fs) fs
      end
  | no_iterations => fillEventVectorUpTo (Fed.time_granted fs) fs
  end.

(** The clock is read when the first step is granted. *)
Definition enterExecutingMode_first (now : Z) (iterate : iteration_request) (arriving : list ActionMessage)
    (rt : RealTime) (fs : FederateState) : option (reply (ItRes.iteration_result * RealTime) * FederateState) :=
  serving arriving (addAction (exec_command iterate fs) fs) (fun ret fs =>
    let fs := match ret with
              | MPR.next_step => fs <| Fed.time_granted := T.timeZero |>
                                    <| Fed.allowed_send_time := allowedSendTime (timeCoord fs) |>
              | _ => fs
              end in
    let fs := exec_events iterate ret fs in
    let rt := match ret with
              | MPR.next_step =>
                  if realtime fs
                  then rt <| mTimer ::= fun m => Some (default new_timer m) |> <| start_clock_time := now |>
                  else rt
              | _ => rt
              end in
    r ← to_iteration_result ret; Some (replied (r, rt), fs)).

Definition enterExecutingMode_late (fs : FederateState) : ItRes.iteration_result :=
  match state fs with
  | HELICS_ERROR => ItRes.error
  | HELICS_FINISHED => ItRes.halted
  | HELICS_EXECUTING => ItRes.next_step
  | _ => ItRes.iterating
  end.

(** ** Time *)

(** The readings of the clock in a request: by the request, by the timer that
    may be added for it and by the callback this timer may make at once, and
    after the grant. *)
Record readings := mkReadings { asked_at : Z; added_at : Z; called_at : Z; granted_at : Z }.

Definition time_command (nextTime : Time) (iterate : iteration_request) (fs : FederateState) : ActionMessage :=
  request_flags iterate
    (newMessage cmd_time_request <| ActionMessage.source_id := Fed.global_id fs |> <| actionTime := nextTime |>).

Definition force_command (nextTime : Time) (fs : FederateState) : ActionMessage :=
  newMessage cmd_force_time_grant <| ActionMessage.source_id := Fed.global_id fs |> <| actionTime := nextTime |>.

Definition to_ns (t : Time) : Z := T.to_count t Units.ns.

(** The grant that is forced when the clock is [rt_lag] behind the request.
    [None]: the pointer to the timer is null. *)
Definition arm_force (clock : readings) (nextTime : Time) (rt : RealTime) (fs : FederateState)
    : option (RealTime * FederateState) :=
  if realtime fs && (rt_lag fs <? T.maxVal) then
    let timegap := int64 (asked_at clock - start_clock_time rt) in
    let current_lead := int64 (to_ns (nextTime +t rt_lag fs) - timegap) in
    let tforce := force_command nextTime fs in
    if 0 <? current_lead then
      timer ← mTimer rt;
      let expiration := int64 (asked_at clock + current_lead) in
      if realTimeTimerIndex rt <? 0 then
        let '(index, sent, timer) := addTimer (added_at clock) (called_at clock) expiration tforce timer in
        Some (rt <| mTimer := Some timer |> <| realTimeTimerIndex := index |>,
              fold_left (fun fs m => addAction m fs) sent fs)
      else
        Some (rt <| mTimer := Some (updateTimer_message (realTimeTimerIndex rt) expiration tforce timer) |>, fs)
    else Some (rt, addAction tforce fs)
  else Some (rt, fs).

(** the values that are due when a time is granted *)
Definition time_events (iterate : iteration_request) (nextTime : Time) (fs : FederateState) : FederateState :=
  let t := Fed.time_granted fs in
  match iterate with
  | force_iteration => fillEventVectorNextIteration t fs
  | iterate_if_needed => if t <? nextTime then fillEventVectorNextIteration t fs else fillEventVectorUpTo t fs
  | no_iterations => if t <? nextTime then fillEventVectorInclusive t fs else fillEventVectorUpTo t fs
  end.

(** The sleep that holds back a grant that is early, in nanoseconds. *)
Definition lead_sleep (clock : readings) (ret : MPR.message_processing_result) (rt : RealTime) (fs : FederateState)
    : Z :=
  match ret with
  | MPR.next_step =>
      let timegap := int64 (granted_at clock - start_clock_time rt) in
      if rt_lead fs <? (Fed.time_granted fs -t CountTime.convert_ns ticksExp timegap) then
        let current_lead := int64 (to_ns (Fed.time_granted fs -t rt_lead fs) - timegap) in
        if 5000000 <? current_lead then current_lead else 0
      else 0
  | _ => 0
  end.

(** What follows the grant in real time: the timer is cancelled. *)
Definition settle (clock : readings) (ret : MPR.message_processing_result) (rt : RealTime) (fs : FederateState)
    : option (RealTime * Z) :=
  if realtime fs then
    rt ← (if rt_lag fs <? T.maxVal
          then timer ← mTimer rt; Some (rt <| mTimer := Some (cancelTimer (realTimeTimerIndex rt) timer) |>)
          else Some rt);
    Some (rt, lead_sleep clock ret rt fs)
  else Some (rt, 0).

(** The answer, what is kept for the real-time mode, and the sleep before it. *)
Definition requestTime_first (clock : readings) (nextTime : Time) (iterate : iteration_request)
    (arriving : list ActionMessage) (rt : RealTime) (fs : FederateState)
    : option (reply (iteration_time * RealTime * Z) * FederateState) :=
  let fs := addAction (time_command nextTime iterate fs) (fs <| events := [] |>) in
  '(rt, fs) ← arm_force clock nextTime rt fs;
  serving arriving fs (fun ret fs =>
    let fs := update_granted fs <| Fed.iterating := match ret with MPR.iterating => true | _ => false end |> in
    r ← to_iteration_result ret;
    let retTime := mkIterationTime (Fed.time_granted fs) r in
    let fs := time_events iterate nextTime fs in
    '(rt, slept) ← settle clock ret rt fs;
    Some (replied (retTime, rt, slept), fs)).

Definition requestTime_late (fs : FederateState) : iteration_time :=
  let ret := if Fed.iterating fs then ItRes.iterating else ItRes.next_step in
  let ret := match state fs with
             | HELICS_FINISHED => ItRes.halted
             | HELICS_ERROR => ItRes.error
             | _ => ret
             end in
  mkIterationTime (Fed.time_granted fs) ret.

(** ** The end *)

Definition genericUnspecifiedQueueProcess_first (arriving : list ActionMessage) (fs : FederateState)
    : option (reply ItRes.iteration_result * FederateState) :=
  serving arriving fs (fun ret fs => r ← to_iteration_result ret; Some (replied r, update_granted fs)).

Definition genericUnspecifiedQueueProcess_late : ItRes.iteration_result := ItRes.next_step.

(** The loop of a caller that alone processes the queue, until an answer is one
    of those at which it stops.  [None]: the fuel is used up, or the nesting of
    delayed commands is too deep. *)
Fixpoint process_until (stops : ItRes.iteration_result -> bool) (fuel : nat) (arriving : list ActionMessage)
    (fs : FederateState) : option (reply unit * FederateState) :=
  match fuel with
  | O => None
  | S fuel =>
      '(o, fs) ← genericUnspecifiedQueueProcess_first arriving fs;
      match o with
      | blocked => Some (blocked, fs)
      | replied ret => if stops ret then Some (replied tt, fs) else process_until stops fuel [] fs
      end
  end.

Definition ends (ret : ItRes.iteration_result) : bool :=
  match ret with ItRes.halted | ItRes.error => true | _ => false end.

Definition finalize (fuel : nat) (arriving : list ActionMessage) (fs : FederateState)
    : option (reply unit * FederateState) :=
  match state fs with
  | HELICS_FINISHED | HELICS_ERROR => Some (replied tt, fs)
  | _ => process_until ends fuel arriving fs
  end.
End Calls.
Arguments RealTime {_}.
End FedCalls.
