(* ===== verification/FederateRequest.v ===== *)
(** * A federate requests a time: properties

    The guarantee of the coordinator about the time delta is carried through
    the queue of the federate to the caller of [requestTime]: whatever commands
    of others are in the queue before the request, behind it, or delayed. *)

From S2P Require Import Prelude HTime Identifiers CoreData ActionMessage Wire CoreTypes TimeDependencies TimeCoordinator TimeCoordinatorFacts TimeCoordinatorSpec TimeAdvance TimeBookkeeping NamedInputInfo EndpointInfo InterfaceInfo HandleManager MessageTimer FederateState FederateSpec FederateCalls.

(** ** The coordinator of a federate in execution *)

Section Coordinator.
Context `{Platform}.
Implicit Types (tc : TimeCoordinator).

(** Before the request, or between the request and the grant: the last granted
    time and the configuration are those given. *)
Definition held (requested : bool) (g : Time) (i : tcoptions) tc : Prop :=
  (if requested then waiting tc else steps_ok tc /\ executionMode tc = true) /\
  time_granted tc = g /\ info tc = i.

Lemma held_same b g i tc tc' : same_times tc tc' -> held b g i tc -> held b g i tc'.
Proof.
  intros Hs (Hh & <- & <-). pose proof Hs as (Eg & _ & _ & _ & _ & Ei & _). split; [|done].
  destruct b; [by eapply same_times_waiting|]. unfold same_times, steps_ok, no_period in *. intuition congruence.
Qed.

(** With no input delay every time can be delayed. *)
Lemma event_ok_max t tc : inputDelay (info tc) = 0 -> t <= T.maxVal -> event_ok t tc.
Proof. unfold event_ok. intros ->. lia. Qed.

Lemma held_request_if_changed b g i tc : held b g i tc -> held b g i (request_if_changed tc).
Proof. apply held_same, request_if_changed_same. Qed.

Lemma held_value b g i t tc :
  inputDelay i = 0 -> t <= T.maxVal -> held b g i tc -> held b g i (updateValueTime t tc).
Proof.
  intros Hd Ht (Hh & <- & <-). destruct b.
  - destruct (updateValueTime_waiting t tc Hh (event_ok_max t tc Hd Ht)) as (? & ? & ?). done.
  - destruct Hh as [Hs Hx]. unfold updateValueTime. rewrite Hx. cbn [negb]. case_if; [|done].
    case_if; [apply held_request_if_changed|]; done.
Qed.

Lemma held_message b g i t tc :
  inputDelay i = 0 -> t <= T.maxVal -> held b g i tc -> held b g i (updateMessageTime t tc).
Proof.
  intros Hd Ht (Hh & <- & <-). destruct b.
  - destruct (updateMessageTime_waiting t tc Hh (event_ok_max t tc Hd Ht)) as (? & ? & ?). done.
  - destruct Hh as [Hs Hx]. unfold updateMessageTime. rewrite Hx. cbn [negb]. case_if; [|done].
    case_if; [apply held_request_if_changed|]; done.
Qed.

Lemma addDependency_same f tc : same_times tc (snd (addDependency f tc)).
Proof. unfold addDependency. destruct (TimeDependencies.addDependency _ _). by case_if. Qed.

Lemma addDependent_same f tc : same_times tc (snd (addDependent f tc)).
Proof. unfold addDependent. destruct (dependents tc) eqn:E; [done|]. destruct (_ !! _); [|done]. by case_if. Qed.

(** The check of the grant while the federate waits. *)
Lemma held_check g i tc :
  held true g i tc ->
  match fst (checkTimeGrant tc) with
  | MPR.continue_processing => held true g i (snd (checkTimeGrant tc))
  | MPR.next_step => g + timeDelta i <= time_granted (snd (checkTimeGrant tc))
  | MPR.halted => True
  | _ => False
  end.
Proof.
  intros Hh. pose proof Hh as (Hw & Hg & Hi). pose proof (checkTimeGrant_cases tc) as Hc.
  pose proof (checkTimeGrant_waits_same tc) as Hsame. pose proof (granting_cases tc) as G.
  pose proof (waiting_exec tc Hw) as Hx. rewrite Hg, Hi in Hx.
  destruct (updateTimeFactors_eq tc) as (u & nx & a & b & E). rewrite E in Hc.
  destruct Hw as (_ & Hit & _).
  destruct (checkTimeGrant tc) as [res tc']. cbn [fst snd] in *.
  destruct Hc as [| | |Hb Hi' _ _|]; try done.
  - destruct (G (or_introl eq_refl)) as (Et & _). by rewrite Et.
  - cbn in Hi'. congruence.
  - by apply (held_same _ _ _ tc); [apply Hsame|].
Qed.
End Coordinator.

Import Fed Timer FedCalls.

(** ** The queue, one command at a time *)

Section Queue.
Context `{Platform} {C : Type -> Type} `{DualMapped C} (fmt_format : string -> list string -> string).
Implicit Types (fs : Fed.FederateState (C := C)) (cmd : ActionMessage).

(** What is left of a command that does not end the processing. *)
Definition kept (ret : MPR.message_processing_result) cmd fs : Fed.FederateState :=
  match ret with MPR.delay_message => push_cmd cmd fs | _ => fs end.

Lemma process_incoming_cons n cmd l ret fs :
  MPR.returnableResult ret = false ->
  process_incoming fmt_format n (cmd :: l) ret fs =
    if messageShouldBeDelayed cmd fs then process_incoming fmt_format n l ret (push_cmd cmd fs)
    else '(ret1, fs1) ← processActionMessage fmt_format n cmd fs;
         process_incoming fmt_format n l ret1 (kept ret1 cmd fs1).
Proof. intros Hr. cbn -[processActionMessage]. by rewrite Hr. Qed.

Lemma process_incoming_stop n l ret fs :
  MPR.returnableResult ret = true ->
  process_incoming fmt_format n l ret fs = Some (returned ret, l, fs).
Proof. intros Hr. destruct l; cbn; by rewrite Hr. Qed.

End Queue.

(** ** The commands of others *)

Section Federate.
Context `{Platform} {C : Type -> Type} `{DualMapped C} (fmt_format : string -> list string -> string).
Context (me : global_federate_id) (g : Time) (i : tcoptions) (no_delay : inputDelay i = 0).
Local Abbreviation FederateState := (Fed.FederateState (C := C)).
Abbreviation result := (MPR.message_processing_result * FederateState)%type.
Implicit Types (fs : FederateState) (cmd : ActionMessage) (b : bool).

(** A command that neither forces a grant nor configures the federate. *)
Definition regular cmd : Prop :=
  cmd_ok me cmd /\
  match messageAction cmd with
  | cmd_force_time_grant | cmd_fed_configure_time | cmd_fed_configure_int | cmd_fed_configure_flag => False
  | _ => True
  end.

(** A federate that executes, before its request or waiting for the grant, or
    that has ended. *)
Record executing b fs : Prop := {
  ex_inv : fed_inv me fs;
  ex_rank : 2 <= rank (state fs);
  ex_held : state fs = HELICS_EXECUTING -> timeGranted_mode fs = negb b /\ held b g i (timeCoord fs);
  ex_queues : Forall (fun e => Forall regular (snd e)) (delayQueues fs);
  ex_realtime : realtime fs = false;
}.

(** The result of a command: a grant is one step, by the time delta at least. *)
Definition advances (r : result) : Prop :=
  fst r = MPR.next_step /\ g + timeDelta i <= TimeCoordinator.time_granted (timeCoord (snd r)).

Definition progress b (r : result) : Prop :=
  realtime (snd r) = false /\
  (MPR.returnableResult (fst r) = false -> executing b (snd r)) /\
  (grants (fst r) -> b = true /\ advances r).

(** What the commands that neither end the federate nor check the grant do. *)
Definition calm b fs fs' : Prop :=
  state fs' = state fs /\ timeGranted_mode fs' = timeGranted_mode fs /\ delayQueues fs' = delayQueues fs /\
  realtime fs' = realtime fs /\ (held b g i (timeCoord fs) -> held b g i (timeCoord fs')).

#[local] Instance calm_preorder b : PreOrder (calm b).
Proof. unfold calm. split; [intros a; naive_solver|]. intros x y z. naive_solver congruence. Qed.

(** What is left to show of a result whose federate is consistent. *)
Definition tracks b fs (r : result) : Prop :=
  realtime (snd r) = realtime fs /\
  (MPR.returnableResult (fst r) = false ->
     (state (snd r) = HELICS_EXECUTING ->
        timeGranted_mode (snd r) = negb b /\ held b g i (timeCoord (snd r))) /\
     delayQueues (snd r) = delayQueues fs) /\
  (grants (fst r) -> b = true /\ advances r).

Lemma tracks_progress b fs r : step_ok me fs r -> executing b fs -> tracks b fs r -> progress b r.
Proof.
  intros [] [] (Hrt & Hx & Hg). split; [by rewrite Hrt|]. split; [|done]. intros Hr. destruct (Hx Hr) as [Hh Eq].
  split; [done|lia|done|by rewrite Eq|by rewrite Hrt].
Qed.

Lemma calm_tracks b fs fs' ret :
  executing b fs -> calm b fs fs' -> (~ grants ret) -> tracks b fs (ret, fs').
Proof.
  intros [] (Es & Em & Eq & Ert & Ht) Hg. split; [done|]. split; [|done]. cbn. rewrite Es, Em. intros _. split; [|done].
  intros E. destruct (ex_held0 E) as [-> Hh]. auto.
Qed.

Lemma carry_tracks b fs fs' : executing b fs -> calm b fs fs' -> tracks b fs (carry_on fs').
Proof. intros. apply calm_tracks; [done|done|]. by intros [?|?]. Qed.

Lemma end_tracks b fs fs' ret :
  state fs' <> HELICS_EXECUTING -> delayQueues fs' = delayQueues fs /\ realtime fs' = realtime fs ->
  (~ grants ret) -> tracks b fs (ret, fs').
Proof. intros Hs [Eq Ert] Hg. split; [done|]. split; [|done]. by cbn. Qed.

(** The check of the grant at the end of a command. *)
Lemma time_check_tracks b fs fs' :
  executing b fs -> calm b fs fs' -> tracks b fs (time_check fs').
Proof.
  intros He (Es & Em & Eq & Ert & Ht). unfold time_check. case_bool_decide as Ex; [by apply end_tracks; [| |intros [?|?]]|].
  destruct He as [_ _ Hh _ _]. rewrite Es in Ex.
  destruct (Hh ltac:(by destruct (decide (state fs = HELICS_EXECUTING)))) as [Emode Hheld].
  rewrite Em, Emode. destruct b; cbn [negb].
  - pose proof (held_check g i _ (Ht Hheld)) as Hc.
    destruct (checkTimeGrant (timeCoord fs')) as [ret tc] eqn:E. cbn [fst snd] in Hc.
    destruct ret; try done; cbn.
    + split; [done|]. split; cbn; [|by intros [?|?]]. intros _. by rewrite Em.
    + split; [done|]. split; [done|]. by intros [?|?].
  - split; [done|]. split; cbn; [|by intros [?|?]]. intros _. rewrite Em, Emode. auto.
Qed.

(** *** The commands one by one *)

Ltac calmly := split; [reflexivity|]; do 3 (split; [reflexivity|]); cbn; auto.

Lemma timing_tracks b cmd follow fs :
  regular cmd -> executing b fs ->
  (forall fs', calm b fs fs' -> tracks b fs (follow fs')) -> tracks b fs (timing cmd follow fs).
Proof.
  intros [_ Hr] He Hf. unfold timing.
  pose proof (processTimeMessage_same cmd (timeCoord fs) ltac:(intros E; by rewrite E in Hr)) as Hs.
  destruct (processTimeMessage cmd (timeCoord fs)) as [res tc]. cbn [snd] in Hs.
  assert (calm b fs (fs <| timeCoord := tc |>)) as Hc by (calmly; by apply held_same).
  destruct res; [by apply carry_tracks|by apply Hf|].
  apply calm_tracks; [done| |by intros [?|?]]. etrans; [exact Hc|].
  destruct (addFederateToDelay_frame (ActionMessage.source_id cmd) (fs <| timeCoord := tc |>)) as (E1 & E2 & _ & E4).
  split; [done|]. split; [|split; [done|split; [|by rewrite E1]]].
  all: unfold addFederateToDelay; by repeat case_match.
Qed.

Lemma exec_check_tracks b fs fs' : executing b fs -> calm b fs fs' -> tracks b fs (exec_check fs').
Proof.
  intros He Hc. unfold exec_check. pose proof (ex_rank _ _ He) as Hr. destruct Hc as (Es & ?).
  rewrite bool_decide_true; [by apply carry_tracks|]. intros E. rewrite Es in E. rewrite E in Hr. cbn in Hr. lia.
Qed.

Lemma put_calm b fs (f : Interfaces.InterfaceInfo C -> Interfaces.InterfaceInfo C) :
  calm b fs (fs <| interfaceInformation ::= f |>).
Proof. calmly. Qed.

Lemma tell_all_calm b rem targets : forall fs, calm b fs (tell_all rem targets fs).
Proof.
  induction targets as [|t targets IH]; intros fs; cbn; [done|].
  etrans; [|apply IH]. unfold routeMessage. case_match; calmly.
Qed.

Lemma closeInterface_calm b h ty fs : calm b fs (closeInterface h ty fs).
Proof.
  unfold closeInterface. repeat case_match; try done; try apply put_calm.
  all: (etrans; [apply tell_all_calm|apply put_calm]).
Qed.

Lemma setInterfaceProperty_calm b cmd fs : calm b fs (setInterfaceProperty cmd fs).
Proof. unfold setInterfaceProperty. repeat case_match; try done; apply put_calm. Qed.

Lemma receive_value_tracks b cmd fs : cmd_ok me cmd -> executing b fs -> tracks b fs (receive_value cmd fs).
Proof.
  intros [Hc _] He. unfold receive_value. case_match; [|by apply carry_tracks].
  match goal with |- context [fold_left (receive_from cmd) ?l ?a] =>
    assert (held b g i (timeCoord fs) -> held b g i (snd (fold_left (receive_from cmd) l a))) as Hf end.
  { generalize (payload cmd) as pl. generalize (timeCoord fs) as tc.
    generalize n at 2 as ipt. generalize (input_sources n) as l.
    induction l as [|src l IH]; intros ipt tc pl Ht; cbn [fold_left]; [done|].
    unfold receive_from at 2. case_match; [|by apply IH]. apply IH. case_match; [by apply held_value|done]. }
  destruct (fold_left _ _ _) as [[pl subI'] tc]. apply carry_tracks; [done|]. calmly.
Qed.

Lemma plain_tracks b cmd fs :
  cmd_ok me cmd -> executing b fs ->
  tracks b fs (receive_message cmd fs) /\ tracks b fs (add_publisher cmd fs) /\
  tracks b fs (add_subscriber cmd fs) /\ tracks b fs (remove_publication cmd fs) /\
  tracks b fs (remove_subscriber cmd fs).
Proof.
  intros [Hc _] He. unfold receive_message, add_publisher, add_subscriber, remove_publication, remove_subscriber.
  split_and!; case_match; apply carry_tracks; try done; try apply put_calm; calmly.
  - by apply held_message.
  - apply held_same, addDependency_same.
  - apply held_same, addDependent_same.
Qed.

Lemma time_block_tracks b cmd fs : regular cmd -> executing b fs -> tracks b fs (time_block_command cmd fs).
Proof.
  intros [_ Hr] He. unfold time_block_command.
  pose proof (processTimeMessage_same cmd (timeCoord fs) ltac:(intros E; by rewrite E in Hr)) as Hs.
  destruct (processTimeMessage cmd (timeCoord fs)) as [res tc]. cbn [snd] in Hs.
  assert (calm b fs (fs <| timeCoord := tc |>)) as Hc by (calmly; by apply held_same).
  clear Hr. destruct res; try by apply carry_tracks. case_match; [|by apply carry_tracks].
  case_match; [by apply exec_check_tracks|]. case_match; [by apply time_check_tracks|by apply carry_tracks].
Qed.

Lemma ending_tracks b cmd fs :
  executing b fs ->
  tracks b fs (MPR.halted, setState HELICS_FINISHED fs) /\ tracks b fs (stop_command fs) /\
  tracks b fs (disconnect_ack cmd fs) /\ tracks b fs (disconnect_own cmd fs) /\
  tracks b fs (error_command cmd fs).
Proof.
  intros He. assert (forall ret, ret <> MPR.next_step -> ret <> MPR.iterating -> ~ grants ret) as Hg.
  { by intros ret ? ? [?|?]. }
  assert (forall s (f : FederateState), rank s = 3 -> s <> HELICS_UNKNOWN -> state (setState s f) <> HELICS_EXECUTING) as Hs.
  { intros s f Hr Hu. rewrite setState_end by done. intros ->. done. }
  assert (forall s (f : FederateState), delayQueues (setState s f) = delayQueues f /\ realtime (setState s f) = realtime f) as Hq.
  { intros s f. split; [apply (setState_frame f s)|]. unfold setState. by repeat case_match. }
  unfold stop_command, disconnect_ack, disconnect_own, error_command. split_and!.
  - apply end_tracks; [by apply Hs|apply Hq|by apply Hg].
  - apply end_tracks; [by apply Hs|apply Hq|by apply Hg].
  - case_match; [|by apply carry_tracks].
    apply end_tracks; [by apply Hs| |by apply Hg]. case_match; [exact (Hq _ (fs <| timeCoord ::= disconnect |>))|apply Hq].
  - case_match; [|by apply carry_tracks].
    apply end_tracks; [case_match; by apply Hs|case_match; exact (Hq HELICS_TERMINATING (fs <| timeCoord ::= disconnect |>))|by apply Hg].
  - apply end_tracks; [by apply Hs|apply Hq|by apply Hg].
Qed.

Lemma dispatch_tracks b cmd fs delayed r :
  regular cmd -> executing b fs ->
  (messageAction cmd = cmd_exec_request \/ messageAction cmd = cmd_time_request -> own_request cmd fs = false) ->
  dispatch fmt_format delayed cmd fs = Some r -> tracks b fs r.
Proof.
  intros Hc He Ho. pose proof Hc as [Hok Hreg]. pose proof (ex_rank _ _ He) as Hr.
  assert (state fs <> HELICS_CREATED) as Hne by (intros E; rewrite E in Hr; cbn in Hr; lia).
  pose proof (ending_tracks b cmd fs He) as (Hend1 & Hend2 & Hend3 & Hend4 & Hend5).
  pose proof (plain_tracks b cmd fs Hok He) as (Hq1 & Hq2 & Hq3 & Hq4 & Hq5).
  pose proof (carry_tracks b fs fs He (reflexivity fs)) as Hid.
  pose proof (exec_check_tracks b fs fs He (reflexivity fs)) as Hx.
  pose proof (time_check_tracks b fs fs He (reflexivity fs)) as Hg.
  pose proof (fun f => timing_tracks b cmd f fs Hc He) as Ht.
  unfold dispatch, init_grant, fed_ack.
  destruct (messageAction cmd) eqn:Ea; rewrite ?Ho, ?(bool_decide_false (state fs = HELICS_CREATED)),
      ?(bool_decide_true (state fs <> HELICS_CREATED)) by auto;
    try done; try (case_match; [|]); intros [= <-];
    auto using time_block_tracks, exec_check_tracks, time_check_tracks, receive_value_tracks.
  all: apply carry_tracks; [done|]; try case_match; try done; auto using closeInterface_calm, setInterfaceProperty_calm.
  all: calmly; apply held_same, dependency_update_same.
Qed.

(** *** Delayed commands *)

Definition progresses b (process : ActionMessage -> FederateState -> option result) : Prop :=
  forall cmd fs r, regular cmd -> executing b fs -> ActionMessage.source_id cmd <> me ->
    process cmd fs = Some r -> progress b r /\ delayQueues (snd r) = delayQueues fs.

Lemma progress_stop b ret fs : executing b fs -> MPR.returnableResult ret = false -> progress b (ret, fs).
Proof. intros He Hr. split; [by apply He|]. split; [done|]. cbn. by intros [-> | ->]. Qed.

Lemma queue_regular b fed fs :
  executing b fs -> Forall (fun c => ActionMessage.source_id c <> me /\ regular c) (delay_queue fed fs).
Proof.
  intros [Hi _ _ Hq _]. pose proof (delay_queue_ok me fed fs Hi) as Ho. apply Forall_and. split.
  { eapply Forall_impl; [exact Ho|]. by intros c []. }
  unfold delay_queue in *. destruct (List.find _ (delayQueues fs)) as [[f q]|] eqn:E; [|constructor].
  apply List.find_some in E as [Hin _]. apply list_elem_of_In in Hin.
  rewrite Forall_forall in Hq. exact (Hq _ Hin).
Qed.

Lemma pop_executing b fed fs : executing b fs -> executing b (pop_delayed fed fs).
Proof.
  intros [Hi Hr Hh Hq Hrt]. split; try done.
  - assert (step_ok me fs (MPR.continue_processing, fs)) as Hs by (apply stay_ok; [done|done|by intros _ [?|?]]).
    apply (pop_ok me fed fs MPR.continue_processing fs Hs).
  - cbn. apply Forall_fmap. eapply Forall_impl; [exact Hq|]. intros e Hf. cbn in *. case_match; [|done].
    cbn. destruct (snd e); [done|]. by apply Forall_cons in Hf as [_ ?].
Qed.

Lemma drain_progress b process fed fuel : forall fs r,
  progresses b process -> executing b fs -> drain process fuel fed fs = Some r -> progress b r.
Proof.
  induction fuel as [|fuel IH]; intros fs r Hp He; [done|]. cbn [drain].
  pose proof (queue_regular b fed fs He) as Hq.
  destruct (delay_queue fed fs) as [|cmd rest] eqn:Eq; [intros [= <-]; by apply progress_stop|].
  apply Forall_cons in Hq as [[Hne Hc] _]. case_match; [intros [= <-]; by apply progress_stop|].
  destruct (process cmd fs) as [[ret fs1]|] eqn:E; [|done]. cbn.
  destruct (Hp cmd fs _ Hc He Hne E) as [(Hrt & Hx & Hg) _]. cbn [fst snd] in *.
  destruct ret; try (intros [= <-]); try (split; [done|split; [done|exact Hg]]).
  - intros Hd. apply (IH _ _ Hp (pop_executing b fed fs1 (Hx eq_refl)) Hd).
Qed.

Lemma drain_all_progress b process feds : forall ret fs r,
  progresses b process -> executing b fs -> MPR.returnableResult ret = false ->
  drain_all process feds ret fs = Some r -> progress b r.
Proof.
  induction feds as [|fed feds IH]; intros ret fs r Hp He Hr; cbn [drain_all].
  - intros [= <-]. by apply progress_stop.
  - destruct (drain process _ fed fs) as [[ret1 fs1]|] eqn:E; [|done]. cbn.
    pose proof (drain_progress b process fed _ fs _ Hp He E) as Hd.
    destruct (MPR.returnableResult ret1) eqn:Er; [by intros [= <-]|]. apply IH; [done|by apply Hd|done].
Qed.

Lemma processDelayQueue_progress b process fs r :
  progresses b process -> executing b fs -> processDelayQueue process fs = Some r -> progress b r.
Proof.
  intros Hp He. unfold processDelayQueue. apply drain_all_progress; [done| |done].
  destruct He as [[] ? ? ? ?]. split; try done. split; try done. apply not_elem_of_nil.
Qed.

Lemma process_progresses b d : progresses b (processActionMessage fmt_format (S d)).
Proof.
  intros cmd fs r Hc He Hne Hp. pose proof Hc as [Hok _].
  destruct (process_others fmt_format me d cmd fs Hok (ex_inv _ _ He) Hne) as (r' & Hp' & [Hs Hq]).
  rewrite Hp in Hp'. injection Hp' as <-. split; [|done].
  apply (tracks_progress b fs); [done|done|]. eapply dispatch_tracks; [exact Hc|exact He| |exact Hp].
  intros _. apply (own_request_other me); [by apply (ex_inv b)|done].
Qed.

(** *** The queue *)

(** A command that is no request of the federate itself. *)
Definition foreign cmd : Prop :=
  regular cmd /\
  (messageAction cmd = cmd_exec_request \/ messageAction cmd = cmd_time_request ->
     (ActionMessage.source_id cmd =? me) && (dest_id cmd =? parent_broker_id) = false).

(** A grant of the queue advances the time; without a request there is none. *)
Definition settled b (o : outcome) fs : Prop :=
  match o with
  | returned ret => realtime fs = false /\ (grants ret -> b = true /\ advances (ret, fs))
  | Fed.waiting => True
  end.

Lemma push_executing b cmd fs :
  regular cmd -> ActionMessage.source_id cmd <> me -> executing b fs -> executing b (push_cmd cmd fs).
Proof.
  intros Hc Hne [Hi Hr Hh Hq Hrt]. split; try done; [apply push_inv; [by destruct Hc|done|done]|]. cbn. clear Hh Hrt.
  induction (delayQueues fs) as [|[f q] m IH]; cbn; [by apply Forall_singleton, Forall_singleton|].
  apply Forall_cons in Hq as [Hq Hm]. repeat case_match; (constructor; [|auto]); cbn; try done.
  - apply Forall_app. split; [done|]. by apply Forall_singleton.
  - by apply Forall_singleton.
Qed.

Lemma process_progress b d cmd fs ret fs' :
  foreign cmd -> executing b fs ->
  processActionMessage fmt_format (S (S d)) cmd fs = Some (ret, fs') -> progress b (ret, fs').
Proof.
  intros [Hc Ho] He Hp. pose proof Hc as [Hok _].
  assert (messageAction cmd = cmd_exec_request \/ messageAction cmd = cmd_time_request -> own_request cmd fs = false) as Ho'.
  { unfold own_request. by rewrite (inv_id me fs (ex_inv b fs He)). }
  destruct (process_ok fmt_format me d cmd fs Hok (ex_inv _ _ He)) as (r & Hp' & Hs).
  rewrite Hp in Hp'. injection Hp' as <-.
  apply (tracks_progress b fs); [done|done|]. by eapply dispatch_tracks.
Qed.

Lemma kept_executing b d cmd fs ret fs' :
  foreign cmd -> executing b fs -> MPR.returnableResult ret = false ->
  processActionMessage fmt_format (S (S d)) cmd fs = Some (ret, fs') -> executing b (kept ret cmd fs').
Proof.
  intros Hc He Hr Hp. destruct (process_progress b d cmd fs ret fs' Hc He Hp) as (_ & Hx & _). specialize (Hx Hr). cbn in Hx.
  unfold kept. destruct ret; try done. apply push_executing; [apply Hc| |done].
  exact (dispatch_delay fmt_format me _ cmd fs fs' (ex_inv _ _ He) Hp).
Qed.

Lemma delayed_other cmd fs :
  fed_inv me fs -> messageShouldBeDelayed cmd fs = true -> ActionMessage.source_id cmd <> me.
Proof. intros Hi Hd E. apply messageShouldBeDelayed_elem in Hd. rewrite E in Hd. by apply (inv_delayed me fs Hi). Qed.

(** Foreign commands, and then what follows. *)
Lemma incoming_foreign b d l more : forall ret fs o rest fs',
  Forall foreign l -> executing b fs -> MPR.returnableResult ret = false ->
  (forall ret fs, executing b fs -> MPR.returnableResult ret = false ->
     process_incoming fmt_format (S (S d)) more ret fs = Some (o, rest, fs') -> settled true o fs') ->
  process_incoming fmt_format (S (S d)) (l ++ more) ret fs = Some (o, rest, fs') -> settled true o fs'.
Proof.
  induction l as [|cmd l IH]; intros ret fs o rest fs' Hl He Hr Hmore; [by apply Hmore|].
  apply Forall_cons in Hl as [Hc Hl]. cbn [app]. rewrite process_incoming_cons by done.
  destruct (messageShouldBeDelayed cmd fs) eqn:Ed.
  - apply IH; [done| |done|done]. apply push_executing; [apply Hc| |done]. eapply delayed_other; [apply He|done].
  - destruct (processActionMessage fmt_format (S (S d)) cmd fs) as [[ret1 fs1]|] eqn:E; [|done]. cbn [mbind option_bind].
    destruct (MPR.returnableResult ret1) eqn:Er.
    + rewrite process_incoming_stop by done. intros [= <- _ <-].
      destruct (process_progress b d cmd fs ret1 fs1 Hc He E) as (Hrt & _ & Hg). cbn [fst] in Hg.
      split; [by destruct ret1|]. intros Hgr.
      destruct (Hg Hgr) as [_ Ha]. split; [done|]. destruct Hgr as [-> | ->]; exact Ha.
    + apply IH; [done| |done|done]. by eapply kept_executing.
Qed.

Lemma incoming_waiting d l ret fs o rest fs' :
  Forall foreign l -> executing true fs -> MPR.returnableResult ret = false ->
  process_incoming fmt_format (S (S d)) l ret fs = Some (o, rest, fs') -> settled true o fs'.
Proof.
  intros Hl He Hr Hp. rewrite <- (app_nil_r l) in Hp. revert Hp. apply (incoming_foreign true d l []); try done.
  intros ret' fs1 _ Hr'. cbn. rewrite Hr'. by intros [= <- _ _].
Qed.

(** *** The request itself *)

Lemma fold_least_max {A} (f : Time -> A -> Time) (l : list A) : forall a,
  (forall a x, f a x <= a) -> a <= T.maxVal -> fold_left f l a <= T.maxVal.
Proof. induction l as [|x l IH]; intros a Hf Ha; cbn; [done|]. apply IH; [done|]. specialize (Hf a x). lia. Qed.

Lemma nextValueTime_max fs : nextValueTime fs <= T.maxVal.
Proof. apply fold_least_max; [|done]. intros a x. cbn. case_if; breflect; lia. Qed.

Lemma nextMessageTime_max fs : nextMessageTime fs <= T.maxVal.
Proof. apply fold_least_max; [|done]. intros a x. cbn. case_if; breflect; lia. Qed.

Lemma own_time_request d t fs r :
  t <= T.maxVal -> executing false fs ->
  processActionMessage fmt_format (S (S d)) (time_command t no_iterations fs) fs = Some r -> progress true r.
Proof.
  intros Ht [Hi Hr Hh Hq Hrt].
  change (processActionMessage fmt_format (S (S d)) (time_command t no_iterations fs) fs) with
    (if own_request (time_command t no_iterations fs) fs then
       after_delayed (processDelayQueue (processActionMessage fmt_format (S d))) time_check
         (fs <| timeCoord ::= timeRequest t no_iterations (nextValueTime fs) (nextMessageTime fs) |>
             <| timeGranted_mode := false |>)
     else Some (timing (time_command t no_iterations fs) time_check fs)).
  unfold own_request. change (ActionMessage.source_id (time_command t no_iterations fs)) with (Fed.global_id fs).
  rewrite Z.eqb_refl. cbn [andb]. change (dest_id _ =? parent_broker_id) with true. cbn iota.
  set (fs1 := fs <| timeCoord ::= _ |> <| timeGranted_mode := false |>).
  assert (executing true fs1) as He1.
  { split; [| |intros Es|done|done]; [|done|].
    - eapply quiet_inv; [|exact Hi]. split; [done|]. do 3 (split; [done|]). apply tc_ok_request.
    - destruct (Hh Es) as (_ & (Hs & Hx) & Hg & Hinf). split; [done|]. rewrite <- Hinf in no_delay.
      destruct (timeRequest_waiting (timeCoord fs) t (nextValueTime fs) (nextMessageTime fs) Hs Hx)
        as (? & ? & ?); [apply event_ok_max; auto using nextValueTime_max, nextMessageTime_max..|].
      split; [done|]. cbn. split; congruence. }
  unfold after_delayed.
  destruct (processDelayQueue _ fs1) as [[ret fs2]|] eqn:E; [|done]. cbn [mbind option_bind].
  pose proof (processDelayQueue_progress true _ fs1 _ (process_progresses true d) He1 E) as Hp.
  destruct (MPR.returnableResult ret) eqn:Er; [by intros [= <-]|]. intros [= <-].
  destruct Hp as (_ & Hp & _). specialize (Hp Er). cbn [snd] in Hp.
  apply (tracks_progress true fs2); [|done|by apply time_check_tracks].
  apply (time_check_ok me fs2), (ex_inv true fs2 Hp).
Qed.

(** The queue with the request in it. *)
Lemma incoming_request d t before arriving ret fs0 o rest fs' :
  t <= T.maxVal -> Forall foreign before -> Forall foreign arriving -> MPR.returnableResult ret = false ->
  executing false fs0 ->
  process_incoming fmt_format (S (S d)) (before ++ time_command t no_iterations fs0 :: arriving) ret fs0
    = Some (o, rest, fs') ->
  settled true o fs'.
Proof.
  intros Ht Hb Ha Hr He.
  assert (forall fs1, executing false fs1 -> time_command t no_iterations fs0 = time_command t no_iterations fs1) as Hid.
  { intros fs1 He1. unfold time_command.
    by rewrite (inv_id me fs0 (ex_inv false fs0 He)), (inv_id me fs1 (ex_inv false fs1 He1)). }
  apply (incoming_foreign false); try done. intros ret1 fs1 He1 Hr1. rewrite process_incoming_cons by done.
  rewrite (Hid fs1 He1). set (treq := time_command t no_iterations fs1).
  assert (ActionMessage.source_id treq = me) as Hme by apply (inv_id me fs1 (ex_inv false fs1 He1)).
  destruct (messageShouldBeDelayed treq fs1) eqn:Ed.
  { exfalso. by apply (delayed_other treq fs1 (ex_inv false fs1 He1)). }
  destruct (processActionMessage fmt_format (S (S d)) treq fs1) as [[ret2 fs2]|] eqn:E; [|done].
  cbn [mbind option_bind]. destruct (own_time_request d t fs1 _ Ht He1 E) as (Hrt & Hx & Hg). cbn [fst snd] in *.
  assert (kept ret2 treq fs2 = fs2) as ->.
  { destruct ret2; try done. exfalso.
    by apply (dispatch_delay fmt_format me _ treq fs1 fs2 (ex_inv false fs1 He1) E). }
  destruct (MPR.returnableResult ret2) eqn:Er.
  - rewrite process_incoming_stop by done. intros [= <- _ <-]. by split.
  - apply incoming_waiting; auto.
Qed.

Lemma processQueue_request d t before arriving fs o rest fs' :
  t <= T.maxVal -> Forall foreign before -> Forall foreign arriving -> executing false fs ->
  processQueue fmt_format (S (S d)) (before ++ time_command t no_iterations fs :: arriving) fs = Some (o, rest, fs') ->
  settled true o fs'.
Proof.
  intros Ht Hb Ha He. unfold processQueue.
  case_bool_decide; [intros [= <- _ <-]; split; [apply He|by intros [?|?]]|].
  case_bool_decide; [intros [= <- _ <-]; split; [apply He|by intros [?|?]]|].
  destruct (processDelayQueue _ fs) as [[ret fs1]|] eqn:E; [|done]. cbn [mbind option_bind].
  pose proof (processDelayQueue_progress false _ fs _ (process_progresses false (S d)) He E) as (Hrt & Hx & Hg).
  cbn [fst snd] in *. destruct (MPR.returnableResult ret) eqn:Er.
  - rewrite process_incoming_stop by done. intros [= <- _ <-]. split; [done|]. intros Hgr. by destruct (Hg Hgr).
  - assert (time_command t no_iterations fs = time_command t no_iterations fs1) as ->.
    { unfold time_command.
      by rewrite (inv_id me fs (ex_inv false fs He)), (inv_id me fs1 (ex_inv false fs1 (Hx eq_refl))). }
    apply incoming_request; auto.
Qed.
End Federate.

(** What the queue returns is a result for the caller. *)
Section Results.
Context `{Platform} {C : Type -> Type} `{DualMapped C} (fmt_format : string -> list string -> string).
Implicit Types (fs : Fed.FederateState (C := C)).

Lemma process_incoming_returns d l : forall ret fs r rest fs',
  process_incoming fmt_format d l ret fs = Some (returned r, rest, fs') -> MPR.returnableResult r = true.
Proof.
  induction l as [|cmd l IH]; intros ret fs r rest fs'; cbn; destruct (MPR.returnableResult ret) eqn:Er.
  1,3: by intros [= <- _ _].
  - done.
  - case_match; [apply IH|]. destruct (processActionMessage _ _ _ _) as [[ret1 fs1]|]; [|done]. apply IH.
Qed.

Lemma processQueue_returns d l fs r rest fs' :
  processQueue fmt_format d l fs = Some (returned r, rest, fs') -> MPR.returnableResult r = true.
Proof.
  unfold processQueue. case_bool_decide; [by intros [= <- _ _]|]. case_bool_decide; [by intros [= <- _ _]|].
  destruct (processDelayQueue _ fs) as [[ret1 fs1]|]; [|done]. apply process_incoming_returns.
Qed.

Lemma to_result ret :
  MPR.returnableResult ret = true ->
  exists r, to_iteration_result ret = Some r /\
    (ret = MPR.next_step \/ ret = MPR.iterating \/ ret = MPR.halted \/ ret = MPR.error).
Proof. destruct ret; try done; intros _; eexists; (split; [reflexivity|]); auto. Qed.

Lemma time_events_granted it t fs : Fed.time_granted (time_events it t fs) = Fed.time_granted fs.
Proof. unfold time_events. by repeat case_match. Qed.

Lemma time_events_realtime it t fs : realtime (time_events it t fs) = realtime fs.
Proof. unfold time_events. by repeat case_match. Qed.
End Results.

(** ** Claims *)

Section Claims.
Context `{Platform} {C : Type -> Type} `{DualMapped C} `{SteadyTimers} (fmt_format : string -> list string -> string).

(** A federate that executes and may request a time. *)
Record may_request (me : global_federate_id) (fs : @Fed.FederateState C) : Prop := {
  mr_inv : fed_inv me fs;
  mr_state : state fs = HELICS_EXECUTING;
  mr_granted : timeGranted_mode fs = true;
  mr_steps : steps_ok (timeCoord fs);
  mr_mode : executionMode (timeCoord fs) = true;
  mr_delay : inputDelay (info (timeCoord fs)) = 0;
  mr_shown : Fed.time_granted fs = TimeCoordinator.time_granted (timeCoord fs);
  mr_realtime : realtime fs = false;
  mr_queues : Forall (fun e => Forall (regular me) (snd e)) (delayQueues fs);
  mr_pushed : Forall (foreign me) (pushed fs);
}.

Lemma serve_spec d arriving (fs : @Fed.FederateState C) o fs' :
  serve fmt_format d arriving fs = Some (o, fs') ->
  exists rest fs1, processQueue fmt_format d (pushed fs ++ arriving) (fs <| pushed := [] |>) = Some (o, rest, fs1) /\
    fs' = fs1 <| pushed ::= fun own => rest ++ own |>.
Proof.
  unfold serve. destruct (processQueue _ _ _ _) as [[[o1 rest] fs1]|]; [|done]. intros [= -> <-]. eauto.
Qed.

(** A request that is not iterative gets an answer or waits, whatever commands
    of others are before it in the queue, delayed, or behind it; a granted time
    is later than the last one by the time delta at least, and the federate
    shows it. *)
Lemma request_advances (me : global_federate_id) (d : nat) (clock : readings) (nextTime : Time)
    (arriving : list ActionMessage) (rt : RealTime) (fs : @Fed.FederateState C) :
  may_request me fs -> nextTime <= T.maxVal -> Forall (foreign me) arriving ->
  exists ans fs',
    requestTime_first fmt_format (S (S d)) clock nextTime no_iterations arriving rt fs = Some (ans, fs') /\
    match ans with
    | blocked => True
    | replied (retTime, _, _) =>
        grantedTime retTime = Fed.time_granted fs' /\
        match result_state retTime with
        | ItRes.next_step => Fed.time_granted fs + timeDelta (info (timeCoord fs)) <= grantedTime retTime
        | ItRes.iterating => False
        | ItRes.halted | ItRes.error => True
        end
    end.
Proof.
  intros Hm Ht Ha. pose proof Hm as []. unfold requestTime_first.
  set (treq := time_command nextTime no_iterations fs).
  set (fs0 := addAction treq (fs <| events := [] |>)).
  unfold arm_force. change (realtime fs0) with (realtime fs). rewrite mr_realtime0. cbn [andb mbind option_bind].
  unfold serving. set (fs1 := fs0 <| pushed := [] |>).
  assert (Forall (cmd_ok me) (pushed fs0 ++ arriving)) as Hok.
  { apply Forall_app. split; [apply Forall_app; split|].
    - eapply Forall_impl; [exact mr_pushed0|]. by intros c [[? _] _].
    - apply Forall_singleton. by split.
    - eapply Forall_impl; [exact Ha|]. by intros c [[? _] _]. }
  assert (executing me (Fed.time_granted fs) (info (timeCoord fs)) false fs1) as He.
  { split; [|change (2 <= rank (state fs)); by rewrite mr_state0|intros _|exact mr_queues0|exact mr_realtime0].
    - destruct mr_inv0. by split.
    - split; [exact mr_granted0|]. by split. }
  destruct (processQueue_ok fmt_format me d (pushed fs0 ++ arriving) fs1 Hok (ex_inv _ _ _ _ _ He))
    as (o & consumed & rest & fs2 & E & _ & _ & Hs).
  unfold serve. fold fs1. rewrite E. cbn [mbind option_bind]. destruct o as [ret|]; [|by eexists _, _].
  replace (pushed fs0 ++ arriving) with (pushed fs ++ time_command nextTime no_iterations fs1 :: arriving) in E
    by (change (pushed fs0) with (pushed fs ++ [treq]); by rewrite <- app_assoc).
  pose proof (processQueue_request fmt_format me _ _ mr_delay0 d nextTime (pushed fs) arriving fs1 _ _ _ Ht mr_pushed0 Ha He E) as [Hrt Hg].
  destruct (to_result ret (processQueue_returns fmt_format _ _ _ _ _ _ E)) as (r & Er & Hres).
  cbn [mbind option_bind]. rewrite Er. cbn [mbind option_bind]. unfold settle.
  rewrite time_events_realtime. change (realtime (_ <| iterating := _ |>)) with (realtime fs2). rewrite Hrt.
  cbn [mbind option_bind]. eexists _, _. split; [reflexivity|]. cbn [grantedTime result_state].
  split; [by rewrite time_events_granted|]. destruct Hres as [-> | [-> | [-> | ->]]]; try done; injection Er as <-; try done.
  - destruct Hg as (_ & _ & Ha'); [by left|]. rewrite mr_shown0 in *. exact Ha'.
  - by destruct Hg as (_ & ? & _); [right|].
Qed.
End Claims.

(** ** A federate to apply them to *)

Section Example_.
Import ListContainer.
#[local] Existing Instance list_container.
#[local] Existing Instance x86_64.
#[local] Existing Instance counted_timers.

(** A federate alone that executes at time zero. *)
Definition executing_federate : @Fed.FederateState C :=
  new_federate "load" <| Fed.global_id := 131072 |> <| state := HELICS_EXECUTING |>
    <| timeGranted_mode := true |> <| has_parent := true |> <| Fed.time_granted := 0 |>
    <| timeCoord := periodic 0 <| TimeCoordinator.source_id := 131072 |> |>.

Lemma executing_may_request : may_request 131072 executing_federate.
Proof.
  split; try reflexivity; [|apply (bool_decide_eq_true_1 _); vm_compute; reflexivity|apply Forall_nil; exact I..].
  split; [split; [|done]|done|apply not_elem_of_nil|constructor].
  destruct new_coordinator_inv. by split.
Qed.

End Example_.
