(* ===== verification/FederateClock.v ===== *)
(** * A federate in real time: properties

    What the clock has to do with a request: a timer is set that forces the
    grant when the clock is past the requested time by the allowed lag, and a
    grant that is early by more than the allowed lead is held back. *)

From S2P Require Import Prelude HTime Identifiers CoreData ActionMessage CoreTypes TimeDependencies TimeCoordinator NamedInputInfo EndpointInfo InterfaceInfo HandleManager MessageTimer FederateState FederateCalls FederateRequest.
Import Fed Timer TimerFacts FedCalls.

Section Clock.
Context `{Platform} {C : Type -> Type} `{DualMapped C} `{SteadyTimers} (fmt_format : string -> list string -> string).
Implicit Types (fs : Fed.FederateState (C := C)).

(** A number of nanoseconds below 2^60 (36 years). *)
Definition moderate (z : Z) : Prop := - 2 ^ 60 <= z <= 2 ^ 60.

Lemma to_ns_id t : to_ns t = t.
Proof. unfold to_ns, T.to_count. cbn. apply Z.quot_1_r. Qed.

Lemma convert_ns_id t : moderate t -> CountTime.convert_ns ticksExp t = t.
Proof.
  intros Ht. unfold CountTime.convert_ns, moderate in *. cbn. change (CountTime.fac10 0) with 1. rewrite Z.mul_1_r.
  apply swrap_id; [lia|]. unfold in_signed. lia.
Qed.

Lemma int64_small z : - 2 ^ 63 <= z < 2 ^ 63 -> int64 z = z.
Proof. intros Hz. apply swrap_id; [lia|exact Hz]. Qed.

(** A real-time federate whose timer is in order. *)
Record in_real_time (rt : RealTime) fs (timer : MessageTimer) : Prop := {
  rt_on : realtime fs = true;
  rt_limited : rt_lag fs < T.maxVal;
  rt_timer : mTimer rt = Some timer;
  rt_inv : timer_inv timer;
  rt_size : Z.of_nat (length (timers timer)) + 1 < 2 ^ 31;
  rt_index : realTimeTimerIndex rt < Z.of_nat (length (timers timer));
  rt_start : 0 <= start_clock_time rt <= 2 ^ 60;
  rt_lag_ok : 0 <= rt_lag fs;
  rt_lead_ok : 0 <= rt_lead fs <= 2 ^ 60;
}.

(** The clock does not go back. *)
Definition monotonic (clock : readings) : Prop :=
  0 <= asked_at clock <= added_at clock /\ added_at clock <= called_at clock <= granted_at clock /\
  granted_at clock <= 2 ^ 60.

(** The force command is in the queue, or a timer will send it at its time. *)
Definition force_pending (due : Z) (force : ActionMessage) (rt : RealTime) fs : Prop :=
  (exists before, pushed fs = before ++ [force]) \/
  (exists timer b, mTimer rt = Some timer /\ holds (realTimeTimerIndex rt) b due timer /\
     messageAction b <> cmd_ignore /\ copy_construct b = force).

Lemma add_force now now_cb t m timer index sent timer' :
  timer_inv timer -> Z.of_nat (length (timers timer)) + 1 < 2 ^ 31 -> now <= now_cb ->
  messageAction m <> cmd_ignore ->
  addTimer now now_cb t m timer = (index, sent, timer') ->
  if now <? t then sent = [] /\ holds index (copy_construct m) t timer'
  else sent = [copy_construct (copy_construct m)].
Proof.
  intros Hi Hs Hnow Hm Hadd. pose proof (occurs_inv (Add now now_cb t m) timer Hi) as Hinv. cbn [occurs] in Hinv.
  rewrite Hadd in Hinv. unfold addTimer in Hadd. rewrite size_small in Hadd by lia.
  assert (length (buffers timer) = length (timers timer)) as Hb by apply Hi.
  assert (length (expirationTimes timer) = length (timers timer)) as He by (rewrite <- (ti_times _ Hi); apply length_fmap).
  assert (forall x, (buffers timer ++ [x]) !! length (timers timer) = Some x) as Lb.
  { intros x. by rewrite <- Hb, lookup_app_r, Nat.sub_diag. }
  assert (forall x, (expirationTimes timer ++ [x]) !! length (timers timer) = Some x) as Le.
  { intros x. by rewrite <- He, lookup_app_r, Nat.sub_diag. }
  destruct (now <? t) eqn:El; breflect.
  - injection Hadd as <- <- <-. split; [done|]. split; [exact Hinv|]. cbn.
    rewrite length_alter, length_app, Nat2Z.id, Lb, Le. cbn. split; [lia|done].
  - unfold processTimerCallback, sendMessage in Hadd.
    assert (valid_index (Z.of_nat (length (timers timer))) (push_timer t m timer) = true) as Ev.
    { assert (length (timers (push_timer t m timer)) = S (length (timers timer))) as El' by (cbn; rewrite length_app; cbn; lia).
      unfold valid_index. rewrite size_small by lia. rewrite El'.
      apply andb_true_intro. split; [apply Z.leb_le|apply Z.ltb_lt]; lia. }
    rewrite Ev in Hadd. cbn in Hadd. rewrite Nat2Z.id, Lb, Le in Hadd.
    destruct (Z.leb_spec t now_cb); [|lia]. rewrite bool_decide_true in Hadd by done. by injection Hadd as <- <- <-.
Qed.

Lemma update_force i t m timer :
  timer_inv timer -> Z.of_nat (length (timers timer)) + 1 < 2 ^ 31 -> 0 <= i < Z.of_nat (length (timers timer)) ->
  exists b, holds i (copy_assign b m) t (updateTimer_message i t m timer).
Proof.
  intros Hi Hs Hr. pose proof Hi as [Ht Hb].
  destruct (lookup_lt_is_Some_2 (buffers timer) (Z.to_nat i)) as [b Eb]; [lia|].
  destruct (lookup_lt_is_Some_2 (expirationTimes timer) (Z.to_nat i)) as [t0 Et]; [rewrite <- Ht, length_fmap; lia|].
  exists b. split; [exact (occurs_inv (UpdateBoth i t m) timer Hi)|]. unfold updateTimer_message.
  assert (valid_index i timer = true) as -> by (unfold valid_index; rewrite size_small; lia). cbn. unfold at_index.
  by rewrite !length_alter, !list_lookup_alter_eq, Eb, Et.
Qed.

Lemma arm_force_pending clock nextTime rt fs timer :
  in_real_time rt fs timer -> monotonic clock -> 0 <= nextTime -> nextTime + rt_lag fs <= 2 ^ 60 ->
  exists rt' fs', arm_force clock nextTime rt fs = Some (rt', fs') /\
    force_pending (start_clock_time rt + nextTime + rt_lag fs) (force_command nextTime fs) rt' fs' /\
    start_clock_time rt' = start_clock_time rt.
Proof.
  intros [] (Hc1 & Hc2 & Hc3) Hn0 Hn. unfold arm_force. rewrite rt_on0.
  destruct (Z.ltb_spec (rt_lag fs) T.maxVal); [|lia]. cbn [andb]. rewrite rt_timer0. cbn [mbind option_bind].
  rewrite tadd_exact by (unfold valid_time; rewrite maxVal_eq, minVal_eq; lia).
  rewrite to_ns_id, !int64_small by (rewrite ?int64_small; lia).
  set (due := start_clock_time rt + nextTime + rt_lag fs).
  replace (asked_at clock + (nextTime + rt_lag fs - (asked_at clock - start_clock_time rt))) with due by lia.
  destruct (Z.ltb_spec 0 (nextTime + rt_lag fs - (asked_at clock - start_clock_time rt))).
  2:{ eexists _, _. split; [reflexivity|]. split; [|done]. left. by exists (pushed fs). }
  destruct (Z.ltb_spec (realTimeTimerIndex rt) 0).
  - destruct (addTimer _ _ due (force_command nextTime fs) timer) as [[index sent] timer'] eqn:E.
    pose proof (add_force _ _ _ (force_command nextTime fs) _ _ _ _ rt_inv0 rt_size0 (proj1 Hc2) ltac:(done) E) as Ha.
    eexists _, _. split; [reflexivity|]. split; [|done]. destruct (added_at clock <? due).
    + destruct Ha as [-> Hh]. right. eexists timer', _. split_and!; [done|exact Hh|done|done].
    + rewrite Ha. left. by exists (pushed fs).
  - destruct (update_force (realTimeTimerIndex rt) due (force_command nextTime fs) timer) as [b Hb]; [done|lia|lia|].
    eexists _, _. split; [reflexivity|]. split; [|done]. right. eexists _, _. by split_and!.
Qed.

(** The sleep before a grant that is early. *)
Lemma lead_sleep_bound clock rt fs :
  monotonic clock -> 0 <= start_clock_time rt <= 2 ^ 60 -> 0 <= rt_lead fs <= 2 ^ 60 -> 0 <= Fed.time_granted fs <= 2 ^ 60 ->
  0 <= lead_sleep clock MPR.next_step rt fs /\
  start_clock_time rt + Fed.time_granted fs - rt_lead fs
    <= granted_at clock + lead_sleep clock MPR.next_step rt fs + 5000000.
Proof.
  intros (Hc1 & Hc2 & Hc3) Hs Hl Ht. unfold lead_sleep. rewrite int64_small by lia.
  rewrite convert_ns_id by (unfold moderate; lia).
  rewrite !tsub_exact by (unfold valid_time; rewrite maxVal_eq, minVal_eq; lia).
  rewrite to_ns_id, int64_small by lia. case_if; breflect; [|lia]. case_if; breflect; lia.
Qed.

(** The rest of a request in real time. *)
Lemma settle_sleeps clock ret rt fs rt' slept :
  realtime fs = true -> settle clock ret rt fs = Some (rt', slept) ->
  slept = lead_sleep clock ret rt fs.
Proof.
  unfold settle. intros ->. case_if; [destruct (mTimer rt); [|done]|]; cbn [mbind option_bind]; intros [= _ <-];
    reflexivity.
Qed.

(** C20: A request in real time.  Before a federate in real time waits for its
    grant, the command that forces the grant of the requested time is in its
    queue, or a timer holds it that sends it when the clock reaches the start,
    plus the requested time, plus the lag; and a step that is granted is given
    to the caller not earlier than the start plus the granted time minus the
    lead, up to the 5 ms for which the caller is not put to sleep (times below
    36 years, a clock that does not go back). *)
Theorem realtime_request_paced (depth : nat) (clock : readings) (nextTime : Time) (it : iteration_request)
    (arriving : list ActionMessage) (rt : RealTime) (timer : MessageTimer) (fs : Fed.FederateState (C := C)) :
  in_real_time rt fs timer -> monotonic clock -> 0 <= nextTime -> nextTime + rt_lag fs <= 2 ^ 60 ->
  (exists rt1 fs1,
    arm_force clock nextTime rt (addAction (time_command nextTime it fs) (fs <| events := [] |>)) = Some (rt1, fs1) /\
    force_pending (start_clock_time rt + nextTime + rt_lag fs) (force_command nextTime fs) rt1 fs1) /\
  forall ret rt' slept fs',
    requestTime_first fmt_format depth clock nextTime it arriving rt fs = Some (replied (ret, rt', slept), fs') ->
    result_state ret = ItRes.next_step -> realtime fs' = true -> 0 <= rt_lead fs' <= 2 ^ 60 ->
    0 <= grantedTime ret <= 2 ^ 60 ->
    start_clock_time rt + grantedTime ret - rt_lead fs' <= granted_at clock + slept + 5000000.
Proof.
  intros Hrt Hc Hn0 Hn. set (fs0 := addAction (time_command nextTime it fs) (fs <| events := [] |>)).
  assert (in_real_time rt fs0 timer) as Hrt0.
  { subst fs0. unfold addAction. case_bool_decide; by destruct Hrt. }
  assert (rt_lag fs0 = rt_lag fs /\ force_command nextTime fs0 = force_command nextTime fs) as [El Ef].
  { subst fs0. unfold addAction. by case_bool_decide. }
  rewrite <- El in Hn. destruct (arm_force_pending clock nextTime rt fs0 timer Hrt0 Hc Hn0 Hn) as (rt1 & fs1 & Ea & Hp & Es).
  rewrite El, Ef in Hp. split; [by exists rt1, fs1|]. intros ret rt' slept fs'. unfold requestTime_first. fold fs0. rewrite Ea.
  cbn [mbind option_bind]. unfold serving. destruct (serve _ _ arriving fs1) as [[[mpr|] fs2]|]; [|done..].
  cbn [mbind option_bind]. destruct (to_iteration_result mpr) as [r|] eqn:Er; [|done]. cbn [mbind option_bind].
  set (fs3 := update_granted fs2 <| iterating := _ |>).
  destruct (settle clock mpr rt1 (time_events it nextTime fs3)) as [[rt2 slept2]|] eqn:Ese; [|done].
  intros [= <- <- <- <-] Hr Hreal Hlead Hg. cbn in Hr, Hg. subst r.
  assert (mpr = MPR.next_step) as -> by (destruct mpr; done).
  rewrite (settle_sleeps _ _ _ _ _ _ Hreal Ese).
  pose proof (lead_sleep_bound clock rt1 (time_events it nextTime fs3) Hc) as Hb.
  rewrite time_events_granted, Es in Hb. destruct Hb as [_ Hb]; [by apply (rt_start _ _ _ Hrt)|done|done|exact Hb].
Qed.
End Clock.

(** ** A federate to apply it to *)

Section Example_.
Import ListContainer.
#[local] Existing Instance list_container.
#[local] Existing Instance x86_64.
#[local] Existing Instance counted_timers.

(** one second of lag and none of lead, the start at ten seconds *)
Definition paced_federate : @Fed.FederateState C :=
  executing_federate <| realtime := true |> <| rt_lag := 10 ^ 9 |>.
Definition paced : RealTime := mkRealTime (Some new_timer) (10 ^ 10) (-1).

Definition at_ten : readings := mkReadings (10 ^ 10) (10 ^ 10) (10 ^ 10) (10 ^ 10).
Abbreviation paced_request := (requestTime_first (fun f _ => f) 2 at_ten (2 * 10 ^ 9) no_iterations [] paced paced_federate).

(** what is seen of an answer *)
Definition seen (x : option (reply (iteration_time * RealTime * Z) * @Fed.FederateState C))
    : option (iteration_time * Z * (bool * Time)) :=
  match x with
  | Some (replied (ret, _, slept), fs) => Some (ret, slept, (realtime fs, rt_lead fs))
  | _ => None
  end.

Lemma realtime_request_paced_witness :
  exists ret rt' slept fs', paced_request = Some (replied (ret, rt', slept), fs') /\
    ret = mkIterationTime (2 * 10 ^ 9) ItRes.next_step /\ slept = 2 * 10 ^ 9 /\
    10 ^ 10 + 2 * 10 ^ 9 - 0 <= 10 ^ 10 + slept + 5000000.
Proof.
  assert (seen paced_request = Some (mkIterationTime (2 * 10 ^ 9) ItRes.next_step, 2 * 10 ^ 9, (true, 0))) as Hs
    by (vm_compute; reflexivity).
  destruct (realtime_request_paced (fun f _ => f) 2 at_ten (2 * 10 ^ 9) no_iterations [] paced new_timer paced_federate)
    as [_ Hp].
  - split; [reflexivity|reflexivity|reflexivity|exact new_timer_inv|reflexivity|reflexivity|split; discriminate|discriminate|split; discriminate].
  - repeat split; discriminate.
  - discriminate.
  - discriminate.
  - destruct paced_request as [[[[[ret rt'] slept]|] fs']|]; try discriminate Hs. injection Hs as -> -> Hr Hl.
    exists (mkIterationTime (2 * 10 ^ 9) ItRes.next_step), rt', (2 * 10 ^ 9), fs'. do 3 (split; [reflexivity|]).
    specialize (Hp _ _ _ _ eq_refl eq_refl Hr). rewrite Hl in Hp. apply Hp; split; discriminate.
Defined.
End Example_.
