(* ===== verification/StateMonad.v ===== *)
(** * Computations on a state

    An operation of a class is a computation on its state.  It has no result
    where the code dereferences the end of a container or throws an exception
    that nothing catches.  The file has the operations on computations that
    brokers and cores share, and the rules to reason about them: a property of
    the state is preserved by a computation when its parts preserve it, and a
    computation has a result when its parts have. *)

From S2P Require Import Prelude.

Definition St (S A : Type) : Type := S -> option (A * S).

#[export] Instance M_ret {S} : MRet (St S) := fun A a s => Some (a, s).
#[export] Instance M_bind {S} : MBind (St S) := fun A B k m s =>
  match m s with Some (a, s') => k a s' | None => None end.

(** Sequencing with the computation first, so that the type of its result is
    known in what follows. *)
Definition bind_first {M : Type -> Type} `{MBind M} {A B} (m : M A) (k : A -> M B) : M B := mbind k m.
Arguments bind_first {M _ A B} & m k.

Notation "'let*' x ':=' m 'in' k" := (bind_first m (fun x => k))
  (at level 200, x name, m at level 100, k at level 200, right associativity).

Section Operations.
Context {S : Type}.

Definition gets {A} (f : S -> A) : St S A := fun s => Some (f s, s).
Definition modifies (f : S -> S) : St S unit := fun s => Some (tt, f s).
Definition skip : St S unit := mret tt.
(** an iterator or a pointer that is dereferenced *)
Definition deref {A} (o : option A) : St S A := fun s => match o with Some a => Some (a, s) | None => None end.
Definition when (c : bool) (m : St S unit) : St S unit := if c then m else skip.
Fixpoint for_each {A} (l : list A) (f : A -> St S unit) : St S unit :=
  match l with [] => skip | a :: l' => f a;; for_each l' f end.
End Operations.

(** The state of a result, without computing with it. *)
Lemma result_state {A S} (a a' : A) (s s' : S) : Some (a, s) = Some (a', s') -> s' = s.
Proof. congruence. Qed.

(** ** What a computation preserves *)

Section Preservation.
Context {S : Type}.
Implicit Types (I : S -> Prop).

(** Whenever the operation has a result, [I] holds after it and the result
    satisfies [Q]. *)
Definition keeps I {A} (m : St S A) (Q : A -> Prop) : Prop :=
  forall b a b', I b -> m b = Some (a, b') -> I b' /\ Q a.

(** [keeps] with nothing to say of the result *)
Definition preserves I {A} (m : St S A) : Prop := keeps I m (fun _ => True).

Lemma keeps_weaken I {A} (m : St S A) (Q Q' : A -> Prop) :
  keeps I m Q -> (forall a, Q a -> Q' a) -> keeps I m Q'.
Proof. intros Hm HQ b a b' Hb Hr. destruct (Hm b a b' Hb Hr). auto. Qed.

Lemma preserves_keeps I {A} (m : St S A) Q : keeps I m Q -> preserves I m.
Proof. intros Hm. by apply (keeps_weaken I m Q). Qed.

(** What a computation gives, whatever the state. *)
Definition yields {A} (m : St S A) (Q : A -> Prop) : Prop := forall b a b', m b = Some (a, b') -> Q a.

Lemma yields_ret {A} (a : A) (Q : A -> Prop) : Q a -> yields (mret a) Q.
Proof. intros Ha b a' b' [= <- <-]. done. Qed.

Lemma yields_bind_with {A B} (m : St S A) (k : A -> St S B) P Q :
  yields m P -> (forall a, P a -> yields (k a) Q) -> yields (m ≫= k) Q.
Proof.
  intros Hm Hk b a b'. unfold mbind, M_bind. destruct (m b) as [[x b'']|] eqn:E; [|done]. eapply Hk, Hm, E.
Qed.

Lemma yields_bind {A B} (m : St S A) (k : A -> St S B) Q : (forall a, yields (k a) Q) -> yields (m ≫= k) Q.
Proof. intros Hk. by apply (yields_bind_with m k (fun _ => True)). Qed.

Lemma keeps_yields I {A} (m : St S A) Q : preserves I m -> yields m Q -> keeps I m Q.
Proof. intros Hm Hq b a b' Hb Hr. destruct (Hm b a b' Hb Hr). eauto. Qed.

Lemma preserves_bind_yields I {A B} (m : St S A) (k : A -> St S B) Q :
  preserves I m -> yields m Q -> (forall a, Q a -> preserves I (k a)) -> preserves I (m ≫= k).
Proof.
  intros Hm Hq Hk b a b' Hb. unfold mbind, M_bind. destruct (m b) as [[x b'']|] eqn:E; [|done].
  destruct (Hm _ _ _ Hb E). apply Hk; eauto.
Qed.

(** the rest of a run, from a state with the property *)
Lemma run_after I {A B} (m : St S A) (k : A -> St S B) b r b' :
  preserves I m -> I b -> (m ≫= k) b = Some (r, b') -> exists a b1, I b1 /\ m b = Some (a, b1) /\ k a b1 = Some (r, b').
Proof.
  intros Hm Hb. unfold mbind, M_bind. destruct (m b) as [[a b1]|] eqn:E; [|done]. intros Hr.
  exists a, b1. split_and!; try done. by destruct (Hm _ _ _ Hb E).
Qed.

Lemma preserves_inv I {A} (m : St S A) b a b' :
  preserves I m -> I b -> m b = Some (a, b') -> I b'.
Proof. intros Hm Hb Hr. by destruct (Hm b a b' Hb Hr). Qed.

Lemma preserves_ret I {A} (a : A) : preserves I (mret a).
Proof. intros b a' b' Hb [= <- <-]. done. Qed.

Lemma preserves_skip I : preserves I skip.
Proof. apply preserves_ret. Qed.

Lemma preserves_gets I {A} (f : S -> A) : preserves I (gets f).
Proof. intros b a b' Hb [= <- <-]. done. Qed.

Lemma preserves_deref I {A} (o : option A) : preserves I (deref o).
Proof. intros b a b' Hb. unfold deref. destruct o; [|done]. by intros [= <- <-]. Qed.

Lemma keeps_bind I {A B} (m : St S A) (k : A -> St S B) Q R :
  keeps I m Q -> (forall a, Q a -> keeps I (k a) R) -> keeps I (m ≫= k) R.
Proof.
  intros Hm Hk b a b' Hb. unfold mbind, M_bind. destruct (m b) as [[a' b'']|] eqn:E; [|done].
  intros Hr. destruct (Hm _ _ _ Hb E) as [Hb'' Hq]. exact (Hk a' Hq b'' a b' Hb'' Hr).
Qed.

Lemma preserves_bind I {A B} (m : St S A) (k : A -> St S B) :
  preserves I m -> (forall a, preserves I (k a)) -> preserves I (m ≫= k).
Proof. intros Hm Hk. apply (keeps_bind I m k (fun _ => True)); [done|intros a _; apply Hk]. Qed.

(** What is read from the state is read from a state with the property. *)
Lemma preserves_bind_gets I {A B} (f : S -> A) (k : A -> St S B) :
  (forall b, I b -> preserves I (k (f b))) -> preserves I (gets f ≫= k).
Proof. intros Hk b a b' Hb Hr. exact (Hk b Hb b a b' Hb Hr). Qed.

Lemma preserves_bind_deref I {A B} (o : option A) (k : A -> St S B) :
  (forall a, o = Some a -> preserves I (k a)) -> preserves I (deref o ≫= k).
Proof.
  intros Hk b a b' Hb. unfold mbind, M_bind, deref. destruct o as [x|]; [|done].
  intros Hr. exact (Hk x eq_refl b a b' Hb Hr).
Qed.

Lemma preserves_when I c (m : St S unit) : (c = true -> preserves I m) -> preserves I (when c m).
Proof. intros Hm. unfold when. destruct c; [auto|apply preserves_skip]. Qed.

Lemma preserves_for_each I {A} (l : list A) (f : A -> St S unit) :
  (forall a, a ∈ l -> preserves I (f a)) -> preserves I (for_each l f).
Proof.
  induction l as [|a l IH]; intros Hf; cbn [for_each]; [apply preserves_skip|].
  apply preserves_bind; [apply Hf; left|]. intros _. apply IH. intros x Hx. apply Hf. by right.
Qed.

Lemma preserves_modifies I (f : S -> S) :
  (forall b, I b -> I (f b)) -> preserves I (modifies f).
Proof. intros Hf b a b' Hb [= <- <-]. auto. Qed.

(** A change that depends on what was just read. *)
Lemma preserves_gets_modifies I {A B} (f : S -> A) (g : A -> S -> S) (k : A -> St S B) :
  (forall b, I b -> I (g (f b) b)) -> (forall a, preserves I (k a)) ->
  preserves I (gets f ≫= fun a => modifies (g a);; k a).
Proof. intros Hg Hk b a b' Hb. unfold mbind, M_bind, gets, modifies. apply Hk; auto. Qed.
End Preservation.

(** ** Operations that succeed *)

Section Success.
Context {S : Type}.
Implicit Types (I : S -> Prop).

(** From a state with [I] the operation has a result, and a state with [I]. *)
Definition ensures I {A} (m : St S A) : Prop :=
  forall b, I b -> exists a b', m b = Some (a, b') /\ I b'.

Lemma ensures_ret I {A} (a : A) : ensures I (mret a).
Proof. intros b Hb. by exists a, b. Qed.

Lemma ensures_bind I {A B} (m : St S A) (k : A -> St S B) :
  ensures I m -> (forall a, ensures I (k a)) -> ensures I (m ≫= k).
Proof.
  intros Hm Hk b Hb. destruct (Hm b Hb) as (a & b1 & E & Hb1). destruct (Hk a b1 Hb1) as (a' & b2 & E' & Hb2).
  exists a', b2. split; [|done]. unfold mbind, M_bind. by rewrite E.
Qed.

Lemma ensures_bind_gets I {A B} (f : S -> A) (k : A -> St S B) :
  (forall b, I b -> ensures I (k (f b))) -> ensures I (gets f ≫= k).
Proof. intros Hk b Hb. exact (Hk b Hb b Hb). Qed.

Lemma ensures_modifies I (f : S -> S) : (forall b, I b -> I (f b)) -> ensures I (modifies f).
Proof. intros Hf b Hb. exists tt, (f b). auto. Qed.

Lemma ensures_when I c (m : St S unit) : ensures I m -> ensures I (when c m).
Proof. intros Hm. destruct c; [done|apply ensures_ret]. Qed.

Lemma ensures_for_each I {A} (l : list A) (f : A -> St S unit) :
  (forall a, a ∈ l -> ensures I (f a)) -> ensures I (for_each l f).
Proof.
  induction l as [|a l IH]; intros Hf; cbn [for_each]; [apply ensures_ret|].
  apply ensures_bind; [apply Hf; left|]. intros _. apply IH. intros x Hx. apply Hf. by right.
Qed.
End Success.

(** ** Taking a computation apart *)

Ltac state_step :=
  lazymatch goal with
  | |- preserves _ (mbind _ (gets _)) => apply preserves_bind_gets; intros ? ?
  | |- preserves _ (mbind _ (deref _)) => apply preserves_bind_deref; intros ? ?
  | |- preserves _ (mbind _ _) => apply preserves_bind; [|intros ?]
  | |- preserves _ skip => apply preserves_skip
  | |- preserves _ (mret _) => apply preserves_ret
  | |- preserves _ (gets _) => apply preserves_gets
  | |- preserves _ (deref _) => apply preserves_deref
  | |- preserves _ (when _ _) => apply preserves_when; intros ?
  | |- preserves _ (for_each _ _) => apply preserves_for_each; intros ? ?
  | |- preserves _ (if ?c then _ else _) => destruct c eqn:?
  | |- preserves _ (match ?x with _ => _ end) => destruct x eqn:?
  end.

(** The results of a computation are those at its ends. *)
Ltac yield_step :=
  lazymatch goal with
  | |- yields (mbind _ _) _ => apply yields_bind; intros ?
  | |- yields (mret _) _ => apply yields_ret
  | |- yields (if ?c then _ else _) _ => destruct c
  | |- yields (match ?x with _ => _ end) _ => destruct x
  end.
