(* ===== verification/BrokerBase.v ===== *)
(** * The queue of a broker or core

    Models the queue of [src/helics/core/BrokerBase.cpp]: the commands of the
    queue, and those inside a multi message, go to the virtual methods of the
    class, which are the record [BrokerMethods]; a broker and a core each give
    their own.  The readings of the clock are arguments, one for each command.
    The timer that puts [CMD_TICK] into the queue is left out. *)

From S2P Require Import Prelude HTime Identifiers StateMonad Wire ActionMessage.

(** The virtual methods, and the member [haltOperations]. *)
Record BrokerMethods (S : Type) := {
  haltOperations : S -> bool;
  processCommand : Z -> ActionMessage -> St S unit;
  processPriorityCommand : Z -> ActionMessage -> St S unit;
  processDisconnect : bool -> St S unit;
}.
Arguments haltOperations {S} _ _.
Arguments processCommand {S} _ _ _.
Arguments processPriorityCommand {S} _ _ _.
Arguments processDisconnect {S} _ _.

(** How the loop goes on after a command. *)
Inductive loop_next := Continue | Finished.

Module Base.
Section Queue.
Context `{Platform} {S : Type} (methods : BrokerMethods S).

(** the command at a place of a multi message; text that cannot be read throws *)
Definition part_of (command : ActionMessage) (ii : Z) : option ActionMessage :=
  match from_string (newMessage cmd_ignore) (string_bytes (getString ii command)) with
  | Done m => Some m
  | _ => None
  end.

(** the commands inside a multi message are read and processed in turn,
    [depth] levels deep *)
Fixpoint commandProcessor (depth : nat) (now : Z) (command : ActionMessage) : St S (action_t * ActionMessage) :=
  match messageAction command with
  | cmd_ignore => mret (cmd_ignore, command)
  | cmd_terminate_immediately | cmd_stop | cmd_tick => mret (messageAction command, command)
  | cmd_multi_message =>
      match depth with
      | O => deref None
      | Datatypes.S depth' =>
          (fix parts (todo : nat) (ii : Z) : St S (action_t * ActionMessage) :=
             match todo with
             | O => mret (cmd_ignore, command)
             | Datatypes.S todo' =>
                 let* NMess := deref (part_of command ii) in
                 let* V := commandProcessor depth' now NMess in
                 match fst V with
                 | cmd_ignore | cmd_tick => parts todo' (ii + 1)
                 | _ => mret V
                 end
             end) (Z.to_nat (counter command)) 0
      end
  | _ =>
      let* halt := gets (haltOperations methods) in
      (if negb halt then
         if isPriorityCommand command then processPriorityCommand methods now command
         else processCommand methods now command
       else skip);;
      mret (cmd_ignore, command)
  end.

(** One turn of [queueProcessingLoop]; the count of messages since the last
    tick is passed from turn to turn. *)
Definition queue_turn (depth : nat) (now : Z) (command : ActionMessage) (messagesSinceLastTick : Z)
    : St S (loop_next * Z) :=
  if bool_decide (messageAction command = cmd_ignore) then mret (Continue, messagesSinceLastTick)
  else
    let* ret := commandProcessor depth now command in
    let '(action, command) := ret in
    match action with
    | cmd_ignore => mret (Continue, int32 (messagesSinceLastTick + 1))
    | cmd_tick =>
        when (messagesSinceLastTick =? 0) (processCommand methods now command);;
        mret (Continue, 0)
    | cmd_terminate_immediately => mret (Finished, messagesSinceLastTick)
    | cmd_stop =>
        let* halt := gets (haltOperations methods) in
        (if negb halt then processCommand methods now command;; processDisconnect methods false else skip);;
        mret (Finished, messagesSinceLastTick)
    | _ => mret (Continue, messagesSinceLastTick)
    end.

(** the commands that the queue delivers, each with a reading of the clock *)
Fixpoint queueProcessingLoop (depth : nat) (commands : list (Z * ActionMessage)) (messagesSinceLastTick : Z)
    : St S (loop_next * Z) :=
  match commands with
  | [] => mret (Continue, messagesSinceLastTick)
  | (now, command) :: commands' =>
      let* r := queue_turn depth now command messagesSinceLastTick in
      match fst r with
      | Continue => queueProcessingLoop depth commands' (snd r)
      | Finished => mret r
      end
  end.

(** ** What the methods preserve, the loop preserves *)

Record methods_preserve (I : S -> Prop) : Prop := {
  mp_command : forall now m, preserves I (processCommand methods now m);
  mp_priority : forall now m, preserves I (processPriorityCommand methods now m);
  mp_disconnect : preserves I (processDisconnect methods false);
}.

Context (I : S -> Prop) (Hmethods : methods_preserve I).

Ltac by_methods := first [by apply (mp_command I Hmethods) | by apply (mp_priority I Hmethods)
                         | by apply (mp_disconnect I Hmethods)].

Lemma commandProcessor_keeps depth : forall now m, preserves I (commandProcessor depth now m).
Proof.
  induction depth as [|depth IH]; intros now m; cbn [commandProcessor].
  - destruct (messageAction m); cbv [bind_first]; repeat (by_methods || state_step).
  - destruct (messageAction m); cbv [bind_first]; repeat (by_methods || state_step).
    generalize (Z.to_nat (counter m)) 0. intros todo. induction todo as [|todo IHt]; intros ii; [apply preserves_ret|].
    repeat (apply IHt || apply IH || state_step).
Qed.

Lemma queue_turn_keeps depth now m n : preserves I (queue_turn depth now m n).
Proof.
  unfold queue_turn. cbv [bind_first]. case_bool_decide; [apply preserves_ret|].
  apply preserves_bind; [apply commandProcessor_keeps|]. intros [act m'].
  destruct act; repeat (by_methods || state_step).
Qed.

Lemma queueProcessingLoop_keeps depth cmds : forall n, preserves I (queueProcessingLoop depth cmds n).
Proof.
  induction cmds as [|[now m] cmds IH]; intros n; cbn [queueProcessingLoop]; [apply preserves_ret|].
  cbv [bind_first]. apply preserves_bind; [apply queue_turn_keeps|].
  intros [[] n']; cbn; [apply IH|apply preserves_ret].
Qed.
End Queue.
End Base.
