(* ===== verification/DualVector.v ===== *)
(** * The container of federates and brokers

    [CoreBroker.hpp] keeps the federates and the brokers below a broker in a
    [gmlc::containers::DualMappedVector], a library that is not part of the
    repository: a vector whose elements are found under a name and, once they
    have one, under an identifier.  The class [DualVector] has the operations
    the broker calls and [DualVectorLaws] what the library documents of them.
    A search gives the position of an element, which is what the iterators and
    the pointers of the code stand for. *)

From S2P Require Import Prelude.

Class DualVector (C : Type -> Type) := {
  dv_empty : forall {V}, C V;
  dv_elements : forall {V}, C V -> list V;
  dv_find_name : forall {V}, string -> C V -> option nat;
  dv_find_id : forall {V}, Z -> C V -> option nat;
  (** [insert (name, id, data)], where the identifier may be [nullptr] *)
  dv_insert : forall {V}, string -> option Z -> V -> C V -> option nat * C V;
  (** [addSearchTerm (id, name)] and [addSearchTermForIndex (id, index)] *)
  dv_add_term : forall {V}, Z -> string -> C V -> C V;
  dv_add_term_at : forall {V}, Z -> nat -> C V -> C V;
  (** an assignment through an iterator *)
  dv_modify : forall {V}, nat -> (V -> V) -> C V -> C V;
}.

Class DualVectorLaws (C : Type -> Type) `{DualVector C} : Prop := {
  dv_elements_empty : forall V, dv_elements (dv_empty : C V) = [];
  dv_name_empty : forall V k, dv_find_name k (dv_empty : C V) = None;
  dv_id_empty : forall V i, dv_find_id i (dv_empty : C V) = None;
  dv_name_bound : forall V k p (c : C V), dv_find_name k c = Some p -> (p < length (dv_elements c))%nat;
  dv_id_bound : forall V i p (c : C V), dv_find_id i c = Some p -> (p < length (dv_elements c))%nat;
  dv_insert_dup : forall V k p (v : V) c,
    dv_find_name k c = Some p -> dv_insert k None v c = (None, c);
  dv_insert_new : forall V k i (v : V) c,
    dv_find_name k c = None -> fst (dv_insert k i v c) = Some (length (dv_elements c));
  dv_insert_elements : forall V k i (v : V) c,
    dv_find_name k c = None -> dv_elements (snd (dv_insert k i v c)) = dv_elements c ++ [v];
  dv_insert_name : forall V k i (v : V) c k',
    dv_find_name k c = None ->
    dv_find_name k' (snd (dv_insert k i v c)) =
      if decide (k = k') then Some (length (dv_elements c)) else dv_find_name k' c;
  dv_insert_no_id : forall V k (v : V) c i,
    dv_find_name k c = None -> dv_find_id i (snd (dv_insert k None v c)) = dv_find_id i c;
  dv_insert_id : forall V k i (v : V) c i',
    dv_find_name k c = None -> dv_find_id i c = None ->
    dv_find_id i' (snd (dv_insert k (Some i) v c)) =
      if decide (i = i') then Some (length (dv_elements c)) else dv_find_id i' c;
  dv_insert_other_id : forall V k i (v : V) c i',
    dv_find_name k c = None -> i <> i' ->
    dv_find_id i' (snd (dv_insert k (Some i) v c)) = dv_find_id i' c;
  dv_insert_keeps : forall V k oi (v : V) c, dv_elements c `prefix_of` dv_elements (snd (dv_insert k oi v c));
  dv_insert_bound : forall V k oi (v : V) c p,
    fst (dv_insert k oi v c) = Some p -> (p < length (dv_elements (snd (dv_insert k oi v c))))%nat;

  dv_modify_elements : forall V p (f : V -> V) c, dv_elements (dv_modify p f c) = alter f p (dv_elements c);
  dv_modify_name : forall V p (f : V -> V) c k, dv_find_name k (dv_modify p f c) = dv_find_name k c;
  dv_modify_id : forall V p (f : V -> V) c i, dv_find_id i (dv_modify p f c) = dv_find_id i c;
  dv_term_elements : forall V i k (c : C V), dv_elements (dv_add_term i k c) = dv_elements c;
  dv_term_name : forall V i k (c : C V) k', dv_find_name k' (dv_add_term i k c) = dv_find_name k' c;
  dv_term_id : forall V i k (c : C V) p i',
    dv_find_name k c = Some p -> dv_find_id i c = None ->
    dv_find_id i' (dv_add_term i k c) = if decide (i = i') then Some p else dv_find_id i' c;
  dv_term_other_id : forall V i k (c : C V) i',
    i <> i' -> dv_find_id i' (dv_add_term i k c) = dv_find_id i' c;
  dv_term_at_elements : forall V i p (c : C V), dv_elements (dv_add_term_at i p c) = dv_elements c;
  dv_term_at_name : forall V i p (c : C V) k, dv_find_name k (dv_add_term_at i p c) = dv_find_name k c;
  dv_term_at_id : forall V i p (c : C V) i',
    (p < length (dv_elements c))%nat -> dv_find_id i c = None ->
    dv_find_id i' (dv_add_term_at i p c) = if decide (i = i') then Some p else dv_find_id i' c;
  dv_term_at_other_id : forall V i p (c : C V) i',
    i <> i' -> dv_find_id i' (dv_add_term_at i p c) = dv_find_id i' c;
}.

(** The library refuses an element that is already there: one whose name and
    identifier are both known.  An element with a new identifier is taken. *)
Class TakesNewIds (C : Type -> Type) `{DualVector C} : Prop :=
  dv_takes_new_id : forall V k i (v : V) (c : C V),
    dv_find_id i c = None -> is_Some (fst (dv_insert k (Some i) v c)).

(** ** What the broker uses of it *)

Section Derived.
Context {C : Type -> Type} `{DualVector C} {V : Type}.

Definition dv_size (c : C V) : Z := Z.of_nat (length (dv_elements c)).

(** [*find (name)] and [*find (id)] *)
Definition dv_get_name (k : string) (c : C V) : option V := p ← dv_find_name k c; dv_elements c !! p.
Definition dv_get_id (i : Z) (c : C V) : option V := p ← dv_find_id i c; dv_elements c !! p.

(** an assignment through [back ()] *)
Definition dv_modify_back (f : V -> V) (c : C V) : C V :=
  dv_modify (pred (length (dv_elements c))) f c.

(** a loop over all elements that assigns to each *)
Definition dv_modify_all (f : V -> V) (c : C V) : C V :=
  fold_left (fun c p => dv_modify p f c) (seq 0 (length (dv_elements c))) c.
End Derived.

(** ** The container on lists

    An element with its name and the identifiers it was given: the simplest
    container that has the laws. *)

Module ListVector.
Record entry (V : Type) := mk { value : V; label : string; terms : list Z }.
Arguments mk {V} _ _ _.
Arguments value {V} _.
Arguments label {V} _.
Arguments terms {V} _.

Definition t (V : Type) : Type := list (entry V).

Definition find_name {V} (k : string) (c : t V) : option nat := fst <$> list_find (fun e => label e = k) c.
Definition find_id {V} (i : Z) (c : t V) : option nat := fst <$> list_find (fun e => i ∈ terms e) c.

(** An element is refused when its name is taken and it comes with no
    identifier of its own. *)
Definition refuses {V} (k : string) (oi : option Z) (c : t V) : bool :=
  bool_decide (is_Some (find_name k c)) &&
  match oi with Some i => bool_decide (is_Some (find_id i c)) | None => true end.

Definition insert {V} (k : string) (oi : option Z) (v : V) (c : t V) : option nat * t V :=
  if refuses k oi c then (None, c)
  else (Some (length c), c ++ [mk v k (option_list oi)]).

Definition add_term_at {V} (i : Z) (p : nat) (c : t V) : t V :=
  match find_id i c with
  | Some _ => c
  | None => alter (fun e => mk (value e) (label e) (i :: terms e)) p c
  end.

Definition add_term {V} (i : Z) (k : string) (c : t V) : t V :=
  match find_name k c with Some p => add_term_at i p c | None => c end.

Definition update {V} (p : nat) (f : V -> V) (c : t V) : t V :=
  alter (fun e => mk (f (value e)) (label e) (terms e)) p c.

#[global] Instance list_dual_vector : DualVector t := {|
  dv_empty := fun V => [];
  dv_elements := fun V c => value <$> c;
  dv_find_name := @find_name;
  dv_find_id := @find_id;
  dv_insert := @insert;
  dv_add_term := @add_term;
  dv_add_term_at := @add_term_at;
  dv_modify := @update;
|}.

Section Facts.
Context {V : Type}.
Implicit Types (c : t V) (e : entry V).

Lemma fst_shift {A} (o : option (nat * A)) : fst <$> (prod_map S id <$> o) = S <$> (fst <$> o).
Proof. by destruct o as [[]|]. Qed.

(** A search of a list in which each element keeps whether it satisfies. *)
Lemma list_find_alter (P : entry V -> Prop) `{!forall e, Decision (P e)} (f : entry V -> entry V) p c :
  (forall e, P (f e) <-> P e) -> fst <$> list_find P (alter f p c) = fst <$> list_find P c.
Proof.
  intros Hf. revert p. induction c as [|e c IH]; intros p; [by destruct p|].
  destruct p as [|p]; simpl.
  - destruct (decide (P (f e))) as [Hp|Hp], (decide (P e)) as [He|He]; try done; by rewrite Hf in Hp.
  - destruct (decide (P e)); [done|]. rewrite !fst_shift. f_equal. apply IH.
Qed.

Lemma list_find_snoc (P : entry V -> Prop) `{!forall e, Decision (P e)} c e :
  list_find P c = None ->
  fst <$> list_find P (c ++ [e]) = if decide (P e) then Some (length c) else None.
Proof.
  intros Hn. rewrite list_find_app_r by done. simpl.
  destruct (decide (P e)); simpl; [f_equal; lia|done].
Qed.

Lemma list_find_snoc_ne (P : entry V -> Prop) `{!forall e, Decision (P e)} c e :
  ~ P e -> fst <$> list_find P (c ++ [e]) = fst <$> list_find P c.
Proof.
  intros He. destruct (list_find P c) as [[i x]|] eqn:E.
  - by erewrite list_find_app_l by done.
  - rewrite list_find_snoc by done. by destruct (decide (P e)).
Qed.

Lemma find_bound (P : entry V -> Prop) `{!forall e, Decision (P e)} c p :
  fst <$> list_find P c = Some p -> (p < length (value <$> c))%nat.
Proof.
  rewrite length_fmap. intros Hp. destruct (list_find P c) as [[i x]|] eqn:E; simplify_eq/=.
  apply list_find_Some in E as [Hl _]. by apply lookup_lt_Some in Hl.
Qed.

Lemma find_name_none (P : entry V -> Prop) `{!forall e, Decision (P e)} c :
  fst <$> list_find P c = None -> list_find P c = None.
Proof. by destruct (list_find P c) as [[]|]. Qed.

(** Giving an identifier to the element at a position. *)
Lemma find_add_id i c p i' :
  (p < length c)%nat -> find_id i c = None ->
  find_id i' (alter (fun e => mk (value e) (label e) (i :: terms e)) p c) =
    if decide (i = i') then Some p else find_id i' c.
Proof.
  unfold find_id. revert p. induction c as [|e c IH]; intros p Hp Hn; [simpl in Hp; lia|].
  simpl in Hn. destruct (decide (i ∈ terms e)) as [|He]; [done|].
  rewrite fst_shift in Hn. apply fmap_None in Hn.
  destruct p as [|p]; simpl.
  - destruct (decide (i' ∈ i :: terms e)) as [Hi|Hi]; destruct (decide (i = i')) as [->|Hne].
    + done.
    + destruct (decide (i' ∈ terms e)) as [|Ho]; [done|]. set_solver.
    + set_solver.
    + destruct (decide (i' ∈ terms e)) as [Ho|]; [set_solver|done].
  - simpl in Hp. specialize (IH p ltac:(lia) Hn).
    destruct (decide (i' ∈ terms e)) as [Hi|Hi].
    + destruct (decide (i = i')) as [->|]; done.
    + rewrite !fst_shift. etransitivity; [apply f_equal, IH|]. by destruct (decide (i = i')).
Qed.

(** The values of a list after an update of one entry. *)
Lemma value_alter (f : V -> V) (g : entry V -> entry V) p c :
  (forall e, value (g e) = f (value e)) -> value <$> alter g p c = alter f p (value <$> c).
Proof.
  intros Hg. revert p. induction c as [|e c IH]; intros [|p]; try done; simpl; f_equal; [apply Hg|apply IH].
Qed.

Lemma value_alter_same (g : entry V -> entry V) p c :
  (forall e, value (g e) = value e) -> value <$> alter g p c = value <$> c.
Proof.
  intros Hg. rewrite (value_alter id) by done. apply list_eq. intros i.
  rewrite list_lookup_alter. case_decide; [|done]. subst. apply option_fmap_id.
Qed.

Lemma takes_name k oi c : find_name k c = None -> refuses k oi c = false.
Proof. intros E. unfold refuses. by rewrite E. Qed.

Lemma takes_id k i c : find_id i c = None -> refuses k (Some i) c = false.
Proof. intros E. unfold refuses. rewrite E. apply andb_false_r. Qed.

Lemma find_add_other_id i c p i' :
  i <> i' -> find_id i' (alter (fun e => mk (value e) (label e) (i :: terms e)) p c) = find_id i' c.
Proof. intros Hne. apply list_find_alter. intros e. simpl. set_solver. Qed.
End Facts.

#[global] Instance list_dual_laws : DualVectorLaws t.
Proof.
  constructor; intros V; simpl; unfold update, add_term, add_term_at, insert.
  - done.
  - done.
  - done.
  - intros k p c. apply find_bound.
  - intros i p c. apply find_bound.
  - intros k p v c E. unfold refuses. by rewrite E.
  - intros k i v c E. rewrite takes_name by done. by rewrite length_fmap.
  - intros k i v c E. rewrite takes_name by done. exact (fmap_app value c [mk v k (option_list i)]).
  - intros k i v c k' Hn. rewrite takes_name by done. simpl. rewrite length_fmap.
    destruct (decide (k = k')) as [->|Hne].
    + unfold find_name. rewrite list_find_snoc by (by apply find_name_none). by rewrite decide_True.
    + unfold find_name. by apply list_find_snoc_ne.
  - intros k v c i E. rewrite takes_name by done. apply list_find_snoc_ne. simpl. set_solver.
  - intros k i v c i' E Hi. rewrite takes_name by done. simpl. rewrite length_fmap. destruct (decide (i = i')) as [->|Hne].
    + unfold find_id. rewrite list_find_snoc by (by apply find_name_none). rewrite decide_True; [done|set_solver].
    + apply list_find_snoc_ne. simpl. set_solver.
  - intros k i v c i' E Hne. rewrite takes_name by done. apply list_find_snoc_ne. simpl. set_solver.
  - intros k oi v c. destruct (refuses k oi c); [done|]. cbn. rewrite fmap_app. by apply prefix_app_r.
  - intros k oi v c p. destruct (refuses k oi c); [done|]. cbn. intros [= <-]. rewrite length_fmap, length_app. cbn. lia.
  - intros p f c. by apply value_alter.
  - intros p f c k. by apply list_find_alter.
  - intros p f c i. by apply list_find_alter.
  - intros i k c. destruct (find_name k c), (find_id i c); try done. by apply value_alter_same.
  - intros i k c k'. destruct (find_name k c), (find_id i c); try done. by apply list_find_alter.
  - intros i k c p i' Hk Hi. rewrite Hk, Hi. apply find_add_id; [|done].
    apply find_bound in Hk. by rewrite length_fmap in Hk.
  - intros i k c i' Hne. destruct (find_name k c), (find_id i c); try done. by apply find_add_other_id.
  - intros i p c. destruct (find_id i c); [done|]. by apply value_alter_same.
  - intros i p c k. destruct (find_id i c); [done|]. by apply list_find_alter.
  - intros i p c i' Hp Hi. rewrite Hi. rewrite length_fmap in Hp. by apply find_add_id.
  - intros i p c i' Hne. destruct (find_id i c); [done|]. by apply find_add_other_id.
Qed.

#[global] Instance list_takes_new_ids : TakesNewIds t.
Proof. intros V k i v c Hn. simpl. unfold insert. by rewrite takes_id. Qed.
End ListVector.
