(* ===== verification/JsonBuilder.v ===== *)
(** * Answers to queries

    Models [JsonMapBuilder] of [src/helics/common/JsonBuilder.hpp] and
    [JsonBuilder.cpp], which assembles one JSON document from the answers of
    several parts of the federation, and [src/helics/core/queryHelpers.hpp],
    which writes lists of names.  The JSON library is not part of the
    repository: it is the class [JsonLib], where [loadJsonStr] has no result
    when the code throws. *)

From stdpp Require Import pretty.
From S2P Require Import Prelude.

Class JsonLib := {
  json : Type;
  json_null : json;
  json_string : string -> json;
  json_int : Z -> json;
  json_array : json;
  (** [base[key] = v] and [base[key].append (v)] *)
  json_set : string -> json -> json -> json;
  json_append : string -> json -> json -> json;
  generateJsonString : json -> string;
  loadJsonStr : string -> option json;
}.

(** ** Lists of names *)

(** The text collected in the loop ends in a semicolon, which becomes the
    closing bracket. *)
Definition generateStringVector {A} (generator : A -> string) (data : list A) : string :=
  let ret := fold_left (fun ret ele => ret +:+ generator ele +:+ ";") data "[" in
  if bool_decide (1 < String.length ret)%nat
  then String.substring 0 (String.length ret - 1) ret +:+ "]"
  else ret +:+ "]".

Definition generateStringVector_if {A} (generator : A -> string) (valid : A -> bool) (data : list A)
    : string := generateStringVector generator (base.filter (fun a => valid a = true) data).

(** ** The builder *)

Module JsonMap.
Section Builder.
Context `{JsonLib}.

Record JsonMapBuilder := mkBuilder {
  jMap : option json;
  missing_components : gmap Z string;
}.

#[global] Instance JsonMapBuilder_settable : Settable JsonMapBuilder := fun r =>
  mkBuilder (jMap r) (missing_components r).

Definition new_builder : JsonMapBuilder := mkBuilder None ∅.

(** [getJValue ()] creates the document; [with_value] changes it. *)
Definition getJValue (b : JsonMapBuilder) : json := default json_null (jMap b).
Definition with_value (f : json -> json) (b : JsonMapBuilder) : JsonMapBuilder :=
  b <| jMap := Some (f (getJValue b)) |>.

Definition isCompleted (b : JsonMapBuilder) : bool :=
  bool_decide (is_Some (jMap b)) && bool_decide (missing_components b = ∅).
Definition isActive (b : JsonMapBuilder) : bool := bool_decide (is_Some (jMap b)).

Definition generatePlaceHolder (location : string) (b : JsonMapBuilder) : Z * JsonMapBuilder :=
  let index := Z.of_nat (size (missing_components b)) + 2 in
  (index, b <| missing_components ::=
             fun m => match m !! index with Some _ => m | None => <[index := location]> m end |>).

(** [None]: the text is not JSON, which throws, or there is no document. *)
Definition addComponent (info : string) (index : Z) (b : JsonMapBuilder) : option (bool * JsonMapBuilder) :=
  match missing_components b !! index with
  | None => Some (false, b)
  | Some loc =>
      element ← loadJsonStr info;
      doc ← jMap b;
      let b := b <| jMap := Some (json_append loc element doc) |>
                 <| missing_components ::= delete index |> in
      Some (bool_decide (missing_components b = ∅), b)
  end.

Definition generate (b : JsonMapBuilder) : string :=
  match jMap b with Some v => generateJsonString v | None => "{}" end.

Definition reset (b : JsonMapBuilder) : JsonMapBuilder := new_builder.

(** *** The places handed out are different *)

(** The places of a builder whose answers have not begun to arrive. *)
Definition fresh_places (b : JsonMapBuilder) : Prop :=
  forall i, is_Some (missing_components b !! i) <-> 2 <= i < Z.of_nat (size (missing_components b)) + 2.

Lemma fresh_new : fresh_places new_builder.
Proof. intros i. simpl. rewrite lookup_empty, map_size_empty. split; [intros []%is_Some_None|lia]. Qed.

Lemma generatePlaceHolder_fresh loc b :
  fresh_places b ->
  let '(i, b') := generatePlaceHolder loc b in
  missing_components b !! i = None /\ missing_components b' = <[i := loc]> (missing_components b) /\
  fresh_places b'.
Proof.
  intros Hf. unfold generatePlaceHolder. set (i := Z.of_nat _ + 2).
  assert (Hi : missing_components b !! i = None) by (apply eq_None_not_Some; rewrite (Hf i); lia).
  simpl. rewrite Hi. split_and!; [done..|]. intros j. simpl.
  rewrite map_size_insert_None by done. destruct (decide (i = j)) as [<-|Hne].
  - rewrite lookup_insert_eq. split; [intros _; lia|by eexists].
  - rewrite lookup_insert_ne by done. rewrite (Hf j). lia.
Qed.

Lemma addComponent_not_asked info index b :
  missing_components b !! index = None -> addComponent info index b = Some (false, b).
Proof. intros Hn. unfold addComponent. by rewrite Hn. Qed.
End Builder.
End JsonMap.

(** ** A library on text

    Documents as the text of what was put into them, for the evaluation of
    examples. *)
Module TextJson.
Definition text_json : JsonLib := {|
  json := string;
  json_null := "";
  json_string := fun s => s;
  json_int := fun z => pretty z;
  json_array := "";
  json_set := fun k v base => base +:+ k +:+ ":" +:+ v +:+ ",";
  json_append := fun k v base => base +:+ k +:+ "+" +:+ v +:+ ",";
  generateJsonString := fun s => s;
  loadJsonStr := fun s => if bool_decide (s = "#invalid") then None else Some s;
|}.
End TextJson.
