(* ===== verification/CoreBroker.v ===== *)
(** * A broker: state, routes and interfaces

    Models [src/helics/core/CoreBroker.hpp] and, of [CoreBroker.cpp], the
    routing of messages, the registration of interfaces, the links between
    them, the start of a federation and its dependencies.  The members that
    [src/helics/core/BrokerBase.hpp] holds for the broker are part of the same
    state.

    An operation of the class is a computation on the state.  What a broker does to the outside is appended to
    [outputs]: the messages it transmits on a route, the routes it opens and
    closes, and the messages it puts into its own queue; the time coordinator
    of the broker sends into that queue as well.  Log output is left out but
    for the messages of other parts that a root broker is to log. *)

From Stdlib Require Import Ascii.
From S2P Require Import Prelude StateMonad HTime Identifiers DualVector JsonBuilder TimeDependencies ForwardingTimeCoordinator HandleManager UnknownHandleManager CoreTypes ActionMessage.
Import Basic (BasicHandleInfo) Kind (handle_type) JsonMap (JsonMapBuilder).

(** ** Data *)

Module BState.
Inductive broker_state_t :=
  | created | configuring | configured | connecting | connected | initializing | operating
  | terminating | terminated | errored.

#[global] Instance broker_state_t_eq_dec : EqDecision broker_state_t.
Proof. solve_decision. Defined.

(** the values of the enumeration *)
Definition code (s : broker_state_t) : Z :=
  match s with
  | created => -6 | configuring => -5 | configured => -4 | connecting => -3 | connected => -2
  | initializing => -1 | operating => 0 | terminating => 1 | terminated => 3 | errored => 7
  end.

Definition lt (a b : broker_state_t) : bool := code a <? code b.
End BState.
Import BState (broker_state_t).

Module FedInfo.
Record BasicFedInfo := mkFedInfo {
  name : string;
  global_id : global_federate_id;
  route : route_id;
  parent : global_broker_id;
  isDisconnected : bool;
}.

#[global] Instance BasicFedInfo_settable : Settable BasicFedInfo := fun r =>
  mkFedInfo (name r) (global_id r) (route r) (parent r) (isDisconnected r).

Definition new (fedname : string) : BasicFedInfo :=
  mkFedInfo fedname GlobalFedId.invalid RouteId.invalid GlobalBrokerId.invalid false.
End FedInfo.
Import FedInfo (BasicFedInfo).

Module BrkInfo.
Record BasicBrokerInfo := mkBrokerInfo {
  name : string;
  global_id : global_broker_id;
  route : route_id;
  parent : global_broker_id;
  _initRequested : bool;
  isDisconnected : bool;
  _hasTimeDependency : bool;
  _core : bool;
  _nonLocal : bool;
  _route_key : bool;
  _sent_disconnect_ack : bool;
  routeInfo : string;
}.

#[global] Instance BasicBrokerInfo_settable : Settable BasicBrokerInfo := fun r =>
  mkBrokerInfo (name r) (global_id r) (route r) (parent r) (_initRequested r) (isDisconnected r)
    (_hasTimeDependency r) (_core r) (_nonLocal r) (_route_key r) (_sent_disconnect_ack r) (routeInfo r).

Definition new (brokerName : string) : BasicBrokerInfo :=
  mkBrokerInfo brokerName GlobalBrokerId.invalid RouteId.invalid GlobalBrokerId.invalid
    false false false false false false false "".
End BrkInfo.
Import BrkInfo (BasicBrokerInfo).

(** Readings of the steady clock and the timeout, in nanoseconds and
    milliseconds; a clock that was never read is at its epoch. *)
Record TimeoutMonitor := mkMonitor {
  waitingForPingReply : bool;
  lastParentPing : Z;
  startWaiting : Z;
  timeout : Z;
  waitingForConnection : bool;
}.

#[export] Instance TimeoutMonitor_settable : Settable TimeoutMonitor := fun r =>
  mkMonitor (waitingForPingReply r) (lastParentPing r) (startWaiting r) (timeout r)
    (waitingForConnection r).

Definition new_monitor : TimeoutMonitor := mkMonitor false 0 0 100000000 false.

(** What a broker or a core does to the outside. *)
Inductive broker_event :=
  | Transmit (route : route_id) (m : ActionMessage)
  | AddRoute (route : route_id) (info : string)
  | RemoveRoute (route : route_id)
  | Enqueue (m : ActionMessage)
  | LogText (level : Z) (source text : string)
  | DelayedValue (index : Z) (value : string)
  | BrokerDisconnect
  | Unregister (identifier : string)
  | DisconnectTriggered
  (* of a core only: a message for the log of a federate, and the logger *)
  | FederateLog (federate : nat) (level : Z) (source text : string)
  | LoggerChanged (present : bool).

#[export] Instance broker_event_eq_dec : EqDecision broker_event.
Proof. solve_decision. Defined.

(** [defs::errors] that the broker sends *)
Definition registration_failure : Z := -1.
Definition connection_failure : Z := -2.
(** [log_level] *)
Definition log_error : Z := 0.
Definition log_warning : Z := 1.

(** the places of the strings of a registration *)
Definition typeStringLoc : Z := 0.
Definition unitStringLoc : Z := 1.
Definition typeOutStringLoc : Z := 1.

Module Brk.
Section Broker.
Context `{Platform} {C : Type -> Type} `{DualVector C} `{JsonLib}.
(** the formatting library *)
Context (fmt_format : string -> list string -> string).

Record CoreBroker := mkBroker {
  (* BrokerBase *)
  global_id : global_broker_id;
  global_broker_id_local : global_broker_id;
  higher_broker_id : global_broker_id;
  maxLogLevel : Z;
  minFederateCount : Z;
  minBrokerCount : Z;
  brokerTimeout : Time;
  identifier : string;
  address : string;
  haltOperations : bool;
  timeCoord : ForwardingTimeCoordinator;
  brokerState : broker_state_t;
  hasTimeDependency : bool;
  enteredExecutionMode : bool;
  hasFilters : bool;
  (* CoreBroker *)
  _isRoot : bool;
  isRootc : bool;
  connectionEstablished : bool;
  routeCount : Z;
  _federates : C BasicFedInfo;
  _brokers : C BasicBrokerInfo;
  previous_local_broker_identifier : string;
  handles : HandleManager;
  unknownHandles : UnknownHandleManager;
  delayedDependencies : list (string * global_federate_id);
  global_id_translation : gmap global_federate_id local_federate_id;
  routing_table : gmap global_federate_id route_id;
  knownExternalEndpoints : gmap string route_id;
  global_values : gmap string string;
  queryCounter : Z;
  fedMap : JsonMapBuilder;
  fedMapRequestors : list ActionMessage;
  depMap : JsonMapBuilder;
  depMapRequestors : list ActionMessage;
  dataflowMapRequestors : list ActionMessage;
  earlyMessages : list ActionMessage;
  delayTransmitQueue : list ActionMessage;
  timeoutMon : TimeoutMonitor;
  outputs : list broker_event;
}.

#[global] Instance CoreBroker_settable : Settable CoreBroker := fun r =>
  mkBroker (global_id r) (global_broker_id_local r) (higher_broker_id r) (maxLogLevel r)
    (minFederateCount r) (minBrokerCount r) (brokerTimeout r) (identifier r) (address r)
    (haltOperations r) (timeCoord r) (brokerState r) (hasTimeDependency r) (enteredExecutionMode r)
    (hasFilters r) (_isRoot r) (isRootc r) (connectionEstablished r) (routeCount r) (_federates r)
    (_brokers r) (previous_local_broker_identifier r) (handles r) (unknownHandles r)
    (delayedDependencies r) (global_id_translation r) (routing_table r) (knownExternalEndpoints r)
    (global_values r) (queryCounter r) (fedMap r) (fedMapRequestors r) (depMap r)
    (depMapRequestors r) (dataflowMapRequestors r) (earlyMessages r) (delayTransmitQueue r)
    (timeoutMon r) (outputs r).

(** The object a constructor makes, after [configureBase] made its coordinator
    and set its state. *)
Definition new_broker (name : string) (setAsRootBroker : bool) : CoreBroker := {|
  global_id := parent_broker_id; global_broker_id_local := GlobalBrokerId.invalid;
  higher_broker_id := 0; maxLogLevel := 1; minFederateCount := 1; minBrokerCount := 0;
  brokerTimeout := 30000000000; identifier := name; address := ""; haltOperations := false;
  timeCoord := new_forwarding <| has_sender := true |>; brokerState := BState.configured;
  hasTimeDependency := false; enteredExecutionMode := false; hasFilters := false;
  _isRoot := setAsRootBroker; isRootc := setAsRootBroker; connectionEstablished := false;
  routeCount := 1; _federates := dv_empty; _brokers := dv_empty;
  previous_local_broker_identifier := ""; handles := empty_manager; unknownHandles := no_unknowns;
  delayedDependencies := []; global_id_translation := ∅; routing_table := ∅;
  knownExternalEndpoints := ∅; global_values := ∅; queryCounter := 1; fedMap := JsonMap.new_builder;
  fedMapRequestors := []; depMap := JsonMap.new_builder; depMapRequestors := [];
  dataflowMapRequestors := []; earlyMessages := []; delayTransmitQueue := [];
  timeoutMon := new_monitor; outputs := [];
|}.

(** ** Computations on the state *)

Definition M (A : Type) : Type := St CoreBroker A.

Definition emit (e : broker_event) : M unit := modifies (fun b => b <| outputs ::= fun l => l ++ [e] |>).
Definition transmit (route : route_id) (m : ActionMessage) : M unit := emit (Transmit route m).
Definition addRoute (route : route_id) (info : string) : M unit := emit (AddRoute route info).
Definition removeRoute (route : route_id) : M unit := emit (RemoveRoute route).
Definition addActionMessage (m : ActionMessage) : M unit := emit (Enqueue m).

(** A call of the time coordinator, whose messages go to the broker's queue. *)
Definition tc {A} (op : ForwardingTimeCoordinator -> A * ForwardingTimeCoordinator) : M A := fun b =>
  let '(a, fc) := op (timeCoord b <| sent := [] |>) in
  Some (a, b <| timeCoord := fc <| sent := [] |> |>
             <| outputs ::= fun l => l ++ ((fun m => Enqueue (copy_construct m)) <$> sent fc) |>).
Definition tc_ (op : ForwardingTimeCoordinator -> ForwardingTimeCoordinator) : M unit :=
  tc (fun fc => (tt, op fc)).

(** Assignments through an iterator. *)
Definition set_broker (p : nat) (f : BasicBrokerInfo -> BasicBrokerInfo) : M unit :=
  modifies (fun b => b <| _brokers ::= dv_modify p f |>).
Definition set_federate (p : nat) (f : BasicFedInfo -> BasicFedInfo) : M unit :=
  modifies (fun b => b <| _federates ::= dv_modify p f |>).
Definition broker_at (p : nat) : M BasicBrokerInfo :=
  let* o := gets (fun b => dv_elements (_brokers b) !! p) in deref o.
Definition federate_at (p : nat) : M BasicFedInfo :=
  let* o := gets (fun b => dv_elements (_federates b) !! p) in deref o.

(** A loop over the brokers; the body gets the element as it is then. *)
Definition for_brokers (f : nat -> BasicBrokerInfo -> M unit) : M unit :=
  let* n := gets (fun b => length (dv_elements (_brokers b))) in
  for_each (seq 0 n) (fun p => let* brk := broker_at p in f p brk).

(** ** Routes *)

Definition getRoute_of (fedid : global_federate_id) (b : CoreBroker) : route_id :=
  if (fedid =? parent_broker_id) || (fedid =? higher_broker_id b) then RouteId.parent_route_id
  else default RouteId.parent_route_id (routing_table b !! fedid).
Definition getRoute (fedid : global_federate_id) : M route_id := gets (getRoute_of fedid).

(** [getBrokerById]: the position of the broker, when there is one. *)
Definition getBrokerById_of (brokerid : global_broker_id) (b : CoreBroker) : option nat :=
  if isRootc b then
    let brkNum := GlobalBrokerId.localIndex brokerid in
    if isValidIndex brkNum (dv_elements (_brokers b)) then Some (Z.to_nat brkNum) else None
  else dv_find_id brokerid (_brokers b).
Definition getBrokerById (brokerid : global_broker_id) : M (option nat) :=
  gets (getBrokerById_of brokerid).

(** [routeMessage (cmd)] *)
Definition routeMessage (cmd : ActionMessage) : M unit :=
  let* higher := gets higher_broker_id in
  if (dest_id cmd =? parent_broker_id) || (dest_id cmd =? higher)
  then transmit RouteId.parent_route_id cmd
  else let* route := getRoute (dest_id cmd) in transmit route cmd.

(** [routeMessage (cmd, dest)]: the caller's command keeps the destination. *)
Definition routeMessage_to (cmd : ActionMessage) (dest : global_federate_id) : M unit :=
  if dest =? GlobalFedId.invalid then skip
  else routeMessage (cmd <| dest_id := dest |>).

Definition transmitToParent (cmd : ActionMessage) : M unit :=
  let* root := gets _isRoot in
  if root then addActionMessage cmd
  else
    let* gid := gets global_id in
    if negb (GlobalBrokerId.isValid gid)
    then modifies (fun b => b <| delayTransmitQueue ::= fun q => q ++ [cmd] |>)
    else transmit RouteId.parent_route_id cmd.

(** [broadcast (cmd)]: to the brokers directly below that are connected. *)
Definition broadcast (cmd : ActionMessage) : M unit :=
  for_brokers (fun p brk =>
    when (negb (BrkInfo._nonLocal brk) && negb (BrkInfo.isDisconnected brk))
      (transmit (BrkInfo.route brk) (cmd <| dest_id := BrkInfo.global_id brk |>))).

(** the route of a message to an endpoint that is known by name *)
Definition fillMessageRouteInformation (mess : ActionMessage) : M (route_id * ActionMessage) :=
  let endpointName := getString targetStringLoc mess in
  let* b := gets (fun b : CoreBroker => b) in
  match getEndpoint endpointName (handles b) with
  | Some eptInfo =>
      mret (getRoute_of (fed_id (Basic.handle eptInfo)) b, setDestination (Basic.handle eptInfo) mess)
  | None =>
      match knownExternalEndpoints b !! endpointName with
      | Some route => mret (route, mess)
      | None => mret (RouteId.parent_route_id, mess)
      end
  end.

(** [transmitDelayedMessages]: the queue in order, with the new identifier *)
Definition transmitDelayedMessages : M unit :=
  let* q := gets delayTransmitQueue in
  modifies (fun b => b <| delayTransmitQueue := [] |>);;
  for_each q (fun msg =>
    let* local := gets global_broker_id_local in
    transmit RouteId.parent_route_id (msg <| source_id := local |>)).

Definition isConnected (b : CoreBroker) : bool :=
  bool_decide (brokerState b = BState.operating) || bool_decide (brokerState b = BState.connected).

Definition isOpenToNewFederates (b : CoreBroker) : bool :=
  bool_decide (brokerState b <> BState.created) && BState.lt (brokerState b) BState.operating &&
  negb (haltOperations b).

(** ** Counting *)

Definition allInitReady (b : CoreBroker) : bool :=
  if int32 (dv_size (_federates b)) <? minFederateCount b then false
  else if int32 (dv_size (_brokers b)) <? minBrokerCount b then false
  else forallb (fun brk => BrkInfo._nonLocal brk || BrkInfo._initRequested brk) (dv_elements (_brokers b)).

Definition allDisconnected (b : CoreBroker) : bool :=
  forallb (fun brk => BrkInfo._nonLocal brk || BrkInfo.isDisconnected brk) (dv_elements (_brokers b)).
End Broker.
End Brk.

Arguments Brk.CoreBroker C {_}.
Arguments Brk.M C {_} A.
