(* ===== verification/BrokerInterfaces.v ===== *)
(** * A broker: interfaces and the links between them

    Models, of [src/helics/core/CoreBroker.cpp], the registration of
    publications, inputs, endpoints and filters, the search for the target of
    a link by name, and the links a root broker keeps until their target is
    registered.  A command is changed in place by the code and shadowed here. *)

From S2P Require Import Prelude StateMonad HTime Identifiers DualVector JsonBuilder TimeDependencies ForwardingTimeCoordinator HandleManager UnknownHandleManager CoreTypes CoreBroker ActionMessage.
Import Basic (BasicHandleInfo) Kind (handle_type) FedInfo (BasicFedInfo) BrkInfo (BasicBrokerInfo) Brk.

Module Links.
Section Links.
Context `{Platform} {C : Type -> Type} `{DualVector C} `{JsonLib}.

Local Abbreviation M := (Brk.M C).

Definition find_publication (name : string) : M (option BasicHandleInfo) :=
  gets (fun b => getPublication name (handles b)).
Definition find_input (name : string) : M (option BasicHandleInfo) :=
  gets (fun b => getInput name (handles b)).
Definition find_endpoint (name : string) : M (option BasicHandleInfo) :=
  gets (fun b => getEndpoint name (handles b)).
Definition find_filter (name : string) : M (option BasicHandleInfo) :=
  gets (fun b => getFilter name (handles b)).
Definition find_handle (h : global_handle) : M (option BasicHandleInfo) :=
  gets (fun b => findHandle h (handles b)).

Definition set_unknown (f : UnknownHandleManager -> UnknownHandleManager) : M unit :=
  modifies (fun b => b <| unknownHandles ::= f |>).

(** [_federates.find (id)->isDisconnected] *)
Definition federate_gone (id : global_federate_id) : M bool :=
  let* p := gets (fun b => dv_find_id id (_federates b)) in
  let* p := deref p in
  let* fed := federate_at p in
  mret (FedInfo.isDisconnected fed).

(** ** Adding to the registry *)

(** [addLocalInfo]: the fields of the handle that was added last *)
Definition local_info (b : CoreBroker C) (m : ActionMessage) (h : BasicHandleInfo) : BasicHandleInfo :=
  let h := match global_id_translation b !! source_id m with
           | Some local => h <| Basic.local_fed_id := local |>
           | None => h
           end in
  h <| Basic.flags := flags m |>.

(** [handles.addHandle (...)] and [addLocalInfo] *)
Definition add_handle (what : handle_type) (key type units : string) (m : ActionMessage) : M BasicHandleInfo :=
  fun b =>
    let '(h, hm) := addHandle_with (source_id m) (source_handle m) what key type units (handles b) in
    let h := local_info b m h in
    Some (h, b <| handles := hm <| HandleManager.handles ::= alter (fun _ => h)
                                     (pred (length (HandleManager.handles hm))) |> |>).

(** the reply to a registration under a name that is taken *)
Definition duplicate_error (text : string) (m : ActionMessage) : M unit :=
  let* local := gets global_broker_id_local in
  routeMessage (msg_from_to cmd_error local (source_id m)
                  <| dest_handle := source_handle m |> <| messageID := registration_failure |>
                  <| payload := text +:+ " (" +:+ name m +:+ ")" |>).

(** ** Links by name *)

Definition isEmpty (str : string) : bool := bool_decide (str = "").

(** the types of a filter, when it has any *)
Definition filter_types (filt : BasicHandleInfo) (command : ActionMessage) : ActionMessage :=
  if negb (isEmpty (Basic.type filt)) || negb (isEmpty (Basic.units filt))
  then setStringData [Basic.type filt; Basic.units filt] command else command.

(** the notice to the side that asked, when the target has left *)
Definition target_gone (action : action_t) (target : global_handle) (command : ActionMessage) : M unit :=
  let command := setActionFlag error_flag (setAction action command) in
  let command := setSource target (swapSourceDest command) in
  routeMessage (setStringData [] command).

Definition named_publication (command : ActionMessage) : M bool :=
  let* pub := find_publication (name command) in
  match pub with
  | None => mret false
  | Some pub =>
      let* gone := federate_gone (Basic.getFederateId pub) in
      (if negb gone then
         let command := setDestination (Basic.handle pub) (setAction cmd_add_subscriber command) in
         let command := command <| payload := "" |> in
         routeMessage command;;
         let command := swapSourceDest (setAction cmd_add_publisher command) in
         routeMessage (setStringData [Basic.type pub; Basic.units pub] command)
       else target_gone cmd_add_publisher (Basic.handle pub) command);;
      mret true
  end.

Definition named_input (command : ActionMessage) : M bool :=
  let* inp := find_input (name command) in
  match inp with
  | None => mret false
  | Some inp =>
      let* gone := federate_gone (Basic.getFederateId inp) in
      (if negb gone then
         let command := setDestination (Basic.handle inp) (setAction cmd_add_publisher command) in
         let* pub := find_handle (getSource command) in
         let command := match pub with
                        | Some pub => setStringData [Basic.type pub; Basic.units pub] command
                        | None => command
                        end in
         let command := command <| payload := "" |> in
         routeMessage command;;
         let command := swapSourceDest (setAction cmd_add_subscriber command) in
         routeMessage (setStringData [] command)
       else target_gone cmd_add_subscriber (Basic.handle inp) command);;
      mret true
  end.

Definition named_filter (command : ActionMessage) : M bool :=
  let* filt := find_filter (name command) in
  match filt with
  | None => mret false
  | Some filt =>
      let command := setDestination (Basic.handle filt) (setAction cmd_add_endpoint command) in
      let command := command <| payload := "" |> in
      routeMessage command;;
      let command := swapSourceDest (setAction cmd_add_filter command) in
      routeMessage (filter_types filt command);;
      mret true
  end.

Definition named_endpoint (command : ActionMessage) : M bool :=
  let* ept := find_endpoint (name command) in
  match ept with
  | None => mret false
  | Some ept =>
      let* gone := federate_gone (Basic.getFederateId ept) in
      (if negb gone then
         let command := setDestination (Basic.handle ept) (setAction cmd_add_filter command) in
         let command := command <| payload := "" |> in
         let* filt := find_handle (getSource command) in
         let command := match filt with Some filt => filter_types filt command | None => command end in
         routeMessage command;;
         let command := swapSourceDest (setAction cmd_add_endpoint command) in
         routeMessage (setStringData [] command)
       else target_gone cmd_add_endpoint (Basic.handle ept) command);;
      mret true
  end.

(** An interface without a name that asks for a link is registered, when the
    command carries its types. *)
Definition add_anonymous (what : handle_type) (command : ActionMessage) : M unit :=
  match stringData command with
  | [] => skip
  | _ =>
      let* known := find_handle (getSource command) in
      match known with
      | Some _ => skip
      | None => add_handle what "" (getString typeStringLoc command) (getString unitStringLoc command)
                  command;; skip
      end
  end.

(** the link is kept until its target is registered *)
Definition keep_unknown (command : ActionMessage) : M unit :=
  match messageAction command with
  | cmd_add_named_publication =>
      set_unknown (addUnknownPublication (name command) (getSource command) (flags command))
  | cmd_add_named_input =>
      set_unknown (addUnknownInput (name command) (getSource command) (flags command));;
      add_anonymous Kind.publication command
  | cmd_add_named_endpoint =>
      set_unknown (addUnknownEndpoint (name command) (getSource command) (flags command));;
      add_anonymous Kind.filter command
  | cmd_add_named_filter =>
      set_unknown (addUnknownFilter (name command) (getSource command) (flags command))
  | _ => skip
  end.

Definition checkForNamedInterface (command : ActionMessage) : M unit :=
  let* foundInterface :=
    match messageAction command with
    | cmd_add_named_publication => named_publication command
    | cmd_add_named_input => named_input command
    | cmd_add_named_filter => named_filter command
    | cmd_add_named_endpoint => named_endpoint command
    | _ => mret false
    end in
  if foundInterface then skip
  else
    let* root := gets isRootc in
    if root then keep_unknown command else routeMessage command.

(** Both sides of a link are told of its end. *)
Definition remove_link (first second : action_t) (target : option BasicHandleInfo) (command : ActionMessage)
    : M bool :=
  match target with
  | None => mret false
  | Some info =>
      let command := setDestination (Basic.handle info) (setAction first command) in
      let command := command <| payload := "" |> in
      routeMessage command;;
      routeMessage (swapSourceDest (setAction second command));;
      mret true
  end.

Definition removeNamedTarget (command : ActionMessage) : M unit :=
  let* foundInterface :=
    match messageAction command with
    | cmd_remove_named_publication =>
        let* pub := find_publication (name command) in
        remove_link cmd_remove_subscriber cmd_remove_publication pub command
    | cmd_remove_named_input =>
        let* inp := find_input (name command) in
        remove_link cmd_remove_publication cmd_remove_subscriber inp command
    | cmd_remove_named_filter =>
        let* filt := find_filter (name command) in
        remove_link cmd_remove_endpoint cmd_remove_filter filt command
    | cmd_remove_named_endpoint =>
        let* ept := find_endpoint (name command) in
        remove_link cmd_remove_filter cmd_add_endpoint ept command
    | _ => mret false
    end in
  if foundInterface then skip
  else
    let* root := gets isRootc in
    if root then skip else routeMessage command.

(** ** Links that waited for a registration *)

(** [transmit (getRoute (m.dest_id), m)] *)
Definition transmit_routed (m : ActionMessage) : M unit :=
  let* route := getRoute (dest_id m) in transmit route m.

Definition nonempty {A} (l : list A) : bool := match l with [] => false | _ => true end.

Definition FindandNotifyInputTargets (handleInfo : BasicHandleInfo) : M unit :=
  let* Handles := gets (fun b => checkForInputs (Basic.key handleInfo) (unknownHandles b)) in
  for_each Handles (fun target =>
    let m := newMessage cmd_add_subscriber in
    let m := setSource (Basic.handle handleInfo) (setDestination (fst target) m) in
    let m := m <| payload := Basic.type handleInfo |> <| flags := Basic.flags handleInfo |> in
    transmit_routed m;;
    let m := setSource (fst target) (setAction cmd_add_publisher m) in
    let m := setDestination (Basic.handle handleInfo) m <| flags := snd target |> in
    let* pub := find_handle (fst target) in
    let m := match pub with
             | Some pub => setStringData [Basic.type pub; Basic.units pub] m
             | None => m
             end in
    transmit_routed m);;
  when (nonempty Handles) (set_unknown (clearInput (Basic.key handleInfo))).

Definition FindandNotifyPublicationTargets (handleInfo : BasicHandleInfo) : M unit :=
  let* subHandles := gets (fun b => checkForPublications (Basic.key handleInfo) (unknownHandles b)) in
  for_each subHandles (fun sub =>
    let m := newMessage cmd_add_subscriber in
    let m := setDestination (Basic.handle handleInfo) (setSource (fst sub) m) <| flags := snd sub |> in
    transmit_routed m;;
    let m := setDestination (fst sub) (setAction cmd_add_publisher m) in
    let m := setSource (Basic.handle handleInfo) m in
    let m := m <| payload := Basic.type handleInfo |> <| flags := Basic.flags handleInfo |> in
    transmit_routed (setStringData [Basic.type handleInfo; Basic.units handleInfo] m));;
  let* Pubtargets := gets (fun b => checkForLinks (Basic.key handleInfo) (unknownHandles b)) in
  for_each Pubtargets (fun sub =>
    checkForNamedInterface
      (setSource (Basic.handle handleInfo) (newMessage cmd_add_named_input <| payload := sub |>)));;
  when (nonempty subHandles || nonempty Pubtargets)
    (set_unknown (clearPublication (Basic.key handleInfo))).

Definition FindandNotifyEndpointTargets (handleInfo : BasicHandleInfo) : M unit :=
  let* Handles := gets (fun b => checkForEndpoints (Basic.key handleInfo) (unknownHandles b)) in
  for_each Handles (fun target =>
    let m := newMessage cmd_add_endpoint in
    let m := setDestination (fst target) (setSource (Basic.handle handleInfo) m) <| flags := snd target |> in
    transmit_routed m;;
    transmit_routed (swapSourceDest (setAction cmd_add_filter m) <| flags := snd target |>));;
  when (nonempty Handles) (set_unknown (clearEndpoint (Basic.key handleInfo))).

(** the link of a filter to an endpoint that is asked for by name *)
Definition link_filter (handleInfo : BasicHandleInfo) (flag : option Z) (target : string) : M unit :=
  let m := setSource (Basic.handle handleInfo) (newMessage cmd_add_named_endpoint <| payload := target |>) in
  checkForNamedInterface (match flag with Some f => setActionFlag f m | None => m end).

Definition FindandNotifyFilterTargets (handleInfo : BasicHandleInfo) : M unit :=
  let* Handles := gets (fun b => checkForFilters (Basic.key handleInfo) (unknownHandles b)) in
  for_each Handles (fun target =>
    let m := setSource (Basic.handle handleInfo) (newMessage cmd_add_filter) <| flags := snd target |> in
    let m := filter_types handleInfo (setDestination (fst target) m) in
    transmit_routed m;;
    transmit_routed (setStringData [] (swapSourceDest (setAction cmd_add_endpoint m))));;
  let* FiltDestTargets := gets (fun b => checkForFilterDestTargets (Basic.key handleInfo) (unknownHandles b)) in
  for_each FiltDestTargets (link_filter handleInfo (Some destination_target));;
  let* FiltSourceTargets :=
    gets (fun b => checkForFilterSourceTargets (Basic.key handleInfo) (unknownHandles b)) in
  for_each FiltSourceTargets (link_filter handleInfo None);;
  when (nonempty Handles || nonempty FiltDestTargets || nonempty FiltSourceTargets)
    (set_unknown (clearFilter (Basic.key handleInfo))).

(** ** Registration *)

Definition addPublication (m : ActionMessage) : M unit :=
  let* known := find_publication (name m) in
  match known with
  | Some _ => duplicate_error "Duplicate publication names" m
  | None =>
      let* pub := add_handle Kind.publication (name m) (getString 0 m) (getString 1 m) m in
      let* root := gets isRootc in
      if negb root then transmit RouteId.parent_route_id m else FindandNotifyPublicationTargets pub
  end.

Definition addInput (m : ActionMessage) : M unit :=
  let* known := find_input (name m) in
  match known with
  | Some _ => duplicate_error "Duplicate input names" m
  | None =>
      let* inp := add_handle Kind.input (name m) (getString 0 m) (getString 1 m) m in
      let* root := gets isRootc in
      if negb root then transmit RouteId.parent_route_id m else FindandNotifyInputTargets inp
  end.

(** A broker with an endpoint takes part in the timing of the one above. *)
Definition addEndpoint (m : ActionMessage) : M unit :=
  let* known := find_endpoint (name m) in
  match known with
  | Some _ => duplicate_error "Duplicate endpoint names" m
  | None =>
      let* ept := add_handle Kind.endpoint (name m) (getString typeStringLoc m) (getString unitStringLoc m) m in
      let* root := gets isRootc in
      if negb root then
        transmit RouteId.parent_route_id m;;
        let* timed := gets hasTimeDependency in
        if negb timed then
          let* higher := gets higher_broker_id in
          let* added := tc (addDependency higher) in
          if (added : bool) then
            modifies (fun b => b <| hasTimeDependency := true |>);;
            let* local := gets global_broker_id_local in
            transmit RouteId.parent_route_id (msg_from_to cmd_add_interdependency local higher);;
            tc (addDependent higher);; skip
          else skip
        else skip
      else FindandNotifyEndpointTargets ept
  end.

Definition addFilter (m : ActionMessage) : M unit :=
  let* known := find_filter (name m) in
  match known with
  | Some _ => duplicate_error "Duplicate filter names" m
  | None =>
      let* filt := add_handle Kind.filter (name m) (getString typeStringLoc m) (getString typeOutStringLoc m) m in
      let* root := gets isRootc in
      if negb root then
        transmit RouteId.parent_route_id m;;
        let* filters := gets hasFilters in
        if negb filters then
          modifies (fun b => b <| hasFilters := true |>);;
          let* higher := gets higher_broker_id in
          let* added := tc (addDependent higher) in
          if (added : bool) then
            modifies (fun b => b <| hasTimeDependency := true |>);;
            let* local := gets global_broker_id_local in
            transmit RouteId.parent_route_id (msg_from_to cmd_add_dependency local higher)
          else skip
        else skip
      else FindandNotifyFilterTargets filt
  end.
End Links.
End Links.
