(* ===== verification/BrokerControl.v ===== *)
(** * A broker: start, connection and disconnection

    Models, of [src/helics/core/CoreBroker.cpp], the operations that open and
    close a broker, that start the federation when everything is ready, and
    that take parts of it away; [src/helics/core/TimeoutMonitor.cpp] as far as
    it serves brokers; and the logging of [src/helics/core/BrokerBase.cpp].
    The readings of the clock and what the network layer answers are
    arguments. *)

From Stdlib Require Import Ascii.
From stdpp Require Import pretty.
From S2P Require Import Prelude StateMonad HTime Identifiers DualVector JsonBuilder TimeDependencies TimeCoordinator ForwardingTimeCoordinator HandleManager UnknownHandleManager CoreTypes CoreBroker BrokerInterfaces ActionMessage.
Import Basic (BasicHandleInfo) Kind (handle_type) FedInfo (BasicFedInfo) BrkInfo (BasicBrokerInfo) Brk Links.

Module Control.
Section Control.
Context `{Platform} {C : Type -> Type} `{DualVector C} `{JsonLib}.
(** the formatting library, and the address the network layer gives *)
Context (fmt_format : string -> list string -> string) (generateLocalAddressString : string).

Local Abbreviation M := (Brk.M C).

(** [defs::properties::log_level] *)
Definition log_level_property : Z := 271.

(** ** Logging *)

(** A broker logs its own messages; the answer says whether it is one. *)
Definition sendToLogger (federateID : global_federate_id) (logLevel : Z) (name message : string) : M bool :=
  let* b := gets (fun b => b) in
  if (federateID =? parent_broker_id) || (federateID =? global_id b) then
    if maxLogLevel b <? logLevel then mret true
    else emit (LogText logLevel (fmt_format "{} ({})" [name; pretty federateID]) message);; mret true
  else mret false.

(** ** Opening *)

Definition setIdentifier (name : string) (b : CoreBroker C) : CoreBroker C :=
  if negb (BState.lt BState.connecting (brokerState b)) then b <| identifier := name |> else b.

Definition getAddress : M string :=
  let* b := gets (fun b => b) in
  (if bool_decide (brokerState b <> BState.connected) || isEmpty (address b)
   then modifies (fun b => b <| address := generateLocalAddressString |>) else skip);;
  gets address.

Definition setAsRoot (b : CoreBroker C) : CoreBroker C :=
  if BState.lt (brokerState b) BState.connected then b <| _isRoot := true |> <| global_id := 1 |> else b.

(** [std::chrono::milliseconds (timeout)]: a time converts to the [double] of
    its seconds, and that to the count of the duration. *)
Definition milliseconds_of (t : Time) : Z :=
  default 0 (Double.trunc (CountTime.toDouble ticksExp t)).

(** [brokerConnect] answers [res].  A second caller waits for the first, so a
    broker that is connecting has no result here. *)
Definition connect (res : bool) : M bool :=
  let* b := gets (fun b => b) in
  if BState.lt (brokerState b) BState.connected then
    if bool_decide (brokerState b = BState.configured) then
      modifies (fun b => b <| brokerState := BState.connecting |>
                          <| timeoutMon ::= fun t => t <| timeout := milliseconds_of (brokerTimeout b) |> |>);;
      (if res then
         modifies (fun b => b <| brokerState := BState.connected |>);;
         addActionMessage (newMessage cmd_broker_setup);;
         if negb (_isRoot b) then
           let* addr := getAddress in
           transmit RouteId.parent_route_id
             (setStringData [addr] (newMessage cmd_reg_broker <| source_id := GlobalFedId.invalid |>
                                                              <| payload := identifier b |>))
         else skip
       else modifies (fun b => b <| brokerState := BState.configured |>));;
      mret res
    else if bool_decide (brokerState b = BState.connecting) then deref None
    else mret (isConnected b)
  else mret (isConnected b).

(** ** Closing *)

Definition unregister : M unit :=
  let* b := gets (fun b => b) in
  emit (Unregister (identifier b));;
  when (negb (isEmpty (previous_local_broker_identifier b)))
    (emit (Unregister (previous_local_broker_identifier b))).

(** [processDisconnect (skipUnregister)] *)
Definition processDisconnect_skip (skipUnregister : bool) : M unit :=
  let* st := gets brokerState in
  if bool_decide (st = BState.terminating) || bool_decide (st = BState.terminated) then skip
  else
    (if BState.lt BState.configured st then
       modifies (fun b => b <| brokerState := BState.terminating |>);; emit BrokerDisconnect
     else skip);;
    modifies (fun b => b <| brokerState := BState.terminated |>);;
    (if negb skipUnregister then unregister else skip);;
    emit DisconnectTriggered.

(** ** Requests of the owner of a broker, which go into its queue *)

(** the message of [disconnect], which then waits *)
Definition disconnect_request : M unit := addActionMessage (newMessage cmd_user_disconnect).

Definition dataLink (publication input : string) : M unit :=
  addActionMessage (setStringData [input] (newMessage cmd_data_link <| payload := publication |>)).

Definition addSourceFilterToEndpoint (filter endpoint : string) : M unit :=
  addActionMessage (setStringData [endpoint] (newMessage cmd_filter_link <| payload := filter |>)).

Definition addDestinationFilterToEndpoint (filter endpoint : string) : M unit :=
  addActionMessage (setActionFlag destination_target
    (setStringData [endpoint] (newMessage cmd_filter_link <| payload := filter |>))).

(** The level travels in the counter, which has 16 bits and no sign. *)
Definition setLoggingLevel (logLevel : Z) : M unit :=
  let* gid := gets global_id in
  addActionMessage (newMessage cmd_broker_configure <| dest_id := gid |>
    <| messageID := log_level_property |> <| counter := uwrap 16 logLevel |>).

(** ** Marking and telling the parts below *)

(** all brokers and federates below one *)
Definition labelAsDisconnected (brkid : global_broker_id) : M unit :=
  modifies (fun b => b
    <| _brokers ::= dv_modify_all (fun brk => if BrkInfo.parent brk =? brkid
                                              then brk <| BrkInfo.isDisconnected := true |> else brk) |>
    <| _federates ::= dv_modify_all (fun fed => if FedInfo.parent fed =? brkid
                                                then fed <| FedInfo.isDisconnected := true |> else fed) |>).

Definition sendDisconnect : M unit :=
  let* local := gets global_broker_id_local in
  let bye := newMessage cmd_disconnect <| source_id := local |> in
  for_brokers (fun p brk =>
    if negb (BrkInfo.isDisconnected brk) then
      (if BrkInfo.parent brk =? local then
         routeMessage_to bye (BrkInfo.global_id brk);;
         set_broker p (fun brk => brk <| BrkInfo.isDisconnected := true |>)
       else skip);;
      let* timed := gets hasTimeDependency in
      if (timed : bool) then
        tc_ (removeDependency (BrkInfo.global_id brk));; tc_ (removeDependent (BrkInfo.global_id brk))
      else skip
    else skip);;
  let* timed := gets hasTimeDependency in
  when timed (tc_ disconnect).

Definition sendErrorToImmediateBrokers (error_code : Z) : M unit :=
  broadcast (newMessage cmd_error <| messageID := error_code |>).

(** ** Timeouts *)

(** [now - then > timeout], a count of nanoseconds against milliseconds *)
Definition expired (now since : Z) (t : TimeoutMonitor) : bool := timeout t * 1000000 <? now - since.

Definition set_monitor (f : TimeoutMonitor -> TimeoutMonitor) : M unit :=
  modifies (fun b => b <| timeoutMon ::= f |>).

Definition pingReply (t : TimeoutMonitor) : TimeoutMonitor :=
  t <| waitingForPingReply := false |> <| waitingForConnection := false |>.

Definition reset_monitor (t : TimeoutMonitor) : TimeoutMonitor :=
  t <| waitingForPingReply := false |> <| waitingForConnection := false |>.

Definition setTimeout (to : Z) (t : TimeoutMonitor) : TimeoutMonitor := t <| timeout := to |>.

Definition send_ping : M unit :=
  let* b := gets (fun b => b) in
  transmit RouteId.parent_route_id
    (newMessage cmd_ping <| source_id := global_broker_id_local b |> <| dest_id := higher_broker_id b |>).

(** waiting for a connection, and after the timeout checking it *)
Definition wait_connection (now : Z) : M unit :=
  let* b := gets (fun b => b) in
  if waitingForConnection (timeoutMon b) then
    when (expired now (startWaiting (timeoutMon b)) (timeoutMon b))
      (addActionMessage (newMessage cmd_check_connections <| source_id := global_broker_id_local b |>))
  else set_monitor (fun t => t <| waitingForConnection := true |> <| startWaiting := now |>).

(** [tick] of a broker *)
Definition tick (now : Z) : M unit :=
  let* b := gets (fun b => b) in
  if negb (_isRoot b) then
    if waitingForPingReply (timeoutMon b) then
      if expired now (lastParentPing (timeoutMon b)) (timeoutMon b) then
        sendToLogger (global_broker_id_local b) log_error (identifier b) "core lost connection with broker";;
        sendErrorToImmediateBrokers (-5);;
        processDisconnect_skip false;;
        modifies (fun b => b <| brokerState := BState.errored |>);;
        addActionMessage (newMessage cmd_stop)
      else send_ping
    else if isConnected b && GlobalBrokerId.isValid (global_broker_id_local b) &&
            negb (global_broker_id_local b =? parent_broker_id) then
      if GlobalBrokerId.isValid (higher_broker_id b) then
        send_ping;;
        set_monitor (fun t => t <| lastParentPing := now |> <| waitingForPingReply := true |>)
      else skip
    else wait_connection now
  else skip.

(** ** Dependencies *)

(** [ADD_DEPENDENCY] and [ADD_DEPENDENT] of a dependency that was asked for
    before the federate was known. *)
Definition delayed_dependency (newdep : string * global_federate_id) : M unit :=
  let* b := gets (fun b => b) in
  match dv_get_name (fst newdep) (_federates b) with
  | Some depfed =>
      routeMessage (msg_from_to cmd_add_dependency (snd newdep) (FedInfo.global_id depfed));;
      routeMessage (msg_from_to cmd_add_dependent (FedInfo.global_id depfed) (snd newdep))
  | None =>
      routeMessage (msg_from_to cmd_log parent_broker_id (snd newdep) <| messageID := log_warning |>
                      <| payload := "unable to locate " +:+ fst newdep +:+ " to establish dependency" |>)
  end.

(** A root with one dependency and one dependent takes itself out. *)
Definition bypass_root (depid dependency : global_federate_id) : M unit :=
  let* local := gets global_broker_id_local in
  if negb (dependency =? depid) then
    let adddep := newMessage cmd_add_dependent <| source_id := depid |> in
    let rmdep := newMessage cmd_remove_dependent <| source_id := local |> in
    routeMessage_to adddep dependency;;
    routeMessage_to rmdep dependency;;
    let adddep := setAction cmd_add_dependency adddep <| source_id := dependency |> in
    let rmdep := setAction cmd_remove_dependency rmdep in
    routeMessage_to adddep depid;;
    routeMessage_to rmdep depid;;
    tc_ (removeDependency dependency);;
    tc_ (removeDependent depid)
  else
    let rmdep := newMessage cmd_remove_interdependency <| source_id := local |> in
    routeMessage_to rmdep depid;;
    tc_ (removeDependency depid);;
    tc_ (removeDependent depid).

(** A broker with one dependent below takes itself out. *)
Definition bypass_broker (fedid : global_federate_id) : M unit :=
  let* b := gets (fun b => b) in
  let higher := higher_broker_id b in
  tc_ (removeDependency higher);;
  tc_ (removeDependency fedid);;
  tc_ (removeDependent higher);;
  tc_ (removeDependent fedid);;
  let rmdep := newMessage cmd_remove_interdependency <| source_id := global_broker_id_local b |> in
  routeMessage_to rmdep higher;;
  routeMessage_to rmdep fedid;;
  let adddep := newMessage cmd_add_interdependency <| source_id := fedid |> in
  routeMessage_to adddep higher;;
  routeMessage_to (adddep <| source_id := higher |>) fedid.

Definition checkDependencies : M unit :=
  let* b := gets (fun b => b) in
  if isRootc b then
    for_each (delayedDependencies b) delayed_dependency;;
    match dependents (timeCoord b), getDependencies (timeCoord b) with
    | [depid], [dependency] => bypass_root depid dependency
    | _, _ => skip
    end
  else if bool_decide (2 < length (dependents (timeCoord b)))%nat then skip
  else
    match base.filter (fun dep => dep <> higher_broker_id b) (dependents (timeCoord b)) with
    | [fedid] => bypass_broker fedid
    | _ => skip
    end.

(** ** The start of a federation *)

(** the coordinator enters the execution mode, when it is ready *)
Definition check_exec_entry : M unit :=
  let* res := tc checkExecEntry in
  match res with
  | MPR.next_step => modifies (fun b => b <| enteredExecutionMode := true |>)
  | _ => skip
  end.

(** the word for a kind of target *)
Definition target_word (type : ascii) : option string :=
  match type with
  | "p" => Some "publication"%string
  | "i" => Some "input"%string
  | "f" => Some "filter"%string
  | "e" => Some "endpoint"%string
  | _ => None
  end%char.

(** The notices to the interfaces whose target is missing; the message is one
    object, which the calls overwrite. *)
Fixpoint notify_missing (text : string) (miss : ActionMessage)
    (l : list (string * ascii * global_handle)) : M ActionMessage :=
  match l with
  | [] => mret miss
  | (target, type, handle) :: l' =>
      let miss := match target_word type with
                  | Some w => miss <| payload := fmt_format (text +:+ w +:+ " target {}") [target] |>
                  | None => miss
                  end in
      let miss := setDestination handle miss in
      routeMessage miss;; notify_missing text miss l'
  end.

(** [CMD_INIT_GRANT] to the brokers directly below *)
Definition grant_initialization : M unit :=
  let* local := gets global_broker_id_local in
  modifies (fun b => b <| brokerState := BState.operating |>);;
  broadcast (newMessage cmd_init_grant <| source_id := local |>);;
  tc_ enteringExecMode;;
  check_exec_entry.

Definition missing_message (action : action_t) (local : global_broker_id) : ActionMessage :=
  newMessage action <| source_id := local |> <| messageID := connection_failure |>.

Definition executeInitializationOperations : M unit :=
  checkDependencies;;
  let* b := gets (fun b => b) in
  let unknown := unknownHandles b in
  let local := global_broker_id_local b in
  if hasUnknowns unknown && hasNonOptionalUnknowns unknown && hasRequiredUnknowns unknown then
    let* eMiss := notify_missing "Unable to connect to required " (missing_message cmd_error local)
                    (processRequiredUnknowns unknown) in
    broadcast (eMiss <| payload := "Missing required connections" |>
                     <| dest_handle := InterfaceHandle.invalid |>);;
    sendDisconnect;;
    addActionMessage (newMessage cmd_stop)
  else
    (if hasUnknowns unknown && hasNonOptionalUnknowns unknown then
       notify_missing "Unable to connect to " (missing_message cmd_warning local)
         (processNonOptionalUnknowns unknown);; skip
     else skip);;
    grant_initialization.

(** ** Disconnection of a part *)

Definition disconnectBroker (p : nat) : M unit :=
  set_broker p (fun brk => brk <| BrkInfo.isDisconnected := true |>);;
  let* b := gets (fun b => b) in
  if BState.lt (brokerState b) BState.operating && isRootc b then
    let* brk := broker_at p in
    let id := BrkInfo.global_id brk in
    broadcast (newMessage cmd_broadcast_disconnect <| source_id := id |>);;
    set_unknown (clearFederateUnknowns id);;
    if negb (BrkInfo._core brk) then
      for_brokers (fun _ subbrk =>
        when ((BrkInfo.parent subbrk =? id) && BrkInfo._core subbrk)
          (set_unknown (clearFederateUnknowns (BrkInfo.global_id subbrk))))
    else skip
  else skip.

(** the effect of the message on time *)
Definition disconnect_time (command : ActionMessage) : M unit :=
  let* b := gets (fun b => b) in
  if hasTimeDependency b then
    if negb (enteredExecutionMode b) then tc (processTimeMessage command);; check_exec_entry
    else
      let* res := tc (processTimeMessage command) in
      if (res : bool) then tc_ updateTimeFactors else skip
  else skip.

(** the acknowledgement of a disconnection *)
Definition disconnect_ack (p : nat) (brk : BasicBrokerInfo) : M unit :=
  let* local := gets global_broker_id_local in
  transmit (BrkInfo.route brk)
    (newMessage (if BrkInfo._core brk then cmd_disconnect_core_ack else cmd_disconnect_broker_ack)
       <| source_id := local |> <| dest_id := BrkInfo.global_id brk |>);;
  set_broker p (fun brk => brk <| BrkInfo._sent_disconnect_ack := true |>).

Definition forward_disconnect (brk : BasicBrokerInfo) (command : ActionMessage) : M unit :=
  transmit RouteId.parent_route_id
    (setAction (if BrkInfo._core brk then cmd_disconnect_core else cmd_disconnect_broker) command).

(** when everything below is gone *)
Definition disconnect_last (brk : option (nat * BasicBrokerInfo)) : M unit :=
  tc_ disconnect;;
  let* b := gets (fun b => b) in
  if negb (isRootc b) then
    transmit RouteId.parent_route_id (newMessage cmd_disconnect <| source_id := global_broker_id_local b |>)
  else
    match brk with
    | Some (p, brk) =>
        when (negb (BrkInfo._nonLocal brk)) (disconnect_ack p brk;; removeRoute (BrkInfo.route brk))
    | None => skip
    end;;
    addActionMessage (newMessage cmd_stop).

(** while others below are still there *)
Definition disconnect_one (brk : option (nat * BasicBrokerInfo)) (command : ActionMessage) : M unit :=
  let* b := gets (fun b => b) in
  let early := negb (isRootc b) && BState.lt (brokerState b) BState.operating in
  match brk with
  | None => skip
  | Some (p, brk) =>
      if negb (BrkInfo._nonLocal brk) then
        disconnect_ack p brk;;
        when early (forward_disconnect brk command);;
        removeRoute (BrkInfo.route brk)
      else when early (forward_disconnect brk command)
  end.

(** a broker or a core that leaves; what a non-root broker hears from above
    makes it leave as well *)
Definition disconnect_below (command : ActionMessage) (brk : option nat) : M unit :=
  let* b := gets (fun b => b) in
  if negb (isRootc b) && (source_id command =? higher_broker_id b) then
    sendDisconnect;; addActionMessage (newMessage cmd_stop)
  else
    match brk with Some p => disconnectBroker p | None => skip end;;
    let* info := match brk with
                 | Some p => let* brk := broker_at p in mret (Some (p, brk))
                 | None => mret None
                 end in
    let* all := gets allDisconnected in
    if (all : bool) then disconnect_last info else disconnect_one info command.

(** [processDisconnect (command)] *)
Definition processDisconnect (command : ActionMessage) : M unit :=
  let* brk := getBrokerById (source_id command) in
  match messageAction command with
  | cmd_disconnect | cmd_priority_disconnect =>
      let* local := gets global_broker_id_local in
      if dest_id command =? local then disconnect_time command
      else if dest_id command =? parent_broker_id then disconnect_below command brk
      else let* route := getRoute (dest_id command) in transmit route command
  | cmd_disconnect_core | cmd_disconnect_broker =>
      match brk with
      | None => skip
      | Some p =>
          disconnectBroker p;;
          let* root := gets isRootc in
          when (negb root) (transmit RouteId.parent_route_id command)
      end
  | _ => skip
  end.
End Control.
End Control.
