(* ===== verification/BrokerQueries.v ===== *)
(** * A broker: queries

    Models the queries of [src/helics/core/CoreBroker.cpp]: the answers a
    broker gives itself, those it assembles from the answers of the brokers and
    cores below, and where it sends the others.  A caller of [query] waits on
    [ActiveQueries]; the answer it gets is a [DelayedValue] output.  The order
    in which a hash table is walked is the argument [iterate]. *)

From Stdlib Require Import Ascii.
From stdpp Require Import pretty.
From S2P Require Import Prelude StateMonad HTime Identifiers DualVector JsonBuilder ForwardingTimeCoordinator HandleManager CoreTypes CoreBroker BrokerInterfaces BrokerControl ActionMessage.
Import Basic (BasicHandleInfo) Kind (handle_type) FedInfo (BasicFedInfo) BrkInfo (BasicBrokerInfo) Brk Links Control JsonMap (JsonMapBuilder).

Module Queries.
Section Queries.
Context `{Platform} {C : Type -> Type} `{DualVector C} `{JsonLib}.
Context (fmt_format : string -> list string -> string) (generateLocalAddressString : string).
Context (iterate : gmap string string -> list (string * string)).

Local Abbreviation M := (Brk.M C).

Definition newline : string := String (ascii_of_nat 10) "".
Definition tab : string := String (ascii_of_nat 9) "".
Definition quoted (s : string) : string := String (ascii_of_nat 34) "" +:+ s +:+ String (ascii_of_nat 34) "".
Definition to_string (z : Z) : string := pretty z.

(** ** Local answers *)

Definition count_kind (what : handle_type) (hm : HandleManager) : Z :=
  Z.of_nat (length (base.filter (fun h => Basic.handleType h = what) (HandleManager.handles hm))).

Definition summary_format : string :=
  "Federation Summary> " +:+ newline +:+ tab +:+ "{} federates [min {}]" +:+ newline +:+ tab +:+
  "{}/{} brokers/cores [min {}]" +:+ newline +:+ tab +:+ "{} publications" +:+ newline +:+ tab +:+
  "{} inputs" +:+ newline +:+ tab +:+ "{} endpoints" +:+ newline +:+ tab +:+ "{} filters" +:+ newline +:+
  "<<<<<<<<<".

(** a handle that was removed counts as a filter *)
Definition generateFederationSummary (b : CoreBroker C) : string :=
  let brks := dv_elements (_brokers b) in
  let count_core c := Z.of_nat (length (base.filter (fun brk => BrkInfo._core brk = c) brks)) in
  let hm := handles b in
  fmt_format summary_format
    (to_string <$>
     [dv_size (_federates b); minFederateCount b; count_core false; count_core true; minBrokerCount b;
      count_kind Kind.publication hm; count_kind Kind.input hm; count_kind Kind.endpoint hm;
      count_kind Kind.filter hm + count_kind Kind.unknown hm]).

Definition counts_answer (b : CoreBroker C) : string :=
  "{" +:+ quoted "brokers" +:+ ":" +:+ to_string (dv_size (_brokers b)) +:+ "," +:+ newline +:+
  quoted "federates" +:+ ":" +:+ to_string (dv_size (_federates b)) +:+ "," +:+ newline +:+
  quoted "handles" +:+ ":" +:+ to_string (Z.of_nat (length (HandleManager.handles (handles b)))) +:+ "}".

Definition names_of (what : handle_type) (b : CoreBroker C) : string :=
  generateStringVector_if Basic.key (fun h => bool_decide (Basic.handleType h = what))
    (HandleManager.handles (handles b)).

(** the heading of a document on this broker *)
Definition heading (b : CoreBroker C) (base : json) : json :=
  let base := json_set "name" (json_string (identifier b)) base in
  let base := json_set "id" (json_int (global_broker_id_local b)) base in
  if negb (isRootc b) then json_set "parent" (json_int (higher_broker_id b)) base else base.

Definition dependency_lists (b : CoreBroker C) (base : json) : json :=
  let base := json_set "dependents" json_array base in
  let base := fold_left (fun base dep => json_append "dependents" (json_int dep) base)
                (dependents (timeCoord b)) base in
  let base := json_set "dependencies" json_array base in
  fold_left (fun base dep => json_append "dependencies" (json_int dep) base)
    (getDependencies (timeCoord b)) base.

(** ** Documents from several parts

    [which] selects the builder: the map of federates or the dependencies. *)
Inductive document := FedMap | DepMap.

Definition builder (d : document) (b : CoreBroker C) : JsonMapBuilder :=
  match d with FedMap => fedMap b | DepMap => depMap b end.
Definition set_builder (d : document) (f : JsonMapBuilder -> JsonMapBuilder) : M unit :=
  modifies (fun b => match d with FedMap => b <| fedMap ::= f |> | DepMap => b <| depMap ::= f |> end).

(** the request to one part, for the place its answer gets *)
Definition ask_part (d : document) (queryReq : ActionMessage) (brk : BasicBrokerInfo) : M unit :=
  let location := if BrkInfo._core brk then "cores"%string else "brokers"%string in
  let* jb := gets (builder d) in
  let '(index, jb) := JsonMap.generatePlaceHolder location jb in
  set_builder d (fun _ => jb);;
  transmit (BrkInfo.route brk) (queryReq <| messageID := index |> <| dest_id := BrkInfo.global_id brk |>).

Fixpoint ask_parts (d : document) (queryReq : ActionMessage) (hasCores : bool) (brks : list BasicBrokerInfo)
    : M unit :=
  match brks with
  | [] => skip
  | brk :: brks' =>
      when (BrkInfo._core brk && negb hasCores)
        (set_builder d (JsonMap.with_value (json_set "cores" json_array)));;
      ask_part d queryReq brk;;
      ask_parts d queryReq (hasCores || BrkInfo._core brk) brks'
  end.

Definition start_document (d : document) (request : string) (code : Z) (brks : list BasicBrokerInfo) : M unit :=
  let* b := gets (fun b => b) in
  set_builder d (JsonMap.with_value (fun base => json_set "brokers" json_array (heading b base)));;
  ask_parts d (newMessage cmd_broker_query <| payload := request |>
                 <| source_id := global_broker_id_local b |> <| counter := code |>) false brks.

(** the parts directly below *)
Definition initializeFederateMap : M unit :=
  let* b := gets (fun b => b) in
  start_document FedMap "federate_map" 2
    (base.filter (fun brk => BrkInfo.parent brk = global_broker_id_local b) (dv_elements (_brokers b))).

(** all parts *)
Definition initializeDependencyGraph : M unit :=
  let* b := gets (fun b => b) in
  start_document DepMap "dependency_graph" 4 (dv_elements (_brokers b));;
  set_builder DepMap (JsonMap.with_value (dependency_lists b)).

(** the same text, on the same builder *)
Definition initializeDataFlowGraph : M unit := initializeDependencyGraph.

Definition document_answer (d : document) (initialize : M unit) : M string :=
  let* jb := gets (builder d) in
  if JsonMap.isCompleted jb then mret (JsonMap.generate jb)
  else if JsonMap.isActive jb then mret "#wait"%string
  else
    initialize;;
    let* jb := gets (builder d) in
    mret (if JsonMap.isCompleted jb then JsonMap.generate jb else "#wait"%string).

Definition bool_word (c : bool) : string := if c then "true" else "false".

Definition generateQueryAnswer (request : string) : M string :=
  let* b := gets (fun b => b) in
  if bool_decide (request = "isinit") then mret (bool_word (negb (BState.lt (brokerState b) BState.operating)))
  else if bool_decide (request = "isconnected") then mret (bool_word (isConnected b))
  else if bool_decide (request = "name") then mret (identifier b)
  else if bool_decide (request = "address") then getAddress generateLocalAddressString
  else if bool_decide (request = "counts") then mret (counts_answer b)
  else if bool_decide (request = "summary") then mret (generateFederationSummary b)
  else if bool_decide (request = "federates")
  then mret (generateStringVector FedInfo.name (dv_elements (_federates b)))
  else if bool_decide (request = "brokers")
  then mret (generateStringVector BrkInfo.name (dv_elements (_brokers b)))
  else if bool_decide (request = "inputs") then mret (names_of Kind.input b)
  else if bool_decide (request = "publications") then mret (names_of Kind.publication b)
  else if bool_decide (request = "filters") then mret (names_of Kind.filter b)
  else if bool_decide (request = "endpoints") then mret (names_of Kind.endpoint b)
  else if bool_decide (request = "federate_map") then document_answer FedMap initializeFederateMap
  else if bool_decide (request = "dependency_graph") then document_answer DepMap initializeDependencyGraph
  else if bool_decide (request = "dependson")
  then mret (generateStringVector to_string (getDependencies (timeCoord b)))
  else if bool_decide (request = "dependents")
  then mret (generateStringVector to_string (dependents (timeCoord b)))
  else if bool_decide (request = "dependencies")
  then mret (generateJsonString (dependency_lists b (heading b json_null)))
  else mret "#invalid"%string.

(** ** Answering *)

Definition setDelayedValue (index : Z) (value : string) : M unit := emit (DelayedValue index value).

Definition processLocalQuery (m : ActionMessage) : M unit :=
  let* local := gets global_broker_id_local in
  let* answer := generateQueryAnswer (payload m) in
  let queryRep := newMessage cmd_query_reply <| source_id := local |> <| dest_id := source_id m |>
                    <| messageID := messageID m |> <| payload := answer |> <| counter := counter m |> in
  if bool_decide (answer = "#wait") then
    modifies (fun b =>
      if bool_decide (payload m = "dependency_graph") then b <| depMapRequestors ::= fun l => l ++ [queryRep] |>
      else if bool_decide (payload m = "federate_map") then b <| fedMapRequestors ::= fun l => l ++ [queryRep] |>
      else if bool_decide (payload m = "data_flow_graph")
      then b <| dataflowMapRequestors ::= fun l => l ++ [queryRep] |>
      else b)
  else if dest_id queryRep =? local then setDelayedValue (messageID m) answer
  else routeMessage_to queryRep (source_id m).

(** a reply made here to the source of the query *)
Definition reply_query (m : ActionMessage) (answer : string) : M unit :=
  let* local := gets global_broker_id_local in
  let queryResp := newMessage cmd_query_reply <| dest_id := source_id m |> <| source_id := local |>
                     <| messageID := messageID m |> <| payload := answer |> in
  if dest_id queryResp =? local then setDelayedValue (messageID m) answer
  else transmit_routed queryResp.

Definition global_answer (request : string) (b : CoreBroker C) : string :=
  match global_values b !! request with
  | Some v => v
  | None =>
      if bool_decide (request = "list") then generateStringVector fst (iterate (global_values b))
      else if bool_decide (request = "all") then
        generateJsonString (fold_left (fun jv val => json_set (fst val) (json_string (snd val)) jv)
                              (iterate (global_values b)) json_null)
      else "#invalid"
  end.

(** the route to a federate or a broker by name *)
Definition route_to_name (target : string) (b : CoreBroker C) : route_id :=
  match dv_get_name target (_federates b) with
  | Some fed => FedInfo.route fed
  | None => match dv_get_name target (_brokers b) with
            | Some brk => BrkInfo.route brk
            | None => RouteId.parent_route_id
            end
  end.

Definition processQuery (m : ActionMessage) : M unit :=
  let target := getString targetStringLoc m in
  let* b := gets (fun b => b) in
  if bool_decide (target = identifier b) || bool_decide (target = "broker") then processLocalQuery m
  else if isRootc b && (bool_decide (target = "root") || bool_decide (target = "federation"))
  then processLocalQuery m
  else if bool_decide (target = "global") then reply_query m (global_answer (payload m) b)
  else
    let route := route_to_name target b in
    if (route =? RouteId.parent_route_id) && isRootc b then reply_query m "#invalid"
    else transmit route m.

(** the requests that waited for a document *)
Definition answer_requestors (requestors : list ActionMessage) (str : string) : M unit :=
  for_each requestors (fun resp =>
    let* local := gets global_broker_id_local in
    if dest_id resp =? local then setDelayedValue (messageID resp) str
    else routeMessage (resp <| payload := str |>)).

Definition add_component (d : document) (m : ActionMessage) : M bool :=
  let* jb := gets (builder d) in
  let* r := deref (JsonMap.addComponent (payload m) (messageID m) jb) in
  set_builder d (fun _ => snd r);; mret (fst r).

Definition processQueryResponse (m : ActionMessage) : M unit :=
  if counter m =? 2 then
    let* complete := add_component FedMap m in
    if (complete : bool) then
      let* b := gets (fun b => b) in
      answer_requestors (fedMapRequestors b) (JsonMap.generate (fedMap b));;
      modifies (fun b => b <| fedMapRequestors := [] |>)
    else skip
  else if counter m =? 4 then
    let* complete := add_component DepMap m in
    if (complete : bool) then
      let* b := gets (fun b => b) in
      answer_requestors (depMapRequestors b) (JsonMap.generate (depMap b));;
      modifies (fun b => b <| depMapRequestors := [] |>)
    else skip
  else setDelayedValue (messageID m) (payload m).

(** ** Asking

    The index under which the caller of [query] waits, or an answer at once. *)
Definition query (target queryStr : string) : M (Z + string) :=
  let* b := gets (fun b => b) in
  let gid := global_id b in
  let* index := gets (fun b => int32 (queryCounter b + 1)) in
  let querycmd action := newMessage action <| source_id := gid |> <| messageID := index |>
                           <| payload := queryStr |> in
  let count := modifies (fun b : CoreBroker C => b <| queryCounter := index |>) in
  if bool_decide (target = "broker") || bool_decide (target = identifier b) then
    count;; addActionMessage (querycmd cmd_broker_query <| dest_id := gid |>);; mret (inl index)
  else if bool_decide (target = "parent") then
    if isRootc b then mret (inr "#na"%string)
    else count;; addActionMessage (querycmd cmd_broker_query);; mret (inl index)
  else if bool_decide (target = "root") || bool_decide (target = "rootbroker") then
    count;; transmitToParent (querycmd cmd_broker_query);; mret (inl index)
  else count;; transmitToParent (setStringData [target] (querycmd cmd_query));; mret (inl index).

Definition setGlobal (valueName value : string) : M unit :=
  let* gid := gets global_id in
  transmitToParent (setStringData [value] (newMessage cmd_set_global <| source_id := gid |>
                                             <| payload := valueName |>)).
End Queries.
End Queries.
