(* ===== verification/BrokerCommands.v ===== *)
(** * A broker: commands

    Models [processPriorityCommand] and [processCommand] of
    [src/helics/core/CoreBroker.cpp] and the queue of
    [src/helics/core/BrokerBase.cpp].  A command that the code changes before it
    passes it on is shadowed here.  Each case of the two functions is a
    definition of its own. *)

From S2P Require Import Prelude BrokerBase StateMonad HTime Identifiers DualVector JsonBuilder TimeDependencies TimeCoordinator ForwardingTimeCoordinator HandleManager UnknownHandleManager CoreTypes CoreBroker BrokerInterfaces BrokerControl BrokerQueries Wire ActionMessage.
Import Basic (BasicHandleInfo) Kind (handle_type) FedInfo (BasicFedInfo) BrkInfo (BasicBrokerInfo) Brk Links Control Queries.

Module Commands.
Section Commands.
Context `{Platform} {C : Type -> Type} `{DualVector C} `{JsonLib}.
Context (fmt_format : string -> list string -> string) (generateLocalAddressString : string).
Context (iterate : gmap string string -> list (string * string)).

Local Abbreviation M := (Brk.M C).

(** ** Registration of federates and brokers *)

Definition keep_early (command : ActionMessage) : M unit :=
  modifies (fun b => b <| earlyMessages ::= fun l => l ++ [command] |>).

Definition delay (command : ActionMessage) : M unit :=
  modifies (fun b => b <| delayTransmitQueue ::= fun q => q ++ [copy_construct command] |>).

(** [routing_table.emplace] keeps a route that is there *)
Definition add_to_table (id : global_federate_id) (route : route_id) : M unit :=
  modifies (fun b => b <| routing_table ::= emplace id route |>).

(** a broker that had said it was ready takes it back *)
Definition init_not_ready : M unit :=
  let* b := gets (fun b => b) in
  when (allInitReady b)
    (transmit RouteId.parent_route_id
       (newMessage cmd_init_not_ready <| source_id := global_broker_id_local b |>)).

(** a refused registration *)
Definition refusal (action : action_t) (local : global_broker_id) (code : Z) (command : ActionMessage)
    : ActionMessage :=
  setActionFlag error_flag (newMessage action) <| source_id := local |> <| messageID := code |>
    <| payload := name command |>.

Definition refuse_federate (code : Z) (command : ActionMessage) : M unit :=
  let* local := gets global_broker_id_local in
  let* route := getRoute (source_id command) in
  transmit route (refusal cmd_fed_ack local code command).

(** The root gives the federate its identifier and answers. *)
Definition grant_federate (command : ActionMessage) : M unit :=
  let* b := gets (fun b => b) in
  let p := pred (length (dv_elements (_federates b))) in
  let gid := int32 (int32 (dv_size (_federates b)) - 1 + global_federate_id_shift) in
  set_federate p (fun fed => fed <| FedInfo.global_id := gid |>);;
  modifies (fun b => b <| _federates ::= dv_add_term_at gid (Z.to_nat (gid - global_federate_id_shift)) |>);;
  let* fed := federate_at p in
  add_to_table gid (FedInfo.route fed);;
  transmit (FedInfo.route fed)
    (newMessage cmd_fed_ack <| source_id := global_broker_id_local b |> <| dest_id := gid |>
       <| payload := name command |>).

(** A registration goes up, when the broker has an identifier to put on it. *)
Definition forward_federate (command : ActionMessage) : M unit :=
  let* local := gets global_broker_id_local in
  if GlobalBrokerId.isValid local
  then transmit RouteId.parent_route_id (command <| source_id := local |>)
  else delay command.

Definition register_federate (command : ActionMessage) : M unit :=
  let* route := getRoute (source_id command) in
  modifies (fun b => b <| _federates ::= fun c =>
    dv_modify_back (fun fed => fed <| FedInfo.route := route |> <| FedInfo.parent := source_id command |>)
      (snd (dv_insert (name command) None (FedInfo.new (name command)) c)) |>);;
  let* root := gets isRootc in
  if negb root then forward_federate command else grant_federate command.

Definition cmd_reg_fed_case (command : ActionMessage) : M unit :=
  let* b := gets (fun b => b) in
  if negb (connectionEstablished b) then keep_early command
  else if bool_decide (brokerState b = BState.operating) then refuse_federate 5 command
  else
    init_not_ready;;
    match dv_find_name (name command) (_federates b) with
    | Some _ => refuse_federate 6 command
    | None => register_federate command
    end.

(** A broker that has no route yet gets one; the flag says that it is new. *)
Definition no_source (command : ActionMessage) : bool :=
  negb (GlobalFedId.isValid (source_id command)) || (source_id command =? parent_broker_id).

Definition new_route (command : ActionMessage) : M route_id :=
  let* route := gets routeCount in
  modifies (fun b => b <| routeCount := int32 (route + 1) |>);;
  addRoute route (getString targetStringLoc command);;
  mret route.

Definition refuse_broker (code : Z) (command : ActionMessage) : M unit :=
  let* local := gets global_broker_id_local in
  if no_source command then
    let* newroute := new_route command in
    transmit newroute (refusal cmd_broker_ack local code command);;
    removeRoute newroute
  else
    let* newroute := getRoute (source_id command) in
    transmit newroute (refusal cmd_broker_ack local code command).

Definition broker_reply (local brkid : global_broker_id) (command : ActionMessage) : ActionMessage :=
  newMessage cmd_broker_ack <| source_id := local |> <| dest_id := brkid |> <| payload := name command |>.

(** a registration that is sent again: the route is renewed and the answer repeated *)
Definition resend_broker (p : nat) (command : ActionMessage) : M unit :=
  let* route := new_route command in
  set_broker p (fun brk => brk <| BrkInfo.route := route |>);;
  let* brk := broker_at p in
  modifies (fun b => b <| routing_table ::= <[BrkInfo.global_id brk := route]> |>);;
  let* local := gets global_broker_id_local in
  transmit route (broker_reply local (BrkInfo.global_id brk) command).

Definition grant_broker (command : ActionMessage) : M unit :=
  let* b := gets (fun b => b) in
  let p := pred (length (dv_elements (_brokers b))) in
  let gid := int32 (int32 (dv_size (_brokers b)) - 1 + global_broker_id_shift) in
  set_broker p (fun brk => brk <| BrkInfo.global_id := gid |>);;
  modifies (fun b => b <| _brokers ::= dv_add_term_at gid p |>);;
  let* brk := broker_at p in
  add_to_table gid (BrkInfo.route brk);;
  transmit (BrkInfo.route brk) (broker_reply (global_broker_id_local b) gid command).

Definition forward_broker (command : ActionMessage) : M unit :=
  let* local := gets global_broker_id_local in
  if GlobalBrokerId.isValid local && negb (local =? parent_broker_id)
  then transmit RouteId.parent_route_id (command <| source_id := local |>)
  else delay command.

(** the data of a broker that was inserted at the end *)
Definition describe_broker (command : ActionMessage) : M unit :=
  let* b := gets (fun b => b) in
  let p := pred (length (dv_elements (_brokers b))) in
  let core := checkActionFlag command core_flag in
  if no_source command then
    let* route := new_route command in
    set_broker p (fun brk => brk <| BrkInfo.route := route |>
      <| BrkInfo.parent := global_broker_id_local b |> <| BrkInfo._nonLocal := false |>
      <| BrkInfo._route_key := true |> <| BrkInfo._core := core |>)
  else
    let* route := getRoute (source_id command) in
    set_broker p (fun brk => brk <| BrkInfo.route := route |>
      <| BrkInfo.parent := source_id command |> <| BrkInfo._nonLocal := true |>
      <| BrkInfo._core := core |>).

Definition insert_broker (brokerName : string) : M (option nat) := fun b =>
  let '(pos, brks) := dv_insert brokerName None (BrkInfo.new brokerName) (_brokers b) in
  Some (pos, b <| _brokers := brks |>).

Definition register_broker (command : ActionMessage) : M unit :=
  let* inserted := insert_broker (name command) in
  match inserted with
  | None => refuse_broker 7 command
  | Some _ =>
      describe_broker command;;
      let* root := gets isRootc in
      if negb root then forward_broker command else grant_broker command
  end.

Definition cmd_reg_broker_case (command : ActionMessage) : M unit :=
  let* b := gets (fun b => b) in
  if negb (connectionEstablished b) then keep_early command
  else
    match (if 0 <? counter command then dv_find_name (name command) (_brokers b) else None) with
    | Some p => resend_broker p command
    | None =>
        if bool_decide (brokerState b = BState.operating) then refuse_broker 5 command
        else init_not_ready;; register_broker command
    end.

(** ** Acknowledgements from above *)

(** the name is that of a federate below; otherwise the iterator that is read
    is the end of the container *)
Definition cmd_fed_ack_case (command : ActionMessage) : M unit :=
  let* b := gets (fun b => b) in
  match dv_find_name (name command) (_federates b) with
  | Some p =>
      set_federate p (fun fed => fed <| FedInfo.global_id := dest_id command |>);;
      let* fed := federate_at p in
      modifies (fun b => b <| _federates ::= dv_add_term (dest_id command) (FedInfo.name fed) |>);;
      transmit (FedInfo.route fed) command;;
      add_to_table (dest_id command) (FedInfo.route fed)
  | None => deref None
  end.

Definition own_broker_ack (command : ActionMessage) : M unit :=
  if checkActionFlag command error_flag then skip
  else
    modifies (fun b => b <| global_broker_id_local := dest_id command |> <| global_id := dest_id command |>
                        <| higher_broker_id := source_id command |>
                        <| timeCoord ::= fun fc => fc <| ForwardingTimeCoordinator.source_id := dest_id command |> |>);;
    transmitDelayedMessages;;
    for_brokers (fun p brk =>
      when (negb (BrkInfo._nonLocal brk))
        (set_broker p (fun brk => brk <| BrkInfo.parent := dest_id command |>))).

Definition cmd_broker_ack_case (command : ActionMessage) : M unit :=
  let* b := gets (fun b => b) in
  if bool_decide (name command = identifier b) then own_broker_ack command
  else
    match dv_find_name (name command) (_brokers b) with
    | Some p =>
        let* brk := broker_at p in
        if BrkInfo.global_id brk =? dest_id command then skip
        else
          set_broker p (fun brk => brk <| BrkInfo.global_id := dest_id command |>);;
          modifies (fun b => b <| _brokers ::= dv_add_term (dest_id command) (BrkInfo.name brk) |>);;
          add_to_table (dest_id command) (BrkInfo.route brk);;
          transmit (BrkInfo.route brk) (command <| source_id := global_broker_id_local b |>)
    | None => deref None
    end.

(** ** Priority commands *)

Definition cmd_priority_disconnect_case (command : ActionMessage) : M unit :=
  let* brk := getBrokerById (source_id command) in
  match brk with
  | Some p => set_broker p (fun brk => brk <| BrkInfo.isDisconnected := true |>)
  | None => skip
  end;;
  let* b := gets (fun b => b) in
  when (allDisconnected b)
    (when (negb (isRootc b))
       (transmit RouteId.parent_route_id
          (newMessage cmd_priority_disconnect <| source_id := global_broker_id_local b |>));;
     addActionMessage (newMessage cmd_stop)).

Definition cmd_broker_query_case (command : ActionMessage) : M unit :=
  let* b := gets (fun b => b) in
  if negb (connectionEstablished b) then keep_early command
  else if dest_id command =? global_broker_id_local b
  then processLocalQuery fmt_format generateLocalAddressString command
  else if isRootc b && (dest_id command =? parent_broker_id)
  then processLocalQuery fmt_format generateLocalAddressString command
  else routeMessage command.

Definition cmd_query_reply_case (command : ActionMessage) : M unit :=
  let* local := gets global_broker_id_local in
  if dest_id command =? local then processQueryResponse command else transmit_routed command.

Definition cmd_set_global_case (command : ActionMessage) : M unit :=
  let* b := gets (fun b => b) in
  if isRootc b then modifies (fun b => b <| global_values ::= <[name command := getString 0 command]> |>)
  else if GlobalBrokerId.isValid (global_broker_id_local b) &&
          negb (global_broker_id_local b =? parent_broker_id)
  then transmit RouteId.parent_route_id command
  else delay command.

(** every priority command but the one that follows the connection *)
Definition priority_command (command : ActionMessage) : M unit :=
  match messageAction command with
  | cmd_reg_fed => cmd_reg_fed_case command
  | cmd_reg_broker => cmd_reg_broker_case command
  | cmd_fed_ack => cmd_fed_ack_case command
  | cmd_broker_ack => cmd_broker_ack_case command
  | cmd_priority_disconnect => cmd_priority_disconnect_case command
  | cmd_broker_query => cmd_broker_query_case command
  | cmd_query => processQuery fmt_format generateLocalAddressString iterate command
  | cmd_query_reply => cmd_query_reply_case command
  | cmd_set_global => cmd_set_global_case command
  | _ => skip
  end.

(** ** Commands *)

Definition cmd_ping_case (command : ActionMessage) : M unit :=
  let* local := gets global_broker_id_local in
  if dest_id command =? local
  then routeMessage (newMessage cmd_ping_reply <| dest_id := source_id command |> <| source_id := local |>)
  else routeMessage command.

Definition cmd_ping_reply_case (command : ActionMessage) : M unit :=
  let* local := gets global_broker_id_local in
  if dest_id command =? local then set_monitor pingReply else routeMessage command.

Definition disconnect_and_stop : M unit := sendDisconnect;; addActionMessage (newMessage cmd_stop).

Definition set_init (requested : bool) (id : global_broker_id) : M unit :=
  let* brk := getBrokerById id in
  match brk with
  | Some p => set_broker p (fun brk => brk <| BrkInfo._initRequested := requested |>)
  | None => skip
  end.

Definition cmd_init_case (command : ActionMessage) : M unit :=
  set_init true (source_id command);;
  let* b := gets (fun b => b) in
  if allInitReady b then
    if isRootc b then executeInitializationOperations fmt_format
    else
      checkDependencies;;
      transmit RouteId.parent_route_id (command <| source_id := global_broker_id_local b |>)
  else skip.

Definition cmd_init_not_ready_case (command : ActionMessage) : M unit :=
  let* ready := gets allInitReady in
  when ready (transmit RouteId.parent_route_id command);;
  set_init false (source_id command).

Definition cmd_init_grant_case (command : ActionMessage) : M unit :=
  modifies (fun b => b <| brokerState := BState.operating |>);;
  for_brokers (fun _ brk => transmit (BrkInfo.route brk) command);;
  tc_ enteringExecMode;;
  check_exec_entry.

Definition cmd_search_dependency_case (command : ActionMessage) : M unit :=
  let* b := gets (fun b => b) in
  let pass_on :=
    if isRootc b
    then modifies (fun b => b <| delayedDependencies ::= fun l => l ++ [(name command, source_id command)] |>)
    else routeMessage command in
  match dv_get_name (name command) (_federates b) with
  | Some fed =>
      if GlobalFedId.isValid (FedInfo.global_id fed) then
        routeMessage (msg_from_to cmd_add_dependency (FedInfo.global_id fed) (source_id command));;
        routeMessage (msg_from_to cmd_add_dependent (source_id command) (FedInfo.global_id fed))
      else pass_on
  | None => pass_on
  end.

Definition cmd_data_link_case (command : ActionMessage) : M unit :=
  let* pub := find_publication (name command) in
  match pub with
  | Some pub =>
      checkForNamedInterface
        (setSource (Basic.handle pub)
           (setAction cmd_add_named_input (command <| payload := getString targetStringLoc command |>)))
  | None =>
      let* input := find_input (getString targetStringLoc command) in
      match input with
      | None =>
          let* root := gets isRootc in
          if (root : bool) then set_unknown (addDataLink (name command) (getString targetStringLoc command))
          else routeMessage command
      | Some input =>
          checkForNamedInterface
            (setSource (Basic.handle input) (setAction cmd_add_named_publication command))
      end
  end.

Definition cmd_filter_link_case (command : ActionMessage) : M unit :=
  let* filt := find_filter (name command) in
  match filt with
  | Some filt =>
      checkForNamedInterface
        (setSource (Basic.handle filt)
           (setAction cmd_add_named_endpoint (command <| payload := getString targetStringLoc command |>)))
  | None =>
      let target := getString targetStringLoc command in
      let* ept := find_endpoint target in
      match ept with
      | None =>
          let* root := gets isRootc in
          if (root : bool) then
            set_unknown (if checkActionFlag command destination_target
                         then addDestinationFilterLink (name command) target
                         else addSourceFilterLink (name command) target)
          else routeMessage command
      | Some ept =>
          checkForNamedInterface (setSource (Basic.handle ept) (setAction cmd_add_named_filter command))
      end
  end.

(** the source of a disconnection that names a broker; the call that follows
    in the code does nothing for this command *)
Definition cmd_disconnect_name_case (command : ActionMessage) : M unit :=
  let* b := gets (fun b => b) in
  let command :=
    if dest_id command =? parent_broker_id then
      match dv_get_name (payload command) (_brokers b) with
      | Some brk => command <| source_id := BrkInfo.global_id brk |>
      | None => command
      end
    else command in
  processDisconnect command.

Definition cmd_disconnect_broker_ack_case (command : ActionMessage) : M unit :=
  let* b := gets (fun b => b) in
  if (dest_id command =? global_broker_id_local b) && (source_id command =? higher_broker_id b) then
    for_brokers (fun p brk =>
      if negb (BrkInfo._sent_disconnect_ack brk)
      then disconnect_ack p brk;; removeRoute (BrkInfo.route brk) else skip);;
    addActionMessage (newMessage cmd_stop)
  else skip.

Definition cmd_disconnect_fed_case (command : ActionMessage) : M unit :=
  let* b := gets (fun b => b) in
  match dv_find_id (source_id command) (_federates b) with
  | Some p => set_federate p (fun fed => fed <| FedInfo.isDisconnected := true |>)
  | None => skip
  end;;
  if negb (isRootc b) then transmit RouteId.parent_route_id command
  else if BState.lt (brokerState b) BState.operating then
    broadcast (setAction cmd_broadcast_disconnect command);;
    set_unknown (clearFederateUnknowns (source_id command))
  else skip.

Definition cmd_stop_case : M unit :=
  let* b := gets (fun b => b) in
  if negb (allDisconnected b) then
    tc_ disconnect;;
    when (negb (isRootc b))
      (transmit RouteId.parent_route_id (newMessage cmd_disconnect <| source_id := global_broker_id_local b |>))
  else skip.

Definition route_to_dependents (command : ActionMessage) : M unit :=
  let* deps := gets (fun b => dependents (timeCoord b)) in
  for_each deps (routeMessage_to command).

Definition cmd_exec_case (command : ActionMessage) : M unit :=
  let* b := gets (fun b => b) in
  if dest_id command =? global_broker_id_local b then
    tc (processTimeMessage command);;
    if negb (enteredExecutionMode b) then check_exec_entry else skip
  else if source_id command =? global_broker_id_local b then route_to_dependents command
  else transmit_routed command.

Definition cmd_time_case (command : ActionMessage) : M unit :=
  let* local := gets global_broker_id_local in
  if (source_id command =? local) && (dest_id command =? parent_broker_id) then route_to_dependents command
  else if dest_id command =? local then
    let* res := tc (processTimeMessage command) in
    if (res : bool) then tc_ updateTimeFactors else skip
  else routeMessage command.

Definition cmd_message_case (command : ActionMessage) : M unit :=
  if dest_id command =? parent_broker_id then
    let* filled := fillMessageRouteInformation command in
    transmit (fst filled) (snd filled)
  else transmit_routed command.

(** logged at the root, passed up elsewhere *)
Definition log_or_pass (level : Z) (command : ActionMessage) : M unit :=
  let* root := gets isRootc in
  if (root : bool) then sendToLogger fmt_format (source_id command) level "" (payload command);; skip
  else transmit RouteId.parent_route_id command.

(** a registration that is meant for another broker is passed on *)
Definition here_or_pass (command : ActionMessage) (here : ActionMessage -> M unit) : M unit :=
  let* root := gets isRootc in
  if negb root && negb (dest_id command =? parent_broker_id) then routeMessage command else here command.

Definition cmd_dependency_case (command : ActionMessage) : M unit :=
  let* local := gets global_broker_id_local in
  if negb (dest_id command =? local) then routeMessage command
  else
    tc_ (processDependencyUpdateMessage command);;
    modifies (fun b => b <| hasTimeDependency := true |>).

(** [defs::flags::enable_init_entry]; the update of the logging callback is not
    a state of the model *)
Definition enable_init_entry : Z := 47.

Definition processBrokerConfigureCommands (cmd : ActionMessage) : M unit :=
  when ((messageID cmd =? enable_init_entry) || (messageID cmd =? log_level_property))
    (modifies (fun b => b <| maxLogLevel := counter cmd |>)).

Definition processCommand (now : Z) (command : ActionMessage) : M unit :=
  match messageAction command with
  | cmd_ignore | cmd_protocol => skip
  | cmd_tick => tick fmt_format now
  | cmd_ping => cmd_ping_case command
  | cmd_ping_reply => cmd_ping_reply_case command
  | cmd_check_connections | cmd_user_disconnect => disconnect_and_stop
  | cmd_init => cmd_init_case command
  | cmd_init_not_ready => cmd_init_not_ready_case command
  | cmd_init_grant => cmd_init_grant_case command
  | cmd_search_dependency => cmd_search_dependency_case command
  | cmd_data_link => cmd_data_link_case command
  | cmd_filter_link => cmd_filter_link_case command
  | cmd_disconnect_name => cmd_disconnect_name_case command
  | cmd_disconnect | cmd_disconnect_core | cmd_disconnect_broker => processDisconnect command
  | cmd_disconnect_broker_ack => cmd_disconnect_broker_ack_case command
  | cmd_disconnect_fed => cmd_disconnect_fed_case command
  | cmd_stop => cmd_stop_case
  | cmd_broadcast_disconnect => tc (processTimeMessage command);; broadcast command
  | cmd_exec_request | cmd_exec_grant => cmd_exec_case command
  | cmd_time_request | cmd_time_grant => cmd_time_case command
  | cmd_send_message | cmd_send_for_filter | cmd_send_for_filter_return | cmd_filter_result
  | cmd_null_message => cmd_message_case command
  | cmd_pub => transmit_routed command
  | cmd_log => log_or_pass (counter command) command
  | cmd_error => log_or_pass log_error command
  | cmd_reg_pub => here_or_pass command addPublication
  | cmd_reg_input => here_or_pass command addInput
  | cmd_reg_end => here_or_pass command addEndpoint
  | cmd_reg_filter => here_or_pass command addFilter
  | cmd_close_interface =>
      here_or_pass command (fun command => modifies (fun b => b <| handles ::= removeHandle (getSource command) |>))
  | cmd_add_dependency | cmd_remove_dependency | cmd_add_dependent | cmd_remove_dependent
  | cmd_add_interdependency | cmd_remove_interdependency => cmd_dependency_case command
  | cmd_add_named_endpoint | cmd_add_named_publication | cmd_add_named_input | cmd_add_named_filter =>
      checkForNamedInterface command
  | cmd_remove_named_endpoint | cmd_remove_named_publication | cmd_remove_named_input
  | cmd_remove_named_filter => removeNamedTarget command
  | cmd_broker_configure => processBrokerConfigureCommands command
  | _ =>
      let* local := gets global_broker_id_local in
      if negb (dest_id command =? local) then routeMessage command else skip
  end.

(** ** The setup after the connection

    Messages that came too early are processed then; none of them is a setup,
    since only registrations and queries are kept. *)
Definition early_message (now : Z) (command : ActionMessage) : M unit :=
  if isPriorityCommand command then
    match messageAction command with
    | cmd_broker_setup => deref None
    | _ => priority_command command
    end
  else processCommand now command.

Definition cmd_broker_setup_case (now : Z) : M unit :=
  modifies (fun b => b <| global_broker_id_local := global_id b |> <| isRootc := _isRoot b |>
                      <| timeCoord ::= fun fc => fc <| ForwardingTimeCoordinator.source_id := global_id b |> |>
                      <| connectionEstablished := true |>);;
  let* early := gets earlyMessages in
  for_each early (early_message now);;
  modifies (fun b => b <| earlyMessages := [] |>).

Definition processPriorityCommand (now : Z) (command : ActionMessage) : M unit :=
  match messageAction command with
  | cmd_broker_setup => cmd_broker_setup_case now
  | _ => priority_command command
  end.

(** ** The queue *)

Definition broker_methods : BrokerMethods (CoreBroker C) := {|
  BrokerBase.haltOperations := haltOperations;
  BrokerBase.processCommand := processCommand;
  BrokerBase.processPriorityCommand := processPriorityCommand;
  BrokerBase.processDisconnect := processDisconnect_skip;
|}.

Definition queueProcessingLoop : nat -> list (Z * ActionMessage) -> Z -> M (loop_next * Z) :=
  Base.queueProcessingLoop broker_methods.
End Commands.
End Commands.
