(* ===== verification/BrokerFacts.v ===== *)
(** * Reasoning about the operations of a broker

    Rules for the computations of [CoreBroker.v]: a property of the state is
    preserved by an operation when it is preserved by the parts of it, and the
    tactic [walk] takes an operation apart. *)

From S2P Require Import Prelude StateMonad Identifiers DualVector JsonBuilder ForwardingTimeCoordinator CoreBroker ActionMessage.
Import FedInfo (BasicFedInfo) BrkInfo (BasicBrokerInfo) Brk.

Create HintDb broker discriminated.

Section Rules.
Context {C : Type -> Type} `{DualVector C} `{JsonLib}.
Implicit Types (I : CoreBroker C -> Prop).

Lemma preserves_bind_broker_at I {B} p (k : BasicBrokerInfo -> Brk.M C B) :
  (forall b brk, I b -> dv_elements (_brokers b) !! p = Some brk -> preserves I (k brk)) ->
  preserves I (broker_at p ≫= k).
Proof.
  intros Hk b a b' Hb. unfold broker_at, bind_first, gets, deref, mbind, M_bind.
  destruct (dv_elements (_brokers b) !! p) as [brk|] eqn:E; [|done].
  intros Hr. exact (Hk b brk Hb E b a b' Hb Hr).
Qed.

Lemma preserves_bind_federate_at I {B} p (k : BasicFedInfo -> Brk.M C B) :
  (forall b fed, I b -> dv_elements (_federates b) !! p = Some fed -> preserves I (k fed)) ->
  preserves I (federate_at p ≫= k).
Proof.
  intros Hk b a b' Hb. unfold federate_at, bind_first, gets, deref, mbind, M_bind.
  destruct (dv_elements (_federates b) !! p) as [fed|] eqn:E; [|done].
  intros Hr. exact (Hk b fed Hb E b a b' Hb Hr).
Qed.

(** The brokers of a loop are those of a state with the property. *)
Lemma preserves_for_brokers I (f : nat -> BasicBrokerInfo -> Brk.M C unit) :
  (forall b p brk, I b -> dv_elements (_brokers b) !! p = Some brk -> preserves I (f p brk)) ->
  preserves I (for_brokers f).
Proof.
  intros Hf. unfold for_brokers, bind_first. apply preserves_bind_gets. intros b Hb.
  apply preserves_for_each. intros p _. apply preserves_bind_broker_at. eauto.
Qed.

Lemma preserves_tc I {A} (op : ForwardingTimeCoordinator -> A * ForwardingTimeCoordinator) :
  (forall b fc l, I b -> I (b <| timeCoord := fc |> <| outputs ::= fun l' => l' ++ (Enqueue <$> l) |>)) ->
  preserves I (tc op).
Proof.
  intros Hi b a b' Hb. unfold tc. destruct (op _) as [x fc]. intros [= <- <-]. split; [|done].
  specialize (Hi b (fc <| sent := [] |>) (copy_construct <$> sent fc) Hb).
  rewrite <- list_fmap_compose in Hi. exact Hi.
Qed.
End Rules.

(** ** Taking an operation apart *)

Ltac walk_step :=
  lazymatch goal with
  | |- preserves _ (mbind _ (broker_at _)) => apply preserves_bind_broker_at; intros ? ? ? ?
  | |- preserves _ (mbind _ (federate_at _)) => apply preserves_bind_federate_at; intros ? ? ? ?
  | |- preserves _ (for_brokers _) => apply preserves_for_brokers; intros ? ? ? ? ?
  | |- _ => state_step
  end.
Ltac walk := cbv [bind_first] in *; cbv zeta; repeat (solve [eauto 3 with broker] || walk_step; cbv beta zeta).
