(* ===== verification/BrokerStable.v ===== *)
(** * Operations that leave the registry of a broker alone

    Most commands of a broker read the federates, the brokers and the routes it
    has registered and send messages, but do not change them.  A property
    [I] of the state that such operations cannot break is an instance of
    [Stable]: it is kept by every output but the opening of a route, by changes
    of the members outside the registry, and by changes of the flags of a
    federate or a broker; and it says that the routes found in the state are
    among [K], those a message may go to.  This file shows once that every
    command but registrations and acknowledgements keeps such a property. *)

From S2P Require Import Prelude BrokerBase StateMonad HTime Identifiers DualVector JsonBuilder TimeDependencies TimeCoordinator ForwardingTimeCoordinator HandleManager UnknownHandleManager CoreTypes CoreBroker BrokerInterfaces BrokerControl BrokerQueries BrokerCommands BrokerFacts Wire ActionMessage.
Import FedInfo (BasicFedInfo) BrkInfo (BasicBrokerInfo) Brk Links Control Queries Commands.

(** The members that make up the registry. *)
Record same_registry {C : Type -> Type} `{JsonLib} (b b' : CoreBroker C) : Prop := {
  sr_outputs : outputs b' = outputs b;
  sr_federates : _federates b' = _federates b;
  sr_brokers : _brokers b' = _brokers b;
  sr_table : routing_table b' = routing_table b;
  sr_endpoints : knownExternalEndpoints b' = knownExternalEndpoints b;
  sr_isRoot : _isRoot b' = _isRoot b;
  sr_isRootc : isRootc b' = isRootc b;
  sr_higher : higher_broker_id b' = higher_broker_id b;
  sr_early : earlyMessages b' = earlyMessages b;
}.

(** What identifies a broker or a federate in the registry. *)
Definition same_broker (brk brk' : BasicBrokerInfo) : Prop :=
  BrkInfo.name brk' = BrkInfo.name brk /\ BrkInfo.global_id brk' = BrkInfo.global_id brk /\
  BrkInfo.route brk' = BrkInfo.route brk.
Definition same_federate (fed fed' : BasicFedInfo) : Prop :=
  FedInfo.name fed' = FedInfo.name fed /\ FedInfo.global_id fed' = FedInfo.global_id fed /\
  FedInfo.route fed' = FedInfo.route fed.

Definition sends_on (K : route_id -> Prop) (e : broker_event) : Prop :=
  match e with Transmit r _ => K r | AddRoute _ _ => False | _ => True end.

Class Stable {C : Type -> Type} `{DualVector C} `{JsonLib} (K : route_id -> Prop)
    (I : CoreBroker C -> Prop) : Prop := {
  st_parent : forall b, I b -> K RouteId.parent_route_id;
  st_federate_route : forall b, I b -> forall p fed,
    dv_elements (_federates b) !! p = Some fed -> K (FedInfo.route fed);
  st_broker_route : forall b, I b -> forall p brk,
    dv_elements (_brokers b) !! p = Some brk -> K (BrkInfo.route brk);
  st_table_route : forall b, I b -> forall id r, routing_table b !! id = Some r -> K r;
  st_endpoint_route : forall b, I b -> forall k r, knownExternalEndpoints b !! k = Some r -> K r;
  st_output : forall b e, I b -> sends_on K e -> I (b <| outputs ::= fun l => l ++ [e] |>);
  st_frame : forall b b', I b -> same_registry b b' -> I b';
  st_brokers : forall b p f, I b -> (forall brk, same_broker brk (f brk)) -> I (b <| _brokers ::= dv_modify p f |>);
  st_federates : forall b p f, I b -> (forall fed, same_federate fed (f fed)) -> I (b <| _federates ::= dv_modify p f |>);
}.

Section Primitives.
Context {C : Type -> Type} `{DualVector C} `{JsonLib} {K : route_id -> Prop}.
Context (I : CoreBroker C -> Prop) `{!Stable K I}.

Lemma getRoute_known b id : I b -> K (getRoute_of id b).
Proof.
  intros Hr. unfold getRoute_of. case_if; [by apply (st_parent b)|].
  destruct (routing_table b !! id) eqn:E; [by apply (st_table_route b Hr id)|by apply (st_parent b)].
Qed.

Lemma emit_stable e : sends_on K e -> preserves I (emit e).
Proof. intros He. apply preserves_modifies. intros b Hb. by apply st_output. Qed.

Lemma tc_stable {A} (op : ForwardingTimeCoordinator -> A * ForwardingTimeCoordinator) : preserves I (tc op).
Proof.
  apply preserves_tc. intros b fc l Hb.
  assert (Hfc : I (b <| timeCoord := fc |>)) by (apply (st_frame b); done).
  clear Hb. generalize dependent (b <| timeCoord := fc |>). clear b. induction l as [|m l IH]; intros b Hb.
  - apply (st_frame b); [done|]. constructor; simpl; try done. apply app_nil_r.
  - apply (st_frame (b <| outputs ::= fun l' => l' ++ [Enqueue m] |> <| outputs ::= fun l' => l' ++ (Enqueue <$> l) |>)).
    + apply IH. by apply st_output.
    + constructor; simpl; try done. by rewrite <- app_assoc.
Qed.

Lemma set_broker_stable p f : (forall brk, same_broker brk (f brk)) -> preserves I (set_broker p f).
Proof. intros Hf. apply preserves_modifies. intros b Hb. by apply st_brokers. Qed.

Lemma set_federate_stable p f : (forall fed, same_federate fed (f fed)) -> preserves I (set_federate p f).
Proof. intros Hf. apply preserves_modifies. intros b Hb. by apply st_federates. Qed.
End Primitives.

(** ** What the walk uses *)

(** A route that comes from a state with the property. *)
Ltac known_route :=
  simpl; first
  [ assumption
  | match goal with Hb : _ ?b |- _ (getRoute_of _ ?b) => exact (getRoute_known _ _ _ Hb) end
  | match goal with Hb : ?I ?b |- _ RouteId.parent_route_id => exact (st_parent (I := I) b Hb) end
  | match goal with Hb : ?I ?b, He : dv_elements (_brokers ?b) !! _ = Some _ |- _ =>
      exact (st_broker_route (I := I) b Hb _ _ He) end
  | match goal with Hb : ?I ?b, He : dv_elements (_federates ?b) !! _ = Some _ |- _ =>
      exact (st_federate_route (I := I) b Hb _ _ He) end ].

Ltac frame_registry :=
  apply preserves_modifies; intros ? ?; eapply (st_frame _); [eassumption|constructor; repeat case_match; done].

#[export] Hint Extern 1 (preserves _ (tc _)) => eapply tc_stable; tc_solve : broker.
#[export] Hint Extern 1 (preserves _ (tc_ _)) => eapply tc_stable; tc_solve : broker.
#[export] Hint Extern 1 (preserves _ (transmit _ _)) => eapply emit_stable; [tc_solve|known_route] : broker.
#[export] Hint Extern 1 (preserves _ (emit _)) => eapply emit_stable; [tc_solve|exact Logic.I] : broker.
#[export] Hint Extern 1 (preserves _ (removeRoute _)) => eapply emit_stable; [tc_solve|exact Logic.I] : broker.
#[export] Hint Extern 1 (preserves _ (addActionMessage _)) => eapply emit_stable; [tc_solve|exact Logic.I] : broker.
#[export] Hint Extern 1 (preserves _ (setDelayedValue _ _)) => eapply emit_stable; [tc_solve|exact Logic.I] : broker.
#[export] Hint Extern 1 (preserves _ (set_unknown _)) => frame_registry : broker.
#[export] Hint Extern 1 (preserves _ (set_monitor _)) => frame_registry : broker.
#[export] Hint Extern 2 (preserves _ (modifies _)) => frame_registry : broker.
#[export] Hint Extern 1 (preserves _ (set_broker _ _)) => eapply set_broker_stable; [tc_solve|done] : broker.
#[export] Hint Extern 1 (preserves _ (set_federate _ _)) => eapply set_federate_stable; [tc_solve|done] : broker.

(** ** The operations *)

Section Operations.
Context `{Platform} {C : Type -> Type} `{DualVector C} `{JsonLib}.
Context (fmt_format : string -> list string -> string) (generateLocalAddressString : string).
Context (iterate : gmap string string -> list (string * string)).
Context {K : route_id -> Prop} (I : CoreBroker C -> Prop) `{!Stable K I}.
Implicit Types (b : CoreBroker C) (m : ActionMessage).

Lemma routeMessage_stable m : preserves I (routeMessage (C := C) m).
Proof. unfold routeMessage, getRoute. walk. Qed.
Hint Resolve routeMessage_stable : broker.

Lemma routeMessage_to_stable m d : preserves I (routeMessage_to (C := C) m d).
Proof. unfold routeMessage_to. walk. Qed.
Hint Resolve routeMessage_to_stable : broker.

Lemma transmit_routed_stable m : preserves I (transmit_routed (C := C) m).
Proof. unfold transmit_routed, getRoute. walk. Qed.
Hint Resolve transmit_routed_stable : broker.

Lemma broadcast_stable m : preserves I (broadcast (C := C) m).
Proof. unfold broadcast. walk. Qed.
Hint Resolve broadcast_stable : broker.

Lemma transmitDelayedMessages_stable : preserves I (transmitDelayedMessages (C := C)).
Proof. unfold transmitDelayedMessages. walk. Qed.
Hint Resolve transmitDelayedMessages_stable : broker.

Lemma add_handle_stable what k t u m : preserves I (add_handle (C := C) what k t u m).
Proof.
  intros b a b' Hb. unfold add_handle. destruct (addHandle_with _ _ _ _ _ _ _) as [h hm].
  intros [= <- <-]. split; [|done]. by apply (st_frame b).
Qed.
Hint Resolve add_handle_stable : broker.

Lemma target_gone_stable a h m : preserves I (target_gone (C := C) a h m).
Proof. unfold target_gone. walk. Qed.
Hint Resolve target_gone_stable : broker.

Lemma federate_gone_stable id : preserves I (federate_gone (C := C) id).
Proof. unfold federate_gone. walk. Qed.
Hint Resolve federate_gone_stable : broker.

Lemma checkForNamedInterface_stable m : preserves I (checkForNamedInterface (C := C) m).
Proof.
  unfold checkForNamedInterface, named_publication, named_input, named_filter, named_endpoint,
    keep_unknown, add_anonymous, find_publication, find_input, find_filter, find_endpoint, find_handle.
  walk.
Qed.
Hint Resolve checkForNamedInterface_stable : broker.
Lemma removeNamedTarget_stable m : preserves I (removeNamedTarget (C := C) m).
Proof. unfold removeNamedTarget, remove_link, find_publication, find_input, find_filter, find_endpoint, find_handle. walk. Qed.
Hint Resolve removeNamedTarget_stable : broker.

Lemma duplicate_error_stable t m : preserves I (duplicate_error (C := C) t m).
Proof. unfold duplicate_error. walk. Qed.
Hint Resolve duplicate_error_stable : broker.

Lemma FindandNotifyInputTargets_stable h : preserves I (FindandNotifyInputTargets (C := C) h).
Proof. unfold FindandNotifyInputTargets, find_handle. walk. Qed.
Hint Resolve FindandNotifyInputTargets_stable : broker.

Lemma FindandNotifyPublicationTargets_stable h : preserves I (FindandNotifyPublicationTargets (C := C) h).
Proof. unfold FindandNotifyPublicationTargets. walk. Qed.
Hint Resolve FindandNotifyPublicationTargets_stable : broker.

Lemma FindandNotifyEndpointTargets_stable h : preserves I (FindandNotifyEndpointTargets (C := C) h).
Proof. unfold FindandNotifyEndpointTargets. walk. Qed.
Hint Resolve FindandNotifyEndpointTargets_stable : broker.

Lemma FindandNotifyFilterTargets_stable h : preserves I (FindandNotifyFilterTargets (C := C) h).
Proof. unfold FindandNotifyFilterTargets, link_filter. walk. Qed.
Hint Resolve FindandNotifyFilterTargets_stable : broker.

Lemma addPublication_stable m : preserves I (addPublication (C := C) m).
Proof. unfold addPublication, find_publication. walk. Qed.
Hint Resolve addPublication_stable : broker.

Lemma addInput_stable m : preserves I (addInput (C := C) m).
Proof. unfold addInput, find_input. walk. Qed.
Hint Resolve addInput_stable : broker.

Lemma addEndpoint_stable m : preserves I (addEndpoint (C := C) m).
Proof. unfold addEndpoint, find_endpoint. walk. Qed.
Hint Resolve addEndpoint_stable : broker.

Lemma addFilter_stable m : preserves I (addFilter (C := C) m).
Proof. unfold addFilter, find_filter. walk. Qed.
Hint Resolve addFilter_stable : broker.

Lemma sendToLogger_stable f l n t : preserves I (sendToLogger (C := C) fmt_format f l n t).
Proof. unfold sendToLogger. walk. Qed.
Hint Resolve sendToLogger_stable : broker.

Lemma sendDisconnect_stable : preserves I (sendDisconnect (C := C)).
Proof. unfold sendDisconnect. walk. Qed.
Hint Resolve sendDisconnect_stable : broker.

Lemma processDisconnect_skip_stable s : preserves I (processDisconnect_skip (C := C) s).
Proof. unfold processDisconnect_skip, unregister. walk. Qed.
Hint Resolve processDisconnect_skip_stable : broker.

Lemma tick_stable now : preserves I (tick (C := C) fmt_format now).
Proof. unfold tick, sendErrorToImmediateBrokers, send_ping, wait_connection. walk. Qed.
Hint Resolve tick_stable : broker.

Lemma checkDependencies_stable : preserves I (checkDependencies (C := C)).
Proof. unfold checkDependencies, delayed_dependency, bypass_root, bypass_broker. walk. Qed.
Hint Resolve checkDependencies_stable : broker.

Lemma check_exec_entry_stable : preserves I (check_exec_entry (C := C)).
Proof. unfold check_exec_entry. walk. Qed.
Hint Resolve check_exec_entry_stable : broker.

Lemma notify_missing_stable t l : forall m,
  preserves I (notify_missing (C := C) fmt_format t m l).
Proof. induction l as [|[[target type] h] l IH]; intros m; cbn [notify_missing]; walk. Qed.
Hint Resolve notify_missing_stable : broker.

Lemma executeInitializationOperations_stable : preserves I (executeInitializationOperations (C := C) fmt_format).
Proof. unfold executeInitializationOperations, grant_initialization. walk. Qed.
Hint Resolve executeInitializationOperations_stable : broker.

Lemma disconnectBroker_stable p : preserves I (disconnectBroker (C := C) p).
Proof. unfold disconnectBroker. walk. Qed.
Hint Resolve disconnectBroker_stable : broker.

Lemma disconnect_ack_stable p brk : K (BrkInfo.route brk) -> preserves I (disconnect_ack (C := C) p brk).
Proof. intros Hk. unfold disconnect_ack. walk. Qed.
Hint Extern 1 (preserves I (disconnect_ack _ _)) => apply disconnect_ack_stable; known_route : broker.
Lemma disconnect_time_stable m : preserves I (disconnect_time (C := C) m).
Proof. unfold disconnect_time. walk. Qed.
Hint Resolve disconnect_time_stable : broker.

(** The broker that leaves, as it is read from the state. *)
Definition info_known (info : option (nat * BasicBrokerInfo)) : Prop :=
  match info with Some (_, brk) => K (BrkInfo.route brk) | None => True end.

Lemma disconnect_last_stable info :
  info_known info -> preserves I (disconnect_last (C := C) info).
Proof. intros Hk. unfold disconnect_last. destruct info as [[p brk]|]; walk. Qed.

Lemma disconnect_one_stable info m :
  info_known info -> preserves I (disconnect_one (C := C) info m).
Proof. intros Hk. unfold disconnect_one, forward_disconnect. destruct info as [[p brk]|]; walk. Qed.
Hint Resolve disconnect_last_stable disconnect_one_stable : broker.

Lemma read_info_known (brk : option nat) :
  keeps I
    (match brk with
     | Some p => broker_at (C := C) p ≫= fun brk => mret (Some (p, brk))
     | None => mret None
     end) info_known.
Proof.
  intros b a b' Hb. destruct brk as [p|]; [|by intros [= <- <-]].
  unfold broker_at, bind_first, gets, deref, mbind, M_bind.
  destruct (dv_elements (_brokers b) !! p) as [brk|] eqn:E; [|done].
  intros [= <- <-]. split; [done|]. by apply (st_broker_route b Hb p).
Qed.

Lemma disconnect_below_stable m brk : preserves I (disconnect_below (C := C) m brk).
Proof.
  unfold disconnect_below. cbv [bind_first]. walk_step. walk_step; [walk|].
  apply preserves_bind; [walk|]. intros _.
  apply (keeps_bind _ _ _ _ _ (read_info_known brk)). intros info Hi.
  apply preserves_bind_gets. intros b' Hb'. walk.
Qed.
Hint Resolve disconnect_below_stable : broker.

Lemma processDisconnect_stable m : preserves I (processDisconnect (C := C) m).
Proof. unfold processDisconnect, getBrokerById, getRoute. walk. Qed.
Hint Resolve processDisconnect_stable : broker.

Lemma getAddress_stable : preserves I (getAddress (C := C) generateLocalAddressString).
Proof. unfold getAddress. walk. Qed.
Hint Resolve getAddress_stable : broker.

Lemma set_builder_stable d f : preserves I (set_builder (C := C) d f).
Proof. unfold set_builder. apply preserves_modifies. intros b Hb. destruct d; by apply (st_frame b). Qed.
Hint Resolve set_builder_stable : broker.

Lemma ask_parts_stable d m brks :
  Forall (fun brk => K (BrkInfo.route brk)) brks -> forall c,
  preserves I (ask_parts (C := C) d m c brks).
Proof.
  induction 1 as [|brk brks Hk _ IH]; intros c; cbn [ask_parts]; [walk|]. unfold ask_part. walk.
Qed.

Lemma brokers_known b P `{!forall brk, Decision (P brk)} :
  I b ->
  Forall (fun brk => K (BrkInfo.route brk)) (base.filter P (dv_elements (_brokers b))).
Proof.
  intros Hr. apply Forall_forall. intros brk [_ Hin]%list_elem_of_filter.
  apply list_elem_of_lookup_1 in Hin as [p Hp]. by apply (st_broker_route b Hr p).
Qed.

Lemma start_document_stable d r c brks :
  Forall (fun brk => K (BrkInfo.route brk)) brks ->
  preserves I (start_document (C := C) d r c brks).
Proof. intros Hb. unfold start_document. walk. by apply ask_parts_stable. Qed.

Lemma initializeFederateMap_stable : preserves I (initializeFederateMap (C := C)).
Proof. unfold initializeFederateMap. walk. apply start_document_stable. by apply brokers_known. Qed.

Lemma initializeDependencyGraph_stable : preserves I (initializeDependencyGraph (C := C)).
Proof.
  unfold initializeDependencyGraph. walk. apply start_document_stable. apply Forall_forall. intros brk Hin.
  apply list_elem_of_lookup_1 in Hin as [p Hp]. eapply st_broker_route; eassumption.
Qed.
Hint Resolve initializeFederateMap_stable initializeDependencyGraph_stable : broker.

Lemma document_answer_stable d i : preserves I i -> preserves I (document_answer (C := C) d i).
Proof. intros Hi. unfold document_answer. walk. Qed.
Hint Resolve document_answer_stable : broker.

Lemma generateQueryAnswer_stable r : preserves I (generateQueryAnswer (C := C) fmt_format generateLocalAddressString r).
Proof. unfold generateQueryAnswer. walk. Qed.
Hint Resolve generateQueryAnswer_stable : broker.

Lemma processLocalQuery_stable m : preserves I (processLocalQuery (C := C) fmt_format generateLocalAddressString m).
Proof. unfold processLocalQuery. walk. Qed.
Hint Resolve processLocalQuery_stable : broker.
Lemma reply_query_stable m a : preserves I (reply_query (C := C) m a).
Proof. unfold reply_query. walk. Qed.
Hint Resolve reply_query_stable : broker.

Lemma route_to_name_known b n : I b -> K (route_to_name n b).
Proof.
  intros Hr. unfold route_to_name, dv_get_name.
  destruct (dv_find_name n (_federates b) ≫= _) as [fed|] eqn:E.
  - apply bind_Some in E as (p & _ & E). by apply (st_federate_route b Hr p).
  - destruct (dv_find_name n (_brokers b) ≫= _) as [brk|] eqn:E'; [|by apply (st_parent b)].
    apply bind_Some in E' as (p & _ & E'). by apply (st_broker_route b Hr p).
Qed.

Lemma processQuery_stable m :
  preserves I (processQuery (C := C) fmt_format generateLocalAddressString iterate m).
Proof. unfold processQuery. walk. eapply emit_stable; [eassumption|]. by apply route_to_name_known. Qed.
Hint Resolve processQuery_stable : broker.

Lemma processQueryResponse_stable m : preserves I (processQueryResponse (C := C) m).
Proof. unfold processQueryResponse, add_component, answer_requestors. walk. Qed.
Hint Resolve processQueryResponse_stable : broker.

Lemma cmd_broker_query_case_stable m :
  preserves I (keep_early m) ->
  preserves I (cmd_broker_query_case (C := C) fmt_format generateLocalAddressString m).
Proof. intros Hk. unfold cmd_broker_query_case. walk. Qed.

Lemma cmd_query_reply_case_stable m : preserves I (cmd_query_reply_case (C := C) m).
Proof. unfold cmd_query_reply_case. walk. Qed.
Hint Resolve cmd_query_reply_case_stable : broker.

Lemma cmd_set_global_case_stable m : preserves I (cmd_set_global_case (C := C) m).
Proof. unfold cmd_set_global_case, delay. walk. Qed.
Hint Resolve cmd_set_global_case_stable : broker.

Lemma cmd_ping_case_stable m : preserves I (cmd_ping_case (C := C) m).
Proof. unfold cmd_ping_case. walk. Qed.
Hint Resolve cmd_ping_case_stable : broker.

Lemma cmd_ping_reply_case_stable m : preserves I (cmd_ping_reply_case (C := C) m).
Proof. unfold cmd_ping_reply_case. walk. Qed.
Hint Resolve cmd_ping_reply_case_stable : broker.

Lemma cmd_init_not_ready_case_stable m : preserves I (cmd_init_not_ready_case (C := C) m).
Proof. unfold cmd_init_not_ready_case, set_init, getBrokerById. walk. Qed.
Hint Resolve cmd_init_not_ready_case_stable : broker.

Lemma cmd_init_grant_case_stable m : preserves I (cmd_init_grant_case (C := C) m).
Proof. unfold cmd_init_grant_case. walk. Qed.
Hint Resolve cmd_init_grant_case_stable : broker.

Lemma cmd_search_dependency_case_stable m : preserves I (cmd_search_dependency_case (C := C) m).
Proof. unfold cmd_search_dependency_case. walk. Qed.
Hint Resolve cmd_search_dependency_case_stable : broker.

Lemma cmd_data_link_case_stable m : preserves I (cmd_data_link_case (C := C) m).
Proof. unfold cmd_data_link_case, find_publication, find_input, find_filter, find_endpoint, find_handle. walk. Qed.
Hint Resolve cmd_data_link_case_stable : broker.

Lemma cmd_filter_link_case_stable m : preserves I (cmd_filter_link_case (C := C) m).
Proof. unfold cmd_filter_link_case, find_publication, find_input, find_filter, find_endpoint, find_handle. walk. Qed.
Hint Resolve cmd_filter_link_case_stable : broker.

Lemma cmd_disconnect_name_case_stable m : preserves I (cmd_disconnect_name_case (C := C) m).
Proof. unfold cmd_disconnect_name_case. walk. Qed.
Hint Resolve cmd_disconnect_name_case_stable : broker.

Lemma cmd_disconnect_broker_ack_case_stable m : preserves I (cmd_disconnect_broker_ack_case (C := C) m).
Proof. unfold cmd_disconnect_broker_ack_case. walk. Qed.
Hint Resolve cmd_disconnect_broker_ack_case_stable : broker.

Lemma cmd_disconnect_fed_case_stable m : preserves I (cmd_disconnect_fed_case (C := C) m).
Proof. unfold cmd_disconnect_fed_case. walk. Qed.
Hint Resolve cmd_disconnect_fed_case_stable : broker.

Lemma cmd_exec_case_stable m : preserves I (cmd_exec_case (C := C) m).
Proof. unfold cmd_exec_case, route_to_dependents. walk. Qed.
Hint Resolve cmd_exec_case_stable : broker.

Lemma cmd_time_case_stable m : preserves I (cmd_time_case (C := C) m).
Proof. unfold cmd_time_case, route_to_dependents. walk. Qed.
Hint Resolve cmd_time_case_stable : broker.

Lemma cmd_dependency_case_stable m : preserves I (cmd_dependency_case (C := C) m).
Proof. unfold cmd_dependency_case. walk. Qed.
Hint Resolve cmd_dependency_case_stable : broker.

Lemma processBrokerConfigureCommands_stable m : preserves I (processBrokerConfigureCommands (C := C) m).
Proof. unfold processBrokerConfigureCommands. walk. Qed.
Hint Resolve processBrokerConfigureCommands_stable : broker.

Lemma cmd_priority_disconnect_case_stable m : preserves I (cmd_priority_disconnect_case (C := C) m).
Proof. unfold cmd_priority_disconnect_case, getBrokerById. walk. Qed.
Hint Resolve cmd_priority_disconnect_case_stable : broker.

Lemma cmd_init_case_stable m : preserves I (cmd_init_case (C := C) fmt_format m).
Proof. unfold cmd_init_case, set_init, getBrokerById. walk. Qed.
Hint Resolve cmd_init_case_stable : broker.

Lemma cmd_stop_case_stable : preserves I (cmd_stop_case (C := C)).
Proof. unfold cmd_stop_case. walk. Qed.
Hint Resolve cmd_stop_case_stable : broker.

Lemma disconnect_and_stop_stable : preserves I (disconnect_and_stop (C := C)).
Proof. unfold disconnect_and_stop. walk. Qed.
Hint Resolve disconnect_and_stop_stable : broker.

Lemma log_or_pass_stable l m : preserves I (log_or_pass (C := C) fmt_format l m).
Proof. unfold log_or_pass. walk. Qed.
Hint Resolve log_or_pass_stable : broker.

Lemma fill_route_known m :
  keeps I (fillMessageRouteInformation (C := C) m) (fun r => K (fst r)).
Proof.
  intros b a b' Hb. unfold fillMessageRouteInformation, bind_first, gets, mbind, M_bind.
  destruct (getEndpoint _ _); [intros [= <- <-]; split; [done|by apply (getRoute_known I)]|].
  destruct (knownExternalEndpoints b !! _) as [r|] eqn:E; intros [= <- <-]; (split; [done|]).
  - by apply (st_endpoint_route b Hb _ r E).
  - by apply (st_parent b).
Qed.

Lemma cmd_message_case_stable m : preserves I (cmd_message_case (C := C) m).
Proof.
  unfold cmd_message_case. cbv [bind_first]. walk_step; [|walk].
  apply (keeps_bind _ _ _ _ _ (fill_route_known m)). intros r Hr. by eapply emit_stable; [eassumption|].
Qed.
Hint Resolve cmd_message_case_stable : broker.

Lemma here_or_pass_stable m f :
  preserves I (f m) -> preserves I (here_or_pass (C := C) m f).
Proof. intros Hf. unfold here_or_pass. walk. Qed.
Hint Resolve here_or_pass_stable : broker.

Lemma processCommand_stable now m : preserves I (processCommand (C := C) fmt_format now m).
Proof. unfold processCommand. walk. all: apply here_or_pass_stable; walk. Qed.

Lemma connect_stable res : preserves I (connect (C := C) generateLocalAddressString res).
Proof. unfold connect. walk. Qed.

(** The commands that register a part of the federation, tell a broker its own
    place in it, or answer such a registration. *)
Definition registers (a : action_t) : bool :=
  match a with
  | cmd_reg_fed | cmd_reg_broker | cmd_fed_ack | cmd_broker_ack | cmd_broker_query => true
  | _ => false
  end.

Lemma priority_command_stable m :
  registers (messageAction m) = false ->
  preserves I (priority_command (C := C) fmt_format generateLocalAddressString iterate m).
Proof. unfold priority_command. destruct (messageAction m); try done; intros _; walk. Qed.
End Operations.

(** ** The queue

    What every command keeps is kept by the loop over the queue. *)
Section Queue.
Context `{Platform} {C : Type -> Type} `{DualVector C} `{JsonLib}.
Context (fmt_format : string -> list string -> string) (generateLocalAddressString : string).
Context (iterate : gmap string string -> list (string * string)).
Context (I : CoreBroker C -> Prop).
Context (keeps_command : forall now m, preserves I (processCommand fmt_format now m)).
Context (keeps_priority : forall now m,
  preserves I (processPriorityCommand fmt_format generateLocalAddressString iterate now m)).
Context (keeps_end : preserves I (processDisconnect_skip false)).

Lemma broker_queue_keeps depth cmds n :
  preserves I (queueProcessingLoop fmt_format generateLocalAddressString iterate depth cmds n).
Proof. apply Base.queueProcessingLoop_keeps. by constructor. Qed.
End Queue.
