(* ===== verification/BrokerRoutes.v ===== *)
(** * The routes of a broker

    A broker numbers its routes and opens each before it uses it.  The
    invariant [routes_ok] says that every route a broker has stored, for a
    federate, for a broker or in its table, is the one to its parent or was
    opened, and that nothing was sent on any other; every command keeps it. *)

From S2P Require Import Prelude BrokerBase StateMonad HTime Identifiers DualVector JsonBuilder TimeDependencies TimeCoordinator ForwardingTimeCoordinator HandleManager UnknownHandleManager CoreTypes CoreBroker BrokerInterfaces BrokerControl BrokerQueries BrokerCommands BrokerFacts BrokerStable Wire ActionMessage.
Import FedInfo (BasicFedInfo) BrkInfo (BasicBrokerInfo) Brk Links Control Queries Commands.

Section Routes.
Context {C : Type -> Type} `{DualVectorLaws C} `{JsonLib}.

(** Each message in a trace goes to the parent or on a route that was opened
    before it. *)
Definition well_routed (l : list broker_event) : Prop :=
  forall i r m, l !! i = Some (Transmit r m) ->
    r = RouteId.parent_route_id \/ exists j info, (j < i)%nat /\ l !! j = Some (AddRoute r info).

Definition opened (l : list broker_event) (r : route_id) : Prop :=
  r = RouteId.parent_route_id \/ exists info, AddRoute r info ∈ l.

Record routes_ok (K : route_id -> Prop) (b : CoreBroker C) : Prop := {
  ro_opened : forall r, K r <-> opened (outputs b) r;
  ro_sent : well_routed (outputs b);
  ro_federates : forall p fed, dv_elements (_federates b) !! p = Some fed -> K (FedInfo.route fed);
  ro_brokers : forall p brk, dv_elements (_brokers b) !! p = Some brk -> K (BrkInfo.route brk);
  ro_table : forall id r, routing_table b !! id = Some r -> K r;
  ro_endpoints : forall k r, knownExternalEndpoints b !! k = Some r -> K r;
}.

Implicit Types (K : route_id -> Prop) (b : CoreBroker C).

(** ** Outputs *)

Lemma well_routed_app l l' :
  well_routed l -> (forall r m, Transmit r m ∈ l' -> opened l r) -> well_routed (l ++ l').
Proof.
  intros Hl Hn i r m Hi. apply lookup_app_Some in Hi as [Hi|[Hle Hi]].
  - destruct (Hl i r m Hi) as [?|(j & info & Hj & Ha)]; [by left|right].
    exists j, info. split; [done|]. by apply lookup_app_l_Some.
  - apply list_elem_of_lookup_2 in Hi. destruct (Hn r m Hi) as [?|(info & Ha)]; [by left|right].
    apply list_elem_of_lookup_1 in Ha as (j & Ha). exists j, info. split; [|by apply lookup_app_l_Some].
    apply lookup_lt_Some in Ha. lia.
Qed.

(** Appending events that open no route. *)
Lemma routes_ok_outputs K b l :
  routes_ok K b -> (forall r info, AddRoute r info ∈ l -> False) ->
  (forall r m, Transmit r m ∈ l -> K r) -> routes_ok K (b <| outputs ::= fun l' => l' ++ l |>).
Proof.
  intros [Ho Hs Hf Hb Ht He] Hno Hk. constructor; simpl; [| |done..].
  - intros r. rewrite Ho. unfold opened. split; (intros [?|(info & Hi)]; [by left|right]); exists info; set_solver.
  - apply well_routed_app; [done|]. intros r m Hm. apply Ho. eauto.
Qed.

(** A state that agrees on everything the invariant reads. *)
Lemma routes_ok_frame K b b' :
  routes_ok K b -> outputs b' = outputs b ->
  dv_elements (_federates b') = dv_elements (_federates b) ->
  dv_elements (_brokers b') = dv_elements (_brokers b) -> routing_table b' = routing_table b -> knownExternalEndpoints b' = knownExternalEndpoints b ->
  routes_ok K b'.
Proof. intros [] E1 E2 E3 E4 E5. constructor; rewrite ?E1, ?E2, ?E3, ?E4, ?E5; done. Qed.

(** ** The containers *)

Lemma lookup_alter_route {V} (route : V -> route_id) (f : V -> V) K (l : list V) p :
  (forall v, K (route v) -> K (route (f v))) ->
  (forall q v, l !! q = Some v -> K (route v)) ->
  forall q v, alter f p l !! q = Some v -> K (route v).
Proof.
  intros Hf Hl q v. rewrite list_lookup_alter. case_decide as Hq; [|eauto]. subst q.
  destruct (l !! p) as [w|] eqn:E; simpl; [|done]. intros [= <-]. apply Hf. eauto.
Qed.

#[export] Instance routes_stable K : Stable K (routes_ok K).
Proof.
  constructor.
  - intros b Hb. apply (ro_opened K b Hb). by left.
  - intros b Hb. apply (ro_federates K b Hb).
  - intros b Hb. apply (ro_brokers K b Hb).
  - intros b Hb. apply (ro_table K b Hb).
  - intros b Hb. apply (ro_endpoints K b Hb).
  - intros b e Hb He. apply routes_ok_outputs; [done|..]; intros; destruct e; set_solver.
  - intros b b' Hb []. apply (routes_ok_frame K b); congruence.
  - intros b p f [Ho Hs Hf Hb Ht He] Hsame. constructor; simpl; try done.
    rewrite dv_modify_elements. apply lookup_alter_route; [|done]. intros brk. by destruct (Hsame brk) as (_ & _ & ->).
  - intros b p f [Ho Hs Hf Hb Ht He] Hsame. constructor; simpl; try done.
    rewrite dv_modify_elements. apply lookup_alter_route; [|done]. intros fed. by destruct (Hsame fed) as (_ & _ & ->).
Qed.

Lemma set_broker_routes K p f :
  (forall brk, K (BrkInfo.route brk) -> K (BrkInfo.route (f brk))) ->
  preserves (routes_ok K) (set_broker (C := C) p f).
Proof.
  intros Hf. apply preserves_modifies. intros b [Ho Hs Hfe Hb Ht He]. constructor; simpl; try done.
  rewrite dv_modify_elements. by apply lookup_alter_route.
Qed.

Lemma set_federate_routes K p f :
  (forall fed, K (FedInfo.route fed) -> K (FedInfo.route (f fed))) ->
  preserves (routes_ok K) (set_federate (C := C) p f).
Proof.
  intros Hf. apply preserves_modifies. intros b [Ho Hs Hfe Hb Ht He]. constructor; simpl; try done.
  rewrite dv_modify_elements. by apply lookup_alter_route.
Qed.

Lemma add_to_table_routes K id r : K r -> preserves (routes_ok K) (add_to_table (C := C) id r).
Proof.
  intros Hk. apply preserves_modifies. intros b [Ho Hs Hf Hb Ht He]. constructor; simpl; try done.
  unfold emplace. intros id' r' Hl. destruct (routing_table b !! id) eqn:E; [eauto|].
  apply lookup_insert_Some in Hl as [[_ <-]|[_ Hl]]; eauto.
Qed.
End Routes.

(** A state in which only the search terms of the containers differ. *)
Ltac frame_routes :=
  apply preserves_modifies; intros ? ?; eapply routes_ok_frame;
  [eassumption|simpl; rewrite ?dv_term_elements, ?dv_term_at_elements; done..].

#[export] Hint Extern 0 (Stable _ (routes_ok _)) => apply routes_stable : broker.
#[export] Hint Extern 1 (preserves (routes_ok _) (transmit _ _)) =>
  eapply emit_stable; [apply routes_stable|known_route] : broker.
#[export] Hint Extern 3 (preserves (routes_ok _) (modifies _)) => frame_routes : broker.
#[export] Hint Extern 1 (preserves (routes_ok _) (set_broker _ _)) =>
  apply set_broker_routes; intros ? ?; known_route : broker.
#[export] Hint Extern 1 (preserves (routes_ok _) (set_federate _ _)) =>
  apply set_federate_routes; intros ? ?; known_route : broker.
#[export] Hint Extern 1 (preserves (routes_ok _) (add_to_table _ _)) =>
  apply add_to_table_routes; known_route : broker.

Section Operations.
Context `{Platform} {C : Type -> Type} `{DualVectorLaws C} `{JsonLib}.
Context (fmt_format : string -> list string -> string) (generateLocalAddressString : string).
Context (iterate : gmap string string -> list (string * string)).
Implicit Types (K : route_id -> Prop) (b : CoreBroker C) (m : ActionMessage).

(** ** Operations that may open a route *)

Definition routed (b : CoreBroker C) : Prop := routes_ok (opened (outputs b)) b.

Lemma routed_of K b : routes_ok K b -> routed b.
Proof.
  intros [Ho Hs Hf Hb Ht He]. constructor; [done|done|..]; intros; apply Ho; eauto.
Qed.

Lemma preserves_routed {A} (m : Brk.M C A) :
  (forall K, preserves (routes_ok K) m) -> preserves routed m.
Proof.
  intros Hm b a b' Hb Hr. split; [|done]. destruct (Hm _ b a b' Hb Hr) as [Hb' _]. by apply routed_of in Hb'.
Qed.

(** The state after a route was opened. *)
Definition with_route (info : string) b : CoreBroker C :=
  b <| routeCount := int32 (routeCount b + 1) |> <| outputs ::= fun l => l ++ [AddRoute (routeCount b) info] |>.

Lemma with_route_ok info b :
  routed b -> let b1 := with_route info b in
  routes_ok (opened (outputs b1)) b1 /\ opened (outputs b1) (routeCount b).
Proof.
  intros [Ho Hs Hf Hb Ht He]. cbn zeta. simpl. set (e := AddRoute _ _).
  assert (Hmono : forall x, opened (outputs b) x -> opened (outputs b ++ [e]) x).
  { intros x [?|[i Hi]]; [by left|right]. exists i. set_solver. }
  split; [|right; exists info; subst e; set_solver].
  constructor; simpl; eauto. apply well_routed_app; [done|]. set_solver.
Qed.

(** What follows the opening of a route may use it. *)
Lemma routed_new_route {A} m (k : route_id -> Brk.M C A) :
  (forall K r, K r -> preserves (routes_ok K) (k r)) -> preserves routed (new_route m ≫= k).
Proof.
  intros Hk b a b' Hb Hr.
  change (k (routeCount b) (with_route (getString targetStringLoc m) b) = Some (a, b')) in Hr.
  destruct (with_route_ok (getString targetStringLoc m) b Hb) as [Hb1 Hn].
  destruct (Hk _ _ Hn _ a b' Hb1 Hr) as [Hb' _]. split; [|done]. by apply routed_of in Hb'.
Qed.

Lemma insert_table_routes K id r :
  K r -> preserves (routes_ok K) (modifies (S := CoreBroker C) (fun b => b <| routing_table ::= <[id := r]> |>)).
Proof.
  intros Hk. apply preserves_modifies. intros b [Ho Hs Hf Hb Ht He]. constructor; simpl; try done.
  intros id' r' Hl. apply lookup_insert_Some in Hl as [[_ <-]|[_ Hl]]; eauto.
Qed.

Lemma resend_broker_routed p m : preserves routed (resend_broker (C := C) p m).
Proof.
  unfold resend_broker. cbv [bind_first]. apply routed_new_route. intros K r Hk.
  apply preserves_bind; [by apply set_broker_routes|intros _]. walk_step. walk_step; [by apply insert_table_routes|].
  walk.
Qed.

Lemma refuse_broker_routed c m : preserves routed (refuse_broker (C := C) c m).
Proof.
  unfold refuse_broker, getRoute. cbv [bind_first]. walk_step. walk_step.
  - apply routed_new_route. intros K r Hk. walk.
  - apply preserves_routed. intros K. walk.
Qed.

(** The broker that was inserted at the end gets its route. *)
Lemma last_broker_routes K b c x f :
  routes_ok K b -> dv_elements c = dv_elements (_brokers b) ++ [x] ->
  (forall brk, K (BrkInfo.route (f brk))) ->
  routes_ok K (b <| _brokers := dv_modify (pred (length (dv_elements c))) f c |>).
Proof.
  intros [Ho Hs Hf Hk Ht He] Hc Hr. constructor; simpl; try done. intros p brk.
  rewrite dv_modify_elements, Hc, length_app, Nat.add_1_r. simpl.
  rewrite alter_app_r_alt, Nat.sub_diag by lia. simpl.
  intros [Hp|[_ Hp]]%lookup_app_Some; [eauto|]. by apply list_lookup_singleton_Some in Hp as [_ <-].
Qed.

Lemma describe_broker_routed m b c x a b' :
  routed b -> dv_elements c = dv_elements (_brokers b) ++ [x] ->
  describe_broker m (b <| _brokers := c |>) = Some (a, b') -> routed b'.
Proof.
  intros Hb Hc. destruct (with_route_ok (getString targetStringLoc m) b Hb) as [Hb1 Hn].
  unfold describe_broker, getRoute. cbv [bind_first].
  unfold gets, mbind, M_bind, new_route, set_broker, modifies. cbv beta zeta.
  destruct (no_source m); intros [= <- <-].
  - eapply routed_of. refine (last_broker_routes _ (with_route _ b) c x _ Hb1 Hc _). done.
  - eapply routed_of. refine (last_broker_routes _ b c x _ Hb Hc _). intros brk.
    exact (getRoute_known (routes_ok _) b (source_id m) Hb).
Qed.

Lemma forward_broker_routes K m : preserves (routes_ok K) (forward_broker (C := C) m).
Proof. unfold forward_broker, delay. walk. Qed.

Lemma grant_broker_routes K m : preserves (routes_ok K) (grant_broker (C := C) m).
Proof. unfold grant_broker. walk. Qed.

Lemma register_broker_routed m : preserves routed (register_broker (C := C) m).
Proof.
  intros b a b' Hb. unfold register_broker. cbv [bind_first]. unfold mbind at 1, M_bind at 1, insert_broker at 1.
  destruct (dv_find_name (name m) (_brokers b)) as [p|] eqn:E.
  - rewrite (dv_insert_dup _ _ _ _ _ E). cbn iota. apply refuse_broker_routed.
    by apply (routes_ok_frame _ b).
  - pose proof (dv_insert_new _ _ None (BrkInfo.new (name m)) _ E) as Hi.
    pose proof (dv_insert_elements _ _ None (BrkInfo.new (name m)) _ E) as Hc.
    destruct (dv_insert _ _ _ _) as [pos c]. cbn [fst snd] in Hi, Hc. rewrite Hi. cbn iota.
    unfold mbind at 1, M_bind at 1.
    destruct (describe_broker m _) as [[u b1]|] eqn:Hd; [|done].
    apply (describe_broker_routed m b c _ _ _ Hb Hc) in Hd.
    enough (preserves routed (gets isRootc ≫= fun root : bool =>
              if negb root then forward_broker m else grant_broker (C := C) m)) as Hp by apply (Hp b1 a b' Hd).
    apply preserves_routed. intros K. pose proof (forward_broker_routes K m).
    pose proof (grant_broker_routes K m). walk.
Qed.

Lemma init_not_ready_routes K : preserves (routes_ok K) (init_not_ready (C := C)).
Proof. unfold init_not_ready. walk. Qed.
Hint Resolve init_not_ready_routes : broker.

Lemma cmd_reg_broker_case_routed m : preserves routed (cmd_reg_broker_case (C := C) m).
Proof.
  unfold cmd_reg_broker_case. cbv [bind_first]. walk_step. walk_step.
  - apply preserves_routed. intros K. unfold keep_early. walk.
  - walk_step; [apply resend_broker_routed|]. walk_step; [apply refuse_broker_routed|].
    apply preserves_bind; [apply preserves_routed; auto with broker|]. intros _. apply register_broker_routed.
Qed.

(** A federate is inserted with the route to its core. *)
Lemma insert_federate_routes K n r par :
  K r -> preserves (routes_ok K) (modifies (S := CoreBroker C) (fun b => b <| _federates ::= fun c =>
    dv_modify_back (fun fed => fed <| FedInfo.route := r |> <| FedInfo.parent := par |>)
      (snd (dv_insert n None (FedInfo.new n) c)) |>)).
Proof.
  intros Hk. apply preserves_modifies. intros b [Ho Hs Hf Hb Ht He]. constructor; simpl; try done.
  unfold dv_modify_back. intros p fed. rewrite dv_modify_elements.
  destruct (dv_find_name n (_federates b)) as [q|] eqn:E.
  - rewrite (dv_insert_dup _ _ _ _ _ E). by apply lookup_alter_route.
  - rewrite (dv_insert_elements _ _ _ _ _ E), length_app, Nat.add_1_r. simpl.
    rewrite alter_app_r_alt, Nat.sub_diag by lia. simpl.
    intros [Hp|[_ Hp]]%lookup_app_Some; [eauto|]. by apply list_lookup_singleton_Some in Hp as [_ <-].
Qed.

Lemma cmd_reg_fed_case_routes K m : preserves (routes_ok K) (cmd_reg_fed_case (C := C) m).
Proof.
  unfold cmd_reg_fed_case, refuse_federate, register_federate, forward_federate, grant_federate, delay,
    keep_early, getRoute. walk.
  apply insert_federate_routes. known_route.
Qed.

Lemma cmd_fed_ack_case_routes K m : preserves (routes_ok K) (cmd_fed_ack_case (C := C) m).
Proof. unfold cmd_fed_ack_case. walk. Qed.

Lemma cmd_broker_ack_case_routes K m : preserves (routes_ok K) (cmd_broker_ack_case (C := C) m).
Proof.
  pose proof (transmitDelayedMessages_stable (routes_ok K)). unfold cmd_broker_ack_case, own_broker_ack. walk.
Qed.
Hint Resolve cmd_reg_fed_case_routes cmd_fed_ack_case_routes cmd_broker_ack_case_routes : broker.

(** ** Everything a broker does *)

Lemma priority_command_routed m :
  preserves routed (priority_command (C := C) fmt_format generateLocalAddressString iterate m).
Proof.
  destruct (registers (messageAction m)) eqn:E;
    [|apply preserves_routed; intros K; by apply (priority_command_stable _ _ _ (routes_ok K))].
  unfold priority_command. destruct (messageAction m) eqn:Ea; try discriminate E.
  all: first [ apply cmd_reg_broker_case_routed | apply preserves_routed; intros K ].
  all: first [ solve [auto with broker] | apply (cmd_broker_query_case_stable _ _ (routes_ok K)) ].
  unfold keep_early. walk.
Qed.

Lemma processCommand_routed now m : preserves routed (processCommand (C := C) fmt_format now m).
Proof. apply preserves_routed. intros K. apply (processCommand_stable _ (routes_ok K)). Qed.

Lemma early_message_routed now m :
  preserves routed (early_message (C := C) fmt_format generateLocalAddressString iterate now m).
Proof.
  unfold early_message. walk_step; [|apply processCommand_routed].
  walk_step; try apply priority_command_routed. apply preserves_deref.
Qed.

Lemma processPriorityCommand_routed now m :
  preserves routed (processPriorityCommand (C := C) fmt_format generateLocalAddressString iterate now m).
Proof.
  unfold processPriorityCommand, cmd_broker_setup_case.
  walk_step; try apply priority_command_routed. cbv [bind_first].
  walk_step; [apply preserves_routed; intros K; walk|]. walk_step. walk_step.
  - walk_step. apply early_message_routed.
  - apply preserves_routed. intros K. walk.
Qed.

Lemma new_broker_routed name root : routed (new_broker (C := C) name root).
Proof.
  constructor; simpl; try done.
  - intros p fed. by rewrite dv_elements_empty.
  - intros p brk. by rewrite dv_elements_empty.
Qed.
End Operations.
