(* ===== verification/BrokerRegistry.v ===== *)
(** * The registry of a root broker

    The root numbers the federates and the brokers in the order in which they
    register.  The invariant [root_registry] ties together what it keeps of
    them: the position of an element, its identifier, the two searches and the
    table of routes.  Every command keeps it, but for the acknowledgements that
    only a broker below the root can receive. *)

From S2P Require Import Prelude BrokerBase StateMonad HTime Identifiers DualVector JsonBuilder TimeDependencies TimeCoordinator ForwardingTimeCoordinator HandleManager UnknownHandleManager CoreTypes CoreBroker BrokerInterfaces BrokerControl BrokerQueries BrokerCommands BrokerFacts BrokerStable Wire ActionMessage.
Import FedInfo (BasicFedInfo) BrkInfo (BasicBrokerInfo) Brk Links Control Queries Commands.

(** ** A container whose elements are numbered *)

Section Indexed.
Context {C : Type -> Type} `{DualVectorLaws C} {V : Type}.
Context (nm : V -> string) (gid : V -> Z) (shift : Z).
Implicit Types (c : C V) (v : V).

Record indexed (c : C V) : Prop := {
  ix_id : forall p v, dv_elements c !! p = Some v -> gid v = Z.of_nat p + shift;
  ix_name : forall n p, dv_find_name n c = Some p <-> exists v, dv_elements c !! p = Some v /\ nm v = n;
  ix_find : forall i p, dv_find_id i c = Some p <-> (p < length (dv_elements c))%nat /\ i = Z.of_nat p + shift;
}.

Lemma indexed_empty : indexed dv_empty.
Proof.
  constructor; intros *; rewrite ?dv_elements_empty, ?dv_name_empty, ?dv_id_empty; [done|..]; simpl.
  - split; [done|]. by intros (v & ? & _).
  - split; [done|]. lia.
Qed.

Lemma alter_keeps {A} (g : V -> A) (f : V -> V) p (l : list V) q v' :
  (forall v, g (f v) = g v) -> alter f p l !! q = Some v' -> exists v, l !! q = Some v /\ g v' = g v.
Proof.
  intros Hf. rewrite list_lookup_alter. case_decide; [subst q|eauto].
  destruct (l !! p) as [v|]; simpl; [|done]. intros [= <-]. eauto.
Qed.

Lemma indexed_modify p f c :
  indexed c -> (forall v, nm (f v) = nm v /\ gid (f v) = gid v) -> indexed (dv_modify p f c).
Proof.
  intros [Hi Hn Hf] Hs. constructor; intros *; rewrite ?dv_modify_elements, ?dv_modify_name, ?dv_modify_id, ?length_alter.
  - intros Hl. apply (alter_keeps gid) in Hl as (w & Hw & ->); [by apply Hi|apply Hs].
  - rewrite Hn. rewrite list_lookup_alter. case_decide; [subst p0|done]. destruct (dv_elements c !! p) as [w|]; simpl.
    + split; intros (v & [= <-] & <-); eexists; (split; [done|]); by destruct (Hs w).
    + split; by intros (v & ? & _).
  - apply Hf.
Qed.

(** The container with one more element, not yet found by an identifier. *)
Record grown (c c' : C V) (n : string) (v : V) : Prop := {
  gr_elements : dv_elements c' = dv_elements c ++ [v];
  gr_name : forall k, dv_find_name k c' = if decide (n = k) then Some (length (dv_elements c)) else dv_find_name k c;
  gr_id : forall i, dv_find_id i c' = dv_find_id i c;
}.

Lemma grown_insert c n v : dv_find_name n c = None -> grown c (snd (dv_insert n None v c)) n v.
Proof.
  intros Hn. constructor; intros *.
  - by apply dv_insert_elements.
  - by rewrite dv_insert_name.
  - by apply dv_insert_no_id.
Qed.

Lemma grown_last c c' n v : grown c c' n v -> pred (length (dv_elements c')) = length (dv_elements c).
Proof. intros [-> _ _]. rewrite length_app. simpl. lia. Qed.

Lemma grown_lookup c c' n v : grown c c' n v -> dv_elements c' !! length (dv_elements c) = Some v.
Proof. intros [-> _ _]. by apply list_lookup_middle. Qed.

Lemma grown_modify c c' n v f :
  grown c c' n v -> grown c (dv_modify (length (dv_elements c)) f c') n (f v).
Proof.
  intros [He Hn Hi]. constructor; intros *; rewrite ?dv_modify_name, ?dv_modify_id; auto.
  rewrite dv_modify_elements, He, alter_app_r_alt, Nat.sub_diag by lia. done.
Qed.

Lemma indexed_grow c c' n v :
  indexed c -> dv_find_name n c = None -> grown c c' n v -> nm v = n ->
  gid v = Z.of_nat (length (dv_elements c)) + shift ->
  indexed (dv_add_term_at (gid v) (length (dv_elements c)) c').
Proof.
  intros [Hi Hnm Hf] Hno Hg Hv Hid. pose proof Hg as [He Hn Hgi].
  assert (Hlen : length (dv_elements c') = S (length (dv_elements c))) by (rewrite He, length_app; simpl; lia).
  assert (Hnew : dv_find_id (gid v) c' = None).
  { rewrite Hgi. apply eq_None_not_Some. intros [p Hp]. apply Hf in Hp as [Hp Hq]. lia. }
  constructor; intros *; rewrite ?dv_term_at_elements, ?dv_term_at_name.
  - rewrite He. intros [Hl|[Hle Hl]]%lookup_app_Some; [by apply Hi|].
    apply list_lookup_singleton_Some in Hl as [Hp <-]. rewrite Hid. lia.
  - rewrite Hn, He. case_decide as Hk.
    + subst. split.
      * intros [= <-]. exists v. split; [by apply list_lookup_middle|done].
      * intros (w & [Hl|[Hle Hl]]%lookup_app_Some & Hw).
        -- enough (dv_find_name (nm v) c = Some p) by congruence. apply Hnm. eauto.
        -- apply list_lookup_singleton_Some in Hl as [Hp _]. f_equal. lia.
    + rewrite Hnm. split; intros (w & Hl & Hw); exists w; (split; [|done]).
      * by apply lookup_app_l_Some.
      * apply lookup_app_Some in Hl as [Hl|[_ Hl]]; [done|].
        apply list_lookup_singleton_Some in Hl as [_ <-]. congruence.
  - rewrite Hlen, dv_term_at_id by (try done; lia). case_decide as Hk.
    + rewrite <- Hk, Hid. split; [intros [= <-]; lia|]. intros [? ?]. f_equal. lia.
    + rewrite Hgi, Hf. split; [lia|]. intros [Hlt ->]. split; [|done].
      destruct (decide (p = length (dv_elements c))) as [->|]; [congruence|lia].
Qed.
End Indexed.

(** ** The invariant *)

Abbreviation fed_count b := (length (dv_elements (_federates b))).
Abbreviation brk_count b := (length (dv_elements (_brokers b))).

Section Registry.
Context {C : Type -> Type} `{DualVectorLaws C} `{JsonLib}.
Implicit Types (b : CoreBroker C) (m : ActionMessage).

Definition federates_indexed : C BasicFedInfo -> Prop :=
  indexed FedInfo.name FedInfo.global_id global_federate_id_shift.
Definition brokers_indexed : C BasicBrokerInfo -> Prop :=
  indexed BrkInfo.name BrkInfo.global_id global_broker_id_shift.

Record root_registry b : Prop := {
  rr_federates : federates_indexed (_federates b);
  rr_brokers : brokers_indexed (_brokers b);
  rr_fed_route : forall p fed, dv_elements (_federates b) !! p = Some fed ->
    routing_table b !! (Z.of_nat p + global_federate_id_shift) = Some (FedInfo.route fed);
  rr_brk_route : forall p brk, dv_elements (_brokers b) !! p = Some brk ->
    routing_table b !! (Z.of_nat p + global_broker_id_shift) = Some (BrkInfo.route brk);
  rr_table : forall i, is_Some (routing_table b !! i) ->
    (exists p, (p < fed_count b)%nat /\ i = Z.of_nat p + global_federate_id_shift) \/
    (exists p, (p < brk_count b)%nat /\ i = Z.of_nat p + global_broker_id_shift);
}.

(** Only a broker below the root is sent an acknowledgement. *)
Definition from_below m : Prop :=
  messageAction m <> cmd_fed_ack /\ messageAction m <> cmd_broker_ack.

(** Fewer parts than would run into the identifiers of the other kind. *)
Definition small b : Prop := Z.of_nat (fed_count b) <= 2 ^ 28 /\ Z.of_nat (brk_count b) < 2 ^ 28.

Record root_ok b : Prop := {
  rk_isRoot : _isRoot b = true;
  rk_isRootc : isRootc b = true;
  rk_higher : higher_broker_id b = 0;
  rk_early : Forall from_below (earlyMessages b);
  rk_registry : small b -> root_registry b;
}.

(** A state that agrees on the registry; the outputs do not matter. *)
Lemma root_ok_frame b b' :
  root_ok b -> _isRoot b' = _isRoot b -> isRootc b' = isRootc b ->
  higher_broker_id b' = higher_broker_id b -> Forall from_below (earlyMessages b') ->
  _federates b' = _federates b -> _brokers b' = _brokers b -> routing_table b' = routing_table b ->
  root_ok b'.
Proof.
  intros [Hr Hc Hh He Hg] E1 E2 E3 E4 E5 E6 E7. constructor; rewrite ?E1, ?E2, ?E3; try done.
  unfold small. rewrite E5, E6. intros Hs. destruct (Hg Hs). constructor; rewrite ?E5, ?E6, ?E7; done.
Qed.

Lemma root_modify_brokers b p f :
  root_ok b -> (forall brk, same_broker brk (f brk)) -> root_ok (b <| _brokers ::= dv_modify p f |>).
Proof.
  intros [Hr Hc Hh He Hg] Hf. constructor; try done. unfold small. simpl. rewrite dv_modify_elements, length_alter.
  intros Hs. destruct (Hg Hs) as [Hfe Hbr Hfr Hbrt Ht]. constructor; simpl; try done.
  - apply indexed_modify; [done|]. intros brk. destruct (Hf brk) as (? & ? & _). done.
  - intros q brk. rewrite dv_modify_elements. intros Hl.
    apply (alter_keeps BrkInfo.route) in Hl as (w & Hw & ->); [by apply Hbrt|]. intros v. by destruct (Hf v) as (_ & _ & ?).
  - intros i Hi. rewrite dv_modify_elements, length_alter. by apply Ht.
Qed.

Lemma root_modify_federates b p f :
  root_ok b -> (forall fed, same_federate fed (f fed)) -> root_ok (b <| _federates ::= dv_modify p f |>).
Proof.
  intros [Hr Hc Hh He Hg] Hf. constructor; try done. unfold small. simpl. rewrite dv_modify_elements, length_alter.
  intros Hs. destruct (Hg Hs) as [Hfe Hbr Hfr Hbrt Ht]. constructor; simpl; try done.
  - apply indexed_modify; [done|]. intros fed. destruct (Hf fed) as (? & ? & _). done.
  - intros q fed. rewrite dv_modify_elements. intros Hl.
    apply (alter_keeps FedInfo.route) in Hl as (w & Hw & ->); [by apply Hfr|]. intros v. by destruct (Hf v) as (_ & _ & ?).
  - intros i Hi. rewrite dv_modify_elements, length_alter. by apply Ht.
Qed.

#[export] Instance root_stable : Stable (fun _ => True) root_ok.
Proof.
  constructor; try done.
  - intros b e Hb _. apply (root_ok_frame b); try done. exact (rk_early b Hb).
  - intros b b' Hb []. apply (root_ok_frame b); try congruence. rewrite sr_early. exact (rk_early b Hb).
  - apply root_modify_brokers.
  - apply root_modify_federates.
Qed.

(** ** A new federate *)

(** the identifier after [n] registrations *)
Definition next_fed_id (n : nat) : Z := int32 (int32 (Z.of_nat (S n)) - 1 + global_federate_id_shift).
Definition next_brk_id (n : nat) : Z := int32 (int32 (Z.of_nat (S n)) - 1 + global_broker_id_shift).

Lemma next_fed_id_small n : Z.of_nat n <= 2 ^ 28 -> next_fed_id n = Z.of_nat n + global_federate_id_shift.
Proof.
  intros Hn. unfold next_fed_id, global_federate_id_shift. rewrite (swrap_id 32 (Z.of_nat (S n))), swrap_id; [lia|..].
  all: unfold in_signed; lia.
Qed.

Lemma next_brk_id_small n : Z.of_nat n < 2 ^ 28 -> next_brk_id n = Z.of_nat n + global_broker_id_shift.
Proof.
  intros Hn. unfold next_brk_id, global_broker_id_shift. rewrite (swrap_id 32 (Z.of_nat (S n))), swrap_id; [lia|..].
  all: unfold in_signed; lia.
Qed.

(** the entry of a federate and the answer it gets *)
Definition new_fed m b : BasicFedInfo :=
  FedInfo.mkFedInfo (name m) (next_fed_id (fed_count b)) (getRoute_of (source_id m) b) (source_id m) false.

Definition fed_ack m b : ActionMessage :=
  newMessage cmd_fed_ack <| source_id := global_broker_id_local b |>
    <| dest_id := next_fed_id (fed_count b) |> <| payload := name m |>.

(** the entry, its search terms, its route and the answer *)
Lemma register_federate_root m b :
  isRootc b = true -> dv_find_name (name m) (_federates b) = None ->
  exists c, grown (_federates b) c (name m) (new_fed m b) /\
    let gid := next_fed_id (fed_count b) in
    register_federate m b =
      Some (tt, b <| _federates := dv_add_term_at gid (Z.to_nat (gid - global_federate_id_shift)) c |>
                  <| routing_table ::= emplace gid (getRoute_of (source_id m) b) |>
                  <| outputs ::= fun l => l ++ [Transmit (getRoute_of (source_id m) b) (fed_ack m b)] |>).
Proof.
  intros Hroot Hn. set (gid := next_fed_id (fed_count b)).
  pose proof (grown_insert _ _ (FedInfo.new (name m)) Hn) as Hg.
  set (route := getRoute_of (source_id m) b).
  apply (grown_modify _ _ _ _ (fun fed => fed <| FedInfo.route := route |> <| FedInfo.parent := source_id m |>)) in Hg.
  set (c1 := dv_modify _ _ _) in Hg.
  pose proof (grown_modify _ _ _ _ (fun fed => fed <| FedInfo.global_id := gid |>) Hg) as Hg'.
  set (c2 := dv_modify _ _ c1) in Hg'.
  exists c2. split; [exact Hg'|]. cbv zeta.
  assert (Hc1 : dv_modify_back (fun fed => fed <| FedInfo.route := route |> <| FedInfo.parent := source_id m |>)
             (snd (dv_insert (name m) None (FedInfo.new (name m)) (_federates b))) = c1).
  { unfold dv_modify_back. by rewrite (grown_last _ _ _ _ (grown_insert _ _ (FedInfo.new (name m)) Hn)). }
  assert (Hl1 : length (dv_elements c1) = S (fed_count b)) by (rewrite (gr_elements _ _ _ _ Hg), length_app; simpl; lia).
  set (b1 := b <| _federates := c1 |>).
  assert (Hreg : register_federate m b = grant_federate m b1).
  { unfold register_federate, getRoute. cbv [bind_first gets modifies mbind M_bind].
    match goal with |- context [isRootc ?x] => change (isRootc x) with (isRootc b) end. rewrite Hroot.
    cbn [negb]. f_equal. unfold b1. rewrite <- Hc1. done. }
  rewrite Hreg. unfold grant_federate. cbv [bind_first gets modifies set_federate add_to_table transmit emit federate_at mbind M_bind].
  change (_federates b1) with c1. unfold dv_size. rewrite Hl1. change (Nat.pred (S (fed_count b))) with (fed_count b).
  fold (next_fed_id (fed_count b)). fold gid.
  match goal with |- context [dv_elements (_federates ?x)] => change (_federates x) with
    (dv_add_term_at gid (Z.to_nat (gid - global_federate_id_shift)) c2) end.
  rewrite dv_term_at_elements, (grown_lookup _ _ _ _ Hg'). reflexivity.
Qed.

(** ** A new broker *)

(** the route of a broker is new when it registers itself *)
Definition broker_route m b : route_id := if no_source m then routeCount b else getRoute_of (source_id m) b.

Definition new_brk m b : BasicBrokerInfo :=
  let core := checkActionFlag m core_flag in
  if no_source m
  then BrkInfo.new (name m) <| BrkInfo.global_id := next_brk_id (brk_count b) |>
         <| BrkInfo.route := routeCount b |> <| BrkInfo.parent := global_broker_id_local b |>
         <| BrkInfo._route_key := true |> <| BrkInfo._core := core |>
  else BrkInfo.new (name m) <| BrkInfo.global_id := next_brk_id (brk_count b) |>
         <| BrkInfo.route := getRoute_of (source_id m) b |> <| BrkInfo.parent := source_id m |>
         <| BrkInfo._nonLocal := true |> <| BrkInfo._core := core |>.

Definition brk_ack m b : ActionMessage :=
  broker_reply (global_broker_id_local b) (next_brk_id (brk_count b)) m.

(** the state with the route opened, when there is a new one *)
Definition opened_route m b : CoreBroker C :=
  if no_source m then b <| routeCount := int32 (routeCount b + 1) |>
    <| outputs ::= fun l => l ++ [AddRoute (routeCount b) (getString targetStringLoc m)] |>
  else b.

Lemma describe_broker_eq m b c v :
  grown (_brokers b) c (name m) v -> exists f,
  (forall brk, BrkInfo.name (f brk) = BrkInfo.name brk) /\
  (f (BrkInfo.new (name m)) <| BrkInfo.global_id := next_brk_id (brk_count b) |>) = new_brk m b /\
  describe_broker m (b <| _brokers := c |>) =
    Some (tt, opened_route m b <| _brokers := dv_modify (brk_count b) f c |>).
Proof.
  intros Hg. unfold describe_broker, getRoute.
  cbv [bind_first gets modifies set_broker new_route addRoute emit mbind M_bind].
  change (_brokers (b <| _brokers := c |>)) with c. rewrite (grown_last _ _ _ _ Hg).
  unfold opened_route, new_brk. destruct (no_source m); (eexists; split; [|split]; cycle 2; [reflexivity|done..]).
Qed.

Lemma register_broker_root m b :
  isRootc b = true -> dv_find_name (name m) (_brokers b) = None ->
  exists c, grown (_brokers b) c (name m) (new_brk m b) /\
    let gid := next_brk_id (brk_count b) in
    register_broker m b =
      Some (tt, opened_route m b <| _brokers := dv_add_term_at gid (brk_count b) c |>
                  <| routing_table ::= emplace gid (broker_route m b) |>
                  <| outputs ::= fun l => l ++ [Transmit (broker_route m b) (brk_ack m b)] |>).
Proof.
  intros Hroot Hn. set (gid := next_brk_id (brk_count b)).
  pose proof (grown_insert _ _ (BrkInfo.new (name m)) Hn) as Hg.
  destruct (describe_broker_eq m b _ _ Hg) as (f & _ & Hf & Hd). fold gid in Hf.
  pose proof (grown_modify _ _ _ _ f Hg) as Hg1. set (c1 := dv_modify _ f _) in Hg1, Hd.
  pose proof (grown_modify _ _ _ _ (fun brk => brk <| BrkInfo.global_id := gid |>) Hg1) as Hg2.
  set (c2 := dv_modify _ _ c1) in Hg2. exists c2. split; [by rewrite <- Hf|]. cbv zeta.
  set (b1 := opened_route m b <| _brokers := c1 |>) in Hd.
  assert (Hl1 : length (dv_elements c1) = S (brk_count b))
    by (rewrite (gr_elements _ _ _ _ Hg1), length_app; simpl; lia).
  assert (Hr1 : isRootc b1 = true) by (unfold b1, opened_route; by destruct (no_source m)).
  assert (Hreg : register_broker m b = grant_broker m b1).
  { unfold register_broker, insert_broker. cbv [bind_first mbind M_bind].
    pose proof (dv_insert_new _ _ None (BrkInfo.new (name m)) _ Hn) as Hi.
    destruct (dv_insert (name m) None _ _) as [pos c] eqn:Ei. cbn [fst snd] in *. subst pos.
    rewrite Hd. unfold gets. by rewrite Hr1. }
  rewrite Hreg. unfold grant_broker.
  cbv [bind_first gets modifies set_broker add_to_table transmit emit broker_at mbind M_bind].
  change (_brokers b1) with c1. unfold dv_size. rewrite Hl1. change (Nat.pred (S (brk_count b))) with (brk_count b).
  fold (next_brk_id (brk_count b)). fold gid.
  match goal with |- context [dv_elements (_brokers ?x)] => change (_brokers x) with
    (dv_add_term_at gid (brk_count b) c2) end.
  rewrite dv_term_at_elements, (grown_lookup _ _ _ _ Hg2).
  assert (Hrt : BrkInfo.route (f (BrkInfo.new (name m)) <| BrkInfo.global_id := gid |>) = broker_route m b)
    by (rewrite Hf; unfold new_brk, broker_route; by destruct (no_source m)).
  cbv beta. unfold deref. cbv iota. rewrite Hrt. unfold b1, brk_ack, opened_route. by destruct (no_source m).
Qed.

(** ** Registration keeps the invariant *)

(** An entry of the table under an identifier that nobody has. *)
Lemma emplace_lookup (id : Z) (r : route_id) (t : gmap Z route_id) i :
  t !! id = None -> emplace id r t !! i = if decide (id = i) then Some r else t !! i.
Proof.
  intros Hn. unfold emplace. rewrite Hn. case_decide as Hi; [subst; apply lookup_insert_eq|by apply lookup_insert_ne].
Qed.

Lemma root_add_federate b c m g :
  root_ok b -> dv_find_name (name m) (_federates b) = None ->
  grown (_federates b) c (name m) (new_fed m b) ->
  let gid := next_fed_id (fed_count b) in
  root_ok (b <| _federates := dv_add_term_at gid (Z.to_nat (gid - global_federate_id_shift)) c |>
             <| routing_table ::= emplace gid (getRoute_of (source_id m) b) |> <| outputs ::= g |>).
Proof.
  intros [Hr Hc Hh He Hreg] Hn Hg gid. constructor; try done. unfold small. simpl.
  pose proof (gr_elements _ _ _ _ Hg) as Hel.
  rewrite dv_term_at_elements, Hel, length_app, Nat.add_1_r. intros [Hsf Hsb].
  assert (Hs : small b) by (split; lia). destruct (Hreg Hs) as [Hfe Hbr Hfr Hbrt Ht].
  assert (Hgid : gid = Z.of_nat (fed_count b) + global_federate_id_shift) by (apply next_fed_id_small; lia).
  assert (Hp : Z.to_nat (gid - global_federate_id_shift) = fed_count b) by lia.
  assert (Hfresh : routing_table b !! gid = None).
  { apply eq_None_not_Some. intros [(p & Hp1 & Hp2)|(p & Hp1 & Hp2)]%Ht; [lia|].
    unfold global_federate_id_shift, global_broker_id_shift, small in *. lia. }
  constructor; simpl.
  - rewrite Hp. by apply (indexed_grow FedInfo.name FedInfo.global_id _ _ _ _ _ Hfe Hn Hg).
  - done.
  - intros p fed. rewrite dv_term_at_elements, Hel, (emplace_lookup _ _ _ _ Hfresh).
    intros [Hl|[Hle Hl]]%lookup_app_Some.
    + apply lookup_lt_Some in Hl as Hlt. rewrite decide_False by lia. by apply Hfr.
    + apply list_lookup_singleton_Some in Hl as [Hz <-]. rewrite decide_True by lia. done.
  - intros p brk Hl. rewrite (emplace_lookup _ _ _ _ Hfresh). apply lookup_lt_Some in Hl as Hlt.
    rewrite decide_False by (unfold global_federate_id_shift, global_broker_id_shift, small in *; lia). by apply Hbrt.
  - intros i. rewrite dv_term_at_elements, Hel, length_app, Nat.add_1_r, (emplace_lookup _ _ _ _ Hfresh).
    case_decide as Hi; [intros _; left; exists (fed_count b); lia|].
    intros [(p & ? & ?)|(p & ? & ?)]%Ht; [left|right]; exists p; lia.
Qed.

Lemma root_add_broker b c m b1 g :
  root_ok b -> dv_find_name (name m) (_brokers b) = None ->
  grown (_brokers b) c (name m) (new_brk m b) -> BrkInfo.route (new_brk m b) = broker_route m b ->
  b1 = opened_route m b ->
  let gid := next_brk_id (brk_count b) in
  root_ok (b1 <| _brokers := dv_add_term_at gid (brk_count b) c |>
              <| routing_table ::= emplace gid (broker_route m b) |> <| outputs ::= g |>).
Proof.
  intros [Hr Hc Hh He Hreg] Hn Hg Hroute -> gid.
  assert (Hfield : _isRoot (opened_route m b) = _isRoot b /\ isRootc (opened_route m b) = isRootc b /\
    higher_broker_id (opened_route m b) = higher_broker_id b /\
    earlyMessages (opened_route m b) = earlyMessages b /\ _federates (opened_route m b) = _federates b /\
    routing_table (opened_route m b) = routing_table b) by (unfold opened_route; by destruct (no_source m)).
  destruct Hfield as (E1 & E2 & E3 & E4 & E5 & E6).
  constructor; [by rewrite <- Hr, <- E1|by rewrite <- Hc, <- E2|by rewrite <- Hh, <- E3|by rewrite <- E4 in He|].
  set (b1 := modify outputs _ _).
  assert (F1 : _federates b1 = _federates b) by (by rewrite <- E5).
  assert (F2 : _brokers b1 = dv_add_term_at gid (brk_count b) c) by done.
  assert (F3 : routing_table b1 = emplace gid (broker_route m b) (routing_table b)) by (by rewrite <- E6).
  clearbody b1. clear E1 E2 E3 E4 E5 E6. unfold small. rewrite F1, F2.
  pose proof (gr_elements _ _ _ _ Hg) as Hel.
  rewrite dv_term_at_elements, Hel, length_app, Nat.add_1_r. intros [Hsf Hsb].
  assert (Hs : small b) by (split; lia). destruct (Hreg Hs) as [Hfe Hbr Hfr Hbrt Ht].
  assert (Hgid : gid = Z.of_nat (brk_count b) + global_broker_id_shift) by (apply next_brk_id_small; lia).
  assert (Hid : BrkInfo.global_id (new_brk m b) = gid) by (unfold new_brk; by destruct (no_source m)).
  assert (Hnm : BrkInfo.name (new_brk m b) = name m) by (unfold new_brk; by destruct (no_source m)).
  assert (Hfresh : routing_table b !! gid = None).
  { apply eq_None_not_Some. intros [(p & Hp1 & Hp2)|(p & Hp1 & Hp2)]%Ht; [|lia].
    unfold global_federate_id_shift, global_broker_id_shift, small in *. lia. }
  constructor; rewrite ?F1, ?F2, ?F3; try done.
  - pose proof (indexed_grow BrkInfo.name BrkInfo.global_id _ _ _ _ _ Hbr Hn Hg Hnm) as Hgrow.
    rewrite Hid in Hgrow. by apply Hgrow.
  - intros p fed Hl. rewrite (emplace_lookup _ _ _ _ Hfresh). apply lookup_lt_Some in Hl as Hlt.
    rewrite decide_False by (unfold global_federate_id_shift, global_broker_id_shift, small in *; lia). by apply Hfr.
  - intros p brk. rewrite dv_term_at_elements, Hel, (emplace_lookup _ _ _ _ Hfresh).
    intros [Hl|[Hle Hl]]%lookup_app_Some.
    + apply lookup_lt_Some in Hl as Hlt. rewrite decide_False by lia. by apply Hbrt.
    + apply list_lookup_singleton_Some in Hl as [Hz <-]. rewrite decide_True by lia. by rewrite Hroute.
  - intros i. rewrite dv_term_at_elements, Hel, length_app, Nat.add_1_r, (emplace_lookup _ _ _ _ Hfresh).
    case_decide as Hi; [intros _; right; exists (brk_count b); lia|].
    intros [(p & ? & ?)|(p & ? & ?)]%Ht; [left|right]; exists p; lia.
Qed.
End Registry.

(** ** The commands *)

Section Commands.
Context `{Platform} {C : Type -> Type} `{DualVectorLaws C} `{JsonLib}.
Context (fmt_format : string -> list string -> string) (generateLocalAddressString : string).
Context (iterate : gmap string string -> list (string * string)).
Implicit Types (b : CoreBroker C) (m : ActionMessage).

(** the outputs of [init_not_ready] *)
Definition ready_notice b : list broker_event :=
  if allInitReady b
  then [Transmit RouteId.parent_route_id (newMessage cmd_init_not_ready <| source_id := global_broker_id_local b |>)]
  else [].

Lemma outputs_nil b : b <| outputs ::= fun l => l ++ [] |> = b.
Proof. destruct b. cbn. by rewrite app_nil_r. Qed.

Lemma init_not_ready_eq b : init_not_ready b = Some (tt, b <| outputs ::= fun l => l ++ ready_notice b |>).
Proof.
  unfold init_not_ready, ready_notice. cbv [bind_first gets mbind M_bind]. destruct (allInitReady b); [done|].
  by rewrite outputs_nil.
Qed.

Lemma root_ok_outputs b g : root_ok b -> root_ok (b <| outputs ::= g |>).
Proof. intros Hb. apply (root_ok_frame b); try done. exact (rk_early b Hb). Qed.

Lemma keep_early_root m : from_below m -> preserves root_ok (keep_early (C := C) m).
Proof.
  intros Hm. apply preserves_modifies. intros b Hb. apply (root_ok_frame b); try done. simpl.
  apply Forall_app. split; [exact (rk_early b Hb)|by constructor].
Qed.

Lemma refuse_federate_root code m : preserves root_ok (refuse_federate (C := C) code m).
Proof. unfold refuse_federate, getRoute. walk. all: eapply emit_stable; [apply root_stable|exact Logic.I]. Qed.

Lemma new_route_root m : preserves root_ok (new_route (C := C) m).
Proof.
  intros b a b' Hb [= <- <-]. split; [|done]. apply (root_ok_frame b); try done. exact (rk_early b Hb).
Qed.

Lemma emit_root e : preserves root_ok (emit (C := C) e).
Proof. apply preserves_modifies. intros b Hb. by apply root_ok_outputs. Qed.

Lemma refuse_broker_root code m : preserves root_ok (refuse_broker (C := C) code m).
Proof.
  unfold refuse_broker, getRoute. walk.
  all: first [apply new_route_root|apply emit_root].
Qed.

Lemma cmd_reg_fed_root m : messageAction m = cmd_reg_fed -> preserves root_ok (cmd_reg_fed_case (C := C) m).
Proof.
  intros Ha. unfold cmd_reg_fed_case. cbv [bind_first]. intros b a b' Hb. unfold mbind at 1, M_bind at 1, gets at 1.
  case_if; [apply keep_early_root; [split; congruence|done]|]. case_if; [by apply refuse_federate_root|].
  unfold mbind, M_bind. rewrite init_not_ready_eq. set (b1 := b <| outputs ::= _ |>).
  assert (Hb1 : root_ok b1) by by apply root_ok_outputs.
  change (_federates b) with (_federates b1). destruct (dv_find_name (name m) (_federates b1)) eqn:E.
  - by apply refuse_federate_root.
  - destruct (register_federate_root m b1 (rk_isRootc b1 Hb1) E) as (c & Hg & Heq). rewrite Heq.
    intros ->%result_state. split; [|done]. by apply root_add_federate.
Qed.

(** A route that is renewed is renewed in the table as well. *)
Lemma resend_broker_root p m : preserves root_ok (resend_broker (C := C) p m).
Proof.
  intros b a b' Hb. unfold resend_broker. cbv [bind_first]. unfold mbind at 1, M_bind at 1.
  destruct (new_route m b) as [[r b1]|] eqn:E; [|done]. destruct (new_route_root m b r b1 Hb E) as [Hb1 _]. clear Hb E b.
  set (f := fun brk => brk <| BrkInfo.route := r |>).
  cbv [gets modifies set_broker broker_at bind_first deref transmit emit mbind M_bind].
  set (b2 := b1 <| _brokers ::= dv_modify p f |>).
  assert (Hl : dv_elements (_brokers b2) = alter f p (dv_elements (_brokers b1))) by apply dv_modify_elements.
  destruct (dv_elements (_brokers b2) !! p) as [brk|] eqn:Ep; [|done]. intros ->%result_state. split; [|done].
  apply root_ok_outputs. destruct Hb1 as [Hr Hc Hh He Hreg]. constructor; try done.
  unfold small. change (brk_count (b2 <| routing_table ::= _ |>)) with (brk_count b2). rewrite Hl, length_alter.
  intros Hs. destruct (Hreg Hs) as [Hfe Hbr Hfr Hbrt Ht].
  rewrite Hl, list_lookup_alter, decide_True in Ep by done.
  destruct (dv_elements (_brokers b1) !! p) as [brk0|] eqn:Ep0; [|done]. simplify_eq/=.
  apply (ix_id _ _ _ _ Hbr) in Ep0 as Hid. apply lookup_lt_Some in Ep0 as Hlt.
  constructor; simpl; try done.
  - by apply indexed_modify.
  - intros q fed Hq. rewrite lookup_insert_ne; [by apply Hfr|]. rewrite Hid. apply lookup_lt_Some in Hq.
    unfold global_federate_id_shift, global_broker_id_shift, small in *. simpl in *. lia.
  - intros q brk. rewrite dv_modify_elements, list_lookup_alter. rewrite Hid. case_decide as Hq.
    + subst q. rewrite Ep0. intros [= <-]. by rewrite lookup_insert_eq.
    + intros Hq'. rewrite lookup_insert_ne by lia. by apply Hbrt.
  - intros i. rewrite dv_modify_elements, length_alter, Hid. intros [x Hx].
    apply lookup_insert_Some in Hx as [[<- _]|[_ Hx]]; [right; by exists p|]. apply Ht. by exists x.
Qed.

Lemma cmd_reg_broker_root m :
  messageAction m = cmd_reg_broker -> preserves root_ok (cmd_reg_broker_case (C := C) m).
Proof.
  intros Ha. unfold cmd_reg_broker_case. cbv [bind_first]. intros b a b' Hb. unfold mbind at 1, M_bind at 1, gets at 1.
  case_if; [apply keep_early_root; [split; congruence|done]|].
  match goal with |- context [match ?x with Some _ => _ | None => _ end] => destruct x as [p|] end;
    [by apply resend_broker_root|].
  case_if; [by apply refuse_broker_root|].
  unfold mbind, M_bind. rewrite init_not_ready_eq. set (b1 := b <| outputs ::= _ |>).
  assert (Hb1 : root_ok b1) by by apply root_ok_outputs.
  destruct (dv_find_name (name m) (_brokers b1)) as [p|] eqn:E.
  - unfold register_broker, insert_broker. cbv [bind_first mbind M_bind]. rewrite (dv_insert_dup _ _ _ _ _ E).
    apply refuse_broker_root. apply (root_ok_frame b1); try done. exact (rk_early b1 Hb1).
  - destruct (register_broker_root m b1 (rk_isRootc b1 Hb1) E) as (c & Hg & Heq). rewrite Heq.
    intros ->%result_state. split; [|done]. apply (root_add_broker b1); try done.
    unfold new_brk, broker_route. by destruct (no_source m).
Qed.

Lemma priority_command_root m :
  from_below m ->
  preserves root_ok (priority_command (C := C) fmt_format generateLocalAddressString iterate m).
Proof.
  intros Hm. destruct (registers (messageAction m)) eqn:E;
    [|by apply (priority_command_stable _ _ _ root_ok)].
  unfold priority_command. destruct (messageAction m) eqn:Ea; try discriminate E.
  all: first [ by apply cmd_reg_fed_root | by apply cmd_reg_broker_root | by destruct Hm as [Hm1 Hm2]; rewrite Ea in * | idtac ].
  apply (cmd_broker_query_case_stable _ _ root_ok). by apply keep_early_root.
Qed.

Lemma processCommand_root now m : preserves root_ok (processCommand (C := C) fmt_format now m).
Proof. apply (processCommand_stable _ root_ok). Qed.

Lemma processPriorityCommand_root now m :
  from_below m ->
  preserves root_ok (processPriorityCommand (C := C) fmt_format generateLocalAddressString iterate now m).
Proof.
  intros Hm. unfold processPriorityCommand, cmd_broker_setup_case.
  walk_step; try by apply priority_command_root. cbv [bind_first].
  walk_step.
  - apply preserves_modifies. intros b Hb. pose proof Hb as [Hr Hc _ He _].
    apply (root_ok_frame b); try done. simpl. congruence.
  - apply preserves_bind_gets. intros b Hb. walk_step.
    + walk_step. unfold early_message. pose proof (rk_early b Hb) as He. rewrite Forall_forall in He.
      case_if; [|apply processCommand_root].
      destruct (messageAction a0); try (apply priority_command_root; by apply He). apply preserves_deref.
    + apply preserves_modifies. intros b1 Hb1. by apply (root_ok_frame b1).
Qed.

Lemma new_broker_root name : root_ok (new_broker (C := C) name true).
Proof.
  constructor; try done. intros _. constructor; simpl.
  - apply indexed_empty.
  - apply indexed_empty.
  - intros p fed. by rewrite dv_elements_empty.
  - intros p brk. by rewrite dv_elements_empty.
  - intros i. rewrite lookup_empty. by intros [].
Qed.
End Commands.
