(* ===== verification/BrokerSpec.v ===== *)
(** * What a broker guarantees

    The properties of a broker as a whole: the routes it uses, the identifiers
    a root broker gives, and the directory that its registrations implement. *)

From S2P Require Import Prelude BrokerBase StateMonad HTime Identifiers DualVector JsonBuilder TimeDependencies TimeCoordinator ForwardingTimeCoordinator HandleManager UnknownHandleManager CoreTypes CoreBroker BrokerInterfaces BrokerControl BrokerQueries BrokerCommands BrokerFacts BrokerStable BrokerRoutes BrokerRegistry Wire ActionMessage.
Import FedInfo (BasicFedInfo) BrkInfo (BasicBrokerInfo) Brk Links Control Queries Commands.

(** ** An example

    A root broker to which a core and then a federate of that core register;
    the container and the JSON library are the simple ones. *)

Module Example.
Abbreviation format := (fun (f : string) (_ : list string) => f).
Abbreviation walk_table := (fun m : gmap string string => map_to_list m).

Definition reg_core : ActionMessage :=
  setActionFlag core_flag
    (setStringData ["tcp://core"] (newMessage cmd_reg_broker <| source_id := GlobalFedId.invalid |>
                                                           <| payload := "core_A" |>)).
Definition reg_fed (n : string) : ActionMessage :=
  newMessage cmd_reg_fed <| source_id := global_broker_id_shift |> <| payload := n |>.

Abbreviation run cmds := (@queueProcessingLoop x86_64 ListVector.t _ TextJson.text_json format "tcp://root" walk_table 1
    ((fun m => (0, m)) <$> cmds) 0 (new_broker "root" true)).

Definition started : list ActionMessage := [newMessage cmd_broker_setup; reg_core; reg_fed "fed_1"].
Definition sent_count {A} (o : option (A * @CoreBroker ListVector.t TextJson.text_json)) : option nat :=
  (fun r => length (outputs (snd r))) <$> o.
End Example.

(** ** Routes *)

Section Routes.
Context `{Platform} {C : Type -> Type} `{DualVectorLaws C} `{JsonLib}.
Context (fmt_format : string -> list string -> string) (addr : string).
Context (iterate : gmap string string -> list (string * string)).

(** C16: A broker, root or not, whatever commands its queue delivers, never
    transmits on a route it has not opened: each message it has sent went to its
    parent, or on a route whose opening is earlier in the trace of its
    outputs.  This covers the routes it gives to brokers, copies to the
    federates and brokers behind them, keeps in its table, renews on a repeated
    registration, and uses for refusals. *)
Theorem messages_on_open_routes name root depth commands n a (b : CoreBroker C) :
  queueProcessingLoop fmt_format addr iterate depth commands n (new_broker name root) = Some (a, b) ->
  well_routed (outputs b).
Proof.
  intros Hrun. eapply ro_sent.
  eapply (preserves_inv (routed (C := C))); [|apply new_broker_routed|exact Hrun].
  apply broker_queue_keeps.
  - apply processCommand_routed.
  - apply processPriorityCommand_routed.
  - apply preserves_routed. intros K. apply (processDisconnect_skip_stable (routes_ok K)).
Qed.
End Routes.

Lemma messages_on_open_routes_witness :
  match Example.run Example.started with
  | Some (_, b) => length (outputs b) = 3%nat /\ well_routed (outputs b)
  | None => False
  end.
Proof.
  assert (Hlen : Example.sent_count (Example.run Example.started) = Some 3%nat) by (lazy; reflexivity).
  destruct (Example.run Example.started) as [[a b]|] eqn:E; [|discriminate Hlen].
  split; [injection Hlen as Hlen; exact Hlen|]. exact (messages_on_open_routes _ _ _ _ _ _ _ _ a b E).
Defined.

(** ** The registry of the root *)

Section Root.
Context `{Platform} {C : Type -> Type} `{DualVectorLaws C} `{JsonLib}.
Context (fmt_format : string -> list string -> string) (addr : string).
Context (iterate : gmap string string -> list (string * string)).
Implicit Types (b : CoreBroker C) (m : ActionMessage).

(** The states of a root broker: it connects, processes the commands that
    other parts of the federation send to it, and ends. *)
Inductive root_reachable (name : string) : CoreBroker C -> Prop :=
  | root_start : root_reachable name (setAsRoot (new_broker name true))
  | root_connect b res a b' :
      root_reachable name b -> connect addr res b = Some (a, b') -> root_reachable name b'
  | root_command b now m b' :
      root_reachable name b -> processCommand fmt_format now m b = Some (tt, b') -> root_reachable name b'
  | root_priority b now m b' :
      root_reachable name b -> from_below m ->
      processPriorityCommand fmt_format addr iterate now m b = Some (tt, b') -> root_reachable name b'
  | root_end b skip b' :
      root_reachable name b -> processDisconnect_skip skip b = Some (tt, b') -> root_reachable name b'.

Lemma root_reachable_ok name b : root_reachable name b -> root_ok b.
Proof.
  induction 1 as [|b res a b' _ IH Hs|b now m b' _ IH Hs|b now m b' _ IH Hm Hs|b s b' _ IH Hs].
  - apply (root_ok_frame (new_broker name true)); try done. apply new_broker_root.
  - exact (preserves_inv _ _ _ _ _ (connect_stable addr root_ok res) IH Hs).
  - exact (preserves_inv _ _ _ _ _ (processCommand_root fmt_format now m) IH Hs).
  - exact (preserves_inv _ _ _ _ _ (processPriorityCommand_root fmt_format addr iterate now m Hm) IH Hs).
  - exact (preserves_inv _ _ _ _ _ (processDisconnect_skip_stable root_ok s) IH Hs).
Qed.

(** Several priority commands in a row. *)
Fixpoint run_priority (commands : list ActionMessage) b : option (CoreBroker C) :=
  match commands with
  | [] => Some b
  | m :: commands' =>
      match processPriorityCommand fmt_format addr iterate 0 m b with
      | Some (_, b') => run_priority commands' b'
      | None => None
      end
  end.

Lemma run_priority_reachable name commands : forall b b',
  Forall from_below commands -> root_reachable name b -> run_priority commands b = Some b' ->
  root_reachable name b'.
Proof.
  induction commands as [|m commands IH]; intros b b' Hm Hb; cbn [run_priority]; [by intros [= <-]|].
  apply Forall_cons in Hm as [Hm Hms].
  destruct (processPriorityCommand fmt_format addr iterate 0 m b) as [[[] b1]|] eqn:E; [|done].
  apply IH; [done|]. exact (root_priority name b 0 m b1 Hb Hm E).
Qed.

(** Positions, names and identifiers determine each other. *)
Lemma indexed_names {V} (nm : V -> string) (gid : V -> Z) shift (c : C V) :
  indexed nm gid shift c -> NoDup (nm <$> dv_elements c).
Proof.
  intros Hi. apply NoDup_alt. intros p q n. rewrite !list_lookup_fmap.
  destruct (dv_elements c !! p) as [v|] eqn:Ep; [|done]. destruct (dv_elements c !! q) as [w|] eqn:Eq; [|done].
  simpl. intros [= <-] [= Hw].
  assert (dv_find_name (nm v) c = Some p) by (apply (ix_name _ _ _ _ Hi); eauto).
  assert (dv_find_name (nm v) c = Some q) by (apply (ix_name _ _ _ _ Hi); eauto). congruence.
Qed.

(** C12: What a root broker knows of its federation stays consistent through
    every command that the parts below can send, registrations that are
    repeated, refused or too early included.  As long as there are fewer than
    2^28 parts, names are unique, the federate and the broker registered at
    position [p] have the identifiers [p + 0x20000] and [p + 0x70000000], the
    search by identifier finds them, and the route to an identifier is the route
    of the part that has it. *)
Theorem root_registry_consistent name b :
  root_reachable name b -> small b ->
  NoDup (FedInfo.name <$> dv_elements (_federates b)) /\
  NoDup (BrkInfo.name <$> dv_elements (_brokers b)) /\
  (forall p fed, dv_elements (_federates b) !! p = Some fed ->
     FedInfo.global_id fed = Z.of_nat p + global_federate_id_shift /\
     dv_get_id (FedInfo.global_id fed) (_federates b) = Some fed /\
     getRoute_of (FedInfo.global_id fed) b = FedInfo.route fed) /\
  (forall p brk, dv_elements (_brokers b) !! p = Some brk ->
     BrkInfo.global_id brk = Z.of_nat p + global_broker_id_shift /\
     getBrokerById_of (BrkInfo.global_id brk) b = Some p /\
     getRoute_of (BrkInfo.global_id brk) b = BrkInfo.route brk).
Proof.
  intros Hr%root_reachable_ok Hs. destruct (rk_registry b Hr Hs) as [Hf Hb Hfr Hbr _].
  split_and!; [by apply (indexed_names _ _ _ _ Hf)|by apply (indexed_names _ _ _ _ Hb)|..].
  - intros p fed Hp. pose proof (ix_id _ _ _ _ Hf p fed Hp) as Hid.
    assert (Hlt : (p < fed_count b)%nat) by by eapply lookup_lt_Some. split_and!; [done|..].
    + unfold dv_get_id. by rewrite (proj2 (ix_find _ _ _ _ Hf _ p)).
    + unfold getRoute_of. rewrite Hid, (rk_higher b Hr), (Hfr p fed Hp).
      unfold parent_broker_id, global_federate_id_shift. by destruct (Z.eqb_spec (Z.of_nat p + 0x20000) 0); [lia|].
  - intros p brk Hp. pose proof (ix_id _ _ _ _ Hb p brk Hp) as Hid.
    assert (Hlt : (p < brk_count b)%nat) by by eapply lookup_lt_Some. split_and!; [done|..].
    + unfold getBrokerById_of, GlobalBrokerId.localIndex. rewrite (rk_isRootc b Hr), Hid.
      replace (Z.of_nat p + global_broker_id_shift - global_broker_id_shift) with (Z.of_nat p) by lia.
      destruct Hs as [_ Hs]. rewrite swrap_id by (unfold in_signed; lia). unfold isValidIndex.
      destruct (Z.leb_spec 0 (Z.of_nat p)), (Z.ltb_spec (Z.of_nat p) (Z.of_nat (brk_count b))); try lia.
      simpl. by rewrite Nat2Z.id.
    + unfold getRoute_of. rewrite Hid, (rk_higher b Hr), (Hbr p brk Hp).
      unfold parent_broker_id, global_broker_id_shift. by destruct (Z.eqb_spec (Z.of_nat p + 0x70000000) 0); [lia|].
Qed.
End Root.

Module Registered.
Abbreviation registered cmds := (@run_priority x86_64 ListVector.t _ TextJson.text_json Example.format "tcp://root"
  Example.walk_table cmds (setAsRoot (new_broker "root" true))).
End Registered.

Lemma root_registry_consistent_witness :
  match Registered.registered Example.started with
  | Some b => dv_size (_federates b) = 1 /\ NoDup (FedInfo.name <$> dv_elements (_federates b))
  | None => False
  end.
Proof.
  assert (Hc : (fun b => (fed_count b, brk_count b)) <$> Registered.registered Example.started = Some (1, 1)%nat)
    by (lazy; reflexivity).
  destruct (Registered.registered Example.started) as [b|] eqn:E; [|discriminate Hc].
  assert (Hcount : fed_count b = 1%nat /\ brk_count b = 1%nat) by (injection Hc as Hf Hb; split; [exact Hf|exact Hb]).
  destruct Hcount as [Hf Hb]. split; [unfold dv_size; by rewrite Hf|].
  refine (proj1 (root_registry_consistent (H := x86_64) Example.format "tcp://root" Example.walk_table "root" b _ _)).
  - refine (run_priority_reachable _ _ _ _ _ _ _ _ (root_start _ _ _ _) E). repeat constructor; discriminate.
  - split; [rewrite Hf|rewrite Hb]; lia.
Defined.

(** ** The directory of federates

    What a root broker promises to those who register: a list of names in the
    order of registration, each name once, open until the federation starts. *)
Module Directory.
Inductive answer := Accepted (index : nat) | Refused (code : Z).

Definition register (is_open : bool) (name : string) (names : list string) : answer * list string :=
  if negb is_open then (Refused 5, names)
  else if decide (name ∈ names) then (Refused 6, names)
  else (Accepted (length names), names ++ [name]).
End Directory.

Section Directory.
Context `{Platform} {C : Type -> Type} `{DualVectorLaws C} `{JsonLib}.
Context (fmt_format : string -> list string -> string) (addr : string).
Context (iterate : gmap string string -> list (string * string)).
Implicit Types (b : CoreBroker C) (m : ActionMessage).

(** the directory of a broker, and the message that tells an answer *)
Definition names_of_federates b : list string := FedInfo.name <$> dv_elements (_federates b).

Definition answer_message (local : global_broker_id) (n : string) (a : Directory.answer) : ActionMessage :=
  match a with
  | Directory.Accepted i =>
      newMessage cmd_fed_ack <| source_id := local |> <| dest_id := Z.of_nat i + global_federate_id_shift |>
        <| payload := n |>
  | Directory.Refused code =>
      setActionFlag error_flag (newMessage cmd_fed_ack) <| source_id := local |> <| messageID := code |>
        <| payload := n |>
  end.

Lemma indexed_find_none b n :
  federates_indexed (_federates b) -> dv_find_name n (_federates b) = None <-> n ∉ names_of_federates b.
Proof.
  intros Hi. rewrite eq_None_not_Some. unfold names_of_federates. rewrite list_elem_of_fmap. split; intros Hn.
  - intros (fed & -> & Hin). apply Hn. apply list_elem_of_lookup_1 in Hin as [p Hp].
    exists p. apply (ix_name _ _ _ _ Hi). eauto.
  - intros [p Hp]. apply (ix_name _ _ _ _ Hi) in Hp as (fed & Hp & <-). apply Hn. exists fed.
    split; [done|]. by eapply list_elem_of_lookup_2.
Qed.

(** C13: Registering a federate with the root broker implements the directory:
    from any reachable state that has been set up, the registration is processed
    without fault, the names afterwards are those of the abstract operation, and
    the last thing sent is its answer, on the route to the one who asked: the
    identifier [0x20000] plus the position of the name, or a refusal with code 6
    when the name is taken and 5 when the federation runs. *)
Theorem registration_refines_directory rname b now m :
  root_reachable fmt_format addr iterate rname b -> Z.of_nat (fed_count b) < 2 ^ 28 ->
  Z.of_nat (brk_count b) < 2 ^ 28 -> connectionEstablished b = true -> messageAction m = cmd_reg_fed ->
  let '(answer, names) := Directory.register (bool_decide (brokerState b <> BState.operating)) (name m)
                            (names_of_federates b) in
  exists b' notices,
    processPriorityCommand fmt_format addr iterate now m b = Some (tt, b') /\
    names_of_federates b' = names /\
    outputs b' = outputs b ++ notices ++
      [Transmit (getRoute_of (source_id m) b) (answer_message (global_broker_id_local b) (name m) answer)].
Proof.
  intros Hr%root_reachable_ok Hf Hb Hc Ha. assert (Hs : small b) by (split; lia).
  pose proof (rr_federates b (rk_registry b Hr Hs)) as Hi. unfold Directory.register.
  unfold processPriorityCommand. rewrite Ha. unfold priority_command. rewrite Ha.
  unfold cmd_reg_fed_case. cbv [bind_first]. unfold mbind, M_bind, gets. rewrite Hc. cbn [negb].
  case_bool_decide as Hst; cbn [negb]; [|rewrite bool_decide_true by done].
  - rewrite bool_decide_false by done. rewrite init_not_ready_eq. set (b1 := b <| outputs ::= _ |>).
    change (_federates b) with (_federates b1).
    destruct (decide (name m ∈ names_of_federates b)) as [Hin|Hnin].
    + destruct (dv_find_name (name m) (_federates b1)) eqn:E.
      * exists (b1 <| outputs ::= fun l => l ++ [Transmit (getRoute_of (source_id m) b)
          (refusal cmd_fed_ack (global_broker_id_local b) 6 m)] |>), (ready_notice b).
        split_and!; [done..|]. simpl. by rewrite <- app_assoc.
      * by apply (indexed_find_none b (name m) Hi) in E.
    + apply (indexed_find_none b (name m) Hi) in Hnin. change (_federates b) with (_federates b1) in Hnin. rewrite Hnin.
      destruct (register_federate_root m b1 (rk_isRootc b Hr) Hnin) as (c & Hg & Heq).
      eexists _, (ready_notice b). split; [exact Heq|]. split.
      * unfold names_of_federates. simpl. rewrite dv_term_at_elements, (gr_elements _ _ _ _ Hg), fmap_app. done.
      * simpl. rewrite <- app_assoc. do 3 f_equal. unfold fed_ack, answer_message. do 2 f_equal.
        unfold names_of_federates. rewrite length_fmap, next_fed_id_small by (simpl; lia). done.
  - eexists _, []. split_and!; done.
Qed.
End Directory.


Lemma registration_refines_directory_witness :
  match Registered.registered [newMessage cmd_broker_setup; Example.reg_core] with
  | Some b => exists b',
      processPriorityCommand (H := x86_64) Example.format "tcp://root" Example.walk_table 0
        (Example.reg_fed "fed_1") b = Some (tt, b') /\ names_of_federates b' = ["fed_1"]%string
  | None => False
  end.
Proof.
  assert (Hc : (fun b => (fed_count b, brk_count b, connectionEstablished b, brokerState b, names_of_federates b))
                 <$> Registered.registered [newMessage cmd_broker_setup; Example.reg_core] =
               Some (0%nat, 1%nat, true, BState.configured, [])) by (lazy; reflexivity).
  destruct (Registered.registered [newMessage cmd_broker_setup; Example.reg_core]) as [b|] eqn:E; [|discriminate Hc].
  assert (Hb : root_reachable (H := x86_64) Example.format "tcp://root" Example.walk_table "root" b).
  { refine (run_priority_reachable _ _ _ _ _ _ _ _ (root_start _ _ _ _) E). repeat constructor; discriminate. }
  assert (Hcount : fed_count b = 0%nat /\ brk_count b = 1%nat /\ connectionEstablished b = true /\
                   brokerState b = BState.configured /\ names_of_federates b = []).
  { cbn [fmap option_fmap option_map] in Hc. apply (inj Some) in Hc.
    repeat split; [exact (f_equal (fun x => fst (fst (fst (fst x)))) Hc)|exact (f_equal (fun x => snd (fst (fst (fst x)))) Hc)
      |exact (f_equal (fun x => snd (fst (fst x))) Hc)|exact (f_equal (fun x => snd (fst x)) Hc)|exact (f_equal snd Hc)]. }
  destruct Hcount as (H1 & H2 & H3 & H4 & H5).
  pose proof (registration_refines_directory _ _ _ _ b 0 (Example.reg_fed "fed_1") Hb ltac:(rewrite H1; lia)
                ltac:(rewrite H2; lia) H3 eq_refl) as Ht.
  rewrite H4, H5 in Ht. destruct Ht as (b' & notices & Hp & Hn & _). exists b'. split; [exact Hp|exact Hn].
Defined.
