(* ===== verification/BrokerLinks.v ===== *)
(** * Links between interfaces

    A publication and a subscription to it may reach the root broker in either
    order, and the two sides are told of each other all the same. *)

From S2P Require Import Prelude BrokerBase StateMonad HTime Identifiers DualVector JsonBuilder TimeDependencies TimeCoordinator ForwardingTimeCoordinator HandleManager UnknownHandleManager CoreTypes CoreBroker BrokerInterfaces BrokerControl BrokerQueries BrokerCommands BrokerFacts BrokerSpec Wire ActionMessage.
Import Basic (BasicHandleInfo) Kind (handle_type) FedInfo (BasicFedInfo) BrkInfo (BasicBrokerInfo) Brk Links Control Queries Commands.

(** Keys that are not in a multimap. *)
Lemma getTargets_nil {V} (mm : multimap V) k : getTargets mm k = [] -> mm_erase k mm = mm.
Proof.
  unfold getTargets, mm_erase. intros Hn. apply fmap_nil_inv in Hn.
  induction mm as [|kv mm IH]; [done|]. rewrite filter_cons in Hn |- *.
  destruct (decide (fst kv = k)) as [|Hk]; [done|]. rewrite decide_True by done. f_equal. auto.
Qed.

Lemma getTargets_app {V} (mm mm' : multimap V) k : getTargets (mm ++ mm') k = getTargets mm k ++ getTargets mm' k.
Proof. unfold getTargets. by rewrite filter_app, fmap_app. Qed.

Lemma mm_erase_app {V} (mm mm' : multimap V) k : mm_erase k (mm ++ mm') = mm_erase k mm ++ mm_erase k mm'.
Proof. apply filter_app. Qed.

Section Links.
Context `{Platform} {C : Type -> Type} `{DualVectorLaws C} `{JsonLib}.
Context (fmt_format : string -> list string -> string).
Implicit Types (b : CoreBroker C) (m : ActionMessage).

Definition sending (l : list broker_event) b : CoreBroker C := b <| outputs ::= fun l' => l' ++ l |>.

Lemma outputs_twice b l1 l2 : sending l2 (sending l1 b) = sending (l1 ++ l2) b.
Proof. unfold sending. destruct b. cbn. by rewrite <- app_assoc. Qed.

Lemma routeMessage_eq m b :
  routeMessage m b = Some (tt, sending [Transmit (getRoute_of (dest_id m) b) m] b).
Proof.
  unfold routeMessage, getRoute. cbv [bind_first gets mbind M_bind]. unfold getRoute_of.
  destruct ((dest_id m =? parent_broker_id) || (dest_id m =? higher_broker_id b)) eqn:E; [done|].
  cbv beta. rewrite E. done.
Qed.

Lemma transmit_routed_eq m b :
  transmit_routed m b = Some (tt, sending [Transmit (getRoute_of (dest_id m) b) m] b).
Proof. done. Qed.

(** ** The registry after a registration *)

Definition added_handle (what : handle_type) m b : BasicHandleInfo :=
  local_info b m (Basic.new_handle (source_id m) (source_handle m) what (name m) (getString 0 m) (getString 1 m)).

Definition added_handles (what : handle_type) m b : HandleManager :=
  let hm := snd (addHandle_with (source_id m) (source_handle m) what (name m) (getString 0 m) (getString 1 m) (handles b)) in
  hm <| HandleManager.handles ::= alter (fun _ => added_handle what m b) (pred (length (HandleManager.handles hm))) |>.

Lemma add_handle_eq what m b :
  name m <> "" ->
  add_handle what (name m) (getString 0 m) (getString 1 m) m b =
    Some (added_handle what m b, b <| handles := added_handles what m b |>).
Proof.
  intros Hn. unfold add_handle, added_handles, added_handle, addHandle_with, act_key.
  rewrite bool_decide_true by done. done.
Qed.

Lemma added_publication_found m b :
  name m <> "" -> publications (handles b) !! name m = None ->
  Z.of_nat (length (HandleManager.handles (handles b))) < 2 ^ 31 ->
  getPublication (name m) (added_handles Kind.publication m b) = Some (added_handle Kind.publication m b).
Proof.
  intros Hne Hno Hsmall. unfold added_handles, addHandle_with, act_key. rewrite bool_decide_true by done.
  set (h := Basic.new_handle _ _ _ _ _ _). cbn [snd].
  unfold getPublication, addSearchFields. cbn [Basic.handleType h Basic.new_handle].
  cbn -[emplace next_index swrap].
  assert (He : emplace (name m) (next_index (handles b)) (publications (handles b)) =
               <[name m := next_index (handles b)]> (publications (handles b))) by (unfold emplace; by rewrite Hno).
  rewrite He, lookup_insert_eq. cbn -[emplace next_index swrap]. unfold at_index, next_index.
  rewrite swrap_id by (unfold in_signed; lia). rewrite Nat2Z.id. cbn -[emplace swrap].
  rewrite length_app, Nat.add_1_r. cbn [pred].
  rewrite list_lookup_alter, decide_True by done. by rewrite list_lookup_middle.
Qed.

Lemma getPublication_none k b : publications (handles b) !! k = None -> getPublication k (handles b) = None.
Proof. intros Hn. unfold getPublication. by rewrite Hn. Qed.

Lemma added_handle_key what m b :
  Basic.key (added_handle what m b) = name m /\ Basic.handle (added_handle what m b) = getSource m /\
  Basic.type (added_handle what m b) = getString 0 m /\ Basic.units (added_handle what m b) = getString 1 m /\
  Basic.flags (added_handle what m b) = flags m.
Proof. unfold added_handle, local_info. by destruct (global_id_translation b !! source_id m). Qed.

(** ** The four cases *)

(** A publication that nobody waits for. *)
Lemma addPublication_alone m b :
  isRootc b = true -> name m <> "" -> publications (handles b) !! name m = None ->
  checkForPublications (name m) (unknownHandles b) = [] -> checkForLinks (name m) (unknownHandles b) = [] ->
  addPublication m b = Some (tt, b <| handles := added_handles Kind.publication m b |>).
Proof.
  intros Hr Hne Hno Hp Hl. unfold addPublication, find_publication. cbv [bind_first gets mbind M_bind].
  rewrite (getPublication_none _ _ Hno), (add_handle_eq Kind.publication m b Hne). set (b1 := b <| handles := _ |>).
  change (isRootc b1) with (isRootc b). rewrite Hr. cbn [negb].
  unfold FindandNotifyPublicationTargets. cbv [bind_first gets mbind M_bind].
  destruct (added_handle_key Kind.publication m b) as (-> & _).
  change (unknownHandles b1) with (unknownHandles b). rewrite Hp. cbn [for_each].
  unfold skip, mret, M_ret. cbv beta iota. change (unknownHandles b1) with (unknownHandles b). by rewrite Hl.
Qed.

(** the notices that the code sends for a link, to the publisher and to the
    subscriber, with what is left to the caller *)
Definition link_notices (pub : BasicHandleInfo) (first second : ActionMessage) b : list broker_event :=
  [Transmit (getRoute_of (fed_id (Basic.handle pub)) b) first;
   Transmit (getRoute_of (dest_id second) b) second].

(** A subscription to a publication that is there. *)
Definition found_first (pub : BasicHandleInfo) m : ActionMessage :=
  setDestination (Basic.handle pub) (setAction cmd_add_subscriber m) <| payload := "" |>.
Definition found_second (pub : BasicHandleInfo) m : ActionMessage :=
  setStringData [Basic.type pub; Basic.units pub]
    (swapSourceDest (setAction cmd_add_publisher (found_first pub m))).

Lemma subscription_found pub fed m b :
  messageAction m = cmd_add_named_publication -> getPublication (name m) (handles b) = Some pub ->
  dv_get_id (Basic.getFederateId pub) (_federates b) = Some fed -> FedInfo.isDisconnected fed = false ->
  checkForNamedInterface m b =
    Some (tt, sending (link_notices pub (found_first pub m) (found_second pub m) b) b).
Proof.
  intros Ha Hp Hf Hd. apply bind_Some in Hf as (p & Hfind & Hfed).
  unfold checkForNamedInterface. rewrite Ha. unfold named_publication, find_publication, federate_gone, federate_at.
  cbv [bind_first gets mbind M_bind deref]. rewrite Hp. cbv beta iota. rewrite Hfind, Hfed. cbn [mret M_ret].
  unfold mret, M_ret. cbv beta iota. rewrite Hd. cbn [negb]. fold (found_first pub m).
  rewrite routeMessage_eq. fold (found_second pub m). rewrite routeMessage_eq.
  cbv beta iota. transitivity (Some (tt, sending [Transmit (getRoute_of (dest_id (found_second pub m)) b) (found_second pub m)]
    (sending [Transmit (getRoute_of (fed_id (Basic.handle pub)) b) (found_first pub m)] b))); [done|].
  by rewrite outputs_twice.
Qed.

(** A subscription to a publication that is not there. *)
Definition waiting_for m b : CoreBroker C :=
  b <| unknownHandles ::= addUnknownPublication (name m) (getSource m) (flags m) |>.

Lemma subscription_unknown m b :
  messageAction m = cmd_add_named_publication -> isRootc b = true ->
  publications (handles b) !! name m = None ->
  checkForNamedInterface m b = Some (tt, waiting_for m b).
Proof.
  intros Ha Hr Hno. unfold checkForNamedInterface, keep_unknown. rewrite Ha.
  unfold named_publication, find_publication. cbv [bind_first gets mbind M_bind].
  rewrite (getPublication_none _ _ Hno). unfold mret, M_ret. cbv beta iota. by rewrite Hr.
Qed.

(** A publication for which one subscription waits. *)
Definition late_first (pub : BasicHandleInfo) (sub : targetInfo) : ActionMessage :=
  setDestination (Basic.handle pub) (setSource (fst sub) (newMessage cmd_add_subscriber)) <| flags := snd sub |>.
Definition late_second (pub : BasicHandleInfo) (sub : targetInfo) : ActionMessage :=
  setStringData [Basic.type pub; Basic.units pub]
    (setSource (Basic.handle pub) (setDestination (fst sub) (setAction cmd_add_publisher (late_first pub sub)))
       <| payload := Basic.type pub |> <| flags := Basic.flags pub |>).

Lemma addPublication_awaited m sub b :
  isRootc b = true -> name m <> "" -> publications (handles b) !! name m = None ->
  checkForPublications (name m) (unknownHandles b) = [sub] -> checkForLinks (name m) (unknownHandles b) = [] ->
  let pub := added_handle Kind.publication m b in
  addPublication m b =
    Some (tt, sending (link_notices pub (late_first pub sub) (late_second pub sub) b)
                (b <| handles := added_handles Kind.publication m b |>)
                <| unknownHandles ::= clearPublication (name m) |>).
Proof.
  intros Hr Hne Hno Hp Hl pub. unfold addPublication, find_publication. cbv [bind_first gets mbind M_bind].
  rewrite (getPublication_none _ _ Hno), (add_handle_eq Kind.publication m b Hne). fold pub.
  set (b1 := b <| handles := _ |>). change (isRootc b1) with (isRootc b). rewrite Hr. cbn [negb].
  unfold FindandNotifyPublicationTargets. cbv [bind_first gets mbind M_bind].
  destruct (added_handle_key Kind.publication m b) as (Hk & _). fold pub in Hk. rewrite Hk.
  change (unknownHandles b1) with (unknownHandles b). rewrite Hp. cbn [for_each]. unfold mbind, M_bind. cbv beta.
  rewrite transmit_routed_eq. cbv beta iota. rewrite transmit_routed_eq. cbv beta iota.
  set (b2 := sending _ (sending _ b1)).
  assert (Hb2 : b2 = sending (link_notices pub (late_first pub sub) (late_second pub sub) b) b1)
    by (unfold b2; rewrite outputs_twice; done).
  unfold skip, mret, M_ret. cbv beta iota. change (unknownHandles b2) with (unknownHandles b). rewrite Hl.
  cbn [for_each nonempty orb when]. unfold skip, mret, M_ret, set_unknown, modifies. cbv beta iota.
  by rewrite Hb2.
Qed.

(** ** Both orders *)

(** The publisher is told of its subscriber, and the subscriber of its
    publisher with the type and the units of what it publishes. *)
Definition told pub_m sub_m b (l : list broker_event) : Prop :=
  exists first second,
    l = [Transmit (getRoute_of (source_id pub_m) b) first; Transmit (getRoute_of (source_id sub_m) b) second] /\
    messageAction first = cmd_add_subscriber /\ getSource first = getSource sub_m /\
    getDest first = getSource pub_m /\
    messageAction second = cmd_add_publisher /\ getSource second = getSource pub_m /\
    getDest second = getSource sub_m /\ stringData second = [getString 0 pub_m; getString 1 pub_m].

Lemma told_found pub_m sub_m b :
  let pub := added_handle Kind.publication pub_m b in
  told pub_m sub_m b (link_notices pub (found_first pub sub_m) (found_second pub sub_m) b).
Proof.
  intros pub. destruct (added_handle_key Kind.publication pub_m b) as (_ & Hh & Ht & Hu & _). fold pub in Hh, Ht, Hu.
  exists (found_first pub sub_m), (found_second pub sub_m). unfold link_notices, found_second, found_first.
  rewrite Hh, Ht, Hu. done.
Qed.

Lemma told_late pub_m sub_m b :
  let pub := added_handle Kind.publication pub_m b in
  let sub := (getSource sub_m, flags sub_m) in
  told pub_m sub_m b (link_notices pub (late_first pub sub) (late_second pub sub) b).
Proof.
  intros pub sub. destruct (added_handle_key Kind.publication pub_m b) as (_ & Hh & Ht & Hu & _).
  fold pub in Hh, Ht, Hu. exists (late_first pub sub), (late_second pub sub).
  unfold link_notices, late_second, late_first. rewrite Hh, Ht, Hu. done.
Qed.

(** C17: At the root broker a publication and a subscription to it by name may
    come in either order: both orders are processed without fault, tell the
    publisher and the subscriber of each other in the same way, and leave the
    same state behind, with no link left waiting. *)
Theorem link_order_irrelevant now pub_m sub_m fed b :
  isRootc b = true -> messageAction pub_m = cmd_reg_pub -> messageAction sub_m = cmd_add_named_publication ->
  name pub_m <> "" -> name sub_m = name pub_m -> publications (handles b) !! name pub_m = None ->
  Z.of_nat (length (HandleManager.handles (handles b))) < 2 ^ 31 ->
  checkForPublications (name pub_m) (unknownHandles b) = [] ->
  checkForLinks (name pub_m) (unknownHandles b) = [] ->
  dv_get_id (source_id pub_m) (_federates b) = Some fed -> FedInfo.isDisconnected fed = false ->
  exists b1 b1' b2 b2' l l',
    processCommand fmt_format now pub_m b = Some (tt, b1) /\
    processCommand fmt_format now sub_m b1 = Some (tt, b1') /\
    processCommand fmt_format now sub_m b = Some (tt, b2) /\
    processCommand fmt_format now pub_m b2 = Some (tt, b2') /\
    outputs b1' = outputs b ++ l /\ told pub_m sub_m b l /\
    outputs b2' = outputs b ++ l' /\ told pub_m sub_m b l' /\
    b1' <| outputs := [] |> = b2' <| outputs := [] |>.
Proof.
  intros Hr Hap Has Hne Hnm Hno Hsm Hp Hl Hf Hd. set (pub := added_handle Kind.publication pub_m b).
  set (b1 := b <| handles := added_handles Kind.publication pub_m b |>).
  set (sub := (getSource sub_m, flags sub_m)).
  destruct (added_handle_key Kind.publication pub_m b) as (_ & Hh & _). fold pub in Hh.
  assert (Hreg : forall b', isRootc b' = true -> processCommand fmt_format now pub_m b' = addPublication pub_m b').
  { intros b' Hr'. unfold processCommand. rewrite Hap. unfold here_or_pass.
    cbv [bind_first gets mbind M_bind]. by rewrite Hr'. }
  assert (Hsub : forall b', processCommand fmt_format now sub_m b' = checkForNamedInterface sub_m b')
    by (intros b'; unfold processCommand; by rewrite Has).
  exists b1, (sending (link_notices pub (found_first pub sub_m) (found_second pub sub_m) b1) b1),
    (waiting_for sub_m b),
    (sending (link_notices pub (late_first pub sub) (late_second pub sub) (waiting_for sub_m b))
       (waiting_for sub_m b <| handles := added_handles Kind.publication pub_m b |>)
       <| unknownHandles ::= clearPublication (name pub_m) |>),
    (link_notices pub (found_first pub sub_m) (found_second pub sub_m) b),
    (link_notices pub (late_first pub sub) (late_second pub sub) b).
  split_and!.
  - rewrite Hreg by done. by apply addPublication_alone.
  - rewrite Hsub. apply (subscription_found pub fed); [done|..|done].
    + rewrite Hnm. by apply added_publication_found.
    + unfold Basic.getFederateId. by rewrite Hh.
  - rewrite Hsub. apply subscription_unknown; [done..|by rewrite Hnm].
  - rewrite Hreg by done.
    apply (addPublication_awaited pub_m sub (waiting_for sub_m b)); [done..| |done].
    unfold checkForPublications, waiting_for, addUnknownPublication, mm_emplace. simpl.
    rewrite getTargets_app. unfold checkForPublications in Hp. rewrite Hp, Hnm. unfold getTargets.
    rewrite filter_cons, decide_True by done. done.
  - done.
  - apply told_found.
  - done.
  - apply told_late.
  - unfold waiting_for, addUnknownPublication, clearPublication, mm_emplace, sending.
    unfold checkForPublications in Hp. unfold checkForLinks in Hl.
    destruct b as [? ? ? ? ? ? ? ? ? ? ? ? ? ? ? ? ? ? ? ? ? ? ? um]. destruct um. cbn -[mm_erase getTargets added_handles] in *.
    rewrite mm_erase_app, (getTargets_nil _ _ Hp), (getTargets_nil _ _ Hl), Hnm. unfold mm_erase at 1.
    rewrite filter_cons, decide_False by (simpl; tauto). by rewrite filter_nil, app_nil_r.
Qed.
End Links.

(** ** An example *)
Module LinkExample.
Definition pub_m : ActionMessage :=
  setStringData ["double"; "V"] (newMessage cmd_reg_pub <| source_id := 0x20000 |> <| source_handle := 3 |>
                                                        <| payload := "fed_1/voltage" |>).
Definition sub_m : ActionMessage :=
  newMessage cmd_add_named_publication <| source_id := 0x20001 |> <| source_handle := 5 |>
    <| payload := "fed_1/voltage" |>.
End LinkExample.

Lemma link_order_irrelevant_witness :
  match Registered.registered (Example.started ++ [Example.reg_fed "fed_2"]) with
  | Some b => exists b1 b2,
      processCommand (H := x86_64) Example.format 0 LinkExample.pub_m b = Some (tt, b1) /\
      processCommand (H := x86_64) Example.format 0 LinkExample.sub_m b = Some (tt, b2)
  | None => False
  end.
Proof.
  assert (Hc : (fun b => (isRootc b, publications (handles b) !! name LinkExample.pub_m,
                  length (HandleManager.handles (handles b)), unknownHandles b,
                  FedInfo.isDisconnected <$> dv_get_id 0x20000 (_federates b)))
                 <$> Registered.registered (Example.started ++ [Example.reg_fed "fed_2"]) =
               Some (true, None, 0%nat, no_unknowns, Some false)) by (lazy; reflexivity).
  destruct (Registered.registered (Example.started ++ [Example.reg_fed "fed_2"])) as [b|]; [|discriminate Hc].
  cbn [fmap option_fmap option_map] in Hc. apply (inj Some) in Hc.
  pose proof (f_equal (fun x => fst (fst (fst (fst x)))) Hc) as H1.
  pose proof (f_equal (fun x => snd (fst (fst (fst x)))) Hc) as H2.
  pose proof (f_equal (fun x => snd (fst (fst x))) Hc) as H3.
  pose proof (f_equal (fun x => snd (fst x)) Hc) as H4. pose proof (f_equal snd Hc) as H5. cbv beta in *.
  cbn [fst snd] in *. destruct (dv_get_id 0x20000 (_federates b)) as [fed|] eqn:Ef; [|discriminate H5].
  apply (inj Some) in H5.
  destruct (link_order_irrelevant (H := x86_64) Example.format 0 LinkExample.pub_m LinkExample.sub_m fed b H1 eq_refl eq_refl
    ltac:(discriminate) eq_refl H2 ltac:(rewrite H3; lia) ltac:(rewrite H4; reflexivity)
    ltac:(rewrite H4; reflexivity) Ef H5) as (b1 & _ & b2 & _ & _ & _ & E1 & _ & E2 & _).
  exists b1, b2. split; [exact E1|exact E2].
Defined.
