(* ===== verification/BrokerLife.v ===== *)
(** * The life of a federation, as its root broker sees it

    The start, when everything below is ready; the end, when everything below
    has left; and the watch of a broker over the connection to its parent. *)

From Stdlib Require Import Ascii.
From S2P Require Import Prelude BrokerBase StateMonad HTime Identifiers DualVector JsonBuilder TimeDependencies TimeCoordinator ForwardingTimeCoordinator HandleManager UnknownHandleManager CoreTypes CoreBroker BrokerInterfaces BrokerControl BrokerQueries BrokerCommands BrokerFacts BrokerStable BrokerRegistry BrokerSpec BrokerLinks Wire ActionMessage.
Import Basic (BasicHandleInfo) Kind (handle_type) FedInfo (BasicFedInfo) BrkInfo (BasicBrokerInfo) Brk Links Control Queries Commands.

Definition stop : broker_event := Enqueue (newMessage cmd_stop).

Section Total.
Context `{Platform} {C : Type -> Type} `{DualVectorLaws C} `{JsonLib}.
Implicit Types (b : CoreBroker C) (I : CoreBroker C -> Prop).

(** ** Loops over the brokers *)

(** A loop over the brokers, when [I] fixes how many there are. *)
Lemma ensures_for_brokers I n (f : nat -> BasicBrokerInfo -> Brk.M C unit) :
  (forall b, I b -> brk_count b = n) -> (forall p brk, ensures I (f p brk)) -> ensures I (for_brokers f).
Proof.
  intros Hn Hf. unfold for_brokers. apply ensures_bind_gets. intros b Hb. rewrite (Hn b Hb).
  apply ensures_for_each. intros p Hp%elem_of_seq. intros b1 Hb1.
  destruct (lookup_lt_is_Some_2 (dv_elements (_brokers b1)) p) as [brk Hbrk]; [rewrite (Hn b1 Hb1); lia|].
  destruct (Hf p brk b1 Hb1) as (a & b2 & E & Hb2). exists a, b2. split; [|done].
  unfold broker_at, bind_first, gets, deref, mbind, M_bind. by rewrite Hbrk.
Qed.

(** ** Operations that leave the brokers alone *)

(** The registered brokers and what decides about them are as in [b0], and
    the outputs are those of [b0] and then some that are [ok]. *)
Record quiet (ok : broker_event -> Prop) (b0 b : CoreBroker C) : Prop := {
  qu_brokers : _brokers b = _brokers b0;
  qu_root : isRootc b = isRootc b0;
  qu_local : global_broker_id_local b = global_broker_id_local b0;
  qu_higher : higher_broker_id b = higher_broker_id b0;
  qu_state : brokerState b = brokerState b0;
  qu_outputs : exists l, outputs b = outputs b0 ++ l /\ Forall ok l;
}.

Implicit Types (ok : broker_event -> Prop).

Lemma quiet_refl ok b : quiet ok b b.
Proof. constructor; try done. exists []. by rewrite app_nil_r. Qed.

Lemma quiet_more ok b0 b l :
  quiet ok b0 b -> Forall ok l -> quiet ok b0 (b <| outputs ::= fun l' => l' ++ l |>).
Proof.
  intros [H1' H2' H3 H4 H5 (l0 & El & Hl0)] Hl. constructor; try done. exists (l0 ++ l). simpl.
  rewrite El, app_assoc. split; [done|]. by apply Forall_app.
Qed.

Lemma quiet_emit ok b0 e : ok e -> ensures (quiet ok b0) (emit e).
Proof. intros He. apply ensures_modifies. intros b Hb. apply quiet_more; [done|]. by constructor. Qed.

Lemma quiet_unknown ok b0 f : ensures (quiet ok b0) (set_unknown f).
Proof. apply ensures_modifies. intros b []. by constructor. Qed.

Lemma quiet_tc b0 {A} (op : ForwardingTimeCoordinator -> A * ForwardingTimeCoordinator) :
  ensures (quiet (fun _ => True) b0) (tc op).
Proof.
  intros b Hb. unfold tc. destruct (op _) as [a fc]. eexists a, _. split; [done|].
  apply (quiet_more _ _ (b <| timeCoord := fc <| sent := [] |> |>)); [|by apply Forall_true].
  destruct Hb. by constructor.
Qed.

Lemma quiet_for_brokers ok b0 f :
  (forall p brk, ensures (quiet ok b0) (f p brk)) -> ensures (quiet ok b0) (for_brokers f).
Proof. apply (ensures_for_brokers _ (brk_count b0)). intros b []. congruence. Qed.

Lemma quiet_broadcast ok b0 m : (forall r m', ok (Transmit r m')) -> ensures (quiet ok b0) (broadcast m).
Proof. intros Hok. apply quiet_for_brokers. intros p brk. apply ensures_when, quiet_emit. apply Hok. Qed.

(** What an operation that is quiet does from a state. *)
Lemma quiet_from {A} ok (m : Brk.M C A) b :
  ensures (quiet ok b) m -> exists a b', m b = Some (a, b') /\ quiet ok b b'.
Proof. intros Hm. apply (Hm b), quiet_refl. Qed.

Lemma quiet_weaken ok b b' : quiet ok b b' -> quiet (fun _ => True) b b'.
Proof.
  intros [H1' H2' H3 H4 H5 (l & El & _)]. constructor; try done. exists l. split; [done|]. by apply Forall_true.
Qed.

(** ** One broker leaves *)

Definition not_stop (e : broker_event) : Prop := e <> stop.
Definition leaves (brk : BasicBrokerInfo) : BasicBrokerInfo := brk <| BrkInfo.isDisconnected := true |>.
Definition acked (brk : BasicBrokerInfo) : BasicBrokerInfo := brk <| BrkInfo._sent_disconnect_ack := true |>.

Lemma disconnectBroker_runs p b :
  (p < brk_count b)%nat ->
  exists b', disconnectBroker p b = Some (tt, b') /\ quiet not_stop (b <| _brokers ::= dv_modify p leaves |>) b'.
Proof.
  intros Hp. set (b1 := b <| _brokers ::= dv_modify p leaves |>).
  destruct (lookup_lt_is_Some_2 (dv_elements (_brokers b1)) p) as [brk Hbrk].
  { simpl. by rewrite dv_modify_elements, length_alter. }
  set (m := (let* b := gets (fun b => b) in
    if BState.lt (brokerState b) BState.operating && isRootc b then
      broadcast (newMessage cmd_broadcast_disconnect <| source_id := BrkInfo.global_id brk |>);;
      set_unknown (clearFederateUnknowns (BrkInfo.global_id brk));;
      (if negb (BrkInfo._core brk) then
         for_brokers (fun _ subbrk =>
           when ((BrkInfo.parent subbrk =? BrkInfo.global_id brk) && BrkInfo._core subbrk)
             (set_unknown (clearFederateUnknowns (BrkInfo.global_id subbrk))))
       else skip)
    else skip) : Brk.M C unit).
  assert (Hm : disconnectBroker p b = m b1).
  { unfold disconnectBroker, m. cbv [bind_first gets set_broker modifies mbind M_bind]. fold leaves. fold b1.
    destruct (_ && _); [|done]. unfold broker_at. cbv [bind_first gets mbind M_bind deref]. by rewrite Hbrk. }
  rewrite Hm. destruct (quiet_from not_stop m b1) as ([] & b' & E & Hq); [|by exists b'].
  unfold m. cbv [bind_first]. apply ensures_bind_gets. intros b2 _. destruct (_ && _); [|apply ensures_ret].
  apply ensures_bind; [by apply quiet_broadcast|]. intros _. apply ensures_bind; [apply quiet_unknown|]. intros _.
  destruct (negb _); [|apply ensures_ret]. apply quiet_for_brokers. intros q sb. apply ensures_when, quiet_unknown.
Qed.

(** The broker at a position has left; everything else that decides about
    brokers is the same, and the stop is queued when nobody is left. *)
Record left_at (p : nat) (b b' : CoreBroker C) : Prop := {
  la_elements : dv_elements (_brokers b') = alter leaves p (dv_elements (_brokers b)) \/
                dv_elements (_brokers b') = alter (acked ∘ leaves) p (dv_elements (_brokers b));
  la_root : isRootc b' = isRootc b;
  la_local : global_broker_id_local b' = global_broker_id_local b;
  la_outputs : exists l, outputs b' = outputs b ++ l /\
                 if allDisconnected b' then stop ∈ l else Forall not_stop l;
}.

Lemma disconnect_ack_eq p brk b : exists r m,
  disconnect_ack p brk b = Some (tt, sending [Transmit r m] b <| _brokers ::= dv_modify p acked |>).
Proof. eexists _, _. reflexivity. Qed.

(** The acknowledgement does not count for who has left. *)
Lemma acked_status (l : list BasicBrokerInfo) p :
  forallb (fun brk => BrkInfo._nonLocal brk || BrkInfo.isDisconnected brk) (alter acked p l) =
  forallb (fun brk => BrkInfo._nonLocal brk || BrkInfo.isDisconnected brk) l.
Proof. revert p. induction l as [|brk l IH]; intros [|p]; try done. cbn. f_equal. apply IH. Qed.

Lemma alter_twice (l : list BasicBrokerInfo) p : alter acked p (alter leaves p l) = alter (acked ∘ leaves) p l.
Proof. revert p. induction l as [|brk l IH]; intros [|p]; try done. cbn. f_equal. apply IH. Qed.

(** *** The end of the operation, from the state where the broker has left *)

Lemma disconnect_last_runs p brk b1 b2 :
  quiet not_stop b1 b2 -> isRootc b1 = true -> allDisconnected b1 = true ->
  exists b3, disconnect_last (Some (p, brk)) b2 = Some (tt, b3) /\
    (_brokers b3 = _brokers b1 \/ _brokers b3 = dv_modify p acked (_brokers b1)) /\
    isRootc b3 = isRootc b1 /\ global_broker_id_local b3 = global_broker_id_local b1 /\
    exists l, outputs b3 = outputs b1 ++ l /\ stop ∈ l.
Proof.
  intros [Q1 Q2 Q3 Q4 Q5 (l0 & El0 & _)] Hr Hall.
  destruct (quiet_from (fun _ => True) (tc_ disconnect) b2 (quiet_tc b2 _)) as ([] & b3 & E3 & [R1 R2 R3 R4 R5 (l1 & El1 & _)]).
  unfold disconnect_last. cbv [bind_first gets mbind M_bind]. rewrite E3.
  assert (Hr3 : isRootc b3 = true) by congruence. rewrite Hr3. cbn [negb].
  destruct (negb (BrkInfo._nonLocal brk)); cbn [when].
  - destruct (disconnect_ack_eq p brk b3) as (r & m & ->). cbv beta iota.
    unfold removeRoute, addActionMessage, emit, modifies. eexists. split; [reflexivity|].
    split; [right; simpl; congruence|]. split; [simpl; congruence|]. split; [simpl; congruence|].
    exists (l0 ++ l1 ++ [Transmit r m] ++ [RemoveRoute (BrkInfo.route brk)] ++ [stop]).
    split; [|set_solver]. simpl. rewrite El1, El0. by rewrite <- !app_assoc.
  - unfold skip, mret, M_ret, addActionMessage, emit, modifies. eexists. split; [reflexivity|].
    split; [left; simpl; congruence|]. split; [simpl; congruence|]. split; [simpl; congruence|].
    exists (l0 ++ l1 ++ [stop]). split; [|set_solver]. simpl. rewrite El1, El0. by rewrite <- !app_assoc.
Qed.

Lemma disconnect_one_runs p brk m b1 b2 :
  quiet not_stop b1 b2 -> isRootc b1 = true ->
  exists b3, disconnect_one (Some (p, brk)) m b2 = Some (tt, b3) /\
    (_brokers b3 = _brokers b1 \/ _brokers b3 = dv_modify p acked (_brokers b1)) /\
    isRootc b3 = isRootc b1 /\ global_broker_id_local b3 = global_broker_id_local b1 /\
    exists l, outputs b3 = outputs b1 ++ l /\ Forall not_stop l.
Proof.
  intros [Q1 Q2 Q3 Q4 Q5 (l0 & El0 & Hl0)] Hr. unfold disconnect_one. cbv [bind_first gets mbind M_bind].
  assert (Hr2 : isRootc b2 = true) by congruence. rewrite Hr2. cbn [negb andb].
  destruct (negb (BrkInfo._nonLocal brk)); cbn [when].
  - destruct (disconnect_ack_eq p brk b2) as (r & m' & ->). cbv beta iota. unfold skip, mret, M_ret. cbv beta iota.
    unfold removeRoute, emit, modifies. eexists. split; [reflexivity|].
    split; [right; simpl; congruence|]. split; [simpl; congruence|]. split; [simpl; congruence|].
    exists (l0 ++ [Transmit r m'] ++ [RemoveRoute (BrkInfo.route brk)]). simpl. rewrite El0. rewrite <- !app_assoc.
    split; [done|]. apply Forall_app. split; [done|]. by repeat constructor.
  - unfold skip, mret, M_ret. exists b2. split; [done|]. split; [by left|]. split; [done|]. split; [done|]. eauto.
Qed.

Lemma disconnect_below_runs p m b :
  isRootc b = true -> (p < brk_count b)%nat ->
  exists b', disconnect_below m (Some p) b = Some (tt, b') /\ left_at p b b'.
Proof.
  intros Hr Hp. destruct (disconnectBroker_runs p b Hp) as (b2 & E2 & Hq).
  set (b1 := b <| _brokers ::= dv_modify p leaves |>) in Hq.
  assert (Hl1 : dv_elements (_brokers b1) = alter leaves p (dv_elements (_brokers b))) by apply dv_modify_elements.
  pose proof (qu_brokers _ _ _ Hq) as Hb2.
  destruct (lookup_lt_is_Some_2 (dv_elements (_brokers b2)) p) as [brk Hbrk];
    [by rewrite Hb2, Hl1, length_alter|].
  unfold disconnect_below. cbv [bind_first gets mbind M_bind]. rewrite Hr. cbn [negb andb]. rewrite E2.
  unfold broker_at. cbv [bind_first gets mbind M_bind deref]. rewrite Hbrk. unfold mret, M_ret. cbv beta iota.
  assert (Hall : allDisconnected b2 = allDisconnected b1) by (unfold allDisconnected; by rewrite Hb2).
  assert (Hfin : forall b3, _brokers b3 = _brokers b1 \/ _brokers b3 = dv_modify p acked (_brokers b1) ->
    allDisconnected b3 = allDisconnected b1 /\
    (dv_elements (_brokers b3) = alter leaves p (dv_elements (_brokers b)) \/
     dv_elements (_brokers b3) = alter (acked ∘ leaves) p (dv_elements (_brokers b)))).
  { unfold allDisconnected. intros b3 [->| ->]; [auto|]. rewrite dv_modify_elements, acked_status. split; [done|].
    right. by rewrite Hl1, alter_twice. }
  rewrite Hall. destruct (allDisconnected b1) eqn:Ea.
  - destruct (disconnect_last_runs p brk b1 b2 Hq Hr Ea) as (b3 & -> & Hbr & H3 & H4 & l & Hl & Hs).
    destruct (Hfin b3 Hbr) as [Hd He]. exists b3. split; [done|]. constructor; try done. exists l. rewrite Hd. done.
  - destruct (disconnect_one_runs p brk m b1 b2 Hq Hr) as (b3 & -> & Hbr & H3 & H4 & l & Hl & Hs).
    destruct (Hfin b3 Hbr) as [Hd He]. exists b3. split; [done|]. constructor; try done. exists l. rewrite Hd. done.
Qed.
End Total.

(** ** Everybody leaves *)

Section Leaving.
Context `{Platform} {C : Type -> Type} `{DualVectorLaws C} `{JsonLib}.
Context (fmt_format : string -> list string -> string) (addr : string).
Context (iterate : gmap string string -> list (string * string)).
Implicit Types (b : CoreBroker C).

(** The disconnection that the broker or core at a position sends. *)
Definition bye (p : nat) : ActionMessage :=
  newMessage cmd_disconnect <| source_id := Z.of_nat p + global_broker_id_shift |>.

Fixpoint leave_all (now : Z) (ps : list nat) b : option (CoreBroker C) :=
  match ps with
  | [] => Some b
  | p :: ps' =>
      match processCommand fmt_format now (bye p) b with
      | Some (_, b') => leave_all now ps' b'
      | None => None
      end
  end.

(** Nobody waits for the one at this position. *)
Definition gone b (q : nat) : Prop :=
  forall brk, dv_elements (_brokers b) !! q = Some brk -> BrkInfo._nonLocal brk || BrkInfo.isDisconnected brk = true.

Lemma allDisconnected_gone b : allDisconnected b = true <-> forall q, gone b q.
Proof.
  unfold allDisconnected, gone. rewrite forallb_forall. split.
  - intros Hall q brk Hq. apply Hall, list_elem_of_In. by eapply list_elem_of_lookup_2.
  - intros Hall brk Hin%list_elem_of_In. apply list_elem_of_lookup_1 in Hin as [q Hq]. eauto.
Qed.

Lemma alter_gone (f : BasicBrokerInfo -> BasicBrokerInfo) p q (l : list BasicBrokerInfo) brk' :
  (forall brk, BrkInfo._nonLocal (f brk) = BrkInfo._nonLocal brk /\ BrkInfo.isDisconnected (f brk) = true) ->
  alter f p l !! q = Some brk' ->
  exists brk, l !! q = Some brk /\ BrkInfo._nonLocal brk' = BrkInfo._nonLocal brk /\
    (BrkInfo.isDisconnected brk' = true \/ p <> q /\ brk' = brk).
Proof.
  intros Hf. rewrite list_lookup_alter. case_decide as Hq.
  - subst q. destruct (l !! p) as [brk|]; simpl; [|done]. intros [= <-]. exists brk. destruct (Hf brk). auto.
  - intros Hl. eauto 10.
Qed.

Lemma left_at_status p b b' q brk' :
  left_at p b b' -> dv_elements (_brokers b') !! q = Some brk' ->
  exists brk, dv_elements (_brokers b) !! q = Some brk /\ BrkInfo._nonLocal brk' = BrkInfo._nonLocal brk /\
    (BrkInfo.isDisconnected brk' = true \/ p <> q /\ brk' = brk).
Proof. intros Hl. destruct (la_elements _ _ _ Hl) as [-> | ->]; by apply alter_gone. Qed.

Lemma left_at_gone p b b' q : left_at p b b' -> gone b q \/ p = q -> gone b' q.
Proof.
  intros Hl Hg brk' Hq. destruct (left_at_status _ _ _ _ _ Hl Hq) as (brk & Hb & Hn & [-> |[Hne ->]]).
  - apply orb_true_r.
  - destruct Hg as [Hg| ->]; [by apply Hg|done].
Qed.

Lemma left_at_count p b b' : left_at p b b' -> brk_count b' = brk_count b.
Proof. intros Hl. destruct (la_elements _ _ _ Hl) as [-> | ->]; apply length_alter. Qed.

(** A state in which the next disconnection can be processed. *)
Definition awake b : Prop := root_ok b /\ Z.of_nat (brk_count b) < 2 ^ 28 /\ global_broker_id_local b <> parent_broker_id.

Lemma bye_runs now p b :
  awake b -> (p < brk_count b)%nat ->
  exists b', processCommand fmt_format now (bye p) b = Some (tt, b') /\ left_at p b b' /\ awake b'.
Proof.
  intros (Hok & Hs & Hl) Hp.
  destruct (disconnect_below_runs p (bye p) b (rk_isRootc b Hok) Hp) as (b' & E & Hleft).
  assert (Hrun : processCommand fmt_format now (bye p) b = Some (tt, b')).
  { unfold processCommand, processDisconnect, getBrokerById. cbv [bind_first gets mbind M_bind].
    change (messageAction (bye p)) with cmd_disconnect. cbv iota.
    assert (Hfind : getBrokerById_of (source_id (bye p)) b = Some p).
    { unfold getBrokerById_of, GlobalBrokerId.localIndex. rewrite (rk_isRootc b Hok). unfold bye. simpl.
      replace (Z.of_nat p + global_broker_id_shift - global_broker_id_shift) with (Z.of_nat p) by lia.
      rewrite swrap_id by (unfold in_signed; lia). unfold isValidIndex.
      destruct (Z.leb_spec 0 (Z.of_nat p)), (Z.ltb_spec (Z.of_nat p) (Z.of_nat (brk_count b))); try lia.
      simpl. by rewrite Nat2Z.id. }
    cbv beta. rewrite Hfind. change (dest_id (bye p)) with parent_broker_id.
    destruct (Z.eqb_spec parent_broker_id (global_broker_id_local b)); [congruence|]. cbn [Z.eqb parent_broker_id].
    exact E. }
  exists b'. split; [done|]. split; [done|]. split; [|split].
  - exact (preserves_inv _ _ _ _ _ (processCommand_root fmt_format now (bye p)) Hok Hrun).
  - by rewrite (left_at_count _ _ _ Hleft).
  - by rewrite (la_local _ _ _ Hleft).
Qed.

(** The stop is in the queue exactly from the moment when nobody is left. *)
Lemma leave_all_runs now ps : forall b,
  awake b -> Forall (fun p => p < brk_count b)%nat ps ->
  exists b' l, leave_all now ps b = Some b' /\ (forall q, gone b q \/ q ∈ ps -> gone b' q) /\
    outputs b' = outputs b ++ l /\
    (ps <> [] -> allDisconnected b' = true -> stop ∈ l) /\ (allDisconnected b' = false -> Forall not_stop l).
Proof.
  induction ps as [|p ps IH]; intros b Hb Hps; cbn [leave_all].
  - exists b, []. rewrite app_nil_r. split_and!; [done| |done|done|by constructor]. intros q [?|Hq]; [done|by apply not_elem_of_nil in Hq].
  - apply Forall_cons in Hps as [Hp Hps]. destruct (bye_runs now p b Hb Hp) as (b1 & -> & Hl & Hb1).
    pose proof (left_at_count _ _ _ Hl) as Hc. rewrite <- Hc in Hps.
    destruct (IH b1 Hb1 Hps) as (b' & l' & E & Hg & Ho & Hstop & Hno).
    destruct (la_outputs _ _ _ Hl) as (l & Hol & Hcase). exists b', (l ++ l'). split; [done|].
    assert (Hg' : forall q, gone b q \/ q ∈ p :: ps -> gone b' q).
    { intros q Hq. apply Hg. rewrite elem_of_cons in Hq. destruct Hq as [Hq|[-> |Hq]].
      - left. apply (left_at_gone p b); auto.
      - left. apply (left_at_gone p b); auto.
      - by right. }
    assert (Hmono : allDisconnected b1 = true -> allDisconnected b' = true).
    { rewrite !allDisconnected_gone. intros Hall q. apply Hg. left. apply Hall. }
    split_and!; [done|by rewrite Ho, Hol, app_assoc|..].
    + intros _ Hd. apply elem_of_app. destruct (allDisconnected b1) eqn:Ed; [by left|].
      destruct ps as [|p' ps']; [cbn [leave_all] in E; congruence|]. right. by apply Hstop.
    + intros Hd. destruct (allDisconnected b1) eqn:Ed; [by rewrite Hmono in Hd|].
      apply Forall_app. auto.
Qed.

(** C15: When all brokers and cores directly below a root broker have sent their
    disconnection, in whatever order, the federation ends: each message is
    processed without fault, all of them are marked as disconnected, and the
    command that stops the broker is put into its queue.  As long as one of them
    is missing, no such command is queued. *)
Theorem federation_ends rname now ps b :
  root_reachable fmt_format addr iterate rname b -> Z.of_nat (brk_count b) < 2 ^ 28 ->
  global_broker_id_local b <> parent_broker_id -> ps <> [] -> Forall (fun p => p < brk_count b)%nat ps ->
  (forall p brk, dv_elements (_brokers b) !! p = Some brk -> BrkInfo._nonLocal brk = false -> p ∈ ps) ->
  (exists b' l, leave_all now ps b = Some b' /\ allDisconnected b' = true /\
     outputs b' = outputs b ++ l /\ stop ∈ l) /\
  (forall ps1 ps2, ps = ps1 ++ ps2 -> exists b1 l1, leave_all now ps1 b = Some b1 /\
     outputs b1 = outputs b ++ l1 /\ (allDisconnected b1 = false -> stop ∉ l1)).
Proof.
  intros Hr%root_reachable_ok Hs Hl Hne Hps Hall. assert (Hb : awake b) by done. split.
  - destruct (leave_all_runs now ps b Hb Hps) as (b' & l & E & Hg & Ho & Hstop & _).
    assert (Hd : allDisconnected b' = true).
    { apply allDisconnected_gone. intros q. apply Hg. destruct (decide (q ∈ ps)) as [|Hq]; [by right|left].
      intros brk Hbrk. destruct (BrkInfo._nonLocal brk) eqn:En; [done|]. by destruct Hq; eapply Hall. }
    exists b', l. auto.
  - intros ps1 ps2 ->. apply Forall_app in Hps as [Hps1 _].
    destruct (leave_all_runs now ps1 b Hb Hps1) as (b1 & l1 & E & _ & Ho & _ & Hno). exists b1, l1.
    split_and!; [done..|]. intros Hd Hin. specialize (Hno Hd). rewrite Forall_forall in Hno. by apply (Hno stop).
Qed.
End Leaving.

Lemma federation_ends_witness :
  match Registered.registered Example.started with
  | Some b => exists b' l, leave_all (H := x86_64) Example.format 0 [0%nat] b = Some b' /\
      outputs b' = outputs b ++ l /\ stop ∈ l
  | None => False
  end.
Proof.
  assert (Hc : (fun b => (brk_count b, global_broker_id_local b)) <$> Registered.registered Example.started =
               Some (1%nat, 1)) by (lazy; reflexivity).
  destruct (Registered.registered Example.started) as [b|] eqn:E; [|discriminate Hc].
  cbn [fmap option_fmap option_map] in Hc. apply (inj Some) in Hc.
  pose proof (f_equal fst Hc) as H1. pose proof (f_equal snd Hc) as H2. cbn [fst snd] in H1, H2.
  destruct (federation_ends (H := x86_64) Example.format "tcp://root" Example.walk_table "root" 0 [0%nat] b) as [(b' & l & E' & _ & Ho & Hs) _].
  - refine (run_priority_reachable _ _ _ _ _ _ _ _ (root_start _ _ _ _) E). repeat constructor; discriminate.
  - rewrite H1. lia.
  - rewrite H2. discriminate.
  - discriminate.
  - constructor; [rewrite H1; lia|constructor].
  - intros p brk Hp _. apply lookup_lt_Some in Hp. rewrite H1 in Hp. destruct p; [left|lia].
  - exists b', l. split; [exact E'|]. split; [exact Ho|exact Hs].
Defined.
