(* ===== verification/BrokerStart.v ===== *)
(** * The start of a federation

    A root broker starts the federation when enough federates and brokers have
    registered and every broker directly below has asked for it, unless a
    connection that is required has no target. *)

From Stdlib Require Import Ascii.
From S2P Require Import Prelude BrokerBase StateMonad HTime Identifiers DualVector JsonBuilder TimeDependencies TimeCoordinator ForwardingTimeCoordinator HandleManager UnknownHandleManager CoreTypes CoreBroker BrokerInterfaces BrokerControl BrokerQueries BrokerCommands BrokerFacts BrokerStable BrokerRegistry BrokerSpec BrokerLinks BrokerLife Wire ActionMessage.
Import Basic (BasicHandleInfo) Kind (handle_type) FedInfo (BasicFedInfo) BrkInfo (BasicBrokerInfo) Brk Links Control Queries Commands.

Section Start.
Context `{Platform} {C : Type -> Type} `{DualVectorLaws C} `{JsonLib}.
Context (fmt_format : string -> list string -> string) (addr : string).
Context (iterate : gmap string string -> list (string * string)).
Implicit Types (b : CoreBroker C) (m : ActionMessage).

(** ** Telling all brokers *)

Lemma for_brokers_sends (g : BasicBrokerInfo -> list broker_event) f b :
  (forall p brk b, f p brk b = Some (tt, sending (g brk) b)) ->
  for_brokers f b = Some (tt, sending (flat_map g (dv_elements (_brokers b))) b).
Proof.
  intros Hf. unfold for_brokers. cbv [bind_first]. unfold gets at 1, mbind at 1, M_bind at 1.
  enough (Hgen : forall n k b', dv_elements (_brokers b') = dv_elements (_brokers b) ->
    (k + n = brk_count b)%nat ->
    for_each (seq k n) (fun p => broker_at p ≫= f p) b' =
      Some (tt, sending (flat_map g (drop k (dv_elements (_brokers b)))) b')).
  { rewrite (Hgen _ 0%nat b eq_refl); [done|lia]. }
  induction n as [|n IH]; intros k b' Hb' Hk; cbn [seq for_each].
  - rewrite drop_ge by lia. cbn. unfold sending. rewrite outputs_nil. done.
  - destruct (lookup_lt_is_Some_2 (dv_elements (_brokers b)) k) as [brk Hbrk]; [lia|].
    rewrite (drop_S _ brk) by done. cbn [flat_map]. rewrite <- outputs_twice.
    rewrite <- (IH (S k) (sending (g brk) b')) by (try done; lia).
    unfold broker_at. cbv [bind_first gets deref mbind M_bind]. by rewrite Hb', Hbrk, Hf.
Qed.

(** the messages of [broadcast] *)
Definition to_local m (brk : BasicBrokerInfo) : list broker_event :=
  if negb (BrkInfo._nonLocal brk) && negb (BrkInfo.isDisconnected brk)
  then [Transmit (BrkInfo.route brk) (m <| dest_id := BrkInfo.global_id brk |>)] else [].

Lemma broadcast_eq m b :
  broadcast m b = Some (tt, sending (flat_map (to_local m) (dv_elements (_brokers b))) b).
Proof.
  unfold broadcast. apply for_brokers_sends. intros p brk b'. unfold to_local, when.
  destruct (_ && _); [done|]. unfold sending. by rewrite outputs_nil.
Qed.

(** ** What happens before the grant *)

(** Everything but the grant itself. *)
Definition no_grant (e : broker_event) : Prop :=
  match e with Transmit _ m => messageAction m <> cmd_init_grant | _ => True end.

(** The state stays as it is but for the coordinator, the outputs, none of which
    is the grant, and, unless they are [fixed], the flags of the brokers. *)
Record calm (fixed : bool) (b0 b : CoreBroker C) : Prop := {
  ca_count : brk_count b = brk_count b0;
  ca_brokers : fixed = true -> _brokers b = _brokers b0;
  ca_state : brokerState b = brokerState b0;
  ca_unknown : unknownHandles b = unknownHandles b0;
  ca_local : global_broker_id_local b = global_broker_id_local b0;
  ca_outputs : exists l, outputs b = outputs b0 ++ l /\ Forall no_grant l;
}.
Implicit Types (fixed : bool).

Lemma calm_refl fixed b : calm fixed b b.
Proof. constructor; try done. exists []. by rewrite app_nil_r. Qed.

Lemma calm_more fixed b0 b l : calm fixed b0 b -> Forall no_grant l -> calm fixed b0 (sending l b).
Proof.
  intros [H1' H2' H3 H4 H5 (l0 & El & Hl0)] Hl. constructor; try done. exists (l0 ++ l). simpl.
  rewrite El, app_assoc. split; [done|]. by apply Forall_app.
Qed.

Lemma calm_route fixed b0 m : messageAction m <> cmd_init_grant -> ensures (calm fixed b0) (routeMessage m).
Proof.
  intros Hm b Hb. rewrite routeMessage_eq. eexists tt, _. split; [done|]. apply calm_more; [done|]. by constructor.
Qed.

Lemma calm_route_to fixed b0 m d :
  messageAction m <> cmd_init_grant -> ensures (calm fixed b0) (routeMessage_to m d).
Proof. intros Hm. unfold routeMessage_to. case_if; [apply ensures_ret|]. by apply calm_route. Qed.

Lemma calm_tc fixed b0 {A} (op : ForwardingTimeCoordinator -> A * ForwardingTimeCoordinator) :
  ensures (calm fixed b0) (tc op).
Proof.
  intros b Hb. unfold tc. destruct (op _) as [a fc]. eexists a, _. split; [done|].
  apply (calm_more fixed b0 (b <| timeCoord := fc <| sent := [] |> |>)); [destruct Hb; by constructor|].
  apply Forall_fmap, Forall_true. done.
Qed.

Lemma calm_set_broker b0 p f : ensures (calm false b0) (set_broker p f).
Proof.
  apply ensures_modifies. intros b [H1' H2' H3 H4 H5 H6]. constructor; try done. simpl.
  by rewrite dv_modify_elements, length_alter.
Qed.

Lemma calm_checkDependencies fixed b0 : ensures (calm fixed b0) checkDependencies.
Proof.
  unfold checkDependencies. cbv [bind_first]. apply ensures_bind_gets. intros b Hb.
  destruct (isRootc b); [|case_bool_decide; [apply ensures_ret|]].
  - apply ensures_bind.
    + apply ensures_for_each. intros d _. unfold delayed_dependency. apply ensures_bind_gets. intros b' _.
      destruct (dv_get_name _ _); [apply ensures_bind; [|intros _]|]; by apply calm_route.
    + intros _. destruct (dependents _) as [|d [|]]; try apply ensures_ret.
      destruct (getDependencies _) as [|d' [|]]; try apply ensures_ret. unfold bypass_root.
      apply ensures_bind_gets. intros b' _. destruct (negb _);
        repeat (apply ensures_bind; [|intros _]); first [by apply calm_route_to | apply calm_tc].
  - destruct (base.filter _ _) as [|d [|]]; try apply ensures_ret. unfold bypass_broker.
    apply ensures_bind_gets. intros b' _.
    repeat (apply ensures_bind; [|intros _]); first [by apply calm_route_to | apply calm_tc].
Qed.

Lemma calm_sendDisconnect b0 : ensures (calm false b0) sendDisconnect.
Proof.
  unfold sendDisconnect. cbv [bind_first]. apply ensures_bind_gets. intros b Hb. apply ensures_bind.
  - apply (ensures_for_brokers _ (brk_count b0)); [by intros b' []|]. intros p brk.
    destruct (negb _); [|apply ensures_ret]. apply ensures_bind.
    + case_if; [apply ensures_bind; [by apply calm_route_to|intros _; apply calm_set_broker]|apply ensures_ret].
    + intros _. apply ensures_bind_gets. intros b' _. case_if; [|apply ensures_ret].
      apply ensures_bind; [|intros _]; apply calm_tc.
  - intros _. apply ensures_bind_gets. intros b' _. apply ensures_when, calm_tc.
Qed.

(** The notices to the interfaces without a target: one for each, to it. *)
Definition notice (act : action_t) (h : global_handle) (e : broker_event) : Prop :=
  match e with Transmit _ m => messageAction m = act /\ getDest m = h | _ => False end.

Lemma notify_missing_runs text act targets : forall miss b,
  messageAction miss = act ->
  exists miss' l, notify_missing fmt_format text miss targets b = Some (miss', sending l b) /\
    messageAction miss' = act /\ Forall2 (notice act) (snd <$> targets) l.
Proof.
  induction targets as [|[[target type] h] targets IH]; intros miss b Ha; cbn [notify_missing fmap list_fmap].
  - exists miss, []. unfold sending. by rewrite outputs_nil.
  - set (miss1 := setDestination h _).
    assert (Ha1 : messageAction miss1 = act) by (by subst miss1; destruct (target_word type)).
    destruct (IH miss1 (sending [Transmit (getRoute_of (dest_id miss1) b) miss1] b) Ha1) as (miss' & l & E & Ha' & Hl).
    exists miss', (Transmit (getRoute_of (dest_id miss1) b) miss1 :: l).
    split_and!; [|done|constructor; [|done]].
    + unfold mbind, M_bind. rewrite routeMessage_eq. cbv beta iota. rewrite E. by rewrite outputs_twice.
    + split; [done|]. subst miss1. by destruct h, (target_word type).
Qed.

Lemma notices_no_grant act hs l : act <> cmd_init_grant -> Forall2 (notice act) hs l -> Forall no_grant l.
Proof.
  intros Hact Hl. eapply Forall2_Forall_r; [exact Hl|]. apply Forall_true. intros h [] Hn; simpl; try done.
  destruct Hn as [-> _]. done.
Qed.

(** ** The three outcomes *)

Lemma calm_from {A} fixed (op : Brk.M C A) b :
  ensures (calm fixed b) op -> exists a b', op b = Some (a, b') /\ calm fixed b b'.
Proof. intros Hop. apply (Hop b), calm_refl. Qed.

(** the connections that keep a federation from starting *)
Definition blocked (um : UnknownHandleManager) : bool :=
  hasUnknowns um && hasNonOptionalUnknowns um && hasRequiredUnknowns um.

Definition grant_message b : ActionMessage :=
  newMessage cmd_init_grant <| source_id := global_broker_id_local b |>.

Lemma check_exec_entry_calm fixed b0 : ensures (calm fixed b0) check_exec_entry.
Proof.
  unfold check_exec_entry. cbv [bind_first]. apply ensures_bind; [apply calm_tc|]. intros res.
  assert (Hm : ensures (calm fixed b0) (modifies (fun b => b <| enteredExecutionMode := true |>))).
  { apply ensures_modifies. intros b []. by constructor. }
  by destruct res; try apply ensures_ret.
Qed.

Lemma grant_initialization_runs b :
  exists b' l, grant_initialization b = Some (tt, b') /\ brokerState b' = BState.operating /\
    outputs b' = outputs b ++ flat_map (to_local (grant_message b)) (dv_elements (_brokers b)) ++ l /\
    Forall no_grant l.
Proof.
  set (b1 := sending (flat_map (to_local (grant_message b)) (dv_elements (_brokers b)))
               (b <| brokerState := BState.operating |>)).
  destruct (calm_from true (tc_ enteringExecMode;; check_exec_entry) b1) as ([] & b' & E & Hc).
  { apply ensures_bind; [apply calm_tc|]. intros _. apply check_exec_entry_calm. }
  destruct (ca_outputs _ _ _ Hc) as (l & Hl & Hg). exists b', l. split_and!; [|by rewrite (ca_state _ _ _ Hc)| |done].
  - unfold grant_initialization. cbv [bind_first gets modifies]. unfold mbind, M_bind at 1 2.
    cbv beta iota. fold (grant_message b). unfold M_bind at 1. rewrite broadcast_eq. exact E.
  - rewrite Hl. subst b1. simpl. by rewrite <- app_assoc.
Qed.

Lemma initialization_granted b :
  blocked (unknownHandles b) = false ->
  exists b' l1 l2, executeInitializationOperations fmt_format b = Some (tt, b') /\
    brokerState b' = BState.operating /\
    outputs b' = outputs b ++ l1 ++ flat_map (to_local (grant_message b)) (dv_elements (_brokers b)) ++ l2 /\
    Forall no_grant (l1 ++ l2).
Proof.
  intros Hbl. destruct (calm_from true _ b (calm_checkDependencies true b)) as ([] & b1 & E1 & Hc1).
  unfold executeInitializationOperations. cbv [bind_first gets]. unfold mbind, M_bind at 1. rewrite E1.
  unfold M_bind at 1. rewrite (ca_unknown _ _ _ Hc1).
  change (hasUnknowns _ && _ && _) with (blocked (unknownHandles b)). rewrite Hbl.
  assert (Hmid : exists b2, (if hasUnknowns (unknownHandles b) && hasNonOptionalUnknowns (unknownHandles b)
      then notify_missing fmt_format "Unable to connect to " (missing_message cmd_warning (global_broker_id_local b1))
             (processNonOptionalUnknowns (unknownHandles b));; skip else skip) b1 = Some (tt, b2) /\ calm true b b2).
  { destruct (_ && _); [|by exists b1].
    destruct (notify_missing_runs "Unable to connect to " cmd_warning (processNonOptionalUnknowns (unknownHandles b))
      (missing_message cmd_warning (global_broker_id_local b1)) b1 eq_refl) as (miss & l & El & _ & Hl).
    exists (sending l b1). split; [unfold mbind, M_bind; by rewrite El|].
    apply calm_more; [done|]. by apply (notices_no_grant cmd_warning) in Hl. }
  destruct Hmid as (b2 & E2 & Hc2). unfold mbind in E2. unfold M_bind at 1. unfold Brk.M. rewrite E2.
  destruct (grant_initialization_runs b2) as (b' & l2 & E & Hs & Ho & Hl2).
  destruct (ca_outputs _ _ _ Hc2) as (l1 & Hl1 & Hg1). exists b', l1, l2.
  split_and!; [done|done| |by apply Forall_app]. rewrite Ho, Hl1, <- app_assoc. unfold grant_message.
  by rewrite (ca_local _ _ _ Hc2), (ca_brokers _ _ _ Hc2 eq_refl).
Qed.

Lemma initialization_refused b :
  blocked (unknownHandles b) = true ->
  exists b' l, executeInitializationOperations fmt_format b = Some (tt, b') /\
    brokerState b' = brokerState b /\ outputs b' = outputs b ++ l /\ Forall no_grant l /\ stop ∈ l /\
    forall target type h, (target, type, h) ∈ processRequiredUnknowns (unknownHandles b) ->
      exists e, e ∈ l /\ notice cmd_error h e.
Proof.
  intros Hbl. destruct (calm_from true _ b (calm_checkDependencies true b)) as ([] & b1 & E1 & Hc1).
  unfold executeInitializationOperations. cbv [bind_first gets]. unfold mbind, M_bind at 1. rewrite E1.
  unfold M_bind at 1. rewrite (ca_unknown _ _ _ Hc1).
  change (hasUnknowns _ && _ && _) with (blocked (unknownHandles b)). rewrite Hbl.
  destruct (notify_missing_runs "Unable to connect to required " cmd_error (processRequiredUnknowns (unknownHandles b))
      (missing_message cmd_error (global_broker_id_local b1)) b1 eq_refl) as (miss & l2 & E2 & Ha & Hl2).
  unfold M_bind at 1. rewrite E2. unfold M_bind at 1. rewrite broadcast_eq.
  set (lb := flat_map _ _). set (b2 := sending lb (sending l2 b1)).
  destruct (calm_from false _ b2 (calm_sendDisconnect b2)) as ([] & b3 & E3 & Hc3).
  unfold M_bind at 1. rewrite E3. destruct (ca_outputs _ _ _ Hc1) as (l1 & Hl1 & Hg1).
  destruct (ca_outputs _ _ _ Hc3) as (l3 & Hl3 & Hg3).
  exists (sending [stop] b3), (l1 ++ l2 ++ lb ++ l3 ++ [stop]). split_and!; [done|..].
  - simpl. rewrite (ca_state _ _ _ Hc3). simpl. by rewrite (ca_state _ _ _ Hc1).
  - simpl. rewrite Hl3. subst b2. simpl. rewrite Hl1. by rewrite <- !app_assoc.
  - rewrite !Forall_app. split_and!; try done; [by apply (notices_no_grant cmd_error) in Hl2| |by repeat constructor].
    subst lb. apply Forall_flat_map, Forall_true. intros brk. unfold to_local. case_if; repeat constructor.
    simpl. by rewrite Ha.
  - set_solver.
  - intros target type h Hin. apply (list_elem_of_fmap_2 snd) in Hin.
    apply list_elem_of_lookup_1 in Hin as [k Hk]. destruct (Forall2_lookup_l _ _ _ _ _ Hl2 Hk) as (e & He & Hn).
    exists e. split; [|done]. apply list_elem_of_lookup_2 in He. set_solver.
Qed.

(** the broker with the request of one below noted *)
Definition init_requested (id : global_broker_id) b : CoreBroker C :=
  match getBrokerById_of id b with
  | Some p => b <| _brokers ::= dv_modify p (fun brk => brk <| BrkInfo._initRequested := true |>) |>
  | None => b
  end.

Lemma set_init_eq id b : set_init true id b = Some (tt, init_requested id b).
Proof.
  unfold set_init, getBrokerById, init_requested. cbv [bind_first gets mbind M_bind].
  by destruct (getBrokerById_of id b).
Qed.

Lemma init_requested_rest id b :
  isRootc (init_requested id b) = isRootc b /\ outputs (init_requested id b) = outputs b /\
  brokerState (init_requested id b) = brokerState b /\
  unknownHandles (init_requested id b) = unknownHandles b /\ grant_message (init_requested id b) = grant_message b.
Proof. unfold init_requested. by destruct (getBrokerById_of id b). Qed.

(** C14: What a root broker does with a request to start.  It notes the request;
    as long as federates, brokers or requests are missing, that is all.  When the
    last one is there and no required connection is without a target, it goes to
    the operating state and sends the grant to exactly the brokers and cores
    directly below that are connected, each on its route, after everything that
    the check of the dependencies sends.  When a required connection has no
    target, it grants nothing: it keeps its state, tells each interface whose
    target is missing, and queues the command that stops it. *)
Theorem federation_starts now m b :
  isRootc b = true -> messageAction m = cmd_init ->
  let b1 := init_requested (source_id m) b in
  exists b', processCommand fmt_format now m b = Some (tt, b') /\
    if negb (allInitReady b1) then b' = b1
    else exists l, outputs b' = outputs b ++ l /\
      if blocked (unknownHandles b) then
        brokerState b' = brokerState b /\ Forall no_grant l /\ stop ∈ l /\
        forall target type h, (target, type, h) ∈ processRequiredUnknowns (unknownHandles b) ->
          exists e, e ∈ l /\ notice cmd_error h e
      else
        brokerState b' = BState.operating /\
        exists l1 l2, l = l1 ++ flat_map (to_local (grant_message b)) (dv_elements (_brokers b1)) ++ l2 /\
          Forall no_grant (l1 ++ l2).
Proof.
  intros Hr Ha b1. destruct (init_requested_rest (source_id m) b) as (Hr1 & Ho & Hs & Hu & Hg). fold b1 in Hr1, Ho, Hs, Hu, Hg.
  assert (Hrun : processCommand fmt_format now m b =
    (if allInitReady b1 then executeInitializationOperations fmt_format else skip) b1).
  { unfold processCommand. rewrite Ha. cbv iota. unfold cmd_init_case. cbv [bind_first gets mbind M_bind].
    rewrite set_init_eq. fold b1. by rewrite Hr1, Hr. }
  rewrite Hrun. destruct (allInitReady b1); cbn [negb]; [|by exists b1].
  rewrite <- Hu. destruct (blocked (unknownHandles b1)) eqn:Hbl.
  - destruct (initialization_refused b1 Hbl) as (b' & l & E & Hs' & Ho' & Hl). exists b'. split; [done|].
    exists l. rewrite Ho' , Ho, Hs', Hs. done.
  - destruct (initialization_granted b1 Hbl) as (b' & l1 & l2 & E & Hs' & Ho' & Hl). exists b'. split; [done|].
    eexists. rewrite Ho', Ho, Hg. split; [done|]. split; [done|]. by exists l1, l2.
Qed.
End Start.

Lemma federation_starts_witness :
  match Registered.registered Example.started with
  | Some b => exists b', processCommand (H := x86_64) Example.format 0 (newMessage cmd_init <| source_id := global_broker_id_shift |>) b =
      Some (tt, b') /\ brokerState b' = BState.operating
  | None => False
  end.
Proof.
  set (init := newMessage cmd_init <| source_id := global_broker_id_shift |>).
  assert (Hc : (fun b => (isRootc b, allInitReady (init_requested (source_id init) b), blocked (unknownHandles b)))
                 <$> Registered.registered Example.started = Some (true, true, false)) by (lazy; reflexivity).
  destruct (Registered.registered Example.started) as [b|] eqn:E; [|discriminate Hc].
  cbn [fmap option_fmap option_map] in Hc. apply (inj Some) in Hc.
  pose proof (f_equal (fun x => fst (fst x)) Hc) as H1. pose proof (f_equal (fun x => snd (fst x)) Hc) as H2.
  pose proof (f_equal snd Hc) as H3. cbn [fst snd] in H1, H2, H3. clear Hc E.
  destruct (federation_starts (H := x86_64) Example.format 0 init b H1 eq_refl) as (b' & Hrun & Hb').
  rewrite H2 in Hb'. cbn [negb] in Hb'. destruct Hb' as (l & _ & Hl). rewrite H3 in Hl. destruct Hl as [Hs _].
  exists b'. split; [exact Hrun|exact Hs].
Defined.
