(* ===== verification/BrokerWatch.v ===== *)
(** * The watch of a broker over the connection to its parent

    A broker that is not the root pings its parent at each tick; a parent that
    does not answer in time is taken as lost, and everything below is told. *)

From S2P Require Import Prelude BrokerBase StateMonad HTime Identifiers DualVector JsonBuilder TimeDependencies TimeCoordinator ForwardingTimeCoordinator HandleManager UnknownHandleManager CoreTypes CoreBroker BrokerInterfaces BrokerControl BrokerQueries BrokerCommands BrokerFacts BrokerRegistry BrokerSpec BrokerLinks BrokerLife BrokerStart Wire ActionMessage.
Import FedInfo (BasicFedInfo) BrkInfo (BasicBrokerInfo) Brk Links Control Queries Commands.

Section Watch.
Context `{Platform} {C : Type -> Type} `{DualVectorLaws C} `{JsonLib}.
Context (fmt_format : string -> list string -> string) (addr : string).
Implicit Types (b : CoreBroker C) (m : ActionMessage).

(** a broker that watches its parent *)
Record watching b : Prop := {
  wa_root : _isRoot b = false;
  wa_connected : isConnected b = true;
  wa_local : GlobalBrokerId.isValid (global_broker_id_local b) = true;
  wa_named : global_broker_id_local b <> parent_broker_id;
  wa_higher : GlobalBrokerId.isValid (higher_broker_id b) = true;
}.

(** the tick at each of the given times *)
Fixpoint ticks (times : list Z) b : option (CoreBroker C) :=
  match times with
  | [] => Some b
  | t :: times' =>
      match tick fmt_format t b with
      | Some (_, b') => ticks times' b'
      | None => None
      end
  end.

Definition ping_of b : broker_event :=
  Transmit RouteId.parent_route_id
    (newMessage cmd_ping <| source_id := global_broker_id_local b |> <| dest_id := higher_broker_id b |>).

Definition waiting_since (t : Z) b : Prop :=
  waitingForPingReply (timeoutMon b) = true /\ lastParentPing (timeoutMon b) = t.

(** the state in which the broker has asked at time [t] *)
Definition asked (t : Z) b : CoreBroker C :=
  sending [ping_of b] b <| timeoutMon ::= fun mon => mon <| lastParentPing := t |> <| waitingForPingReply := true |> |>.

Lemma first_tick t b :
  watching b -> waitingForPingReply (timeoutMon b) = false -> tick fmt_format t b = Some (tt, asked t b).
Proof.
  intros [] Hw. unfold tick. cbv [bind_first gets mbind M_bind]. rewrite wa_root0, Hw. cbn [negb].
  rewrite wa_connected0, wa_local0. destruct (Z.eqb_spec (global_broker_id_local b) parent_broker_id); [done|].
  cbn [andb negb]. by rewrite wa_higher0.
Qed.

Lemma asking_tick t t0 b :
  _isRoot b = false -> waiting_since t0 b -> t - t0 <= timeout (timeoutMon b) * 1000000 ->
  tick fmt_format t b = Some (tt, sending [ping_of b] b).
Proof.
  intros Hr [Hw Hl] Ht. unfold tick. cbv [bind_first gets mbind M_bind]. rewrite Hr, Hw. cbn [negb].
  unfold expired. rewrite Hl. by destruct (Z.ltb_spec (timeout (timeoutMon b) * 1000000) (t - t0)); [lia|].
Qed.

Lemma asking_ticks t0 times : forall b,
  _isRoot b = false -> waiting_since t0 b ->
  Forall (fun t => t - t0 <= timeout (timeoutMon b) * 1000000) times ->
  ticks times b = Some (sending (replicate (length times) (ping_of b)) b).
Proof.
  induction times as [|t times IH]; intros b Hr Hw Ht; cbn [ticks].
  - cbn. unfold sending. by rewrite outputs_nil.
  - apply Forall_cons in Ht as [Ht1 Ht]. rewrite (asking_tick t t0 b Hr Hw Ht1).
    rewrite IH by done. change (ping_of (sending [ping_of b] b)) with (ping_of b).
    by rewrite outputs_twice.
Qed.

(** the message of [sendErrorToImmediateBrokers] *)
Definition lost_message : ActionMessage := newMessage cmd_error <| messageID := -5 |>.

Definition says_more b0 b : Prop := exists l, outputs b = outputs b0 ++ l.

Lemma says_more_emit b0 e : ensures (says_more b0) (emit e).
Proof.
  apply ensures_modifies. intros b [l Hl]. exists (l ++ [e]). cbn. by rewrite Hl, app_assoc.
Qed.

Lemma processDisconnect_skip_outputs sk b :
  exists b' l, processDisconnect_skip sk b = Some (tt, b') /\ outputs b' = outputs b ++ l.
Proof.
  enough (He : ensures (says_more b) (processDisconnect_skip sk)).
  { destruct (He b) as ([] & b' & E & l & Hl); [exists []; by rewrite app_nil_r|]. eauto. }
  assert (Hm : forall f : CoreBroker C -> CoreBroker C, (forall b, outputs (f b) = outputs b) -> ensures (says_more b) (modifies f)).
  { intros f Hf. apply ensures_modifies. unfold says_more. intros b' Hb'. by rewrite Hf. }
  unfold processDisconnect_skip, unregister. cbv [bind_first]. apply ensures_bind_gets. intros b1 _.
  destruct (_ || _); [apply ensures_ret|]. apply ensures_bind; [|intros _; apply ensures_bind; [by apply Hm|intros _; apply ensures_bind]].
  - destruct (BState.lt _ _); [|apply ensures_ret].
    apply ensures_bind; [by apply Hm|intros _; apply says_more_emit].
  - destruct (negb sk); [|apply ensures_ret]. apply ensures_bind_gets. intros b2 _.
    apply ensures_bind; [|intros _; apply ensures_when]; apply says_more_emit.
  - intros _. apply says_more_emit.
Qed.

Lemma late_tick t t0 b :
  _isRoot b = false -> waiting_since t0 b -> timeout (timeoutMon b) * 1000000 < t - t0 ->
  exists b' l1 l2, tick fmt_format t b = Some (tt, b') /\ brokerState b' = BState.errored /\
    outputs b' = outputs b ++ l1 ++ flat_map (to_local lost_message) (dv_elements (_brokers b)) ++ l2 ++ [stop].
Proof.
  intros Hr [Hw Hl] Ht. unfold tick. cbv [bind_first gets mbind]. unfold M_bind at 1. rewrite Hr, Hw. cbn [negb].
  unfold expired. rewrite Hl. destruct (Z.ltb_spec (timeout (timeoutMon b) * 1000000) (t - t0)) as [_|]; [|lia].
  assert (Hlog : exists a l1, sendToLogger fmt_format (global_broker_id_local b) log_error (identifier b)
    "core lost connection with broker" b = Some (a, sending l1 b)).
  { unfold sendToLogger, sending. cbv [bind_first gets mbind M_bind].
    destruct (_ || _); [case_if|]; eexists _, _; first [by rewrite outputs_nil | reflexivity]. }
  destruct Hlog as (a & l1 & Hlog). unfold M_bind at 1. rewrite Hlog. cbv beta iota.
  unfold M_bind at 1, sendErrorToImmediateBrokers. rewrite broadcast_eq. fold lost_message. cbv beta iota.
  set (b2 := sending _ (sending l1 b)).
  destruct (processDisconnect_skip_outputs false b2) as (b3 & l2 & E & Ho). unfold M_bind at 1. rewrite E.
  eexists _, l1, l2. split_and!; [reflexivity|done|]. cbn. rewrite Ho. subst b2. cbn.
  by rewrite <- !app_assoc.
Qed.

(** C29: A broker notices a parent that does not answer.  Starting from a broker
    that watches its parent and waits for no answer, the ticks within the
    timeout of the first one each send a ping to the parent and nothing else;
    the first tick after that sends the error to each connected broker directly
    below, puts the broker into the error state and queues the command that
    stops it.  An answer that arrives before that tick makes it harmless: it
    only starts over with the next ping. *)
Theorem lost_parent_detected now t0 times t b reply :
  watching b -> waitingForPingReply (timeoutMon b) = false ->
  Forall (fun t' => t' - t0 <= timeout (timeoutMon b) * 1000000) times ->
  timeout (timeoutMon b) * 1000000 < t - t0 ->
  messageAction reply = cmd_ping_reply -> dest_id reply = global_broker_id_local b ->
  exists b1, ticks (t0 :: times) b = Some b1 /\
    brokerState b1 = brokerState b /\ outputs b1 = outputs b ++ replicate (S (length times)) (ping_of b) /\
    (exists b2 l1 l2, tick fmt_format t b1 = Some (tt, b2) /\ brokerState b2 = BState.errored /\
       outputs b2 = outputs b1 ++ l1 ++ flat_map (to_local lost_message) (dv_elements (_brokers b)) ++ l2 ++ [stop]) /\
    (exists b2 b3, processCommand fmt_format now reply b1 = Some (tt, b2) /\ tick fmt_format t b2 = Some (tt, b3) /\
       brokerState b3 = brokerState b /\ outputs b3 = outputs b1 ++ [ping_of b] /\ waiting_since t b3).
Proof.
  intros Hb Hw Hts Ht Ha Hd. set (b1 := sending (replicate (length times) (ping_of b)) (asked t0 b)). exists b1.
  assert (Hwait : waiting_since t0 b1) by done. assert (Hr : _isRoot b1 = false) by (by destruct Hb).
  split_and!.
  - cbn [ticks]. rewrite (first_tick t0 b Hb Hw). by rewrite (asking_ticks t0 times (asked t0 b)).
  - done.
  - cbn. by rewrite <- app_assoc.
  - by apply (late_tick t t0 b1).
  - set (b2 := b1 <| timeoutMon ::= pingReply |>). exists b2, (asked t b2). split_and!; [|apply first_tick|done..].
    + unfold processCommand. rewrite Ha. cbv iota. unfold cmd_ping_reply_case. cbv [bind_first gets mbind M_bind].
      change (global_broker_id_local b1) with (global_broker_id_local b). by rewrite Hd, Z.eqb_refl.
    + destruct Hb. by constructor.
    + done.
Qed.

(** ** The timeout *)

Lemma connect_timeout b :
  brokerState b = BState.configured ->
  exists b', connect addr true b = Some (true, b') /\ brokerState b' = BState.connected /\
    timeout (timeoutMon b') = milliseconds_of (brokerTimeout b).
Proof.
  intros Hs. set (b1 := b <| brokerState := BState.connecting |>
    <| timeoutMon ::= fun t => t <| timeout := milliseconds_of (brokerTimeout b) |> |> <| brokerState := BState.connected |>).
  pose (I := fun b' : CoreBroker C =>
    brokerState b' = BState.connected /\ timeout (timeoutMon b') = milliseconds_of (brokerTimeout b)).
  assert (He : ensures I (addActionMessage (newMessage cmd_broker_setup);;
         if negb (_isRoot b) then
           let* addr := getAddress addr in
           transmit RouteId.parent_route_id
             (setStringData [addr] (newMessage cmd_reg_broker <| source_id := GlobalFedId.invalid |>
                                                              <| payload := identifier b |>))
         else skip)).
  { apply ensures_bind; [by apply ensures_modifies|]. intros _. destruct (negb _); [|apply ensures_ret].
    unfold getAddress. cbv [bind_first]. apply ensures_bind; [|by intros; apply ensures_modifies].
    apply ensures_bind_gets. intros b2 _. apply ensures_bind; [|intros _ b3 Hb3; by exists (address b3), b3].
    destruct (_ || _); [by apply ensures_modifies|apply ensures_ret]. }
  destruct (He b1) as ([] & b' & E & Hst & Hto); [done|]. exists b'. split; [|done].
  match type of E with
  | ?op = _ => transitivity (match op with Some (_, b2) => Some (true, b2) | None => None end); [|by rewrite E]
  end.
  unfold connect. cbv [bind_first gets mbind M_bind]. rewrite Hs. reflexivity.
Qed.

(** The timeout of a broker is read in the wrong unit.  A broker with the
    timeout it has by default, 30 s, is left by [connect] with a monitor that
    waits 30 ms: when it watches its parent, it takes it as lost on the first
    tick that comes more than 30 ms after the ping. *)
Theorem default_timeout_is_30_ms t0 t b :
  brokerState b = BState.configured -> brokerTimeout b = brokerTimeout (new_broker (C := C) "" false) ->
  30 * 1000000 < t - t0 ->
  exists b', connect addr true b = Some (true, b') /\ timeout (timeoutMon b') = 30 /\
    forall b1, watching b1 -> timeoutMon b1 = timeoutMon b' -> waitingForPingReply (timeoutMon b1) = false ->
      exists b2 b3, tick fmt_format t0 b1 = Some (tt, b2) /\ tick fmt_format t b2 = Some (tt, b3) /\
        brokerState b3 = BState.errored.
Proof.
  intros Hs Hd Ht. destruct (connect_timeout b Hs) as (b' & E & _ & Hto).
  assert (H30 : timeout (timeoutMon b') = 30) by (rewrite Hto, Hd; reflexivity).
  exists b'. split_and!; [done..|]. intros b1 Hb1 Hmon Hw.
  destruct (late_tick t t0 (asked t0 b1)) as (b3 & _ & _ & E3 & Herr & _).
  - by destruct Hb1.
  - done.
  - cbn. rewrite Hmon, H30. lia.
  - exists (asked t0 b1), b3. by rewrite (first_tick t0 b1 Hb1 Hw).
Qed.
End Watch.

Module Watched.
Definition configured_broker : @CoreBroker ListVector.t TextJson.text_json :=
  new_broker "mid" false <| brokerState := BState.configured |>.
Definition connected_broker : @CoreBroker ListVector.t TextJson.text_json :=
  new_broker "mid" false <| brokerState := BState.connected |> <| global_broker_id_local := global_broker_id_shift + 1 |>
    <| higher_broker_id := 1 |> <| timeoutMon ::= setTimeout 30000 |>.
End Watched.

Lemma connected_broker_watching : watching Watched.connected_broker.
Proof. by constructor. Qed.

Lemma lost_parent_detected_witness :
  let reply := newMessage cmd_ping_reply <| dest_id := global_broker_id_shift + 1 |> in
  exists b1 b2, ticks Example.format [0; 5000] Watched.connected_broker = Some b1 /\
    tick Example.format 60000000000 b1 = Some (tt, b2) /\ brokerState b2 = BState.errored.
Proof.
  intros reply.
  destruct (lost_parent_detected (H := x86_64) Example.format 0 0 [5000] 60000000000 Watched.connected_broker reply)
    as (b1 & Hts & _ & _ & (b2 & l1 & l2 & Ht & Hs & _) & _).
  - apply connected_broker_watching.
  - reflexivity.
  - repeat constructor. cbn. lia.
  - cbn. lia.
  - reflexivity.
  - reflexivity.
  - exists b1, b2. split; [exact Hts|]. split; [exact Ht|exact Hs].
Defined.

Lemma default_timeout_is_30_ms_witness :
  exists b', connect "tcp://mid" true Watched.configured_broker = Some (true, b') /\
    timeout (timeoutMon b') = 30.
Proof.
  destruct (default_timeout_is_30_ms Example.format "tcp://mid" 0 31000000 Watched.configured_broker)
    as (b' & E & Ht & _).
  - reflexivity.
  - reflexivity.
  - lia.
  - exists b'. split; [exact E|exact Ht].
Defined.
