(* ===== verification/CommonCore.v ===== *)
(** * A core: state, routes and federates

    Models [src/helics/core/CommonCore.hpp] and, of [CommonCore.cpp], the state
    of a core, the routing of messages and the counting of its federates, with
    the data of [FilterInfo.hpp] and [FilterCoordinator.hpp].  The members of
    [BrokerBase.hpp] are part of the state, as for a broker.

    An operation is a computation on the state (file [StateMonad]); what the
    core does to the outside is appended to [outputs].  A federate is the state
    of [FederateState] with the members of it that only the core uses, and a
    pointer to a federate or a filter is its position in the container that
    holds it; a pointer that is null or dangles is [None].

    The filters of the source are keyed by a global handle; here the key is the
    64-bit value of the handle, which is the same for the same handle only.
    What a filter operator does is code of the user: the class
    [FilterOperators] has what the core uses of it. *)

From Stdlib Require Import Ascii.
From stdpp Require Import pretty.
From S2P Require Import Prelude HTime Identifiers CoreData StateMonad DualVector JsonBuilder TimeDependencies TimeCoordinator ForwardingTimeCoordinator NamedInputInfo EndpointInfo InterfaceInfo HandleManager CoreTypes FederateState CoreBroker ActionMessage.
Import Basic (BasicHandleInfo) Kind (handle_type) Fed (FederateState) BState (broker_state_t).

(** ** Filter operators

    [user_process] gives the message that an operator returns, if it returns
    one, and the messages it puts into the queue of the core. *)
Class FilterOperators := {
  user_operator : Type;
  world : Type;
  user_process : user_operator -> Message -> world -> option Message * list ActionMessage * world;
}.

Inductive filter_operator `{FilterOperators} := NullFilterOperator | UserOperator (op : user_operator).

Definition process `{FilterOperators} (f : filter_operator) (message : Message) (w : world)
    : option Message * list ActionMessage * world :=
  match f with
  | NullFilterOperator => (Some message, [], w)
  | UserOperator op => user_process op message w
  end.

(** a position, or [None] for a null pointer and for one to an object that was
    destroyed *)
Abbreviation pointer := (option nat) (only parsing).

Module Filt.
Section Filter.
Context `{FilterOperators}.

Record FilterInfo := mkFilter {
  core_id : global_broker_id;
  handle : interface_handle;
  key : string;
  inputType : string;
  outputType : string;
  dest_filter : bool;
  cloning : bool;
  flags : Z;
  filterOp : option filter_operator;
  sourceTargets : list global_handle;
  destTargets : list global_handle;
}.

#[global] Instance FilterInfo_settable : Settable FilterInfo := fun r =>
  mkFilter (core_id r) (handle r) (key r) (inputType r) (outputType r) (dest_filter r) (cloning r)
    (flags r) (filterOp r) (sourceTargets r) (destTargets r).

Definition new (core_id_ : global_broker_id) (handle_ : interface_handle) (key_ type_in type_out : string)
    (destFilter_ : bool) : FilterInfo :=
  mkFilter core_id_ handle_ key_ type_in type_out destFilter_ false 0 None [] [].

Definition removeTarget (targetToRemove : global_handle) (f : FilterInfo) : FilterInfo :=
  f <| sourceTargets ::= base.filter (fun t => t <> targetToRemove) |>
    <| destTargets ::= base.filter (fun t => t <> targetToRemove) |>.

Definition disconnected (f : FilterInfo) : bool := check_flag (flags f) disconnected_flag.
(** [(core_id == id) && (handle == h)] *)
Definition is_at (id : global_federate_id) (h : interface_handle) (f : FilterInfo) : bool :=
  (core_id f =? id) && (handle f =? h).
End Filter.
End Filt.
Import Filt (FilterInfo).

Record FilterCoordinator := mkCoordinator {
  sourceFilters : list pointer;
  destFilter : option pointer;
  allSourceFilters : list pointer;
  cloningDestFilters : list pointer;
  hasSourceFilters : bool;
  hasDestFilters : bool;
}.

#[export] Instance FilterCoordinator_settable : Settable FilterCoordinator := fun r =>
  mkCoordinator (sourceFilters r) (destFilter r) (allSourceFilters r) (cloningDestFilters r)
    (hasSourceFilters r) (hasDestFilters r).

Definition new_coordination : FilterCoordinator := mkCoordinator [] None [] [] false false.

(** A federate as the core keeps it. *)
Module Local.
Section Federate.
Context {D : Type -> Type} `{DualMapped D}.

Record LocalFed := mkLocal {
  fs : FederateState (C := D);
  init_transmitted : bool;
  init_requested : bool;
  queryCallback : option (string -> string);
}.

#[global] Instance LocalFed_settable : Settable LocalFed := fun r =>
  mkLocal (fs r) (init_transmitted r) (init_requested r) (queryCallback r).
End Federate.
End Local.
Import Local (LocalFed).
Arguments Local.LocalFed D : clear implicits.

Module Loop.
(** the entry of a federate for the loop of the core: its position *)
Record FedInfo := mkFedInfo { fed : option nat; disconnected : bool }.

#[global] Instance FedInfo_settable : Settable FedInfo := fun r => mkFedInfo (fed r) (disconnected r).
End Loop.
Import Loop (FedInfo).

(** What an airlock hands over to the loop. *)
Inductive airlock_content `{FilterOperators} := LoggerFunction | Operator (op : filter_operator).

Definition UPDATE_FILTER_OPERATOR : Z := 572.
Definition UPDATE_LOGGING_CALLBACK : Z := 592.

Module Core.
Section Core.
Context `{Platform} {C : Type -> Type} `{DualVector C} {D : Type -> Type} `{DualMapped D} `{FilterOperators}.

Record CommonCore := mkCore {
  (* BrokerBase *)
  global_id : global_broker_id;
  global_broker_id_local : global_broker_id;
  higher_broker_id : global_broker_id;
  maxLogLevel : Z;
  minFederateCount : Z;
  maxIterationCount : Z;
  brokerTimeout : Time;
  identifier : string;
  address : string;
  haltOperations : bool;
  timeCoord : ForwardingTimeCoordinator;
  brokerState : broker_state_t;
  hasTimeDependency : bool;
  enteredExecutionMode : bool;
  hasFilters : bool;
  (* CommonCore *)
  prevIdentifier : string;
  routing_table : gmap global_federate_id route_id;
  delayTransmitQueue : list ActionMessage;
  knownExternalEndpoints : gmap string route_id;
  timeoutMon : TimeoutMonitor;
  _global_federation_size : Z;
  delayInitCounter : Z;
  federates : C (LocalFed D);
  loopFederates : C FedInfo;
  messageCounter : Z;
  handles : HandleManager;
  loopHandles : HandleManager;
  ongoingFilterProcesses : gmap Z (gset Z);
  ongoingDestFilterProcesses : gmap Z (gset Z);
  delayedTimingMessages : gmap Z (list ActionMessage);
  queryCounter : Z;
  filterCoord : gmap interface_handle FilterCoordinator;
  filters : C FilterInfo;
  nextAirLock : Z;
  dataAirlocks : list (option airlock_content);
  (* the state behind the operators *)
  operator_world : world;
  outputs : list broker_event;
}.

#[global] Instance CommonCore_settable : Settable CommonCore := fun r =>
  mkCore (global_id r) (global_broker_id_local r) (higher_broker_id r) (maxLogLevel r)
    (minFederateCount r) (maxIterationCount r) (brokerTimeout r) (identifier r) (address r)
    (haltOperations r) (timeCoord r) (brokerState r) (hasTimeDependency r) (enteredExecutionMode r)
    (hasFilters r) (prevIdentifier r) (routing_table r) (delayTransmitQueue r)
    (knownExternalEndpoints r) (timeoutMon r) (_global_federation_size r) (delayInitCounter r)
    (federates r) (loopFederates r) (messageCounter r) (handles r) (loopHandles r)
    (ongoingFilterProcesses r) (ongoingDestFilterProcesses r) (delayedTimingMessages r)
    (queryCounter r) (filterCoord r) (filters r) (nextAirLock r) (dataAirlocks r) (operator_world r)
    (outputs r).

(** The object a constructor makes, with the coordinator of [configureBase]. *)
Definition new_core (name : string) (w : world) : CommonCore := {|
  global_id := parent_broker_id; global_broker_id_local := GlobalBrokerId.invalid;
  higher_broker_id := 0; maxLogLevel := 1; minFederateCount := 1; maxIterationCount := 10000;
  brokerTimeout := 30000000000; identifier := name; address := ""; haltOperations := false;
  timeCoord := new_forwarding <| has_sender := true |>; brokerState := BState.created;
  hasTimeDependency := false; enteredExecutionMode := false; hasFilters := false;
  prevIdentifier := ""; routing_table := ∅; delayTransmitQueue := []; knownExternalEndpoints := ∅;
  timeoutMon := new_monitor; _global_federation_size := 0; delayInitCounter := 0;
  federates := dv_empty; loopFederates := dv_empty; messageCounter := 54; handles := empty_manager;
  loopHandles := empty_manager; ongoingFilterProcesses := ∅; ongoingDestFilterProcesses := ∅;
  delayedTimingMessages := ∅; queryCounter := 1; filterCoord := ∅; filters := dv_empty;
  nextAirLock := 0; dataAirlocks := [None; None; None; None]; operator_world := w; outputs := [];
|}.

(** ** Computations on the state *)

Definition M (A : Type) : Type := St CommonCore A.

Definition emit (e : broker_event) : M unit := modifies (fun c => c <| outputs ::= fun l => l ++ [e] |>).
Definition transmit (route : route_id) (m : ActionMessage) : M unit := emit (Transmit route m).
Definition addRoute (route : route_id) (info : string) : M unit := emit (AddRoute route info).
Definition addActionMessage (m : ActionMessage) : M unit := emit (Enqueue m).
Definition setDelayedValue (index : Z) (value : string) : M unit := emit (DelayedValue index value).

(** A call of the time coordinator, whose messages go to the queue of the core. *)
Definition tc {A} (op : ForwardingTimeCoordinator -> A * ForwardingTimeCoordinator) : M A := fun c =>
  let '(a, fc) := op (timeCoord c <| sent := [] |>) in
  Some (a, c <| timeCoord := fc <| sent := [] |> |>
             <| outputs ::= fun l => l ++ ((fun m => Enqueue (copy_construct m)) <$> sent fc) |>).
Definition tc_ (op : ForwardingTimeCoordinator -> ForwardingTimeCoordinator) : M unit :=
  tc (fun fc => (tt, op fc)).

Definition setState (s : broker_state_t) : M unit := modifies (fun c => c <| brokerState := s |>).
(** [compare_exchange_strong]: whether the state was the expected one *)
Definition exchangeState (exp new : broker_state_t) : M bool :=
  let* st := gets brokerState in
  if bool_decide (st = exp) then setState new;; mret true else mret false.

(** ** Federates *)

(** [getFederateAt]: the federates by their local identifier, of which an
    index out of range gives the null pointer *)
Definition getFederateAt_of (federateID : local_federate_id) (c : CommonCore) : option nat :=
  if isValidIndex federateID (dv_elements (federates c)) then Some (Z.to_nat federateID) else None.
Definition getFederateAt (federateID : local_federate_id) : M (option nat) := gets (getFederateAt_of federateID).
Definition getFederate (federateName : string) : M (option nat) :=
  gets (fun c => dv_find_name federateName (federates c)).

(** the entry of a federate for the loop, then the federate *)
Definition loop_entry (find : C FedInfo -> option nat) (c : CommonCore) : option FedInfo :=
  p ← find (loopFederates c); dv_elements (loopFederates c) !! p.
Definition getFederateCore_of (id : global_federate_id) (c : CommonCore) : option nat :=
  loop_entry (dv_find_id id) c ≫= Loop.fed.
Definition getFederateCore (id : global_federate_id) : M (option nat) := gets (getFederateCore_of id).
Definition getFederateCore_name (federateName : string) : M (option nat) :=
  gets (fun c => loop_entry (dv_find_name federateName) c ≫= Loop.fed).
Definition isLocal_of (id : global_federate_id) (c : CommonCore) : bool :=
  bool_decide (is_Some (dv_find_id id (loopFederates c))).
Definition isLocal (id : global_federate_id) : M bool := gets (isLocal_of id).

(** The federate a pointer points to, and an assignment through it. *)
Definition federate_of (p : nat) (c : CommonCore) : option (LocalFed D) := dv_elements (federates c) !! p.
Definition federate_behind (o : option nat) (c : CommonCore) : option (LocalFed D) := p ← o; federate_of p c.
Definition federate_at (p : nat) : M (LocalFed D) := let* o := gets (federate_of p) in deref o.
Definition set_local (p : nat) (f : LocalFed D -> LocalFed D) : M unit :=
  modifies (fun c => c <| federates ::= dv_modify p f |>).
Definition set_fed (p : nat) (f : FederateState (C := D) -> FederateState (C := D)) : M unit :=
  set_local p (fun l => l <| Local.fs ::= f |>).

(** [fed->addAction (action)] *)
Definition addAction (p : nat) (action : ActionMessage) : M unit := set_fed p (Fed.addAction action).
Definition getState (p : nat) : M federate_state := let* l := federate_at p in mret (Fed.state (Local.fs l)).

(** A loop over the federates; a null pointer among them is followed. *)
Definition for_federates (f : nat -> M unit) : M unit :=
  let* l := gets (fun c => dv_elements (loopFederates c)) in
  for_each l (fun e => let* p := deref (Loop.fed e) in f p).

Definition getHandleInfo (handle : interface_handle) : M (option BasicHandleInfo) :=
  gets (fun c => HandleManager.getHandleInfo handle (handles c)).

(** [getHandleFederate] *)
Definition getHandleFederate (handle : interface_handle) : M (option nat) :=
  let* id := gets (fun c => getLocalFedID handle (handles c)) in
  if LocalFedId.isValid id then getFederateAt id else mret None.

(** ** Counting *)

Definition isConnected (c : CommonCore) : bool :=
  bool_decide (brokerState c = BState.operating) || bool_decide (brokerState c = BState.connected).
Definition isConfigured (c : CommonCore) : bool := negb (BState.lt (brokerState c) BState.configured).
Definition isOpenToNewFederates (c : CommonCore) : bool :=
  bool_decide (brokerState c <> BState.created) && BState.lt (brokerState c) BState.operating.

Fixpoint all_transmitted (l : list FedInfo) : M bool :=
  match l with
  | [] => mret true
  | e :: l' =>
      let* p := deref (Loop.fed e) in
      let* f := federate_at p in
      if Local.init_transmitted f then all_transmitted l' else mret false
  end.

Definition allInitReady : M bool :=
  let* c := gets (fun c => c) in
  if 0 <? delayInitCounter c then mret false
  else if int32 (dv_size (loopFederates c)) <? minFederateCount c then mret false
  else all_transmitted (dv_elements (loopFederates c)).

Definition allFedDisconnected (c : CommonCore) : bool := forallb Loop.disconnected (dv_elements (loopFederates c)).
Definition allDisconnected (c : CommonCore) : bool :=
  if hasTimeDependency c || hasFilters c
  then allFedDisconnected c && negb (hasActiveTimeDependencies (timeCoord c))
  else allFedDisconnected c.

(** ** Leaving *)

Definition disconnect_message (local : global_broker_id) : ActionMessage :=
  newMessage cmd_disconnect <| source_id := local |>.

Definition checkAndProcessDisconnect : M bool :=
  let* c := gets (fun c => c) in
  if bool_decide (brokerState c = BState.terminating) || bool_decide (brokerState c = BState.terminated)
  then mret true
  else if allDisconnected c then
    setState BState.terminating;;
    tc_ disconnect;;
    transmit RouteId.parent_route_id (disconnect_message (global_broker_id_local c));;
    mret true
  else mret false.

(** [CMD_DISCONNECT_FED_ACK] to the federates in a state with [P] *)
Definition say_bye (P : federate_state -> bool) : M unit :=
  for_federates (fun p =>
    let* f := federate_at p in
    when (P (Fed.state (Local.fs f)))
      (addAction p (newMessage cmd_disconnect_fed_ack <| source_id := parent_broker_id |>
                      <| dest_id := Fed.global_id (Local.fs f) |>))).

Definition not_ended (s : federate_state) : bool :=
  bool_decide (s <> HELICS_FINISHED) && bool_decide (s <> HELICS_ERROR).

(** ** Messages to the core itself *)

Definition check_exec_entry : M unit :=
  let* res := tc checkExecEntry in
  match res with
  | MPR.next_step => modifies (fun c => c <| enteredExecutionMode := true |>)
  | _ => skip
  end.

Definition processCommandsForCore (cmd : ActionMessage) : M unit :=
  if isTimingCommand cmd then
    let* entered := gets enteredExecutionMode in
    (if negb entered then tc (processTimeMessage cmd);; check_exec_entry
     else
       let* changed := tc (processTimeMessage cmd) in
       when changed (tc_ updateTimeFactors));;
    if isDisconnectCommand cmd then
      let* c := gets (fun c => c) in
      if bool_decide (messageAction cmd = cmd_disconnect) && (source_id cmd =? higher_broker_id c) then
        setState BState.terminating;;
        when (hasTimeDependency c || hasFilters c) (tc_ disconnect);;
        say_bye not_ended;;
        addActionMessage (newMessage cmd_stop)
      else checkAndProcessDisconnect;; skip
    else skip
  else if isDependencyCommand cmd then tc_ (processDependencyUpdateMessage cmd)
  else skip.

(** ** Routes *)

Definition getRoute_of (id : global_federate_id) (c : CommonCore) : route_id :=
  default RouteId.parent_route_id (routing_table c !! id).

(** The overloads of [routeMessage] differ in the state in which a federate no
    longer gets a message; [processPostTerminationAction] does nothing. *)
Definition route_by (takes : federate_state -> bool) (cmd : ActionMessage) : M unit :=
  let dest := dest_id cmd in
  let* c := gets (fun c => c) in
  if (dest =? parent_broker_id) || (dest =? higher_broker_id c) then transmit RouteId.parent_route_id cmd
  else if dest =? global_broker_id_local c then processCommandsForCore cmd
  else if isLocal_of dest c then
    match getFederateCore_of dest c with
    | Some p => let* st := getState p in when (takes st) (addAction p cmd)
    | None => skip
    end
  else transmit (getRoute_of dest c) cmd.

Definition not_finished (s : federate_state) : bool := bool_decide (s <> HELICS_FINISHED).

(** [routeMessage (const ActionMessage &)] *)
Definition routeMessage : ActionMessage -> M unit := route_by not_ended.
(** [routeMessage (ActionMessage &&)] *)
Definition routeMessage_move : ActionMessage -> M unit := route_by not_finished.
(** [routeMessage (cmd, dest)] *)
Definition routeMessage_to (cmd : ActionMessage) (dest : global_federate_id) : M unit :=
  if negb (GlobalFedId.isValid dest) then skip else route_by not_finished (cmd <| dest_id := dest |>).

(** ** Delayed messages *)

Definition transmitDelayedMessages : M unit :=
  let* q := gets delayTransmitQueue in
  modifies (fun c => c <| delayTransmitQueue := [] |>);;
  for_each q (fun msg =>
    let* local := gets global_broker_id_local in
    routeMessage (if source_id msg =? parent_broker_id then msg <| source_id := local |> else msg)).

(** [transmitDelayedMessages (source)]: those of one federate, of which the
    timing messages are kept apart *)
Definition transmitDelayedMessages_of (source : global_federate_id) : M unit :=
  let* q := gets delayTransmitQueue in
  modifies (fun c => c <| delayTransmitQueue := base.filter (fun m => source_id m <> source) q |>);;
  for_each (base.filter (fun m => source_id m = source) q) routeMessage;;
  let* delayed := gets (fun c => default [] (delayedTimingMessages c !! source)) in
  for_each delayed routeMessage;;
  modifies (fun c => c <| delayedTimingMessages ::= <[source := []]> |>).

Definition sendErrorToFederates (error_code : Z) : M unit :=
  let* l := gets (fun c => dv_elements (loopFederates c)) in
  for_each l (fun e =>
    match Loop.fed e with
    | Some p => when (negb (Loop.disconnected e)) (addAction p (newMessage cmd_error <| messageID := error_code |>))
    | None => skip
    end).
End Core.
End Core.

Arguments Core.CommonCore C D {_}.
Arguments Core.M C D {_} A.
