(* ===== verification/CoreFilters.v ===== *)
(** * A core: message filters

    Models the filters of [src/helics/core/CommonCore.cpp]: their creation and
    their order at an endpoint, the way of a message through the filters of its
    source and of its destination, here and on other cores, and what comes back
    from there; with [closeFilter] of [FilterCoordinator.cpp]. *)

From Stdlib Require Import Ascii.
From stdpp Require Import pretty.
From S2P Require Import Prelude HTime Identifiers CoreData StateMonad DualVector JsonBuilder TimeDependencies TimeCoordinator ForwardingTimeCoordinator InterfaceInfo HandleManager CoreTypes FederateState CoreBroker CommonCore ActionMessage.
Import Basic (BasicHandleInfo) Kind (handle_type) Filt (FilterInfo) Core.

Module CFilters.

(** ** The order of the filters of a source

    [used] marks the filters that have a place in [ordered]. *)

Record ordering := mkOrdering {
  used : list bool;
  ordered : list pointer;
  currentType : string;
  someUnused : bool;
  usedMore : bool;
}.

#[global] Instance ordering_settable : Settable ordering := fun r =>
  mkOrdering (used r) (ordered r) (currentType r) (someUnused r) (usedMore r).

Section Order.
Context `{FilterOperators}.

Definition take_place (ii : nat) (ptr : pointer) (o : ordering) : ordering :=
  o <| used ::= <[ii := true]> |> <| usedMore := true |> <| ordered ::= fun l => l ++ [ptr] |>.

(** One filter in one pass; the first pass takes the cloning filters, the
    others take a filter that fits the type so far. *)
Definition visit (firstPass : bool) (o : ordering) (entry : nat * (pointer * FilterInfo)) : ordering :=
  let '(ii, (ptr, filt)) := entry in
  if default false (used o !! ii) then o
  else if firstPass then
    if Filt.cloning filt then take_place ii ptr o else o <| someUnused := true |>
  else if matchingTypes (Filt.inputType filt) (currentType o)
  then take_place ii ptr o <| currentType := Filt.outputType filt |>
  else o <| someUnused := true |>.

Definition pass (firstPass : bool) (all : list (pointer * FilterInfo)) (o : ordering) : ordering :=
  fold_left (visit firstPass) (imap pair all) (o <| someUnused := false |> <| usedMore := false |>).

(** The passes; [None] is a loop that [fuel] does not suffice for. *)
Fixpoint passes (fuel : nat) (firstPass : bool) (all : list (pointer * FilterInfo)) (o : ordering)
    : option ordering :=
  if someUnused o && usedMore o then
    match fuel with
    | O => None
    | S fuel =>
        let o := pass firstPass all o in
        passes fuel false all (if firstPass then o <| usedMore := true |> else o)
    end
  else Some o.

Definition order_filters (endpointType : string) (all : list (pointer * FilterInfo)) : option ordering :=
  passes (length all + 2) true all (mkOrdering (replicate (length all) false) [] endpointType true true).
End Order.

Section Filters.
Context `{Platform} {C : Type -> Type} `{DualVector C} {D : Type -> Type} `{DualMapped D} `{FilterOperators}.
Local Abbreviation M := (Core.M C D).

(** ** Filters and coordinators *)

Definition filter_of (ptr : pointer) (c : CommonCore C D) : option FilterInfo :=
  p ← ptr; dv_elements (filters c) !! p.
Definition filter_at (ptr : pointer) : M FilterInfo := let* o := gets (filter_of ptr) in deref o.
Definition set_filter (p : nat) (f : FilterInfo -> FilterInfo) : M unit :=
  modifies (fun c => c <| filters ::= dv_modify p f |>).
(** [filters.find (handle)] *)
Definition find_filter (h : global_handle) : M (option nat) :=
  gets (fun c => dv_find_id (Handle.to_uint64 h) (filters c)).

(** The pointer to the filter; when the container refuses the filter the
    object is gone and the pointer is not one to follow ([None]).
    [find_or_create], whose result is kept, asks the container first. *)
Definition createFilter (dest : global_broker_id) (handle : interface_handle) (key type_in type_out : string)
    (cloning : bool) : M pointer :=
  let* gid := gets global_id in
  let filt := Filt.new (if dest =? parent_broker_id then gid else dest) handle key type_in type_out false
                <| Filt.cloning := cloning |> in
  let actualKey := if bool_decide (key = "") then "sFilter_" +:+ pretty handle else key in
  let '(k, id) :=
    if Filt.core_id filt =? gid then (actualKey, GlobalHandle dest handle)
    else (actualKey +:+ "_" +:+ pretty (Filt.core_id filt), GlobalHandle (Filt.core_id filt) handle) in
  let* r := gets (fun c => dv_insert k (Some (Handle.to_uint64 id)) filt (filters c)) in
  modifies (fun c => c <| filters := snd r |>);;
  mret (fst r).

(** Before the core operates, an endpoint without a coordinator gets one. *)
Definition getFilterCoordinator (handle : interface_handle) : M (option FilterCoordinator) :=
  let* c := gets (fun c => c) in
  match filterCoord c !! handle with
  | Some fc => mret (Some fc)
  | None =>
      if BState.lt (brokerState c) BState.operating then
        modifies (fun c => c <| filterCoord ::= <[handle := new_coordination]> |>);;
        mret (Some new_coordination)
      else mret None
  end.

Definition set_coordinator (handle : interface_handle) (f : FilterCoordinator -> FilterCoordinator) : M unit :=
  modifies (fun c => c <| filterCoord ::= alter f handle |>).

(** the flag of a filter, when it is the one that is meant *)
Definition close_pointer (filt : global_handle) (ptr : pointer) : M unit :=
  let* f := filter_at ptr in
  when (Filt.is_at (fed_id filt) (Identifiers.handle filt) f)
    (let* p := deref ptr in set_filter p (fun f => f <| Filt.flags ::= set_flag disconnected_flag |>)).

Definition closeFilter (filt : global_handle) (fc : FilterCoordinator) : M unit :=
  match destFilter fc with Some ptr => close_pointer filt ptr | None => skip end;;
  for_each (allSourceFilters fc) (close_pointer filt);;
  for_each (cloningDestFilters fc) (close_pointer filt).

(** ** A filter at an endpoint *)

(** a flag of an interface in the handles of the loop *)
Definition flag_handle (index : interface_handle) (flag : Z) : M unit :=
  modifies (fun c => c <| loopHandles ::= fun hm =>
    hm <| HandleManager.handles ::= alter (fun h => h <| Basic.flags ::= set_flag flag |>) (Z.to_nat index) |> |>).

(** whether the source of the command is among the filters *)
Fixpoint already_in (command : ActionMessage) (l : list pointer) : M bool :=
  match l with
  | [] => mret false
  | ptr :: l' =>
      let* f := filter_at ptr in
      if Filt.is_at (source_id command) (source_handle command) f then mret true else already_in command l'
  end.

Definition find_or_create (command : ActionMessage) : M pointer :=
  let* found := find_filter (getSource command) in
  match found with
  | Some p => mret (Some p)
  | None => createFilter (source_id command) (source_handle command) (name command)
              (getString typeStringLoc command) (getString typeOutStringLoc command)
              (checkActionFlag command clone_flag)
  end.

(** The filter becomes one of the destination; the endpoint may be known here. *)
Definition new_destination (command : ActionMessage) (known : bool) : M unit :=
  let h := dest_handle command in
  let* newFilter := find_or_create command in
  set_coordinator h (fun fc => fc <| hasDestFilters := true |>);;
  if checkActionFlag command clone_flag
  then set_coordinator h (fun fc => fc <| cloningDestFilters ::= fun l => l ++ [newFilter] |>)
  else
    when known (flag_handle h has_non_cloning_dest_filter_flag);;
    set_coordinator h (fun fc => fc <| destFilter := Some newFilter |>).

Definition destination_filter (command : ActionMessage) (filterC : FilterCoordinator) : M unit :=
  let clones := checkActionFlag command clone_flag in
  let h := dest_handle command in
  let* already := already_in command (if clones then cloningDestFilters filterC
                                      else option_list (destFilter filterC)) in
  if (already : bool) then skip
  else
    let* endhandle := gets (fun c => getEndpoint_at h (loopHandles c)) in
    match endhandle with
    | Some e =>
        flag_handle h has_dest_filter_flag;;
        if negb clones && hasDestFilters filterC then
          routeMessage_move (setSource (getDest command) (newMessage cmd_error <| dest_id := source_id command |>)
            <| messageID := registration_failure |>
            <| payload := "Endpoint " +:+ Basic.key e +:+ " already has a destination filter" |>)
        else new_destination command true
    | None => new_destination command false
    end.

Definition source_filter (command : ActionMessage) (filterC : FilterCoordinator) : M unit :=
  let h := dest_handle command in
  let* already := already_in command (allSourceFilters filterC) in
  if (already : bool) then skip
  else
    let* newFilter := find_or_create command in
    set_coordinator h (fun fc => fc <| allSourceFilters ::= fun l => l ++ [newFilter] |>
                                    <| hasSourceFilters := true |>);;
    let* endhandle := gets (fun c => getEndpoint_at h (loopHandles c)) in
    when (bool_decide (is_Some endhandle)) (flag_handle h has_source_filter_flag).

Definition processFilterInfo (command : ActionMessage) : M unit :=
  let* filterC := getFilterCoordinator (dest_handle command) in
  match filterC with
  | None => skip
  | Some filterC =>
      if checkActionFlag command destination_target then destination_filter command filterC
      else source_filter command filterC
  end.

(** ** Organizing *)

(** The filters behind pointers, all of which are followed. *)
Definition filters_at (l : list pointer) (c : CommonCore C D) : option (list (pointer * FilterInfo)) :=
  mapM (fun ptr => f ← filter_of ptr c; Some (ptr, f)) l.

(** Each coordinator is organized by itself. *)
Definition organize (handle : interface_handle) (fc : FilterCoordinator) : M unit :=
  let* info := getHandleInfo handle in
  match info with
  | None => skip
  | Some info =>
      match allSourceFilters fc with
      | [] => skip
      | l =>
          let* all := gets (filters_at l) in
          let* all := deref all in
          let* o := deref (order_filters (Basic.type info) all) in
          set_coordinator handle (fun fc => fc <| sourceFilters := ordered o |>)
      end
  end.

Definition organizeFilterOperations : M unit :=
  let* fcs := gets (fun c => map_to_list (filterCoord c)) in
  for_each fcs (fun e => organize (fst e) (snd e)).

(** ** Running an operator *)

Definition run_operator (op : filter_operator) (message : Message) : M (option Message) :=
  let* w := gets operator_world in
  let '(r, msgs, w') := process op message w in
  modifies (fun c => c <| operator_world := w' |>);;
  for_each msgs addActionMessage;;
  mret r.

(** [filt->filterOp->process (...)], where there may be no operator *)
Definition run_filter (filt : FilterInfo) (message : Message) : M (option Message) :=
  let* op := deref (Filt.filterOp filt) in run_operator op message.

(** The cloning filters of a destination, here and elsewhere. *)
Definition to_cloning_filter (message : ActionMessage) (ptr : pointer) : M unit :=
  let* clFilter := filter_at ptr in
  if Filt.disconnected clFilter then skip
  else
    let* local := gets global_broker_id_local in
    if Filt.core_id clFilter =? local then
      let* found := find_filter (GlobalHandle local (Filt.handle clFilter)) in
      match found with
      | None => skip
      | Some p =>
          let* FiltI := filter_at (Some p) in
          match Filt.filterOp FiltI with
          | Some op => when (Filt.cloning FiltI) (run_operator op (createMessageFromCommand message);; skip)
          | None => skip
          end
      end
    else
      routeMessage (setAction cmd_send_for_filter (copy_construct message)
                      <| dest_id := Filt.core_id clFilter |> <| dest_handle := Filt.handle clFilter |>).

(** the sets of messages that are being filtered *)
Definition is_ongoing (fid messID : Z) (m : gmap Z (gset Z)) : bool := bool_decide (messID ∈ default ∅ (m !! fid)).
Definition none_ongoing (fid : Z) (m : gmap Z (gset Z)) : bool := bool_decide (default ∅ (m !! fid) = ∅).
Definition add_ongoing (fid messID : Z) (m : gmap Z (gset Z)) : gmap Z (gset Z) :=
  <[fid := {[messID]} ∪ default ∅ (m !! fid)]> m.
Definition erase_ongoing (fid messID : Z) (m : gmap Z (gset Z)) : gmap Z (gset Z) :=
  <[fid := default ∅ (m !! fid) ∖ {[messID]}]> m.

(** ** Delivery *)

(** A filter of the destination on another core: the federate may not advance
    until the answer is there. *)
Definition send_for_dest_filter (localP : BasicHandleInfo) (filt : FilterInfo) (message : ActionMessage) : M unit :=
  let fed_id := Basic.getFederateId localP in
  let* c := gets (fun c => c) in
  let mid := int32 (messageCounter c + 1) in
  modifies (fun c => c <| messageCounter := mid |>);;
  let* p := deref (getFederateCore_of fed_id c) in
  addAction p (msg_from_to cmd_time_block (global_broker_id_local c) fed_id <| messageID := mid |>);;
  modifies (fun c => c <| ongoingDestFilterProcesses ::= add_ongoing fed_id mid |>);;
  routeMessage_move (setAction cmd_send_for_dest_filter_return message <| messageID := mid |>
    <| source_id := fed_id |> <| source_handle := Basic.getInterfaceHandle localP |>
    <| dest_id := Filt.core_id filt |> <| dest_handle := Filt.handle filt |>).

(** The filter of the destination: the message as it goes on, or [None] when
    it was sent to another core.  The result of a local filter is followed
    without a look whether there is one. *)
Definition through_dest_filter (localP : BasicHandleInfo) (ffunc : FilterCoordinator) (message : ActionMessage)
    : M (option ActionMessage) :=
  match destFilter ffunc with
  | None => mret (Some message)
  | Some ptr =>
      let* filt := filter_at ptr in
      let* local := gets global_broker_id_local in
      if Filt.disconnected filt then mret (Some message)
      else if negb (Filt.core_id filt =? local) then send_for_dest_filter localP filt message;; mret None
      else
        let tempMessage := createMessageFromCommand message in
        match Filt.filterOp filt with
        | Some op =>
            let* r := run_operator op tempMessage in
            let* nmessage := deref r in
            mret (Some (moveInfo nmessage message))
        | None => mret (Some (moveInfo tempMessage message))
        end
  end.

Definition through_dest_filters (localP : BasicHandleInfo) (message : ActionMessage) : M (option ActionMessage) :=
  if check_flag (Basic.flags localP) has_dest_filter_flag then
    let* ffunc := getFilterCoordinator (Basic.getInterfaceHandle localP) in
    match ffunc with
    | None => mret (Some message)
    | Some ffunc =>
        let* r := through_dest_filter localP ffunc message in
        match r with
        | None => mret None
        | Some message =>
            for_each (cloningDestFilters ffunc) (to_cloning_filter message);;
            mret (Some message)
        end
    end
  else mret (Some message).

(** the end of the way, in the queue of the federate *)
Definition hand_over (localP : BasicHandleInfo) (message : ActionMessage) : M unit :=
  let message := if dest_id message =? parent_broker_id then setDestination (Basic.handle localP) message
                 else message in
  tc (processTimeMessage message);;
  let* fed := getFederateCore (Basic.getFederateId localP) in
  match fed with Some p => addAction p message | None => skip end.

Definition deliverMessage (message : ActionMessage) : M unit :=
  let* c := gets (fun c => c) in
  match messageAction message with
  | cmd_send_message =>
      let target := getString targetStringLoc message in
      match (if dest_id message =? parent_broker_id then getEndpoint target (loopHandles c)
             else findHandle (getDest message) (loopHandles c)) with
      | None => transmit (default RouteId.parent_route_id (knownExternalEndpoints c !! target)) message
      | Some localP =>
          let* r := through_dest_filters localP message in
          match r with Some message => hand_over localP message | None => skip end
      end
  | _ => transmit (getRoute_of (dest_id message) c) message
  end.

(** ** The filters of the source *)

(** Those from the position [ii] on, as the code counts: a disconnected filter
    is passed over without being counted.  [n] is how many there are. *)
Fixpoint through_source_filters (n : nat) (fid : global_federate_id) (ii : Z) (l : list pointer)
    (m : ActionMessage) : M ActionMessage :=
  match l with
  | [] => mret m
  | ptr :: l' =>
      let* filt := filter_at ptr in
      if Filt.disconnected filt then through_source_filters n fid ii l' m
      else
        let* local := gets global_broker_id_local in
        if Filt.core_id filt =? local then
          let* r := run_filter filt (createMessageFromCommand m) in
          if Filt.cloning filt then through_source_filters n fid (ii + 1) l' m
          else match r with
               | Some tempMessage =>
                   through_source_filters n fid (ii + 1) l' (copy_assign m (command_of_message tempMessage))
               | None => mret (copy_assign m (newMessage cmd_ignore))
               end
        else if Filt.cloning filt then
          routeMessage (setActionFlag clone_flag (setAction cmd_send_for_filter (copy_construct m))
                          <| dest_id := Filt.core_id filt |> <| dest_handle := Filt.handle filt |>);;
          through_source_filters n fid (ii + 1) l' m
        else
          let m := m <| dest_id := Filt.core_id filt |> <| dest_handle := Filt.handle filt |>
                     <| counter := uint16 ii |> in
          if ii <? Z.of_nat n - 1 then
            modifies (fun c => c <| ongoingFilterProcesses ::= add_ongoing fid (messageID m) |>);;
            mret (setAction cmd_send_for_filter_return m)
          else mret (setAction cmd_send_for_filter m)
  end.

Definition processMessage (m : ActionMessage) : M ActionMessage :=
  let* handle := gets (fun c => getEndpoint_at (source_handle m) (loopHandles c)) in
  match handle with
  | None => mret m
  | Some handle =>
      if check_flag (Basic.flags handle) has_source_filter_flag then
        let* filtFunc := getFilterCoordinator (Basic.getInterfaceHandle handle) in
        let* filtFunc := deref filtFunc in
        if hasSourceFilters filtFunc
        then through_source_filters (length (sourceFilters filtFunc)) (Basic.getFederateId handle) 0
               (sourceFilters filtFunc) m
        else mret m
      else mret m
  end.

(** ** Answers of other cores *)

Definition processDestFilterReturn (command : ActionMessage) : M unit :=
  let* handle := gets (fun c => getEndpoint_at (dest_handle command) (loopHandles c)) in
  match handle with
  | None => skip
  | Some handle =>
      let messID := messageID command in
      let fid := Basic.getFederateId handle in
      let* c := gets (fun c => c) in
      if is_ongoing fid messID (ongoingDestFilterProcesses c) then
        modifies (fun c => c <| ongoingDestFilterProcesses ::= erase_ongoing fid messID |>);;
        let unblock dest := routeMessage (msg_from_to cmd_time_unblock (global_broker_id_local c) dest
                                            <| messageID := messID |>) in
        if bool_decide (messageAction command = cmd_null_dest_message) then unblock (dest_id command)
        else
          let* filtFunc := getFilterCoordinator (Basic.getInterfaceHandle handle) in
          let* filtFunc := deref filtFunc in
          for_each (cloningDestFilters filtFunc) (to_cloning_filter command);;
          tc (processTimeMessage command);;
          routeMessage_move (setAction cmd_send_message command);;
          unblock fid
      else skip
  end.

(** the messages that waited for the filters of a federate, when it was the last *)
Definition release_if_done (fid : global_federate_id) : M unit :=
  let* ongoing := gets ongoingFilterProcesses in
  when (none_ongoing fid ongoing) (transmitDelayedMessages_of fid).

Definition end_process (fid messID : Z) : M unit :=
  modifies (fun c => c <| ongoingFilterProcesses ::= erase_ongoing fid messID |>).

(** The filters from the position [ii] on: the message as it goes on, or
    [None] when it was dropped or sent on.  [n] is how many there are, at most
    [2 ^ 16], since the position is kept in 16 bits. *)
Fixpoint return_filters (n : nat) (fid messID ii : Z) (l : list pointer) (cmd : ActionMessage)
    : M (option ActionMessage) :=
  match l with
  | [] => mret (Some cmd)
  | ptr :: l' =>
      let* filt := filter_at ptr in
      if Filt.disconnected filt then return_filters n fid messID (ii + 1) l' cmd
      else
        let* local := gets global_broker_id_local in
        if Filt.core_id filt =? local then
          let* r := run_filter filt (createMessageFromCommand cmd) in
          match r with
          | Some tempMessage =>
              return_filters n fid messID (ii + 1) l' (copy_assign cmd (command_of_message tempMessage))
          | None => end_process fid messID;; release_if_done fid;; mret None
          end
        else
          let cmd := cmd <| dest_id := Filt.core_id filt |> <| dest_handle := Filt.handle filt |>
                         <| counter := uint16 ii |> in
          (if ii <? Z.of_nat n - 1 then routeMessage (setAction cmd_send_for_filter_return cmd)
           else end_process fid messID;; routeMessage (setAction cmd_send_for_filter cmd));;
          release_if_done fid;;
          mret None
  end.

Definition processFilterReturn (cmd : ActionMessage) : M unit :=
  let* handle := gets (fun c => getEndpoint_at (dest_handle cmd) (loopHandles c)) in
  match handle with
  | None => skip
  | Some handle =>
      let messID := messageID cmd in
      let fid := Basic.getFederateId handle in
      let* ongoing := gets ongoingFilterProcesses in
      if is_ongoing fid messID ongoing then
        (if bool_decide (messageAction cmd = cmd_null_message)
         then end_process fid messID;; release_if_done fid else skip);;
        let* filtFunc := getFilterCoordinator (Basic.getInterfaceHandle handle) in
        let* filtFunc := deref filtFunc in
        let fs := sourceFilters filtFunc in
        let ii := uint16 (counter cmd + 1) in
        let* r := if hasSourceFilters filtFunc
                  then return_filters (length fs) fid messID ii (drop (Z.to_nat ii) fs) cmd
                  else mret (Some cmd) in
        match r with
        | None => skip
        | Some cmd => end_process fid messID;; deliverMessage cmd;; release_if_done fid
        end
      else skip
  end.

(** ** Filters for other cores *)

Definition is_dest_request (cmd : ActionMessage) : bool :=
  bool_decide (messageAction cmd = cmd_send_for_dest_filter_return).
Definition returnToSender (cmd : ActionMessage) : bool :=
  bool_decide (messageAction cmd = cmd_send_for_filter_return) || is_dest_request cmd.

(** the answer to the core that asked *)
Definition filter_result (request : ActionMessage) (FiltI : FilterInfo) (cmd : ActionMessage) : M unit :=
  let* local := gets global_broker_id_local in
  deliverMessage (setAction (if is_dest_request request then cmd_dest_filter_result else cmd_filter_result)
                    (setDestination (getSource request) cmd)
                  <| source_handle := Filt.handle FiltI |> <| source_id := local |>).

Definition filter_here (FiltI : FilterInfo) (op : filter_operator) (cmd : ActionMessage) : M unit :=
  let* r := run_operator op (createMessageFromCommand cmd) in
  if Filt.cloning FiltI then skip
  else
    match r with
    | Some tempMessage =>
        let m := copy_assign cmd (command_of_message tempMessage) in
        if returnToSender cmd then filter_result cmd FiltI m
        else deliverMessage (setSource (getSource cmd) m <| dest_id := parent_broker_id |>
                               <| dest_handle := InterfaceHandle.invalid |>)
    | None =>
        let m := copy_assign cmd (newMessage cmd_ignore) in
        if returnToSender cmd
        then deliverMessage (setAction (if is_dest_request cmd then cmd_null_dest_message else cmd_null_message)
                               (setDestination (getSource cmd) m) <| messageID := messageID cmd |>)
        else skip
    end.

(** A filter without an operator, or one that was closed. *)
Definition filter_off (FiltI : FilterInfo) (cmd : ActionMessage) : M unit :=
  if returnToSender cmd then filter_result cmd FiltI cmd
  else deliverMessage (setAction cmd_send_message cmd <| dest_id := parent_broker_id |>
                         <| dest_handle := InterfaceHandle.invalid |>).

(** There is no result where the code asserts that the filter is known. *)
Definition processMessageFilter (cmd : ActionMessage) : M unit :=
  let* c := gets (fun c => c) in
  if dest_id cmd =? parent_broker_id then transmit RouteId.parent_route_id cmd
  else if dest_id cmd =? global_broker_id_local c then
    let* found := find_filter (getDest cmd) in
    let* FiltI := filter_at found in
    match Filt.filterOp FiltI with
    | Some op => if negb (Filt.disconnected FiltI) then filter_here FiltI op cmd else filter_off FiltI cmd
    | None => filter_off FiltI cmd
    end
  else transmit (getRoute_of (dest_id cmd) c) cmd.
End Filters.
End CFilters.
