(* ===== verification/CoreInterfaces.v ===== *)
(** * A core: interfaces and their links

    Models, of [src/helics/core/CommonCore.cpp], the registration of interfaces
    in the loop of the core, the links between interfaces by name and by
    handle, and the end of interfaces and of links. *)

From S2P Require Import Prelude HTime Identifiers CoreData StateMonad DualVector JsonBuilder TimeDependencies TimeCoordinator ForwardingTimeCoordinator InterfaceInfo HandleManager CoreTypes FederateState CoreBroker CommonCore CoreFilters ActionMessage.
Import Basic (BasicHandleInfo) Kind (handle_type) Filt (FilterInfo) Core CFilters.

Module CLinks.
Section Links.
Context `{Platform} {C : Type -> Type} `{DualVector C} {D : Type -> Type} `{DualMapped D} `{FilterOperators}.
Local Abbreviation M := (Core.M C D).

(** ** Registration *)

(** the interface, at its place in the handles of the loop *)
Definition copy_handle (handle : interface_handle) : M unit :=
  modifies (fun c =>
    match HandleManager.getHandleInfo handle (handles c) with
    | Some ifc => c <| loopHandles ::= addHandleAtIndex ifc handle |>
    | None => c
    end).

(** the core and another part depend on each other *)
Definition tell_interdependency (dest : global_federate_id) : M unit :=
  let* c := gets (fun c => c) in
  transmit (getRoute_of dest c) (msg_from_to cmd_add_interdependency (global_broker_id_local c) dest).

Definition register_endpoint (command : ActionMessage) : M unit :=
  let* added := tc (addDependency (source_id command)) in
  (if (added : bool) then
     let* fed := getFederateCore (source_id command) in
     match fed with
     | None => skip
     | Some p =>
         let* local := gets global_broker_id_local in
         addAction p (msg_from_to cmd_add_interdependency local (source_id command));;
         let* f := federate_at p in
         tc (addDependent (Fed.global_id (Local.fs f)));; skip
     end
   else skip);;
  let* c := gets (fun c => c) in
  if negb (hasTimeDependency c) then
    let* added := tc (addDependency (higher_broker_id c)) in
    if (added : bool) then
      modifies (fun c => c <| hasTimeDependency := true |>);;
      tell_interdependency (higher_broker_id c);;
      tc (addDependent (higher_broker_id c));; skip
    else skip
  else skip.

Definition register_filter (command : ActionMessage) : M unit :=
  let* local := gets global_broker_id_local in
  createFilter local (source_handle command) (name command) (getString typeStringLoc command)
    (getString typeOutStringLoc command) (checkActionFlag command clone_flag);;
  let* c := gets (fun c => c) in
  if negb (hasFilters c) then
    modifies (fun c => c <| hasFilters := true |>);;
    let* added := tc (addDependent (higher_broker_id c)) in
    if (added : bool) then
      tell_interdependency (higher_broker_id c);;
      tc (addDependency (higher_broker_id c));; skip
    else skip
  else skip.

(** the filter of a handle is used *)
Definition use_filter_handle (index : interface_handle) : M unit :=
  modifies (fun c =>
    match getFilter_at index (loopHandles c) with
    | Some _ => c <| loopHandles ::= fun hm =>
                  hm <| HandleManager.handles ::= alter (fun h => h <| Basic.used := true |>) (Z.to_nat index) |> |>
    | None => c
    end).

Definition registerInterface (command : ActionMessage) : M unit :=
  let* local := gets global_broker_id_local in
  if dest_id command =? parent_broker_id then
    copy_handle (source_handle command);;
    let publish := when (negb (bool_decide (name command = ""))) (transmit RouteId.parent_route_id command) in
    match messageAction command with
    | cmd_reg_input | cmd_reg_pub => publish
    | cmd_reg_end => register_endpoint command;; publish
    | cmd_reg_filter => register_filter command;; publish
    | _ => skip
    end
  else if dest_id command =? local then
    match messageAction command with
    | cmd_reg_end =>
        let* filtI := find_filter (GlobalHandle local (dest_handle command)) in
        match filtI with
        | Some p =>
            set_filter p (fun f => f <| Filt.sourceTargets ::= fun l => l ++ [getSource command] |>);;
            tc (addDependency (source_id command));; skip
        | None => skip
        end;;
        use_filter_handle (dest_handle command)
    | cmd_reg_filter => processFilterInfo command
    | _ => skip
    end
  else routeMessage_move command.

(** An interface of the loop, and the same in the handles of the federates. *)
Definition setAsUsed (index : interface_handle) (hand : BasicHandleInfo) : M unit :=
  if Basic.used hand then skip
  else
    let use i hm := hm <| HandleManager.handles ::= alter (fun h => h <| Basic.used := true |>) (Z.to_nat i) |> in
    let own := Basic.getInterfaceHandle hand in
    modifies (fun c => c <| loopHandles ::= use index |>);;
    let* info := getHandleInfo own in
    deref info;;
    modifies (fun c => c <| handles ::= use own |>).

(** ** Links *)

(** a command for a federate of the core *)
Definition to_federate (command : ActionMessage) : M unit :=
  let* fed := getFederateCore (dest_id command) in
  match fed with Some p => addAction p command | None => skip end.

Definition add_filter_target (command : ActionMessage) : M unit :=
  processFilterInfo command;;
  let* local := gets global_broker_id_local in
  when (negb (source_id command =? local) && negb (checkActionFlag command error_flag))
    (to_federate (setAction cmd_add_dependent command)).

Definition add_endpoint_target (command : ActionMessage) : M unit :=
  let* local := gets global_broker_id_local in
  let* filtI := find_filter (GlobalHandle local (dest_handle command)) in
  match filtI with
  | Some p =>
      set_filter p (fun f =>
        if checkActionFlag command destination_target
        then f <| Filt.destTargets ::= fun l => l ++ [getSource command] |>
        else f <| Filt.sourceTargets ::= fun l => l ++ [getSource command] |>);;
      when (negb (checkActionFlag command error_flag)) (tc (addDependency (source_id command));; skip)
  | None => skip
  end;;
  use_filter_handle (dest_handle command).

Definition add_federate_target (command : ActionMessage) : M unit :=
  let* fed := getFederateCore (dest_id command) in
  match fed with
  | None => skip
  | Some p =>
      when (negb (checkActionFlag command error_flag)) (addAction p command);;
      let* handle := gets (fun c => HandleManager.getHandleInfo (dest_handle command) (loopHandles c)) in
      match handle with Some hand => setAsUsed (dest_handle command) hand | None => skip end
  end.

Definition addTargetToInterface (command : ActionMessage) : M unit :=
  let* local := gets global_broker_id_local in
  if bool_decide (messageAction command = cmd_add_filter) then add_filter_target command
  else if dest_id command =? local then
    when (bool_decide (messageAction command = cmd_add_endpoint)) (add_endpoint_target command)
  else add_federate_target command.

Definition removeTargetFromInterface (command : ActionMessage) : M unit :=
  let* local := gets global_broker_id_local in
  if bool_decide (messageAction command = cmd_remove_filter) then
    let* filterC := getFilterCoordinator (dest_handle command) in
    match filterC with Some fc => closeFilter (getSource command) fc | None => skip end
  else if dest_id command =? local then
    if bool_decide (messageAction command = cmd_remove_endpoint) then
      let* filtI := find_filter (getDest command) in
      match filtI with Some p => set_filter p (Filt.removeTarget (getSource command)) | None => skip end
    else skip
  else to_federate command.

(** Both sides of a link whose target is the interface [hand]: the command in
    the one direction, then in the other with the strings [back] gives it. *)
Definition both_ways (link : ActionMessage -> M unit) (there here : action_t) (hand : BasicHandleInfo)
    (forth back : ActionMessage -> ActionMessage) (command : ActionMessage) : M unit :=
  let command := setDestination (Basic.handle hand) (setAction there command) <| payload := "" |> in
  let command := forth command in
  link command;;
  link (back (swapSourceDest (setAction here command))).

(** [CMD_ADD_NAMED_...] of a target that is known; nothing when it has left *)
Definition add_named (there here : action_t) (target : option BasicHandleInfo)
    (forth back : ActionMessage -> ActionMessage) (command : ActionMessage) : M unit :=
  match target with
  | Some hand =>
      if check_flag (Basic.flags hand) disconnected_flag then skip
      else both_ways addTargetToInterface there here hand forth back command
  | None => routeMessage_move command
  end.

Definition same_strings (command : ActionMessage) : ActionMessage := command.

Definition checkForNamedInterface (command : ActionMessage) : M unit :=
  let* lh := gets loopHandles in
  match messageAction command with
  | cmd_add_named_publication =>
      let pub := getPublication (name command) lh in
      add_named cmd_add_subscriber cmd_add_publisher pub same_strings
        (fun m => match pub with Some p => setStringData [Basic.type p; Basic.units p] m | None => m end) command
  | cmd_add_named_input =>
      add_named cmd_add_publisher cmd_add_subscriber (getInput (name command) lh)
        (fun m => match stringData m, findHandle (getSource m) lh with
                  | [], Some pub => setStringData [Basic.type pub; Basic.units pub] m
                  | _, _ => m
                  end)
        (setStringData []) command
  | cmd_add_named_filter =>
      add_named cmd_add_endpoint cmd_add_filter (getFilter (name command) lh) same_strings same_strings command
  | cmd_add_named_endpoint =>
      add_named cmd_add_filter cmd_add_endpoint (getEndpoint (name command) lh) same_strings same_strings command
  | _ => skip
  end.

Definition remove_named (there here : action_t) (target : option BasicHandleInfo) (command : ActionMessage) : M unit :=
  match target with
  | Some hand => both_ways removeTargetFromInterface there here hand same_strings same_strings command
  | None => routeMessage_move command
  end.

Definition removeNamedTarget (command : ActionMessage) : M unit :=
  let* lh := gets loopHandles in
  match messageAction command with
  | cmd_remove_named_publication =>
      remove_named cmd_remove_subscriber cmd_remove_publication (getPublication (name command) lh) command
  | cmd_remove_named_input =>
      remove_named cmd_remove_publication cmd_remove_subscriber (getInput (name command) lh) command
  | cmd_remove_named_filter =>
      remove_named cmd_remove_endpoint cmd_remove_filter (getFilter (name command) lh) command
  | cmd_remove_named_endpoint =>
      remove_named cmd_remove_filter cmd_remove_endpoint (getEndpoint (name command) lh) command
  | _ => skip
  end.

(** ** The end of an interface *)

(** The targets of a filter are told; a destination target only when it is a
    source target as well. *)
Definition close_filter (own : global_handle) (p : nat) : M unit :=
  let* filt := filter_at (Some p) in
  let rem := setSource own (newMessage cmd_remove_filter) in
  for_each (Filt.sourceTargets filt) (fun target => routeMessage (setDestination target rem));;
  for_each (Filt.destTargets filt) (fun target =>
    when (bool_decide (target ∈ Filt.sourceTargets filt)) (routeMessage (setDestination target rem)));;
  set_filter p (fun f => f <| Filt.sourceTargets := [] |> <| Filt.destTargets := [] |>
                           <| Filt.flags ::= set_flag disconnected_flag |>).

Definition disconnectInterface (command : ActionMessage) : M unit :=
  let* c := gets (fun c => c) in
  match HandleManager.getHandleInfo (source_handle command) (loopHandles c) with
  | None => skip
  | Some handleInfo =>
      if check_flag (Basic.flags handleInfo) disconnected_flag then skip
      else
        flag_handle (source_handle command) disconnected_flag;;
        (if Basic.getFederateId handleInfo =? global_broker_id_local c then
           let* filt := find_filter (getSource command) in
           match filt with Some p => close_filter (Basic.handle handleInfo) p | None => skip end
         else if bool_decide (Basic.handleType handleInfo <> Kind.filter) then
           let* fed := getFederateCore (source_id command) in
           match fed with Some p => addAction p command | None => skip end
         else skip);;
        when (negb (check_flag (set_flag disconnected_flag (Basic.flags handleInfo)) nameless_interface_flag))
          (transmit RouteId.parent_route_id command)
  end.

(** A subscription whose publication is here. *)
Definition checkForLocalPublication (cmd : ActionMessage) : M bool :=
  let* lh := gets loopHandles in
  match HandleManager.publications lh !! payload cmd, getPublication (payload cmd) lh with
  | Some index, Some pub =>
      let cmd := setDestination (Basic.handle pub) cmd in
      setAsUsed index pub;;
      routeMessage cmd;;
      routeMessage (setSource (Basic.handle pub) (setDestination (getSource cmd) (newMessage cmd_add_publisher))
                      <| payload := Basic.type pub |>);;
      mret true
  | _, _ => mret false
  end.
End Links.
End CLinks.
