(* ===== verification/CoreControl.v ===== *)
(** * A core: start, connection, disconnection and queries

    Models, of [src/helics/core/CommonCore.cpp], the operations that open and
    close a core, its part in the start of the federation, its configuration,
    its log and its queries; and of [src/helics/core/TimeoutMonitor.cpp] what
    serves cores.  The readings of the clock and what the network layer answers
    are arguments. *)

From Stdlib Require Import Ascii.
From stdpp Require Import pretty.
From S2P Require Import Prelude HTime Identifiers CoreData StateMonad DualVector JsonBuilder TimeDependencies TimeCoordinator ForwardingTimeCoordinator NamedInputInfo EndpointInfo InterfaceInfo HandleManager CoreTypes FederateState CoreBroker BrokerControl CommonCore CoreFilters ActionMessage.
Import Basic (BasicHandleInfo) Kind (handle_type) Local (LocalFed) Core CFilters.

Module CControl.
Section Control.
Context `{Platform} {C : Type -> Type} `{DualVector C} {D : Type -> Type} `{DualMapped D} `{FilterOperators} `{JsonLib}.
(** the formatting library, and the address the network layer gives *)
Context (fmt_format : string -> list string -> string) (generateLocalAddressString : string).
Local Abbreviation M := (Core.M C D).

(** ** Logging *)

Definition unknownString : string := "#unknown".

Definition getFederateNameNoThrow (federateID : global_federate_id) : M string :=
  gets (fun c => match federate_behind (getFederateAt_of (GlobalFedId.localIndex federateID) c) c with
                 | Some f => Fed.name (Local.fs f)
                 | None => unknownString
                 end).

Definition sendToLogger (federateID : global_federate_id) (logLevel : Z) (name message : string) : M bool :=
  let* c := gets (fun c => c) in
  if (federateID =? parent_broker_id) || (federateID =? global_id c) then
    when (negb (maxLogLevel c <? logLevel))
      (emit (LogText logLevel (fmt_format "{} ({})" [name; pretty federateID]) message));;
    mret true
  else
    match getFederateAt_of (if GlobalFedId.isFederate federateID then federateID
                            else GlobalFedId.localIndex federateID) c with
    | None => mret false
    | Some p => emit (FederateLog p logLevel name message);; mret true
    end.

(** ** Opening *)

(** [None]: an exception *)
Definition setIdentifier (name : string) : M unit :=
  let* st := gets brokerState in
  if bool_decide (st = BState.created) then modifies (fun c => c <| identifier := name |>) else deref None.

(** [parsed]: the arguments could be read.  A core without a name gets
    [genId], and a coordinator of its own. *)
Definition configure (parsed : bool) (genId : string) : M unit :=
  let* first := exchangeState BState.created BState.configuring in
  if (first : bool) then
    if negb parsed then setState BState.created
    else
      modifies (fun c => c <| identifier ::= fun name => if bool_decide (name = "") then genId else name |>
                           <| timeCoord := new_forwarding <| has_sender := true |> |>
                           <| brokerState := BState.configured |>)
  else skip.

Definition getAddress : M string :=
  let* c := gets (fun c => c) in
  when (bool_decide (brokerState c <> BState.connected) || bool_decide (address c = ""))
    (modifies (fun c => c <| address := generateLocalAddressString |>));;
  gets address.

(** the registration of a core with the broker above *)
Definition register_core (count : Z) : M unit :=
  let* name := gets identifier in
  let* addr := getAddress in
  transmit RouteId.parent_route_id
    (setActionFlag core_flag (setStringData [addr]
       (newMessage cmd_reg_broker <| source_id := GlobalFedId.invalid |> <| payload := name |>))
     <| counter := count |>).

(** [brokerConnect] answers [res].  A second caller waits for the first, so a
    core that is connecting has no result here. *)
Definition connect (res : bool) : M bool :=
  let* c := gets (fun c => c) in
  if negb (BState.lt (brokerState c) BState.configured) then
    if bool_decide (brokerState c = BState.configured) then
      setState BState.connecting;;
      modifies (fun c => c <| timeoutMon ::= Control.setTimeout (T.to_count (brokerTimeout c) Units.ms) |>);;
      (if res then register_core 0;; setState BState.connected else setState BState.configured);;
      mret res
    else if bool_decide (brokerState c = BState.connecting) then deref None
    else mret (isConnected c)
  else mret (isConnected c).

(** the first step of [queueProcessingLoop] *)
Definition start_loop : M unit := modifies (fun c => c <| global_broker_id_local := global_id c |>).

(** [CMD_RESEND] *)
Definition resend_registration (command : ActionMessage) : M unit :=
  let* gid := gets global_id in
  when ((messageID command =? int32 (action_code cmd_reg_broker)) &&
        ((gid =? parent_broker_id) || negb (GlobalBrokerId.isValid gid)))
    (register_core 1).

(** ** Closing *)

Definition unregister : M unit :=
  let* c := gets (fun c => c) in
  emit (Unregister (identifier c));;
  when (bool_decide (prevIdentifier c <> "")) (emit (Unregister (prevIdentifier c))).

(** The federates are told to stop, and leave the time coordination. *)
Definition sendDisconnect : M unit :=
  let* local := gets global_broker_id_local in
  for_federates (fun p =>
    let* f := federate_at p in
    when (not_finished (Fed.state (Local.fs f))) (addAction p (newMessage cmd_stop <| source_id := local |>));;
    let* timed := gets hasTimeDependency in
    when timed (tc_ (removeDependency (Fed.global_id (Local.fs f)));;
                tc_ (removeDependent (Fed.global_id (Local.fs f)))));;
  let* timed := gets hasTimeDependency in
  when timed (tc_ disconnect).

(** [processDisconnect (skipUnregister)] *)
Definition processDisconnect (skipUnregister : bool) : M unit :=
  let* c := gets (fun c => c) in
  let finish :=
    setState BState.terminated;;
    when (negb skipUnregister) unregister;;
    emit DisconnectTriggered in
  if BState.lt BState.configured (brokerState c) then
    if BState.lt (brokerState c) BState.terminating then
      setState BState.terminating;;
      sendDisconnect;;
      (if negb (global_broker_id_local c =? parent_broker_id) && GlobalBrokerId.isValid (global_broker_id_local c)
       then transmit RouteId.parent_route_id (disconnect_message (global_broker_id_local c))
       else transmit RouteId.parent_route_id (newMessage cmd_disconnect_name <| payload := identifier c |>));;
      addActionMessage (newMessage cmd_stop)
    else emit BrokerDisconnect;; finish
  else finish.

(** what [CMD_STOP] and [CMD_USER_DISCONNECT] do to a core that is connected *)
Definition leave : M unit :=
  let* c := gets (fun c => c) in
  when (isConnected c && BState.lt (brokerState c) BState.terminating)
    (setState BState.terminating;;
     sendDisconnect;;
     transmit RouteId.parent_route_id (disconnect_message (global_broker_id_local c))).

(** ** The tick *)

Definition set_monitor (f : TimeoutMonitor -> TimeoutMonitor) : M unit :=
  modifies (fun c => c <| timeoutMon ::= f |>).

Definition send_ping : M unit :=
  let* c := gets (fun c => c) in
  transmit RouteId.parent_route_id
    (newMessage cmd_ping <| source_id := global_broker_id_local c |> <| dest_id := higher_broker_id c |>).

(** waiting for a connection, and after the timeout checking it *)
Definition wait_connection (now : Z) : M unit :=
  let* c := gets (fun c => c) in
  if waitingForConnection (timeoutMon c) then
    when (Control.expired now (startWaiting (timeoutMon c)) (timeoutMon c))
      (addActionMessage (newMessage cmd_check_connections <| source_id := global_broker_id_local c |>))
  else set_monitor (fun t => t <| waitingForConnection := true |> <| startWaiting := now |>).

(** [tick] of a core; its last two branches do the same *)
Definition tick (now : Z) : M unit :=
  let* c := gets (fun c => c) in
  let registered := GlobalBrokerId.isValid (global_broker_id_local c) &&
                    negb (global_broker_id_local c =? parent_broker_id) in
  if waitingForPingReply (timeoutMon c) then
    if Control.expired now (lastParentPing (timeoutMon c)) (timeoutMon c) then
      sendToLogger (global_broker_id_local c) log_error (identifier c) "core lost connection with broker";;
      sendErrorToFederates (-5);;
      processDisconnect false;;
      setState BState.errored;;
      addActionMessage (newMessage cmd_stop)
    else send_ping
  else if isConnected c && registered then
    when (GlobalBrokerId.isValid (higher_broker_id c))
      (send_ping;; set_monitor (fun t => t <| lastParentPing := now |> <| waitingForPingReply := true |>))
  else if isConnected c && negb registered then
    resend_registration (newMessage cmd_resend <| messageID := int32 (action_code cmd_reg_broker) |>)
  else wait_connection now.

(** ** The dependencies *)

(** The federates with endpoints that only watch or only send; the answer says
    whether there is one of either kind. *)
Fixpoint one_sided (l : list Loop.FedInfo) (isobs issource : bool) : M (bool * bool) :=
  match l with
  | [] => mret (isobs, issource)
  | e :: l' =>
      let* p := deref (Loop.fed e) in
      let* f := federate_at p in
      let* local := gets global_broker_id_local in
      let fs := Local.fs f in
      let rmdep a := newMessage a <| source_id := local |> <| dest_id := Fed.global_id fs |> in
      if 0 <? Fed.endpointCount fs then
        let* obs := deref (Fed.getOptionFlag Flag.observer fs) in
        if obs then
          tc_ (removeDependency (Fed.global_id fs));;
          addAction p (rmdep cmd_remove_dependent);;
          one_sided l' true issource
        else
          let* src := deref (Fed.getOptionFlag Flag.source_only fs) in
          if src then
            tc_ (removeDependent (Fed.global_id fs));;
            addAction p (rmdep cmd_remove_dependency);;
            one_sided l' isobs true
          else one_sided l' isobs issource
      else one_sided l' isobs issource
  end.

(** The one federate and the one broker among the dependents, with the number
    of federates. *)
Definition split_dependents (c : CommonCore C D) : Z * global_federate_id * global_broker_id :=
  fold_left (fun '(localcnt, fedid, brkid) dep =>
               if isLocal_of dep c then (localcnt + 1, dep, brkid) else (localcnt, fedid, dep))
    (dependents (timeCoord c)) (0, GlobalFedId.invalid, GlobalBrokerId.invalid).

(** The federate and the broker are told to deal with each other. *)
Definition introduce (isobs issource : bool) (fedid brkid : global_federate_id) : M unit :=
  let add a src := newMessage a <| source_id := src |> in
  if isobs then
    routeMessage_to (add cmd_add_dependent fedid) brkid;;
    routeMessage_to (add cmd_add_dependency brkid) fedid
  else if issource then
    routeMessage_to (add cmd_add_dependency fedid) brkid;;
    routeMessage_to (add cmd_add_dependent brkid) fedid
  else
    routeMessage_to (add cmd_add_interdependency fedid) brkid;;
    routeMessage_to (add cmd_add_interdependency fedid) fedid;;
    routeMessage_to (add cmd_add_interdependency brkid) fedid.

(** A core that only passes on what one federate and its broker tell each
    other takes itself out. *)
Definition bypass_core (isobs issource : bool) (fedid brkid : global_federate_id) : M unit :=
  tc_ (removeDependency brkid);;
  tc_ (removeDependency fedid);;
  tc_ (removeDependent brkid);;
  tc_ (removeDependent fedid);;
  modifies (fun c => c <| hasTimeDependency := false |>);;
  let* local := gets global_broker_id_local in
  let rmdep := newMessage cmd_remove_interdependency <| source_id := local |> in
  routeMessage_to rmdep brkid;;
  routeMessage_to rmdep fedid;;
  introduce isobs issource fedid brkid.

Definition checkDependencies : M unit :=
  let* feds := gets (fun c => dv_elements (loopFederates c)) in
  let* sides := one_sided feds false false in
  let* c := gets (fun c => c) in
  if hasFilters c then skip
  else if bool_decide (2 < length (dependents (timeCoord c)))%nat then skip
  else if bool_decide (2 < length (getDependencies (timeCoord c)))%nat then skip
  else
    let '(localcnt, fedid, brkid) := split_dependents c in
    if 1 <? localcnt then skip
    else if (localcnt =? 0) && negb (GlobalBrokerId.isValid brkid)
    then modifies (fun c => c <| hasTimeDependency := false |>)
    else if forallb (fun dep => (dep =? fedid) || (dep =? brkid)) (getDependencies (timeCoord c))
    then bypass_core (fst sides) (snd sides) fedid brkid
    else skip.

(** The request for initialization, once everything below is ready. *)
Definition request_init (command : ActionMessage) : M unit :=
  let* ready := allInitReady in
  if (ready : bool) then
    let* first := exchangeState BState.connected BState.initializing in
    if (first : bool) then checkDependencies;; transmit RouteId.parent_route_id command else skip
  else skip.

(** ** Configuration *)

(** [defs::flags] and [defs::properties] of the core *)
Definition delay_init_entry : Z := 45.
Definition enable_init_entry : Z := 47.

(** [dataAirlocks[ii].try_unload ()] *)
Definition try_unload (ii : Z) : M (option airlock_content) :=
  let* locks := gets dataAirlocks in
  let* content := deref (locks !! Z.to_nat ii) in
  modifies (fun c => c <| dataAirlocks ::= <[Z.to_nat ii := None]> |>);;
  mret content.

Definition processCoreConfigureCommands (cmd : ActionMessage) : M unit :=
  let* c := gets (fun c => c) in
  if messageID cmd =? enable_init_entry then
    if delayInitCounter c <=? 1 then
      modifies (fun c => c <| delayInitCounter := 0 |>);;
      request_init (setAction cmd_init cmd <| source_id := global_broker_id_local c |>
                                           <| dest_id := parent_broker_id |>)
    else modifies (fun c => c <| delayInitCounter ::= fun n => swrap 16 (n - 1) |>)
  else if messageID cmd =? Prop_.log_level then modifies (fun c => c <| maxLogLevel := counter cmd |>)
  else if messageID cmd =? UPDATE_LOGGING_CALLBACK then
    if checkActionFlag cmd empty_flag then emit (LoggerChanged false)
    else
      let* content := try_unload (counter cmd) in
      match content with
      | None => skip
      | Some LoggerFunction => emit (LoggerChanged true)
      | Some (Operator _) => deref None
      end
  else if messageID cmd =? UPDATE_FILTER_OPERATOR then
    let* found := find_filter (GlobalHandle (global_broker_id_local c) (source_handle cmd)) in
    let* content := try_unload (counter cmd) in
    match content with
    | None => skip
    | Some (Operator op) =>
        let* p := deref found in set_filter p (fun f => f <| Filt.filterOp := Some op |>)
    | Some LoggerFunction => deref None
    end
  else skip.

(** ** Queries *)

Definition bool_word (c : bool) : string := if c then "true" else "false".
Definition to_string (z : Z) : string := pretty z.
Definition ids : list Z -> string := generateStringVector to_string.

(** [FederateState::processQuery] *)
Definition processQuery (query : string) (f : LocalFed D) : string :=
  let ii := Fed.interfaceInformation (Local.fs f) in
  if bool_decide (query = "publications")
  then generateStringVector Publication.key (dm_elements (Interfaces.publications ii))
  else if bool_decide (query = "inputs")
  then generateStringVector NamedInputInfo.key (dm_elements (Interfaces.inputs ii))
  else if bool_decide (query = "endpoints")
  then generateStringVector Endpoint.key (dm_elements (Interfaces.endpoints ii))
  else if bool_decide (query = "dependencies")
  then ids (TimeCoordinator.getDependencies (Fed.timeCoord (Local.fs f)))
  else if bool_decide (query = "dependents")
  then ids (getDependents (Fed.timeCoord (Local.fs f)))
  else match Local.queryCallback f with Some callback => callback query | None => "#invalid" end.

Definition federateQuery (fed : option (LocalFed D)) (queryStr : string) : string :=
  let exists_query := bool_decide (queryStr = "exists") || bool_decide (queryStr = "exist") in
  match fed with
  | None => if exists_query then "false" else "#invalid"
  | Some f =>
      if exists_query then "true"
      else if bool_decide (queryStr = "isinit") then bool_word (Local.init_transmitted f)
      else if bool_decide (queryStr = "state") then to_string (Fed.state_code (Fed.state (Local.fs f)))
      else processQuery queryStr f
  end.

Definition json_ids (label : string) (l : list Z) (base : json) : json :=
  fold_left (fun base id => json_append label (json_int id) base) l (json_set label json_array base).

Definition names_of (what : handle_type) (c : CommonCore C D) : string :=
  generateStringVector_if Basic.key (fun h => bool_decide (Basic.handleType h = what))
    (HandleManager.handles (loopHandles c)).

(** the heading of a document on this core *)
Definition heading (c : CommonCore C D) : json :=
  json_set "parent" (json_int (higher_broker_id c))
    (json_set "id" (json_int (global_broker_id_local c)) (json_set "name" (json_string (identifier c)) json_null)).

Definition fed_heading (c : CommonCore C D) (f : LocalFed D) : json :=
  json_set "parent" (json_int (global_broker_id_local c))
    (json_set "id" (json_int (Fed.global_id (Local.fs f)))
       (json_set "name" (json_string (Fed.name (Local.fs f))) json_null)).

Definition federate_map (c : CommonCore C D) (feds : list (LocalFed D)) : json :=
  fold_left (fun block f => json_append "federates" (fed_heading c f) block) feds
    (json_set "federates" json_array (heading c)).

Definition dependency_graph (c : CommonCore C D) (feds : list (LocalFed D)) : json :=
  let block := json_set "federates" json_array (heading c) in
  let block := json_ids "dependents" (dependents (timeCoord c)) block in
  let block := json_ids "dependencies" (getDependencies (timeCoord c)) block in
  fold_left (fun block f =>
      let tc := Fed.timeCoord (Local.fs f) in
      json_append "federates"
        (json_ids "dependents" (getDependents tc)
           (json_ids "dependencies" (TimeCoordinator.getDependencies tc) (fed_heading c f))) block)
    feds block.

(** the federates of the loop, whose pointers are followed *)
Definition loop_federates (c : CommonCore C D) : option (list (LocalFed D)) :=
  mapM (fun e => p ← Loop.fed e; federate_of p c) (dv_elements (loopFederates c)).

Definition coreQuery (queryStr : string) : M string :=
  let* c := gets (fun c => c) in
  let with_federates (f : list (LocalFed D) -> string) := let* feds := deref (loop_federates c) in mret (f feds) in
  if bool_decide (queryStr = "federates")
  then with_federates (generateStringVector (fun f => Fed.name (Local.fs f)))
  else if bool_decide (queryStr = "publications") then mret (names_of Kind.publication c)
  else if bool_decide (queryStr = "endpoints") then mret (names_of Kind.endpoint c)
  else if bool_decide (queryStr = "dependson") then mret (ids (getDependencies (timeCoord c)))
  else if bool_decide (queryStr = "dependents") then mret (ids (dependents (timeCoord c)))
  else if bool_decide (queryStr = "isinit") then let* ready := allInitReady in mret (bool_word ready)
  else if bool_decide (queryStr = "name") then mret (identifier c)
  else if bool_decide (queryStr = "address") then getAddress
  else if bool_decide (queryStr = "dependencies")
  then mret (generateJsonString (json_ids "dependencies" (getDependencies (timeCoord c))
                                   (json_ids "dependents" (dependents (timeCoord c)) (heading c))))
  else if bool_decide (queryStr = "federate_map")
  then with_federates (fun feds => generateJsonString (federate_map c feds))
  else if bool_decide (queryStr = "dependency_graph")
  then with_federates (fun feds => generateJsonString (dependency_graph c feds))
  else mret "#invalid"%string.

(** The loop of the core asks the core: it would wait for itself, except for
    what [query] answers at once. *)
Definition query_self (queryStr : string) : M string :=
  if bool_decide (queryStr = "name") then gets identifier
  else if bool_decide (queryStr = "address") then getAddress
  else deref None.

Definition broker_query (command : ActionMessage) : M unit :=
  let* local := gets global_broker_id_local in
  if dest_id command =? local then
    let* repStr := coreQuery (payload command) in
    if source_id command =? local then setDelayedValue (messageID command) repStr
    else
      let queryResp := newMessage cmd_query_reply <| dest_id := source_id command |> <| source_id := local |>
                         <| messageID := messageID command |> <| payload := repStr |>
                         <| counter := counter command |> in
      let* c := gets (fun c => c) in
      transmit (getRoute_of (dest_id queryResp) c) queryResp
  else routeMessage_move command.

Definition federate_query (command : ActionMessage) : M unit :=
  let target := getString targetStringLoc command in
  let* c := gets (fun c => c) in
  let own := bool_decide (target = identifier c) in
  let* repStr := if own then query_self (payload command)
                 else let* p := getFederateCore_name target in
                      mret (federateQuery (federate_behind p c) (payload command)) in
  transmit (getRoute_of (source_id command) c)
    (newMessage cmd_query_reply <| dest_id := source_id command |>
       <| source_id := if own then global_broker_id_local c else dest_id command |>
       <| messageID := messageID command |> <| counter := counter command |> <| payload := repStr |>).
End Control.
End CControl.
