(* ===== verification/CoreCommands.v ===== *)
(** * A core: the commands

    Models [processCommand] and [processPriorityCommand] of
    [src/helics/core/CommonCore.cpp], with the methods the queue of
    [BrokerBase.cpp] calls. *)

From S2P Require Import Prelude BrokerBase HTime Identifiers CoreData StateMonad DualVector JsonBuilder TimeDependencies TimeCoordinator ForwardingTimeCoordinator EndpointInfo InterfaceInfo HandleManager CoreTypes FederateState CoreBroker BrokerControl CommonCore CoreFilters CoreInterfaces CoreControl ActionMessage.
Import Basic (BasicHandleInfo) Kind (handle_type) Local (LocalFed) Core CFilters CLinks CControl.

Module CCommands.
Section Commands.
Context `{Platform} {C : Type -> Type} `{DualVector C} {D : Type -> Type} `{DualMapped D} `{FilterOperators} `{JsonLib}.
Context (fmt_format : string -> list string -> string) (generateLocalAddressString : string).
Local Abbreviation M := (Core.M C D).

(** ** Priority commands *)

Definition reg_fed (command : ActionMessage) : M unit :=
  let* fed := getFederate (name command) in
  modifies (fun c => c <| loopFederates ::= fun l => snd (dv_insert (name command) None (Loop.mkFedInfo fed false) l) |>);;
  let* local := gets global_broker_id_local in
  if negb (local =? parent_broker_id)
  then transmit RouteId.parent_route_id (command <| source_id := local |>)
  else modifies (fun c => c <| delayTransmitQueue ::= fun q => q ++ [command] |>).

Definition broker_ack (command : ActionMessage) : M unit :=
  let* c := gets (fun c => c) in
  when (bool_decide (payload command = identifier c) && negb (checkActionFlag command error_flag))
    (modifies (fun c => c <| global_id := dest_id command |> <| global_broker_id_local := dest_id command |>
                          <| timeCoord ::= fun fc => fc <| ForwardingTimeCoordinator.source_id := dest_id command |> |>
                          <| higher_broker_id := source_id command |>);;
     transmitDelayedMessages;;
     set_monitor Control.reset_monitor).

Definition fed_ack (command : ActionMessage) : M unit :=
  let* fed := getFederateCore_name (name command) in
  match fed with
  | None => skip
  | Some p =>
      when (negb (checkActionFlag command error_flag))
        (set_fed p (fun fs => fs <| Fed.global_id := dest_id command |>);;
         modifies (fun c => c <| loopFederates ::= dv_add_term (dest_id command) (name command) |>));;
      addAction p command
  end.

(** The commands with a case of their own; the others are no priority commands
    or have no effect. *)
Definition priority_command (command : ActionMessage) : M unit :=
  match messageAction command with
  | cmd_reg_fed => reg_fed command
  | cmd_reg_broker => transmit RouteId.parent_route_id command
  | cmd_broker_ack => broker_ack command
  | cmd_fed_ack => fed_ack command
  | cmd_register_route => addRoute (getExtraData command) (payload command)
  | cmd_priority_disconnect => checkAndProcessDisconnect;; skip
  | cmd_broker_query => broker_query generateLocalAddressString command
  | cmd_query => federate_query generateLocalAddressString command
  | cmd_query_reply =>
      let* local := gets global_broker_id_local in
      when (dest_id command =? local) (setDelayedValue (messageID command) (payload command))
  | _ => skip
  end.

(** ** Time *)

(** A timing message of a federate whose messages are still being filtered
    waits; [true] when it does. *)
Definition delay_timing (command : ActionMessage) : M bool :=
  let* c := gets (fun c => c) in
  if isLocal_of (source_id command) c && negb (none_ongoing (source_id command) (ongoingFilterProcesses c)) then
    modifies (fun c => c <| delayedTimingMessages ::=
      fun m => <[source_id command := default [] (m !! source_id command) ++ [command]]> m |>);;
    mret true
  else mret false.

Definition to_dependents (command : ActionMessage) : M unit :=
  let* deps := gets (fun c => dependents (timeCoord c)) in
  for_each deps (routeMessage_to command).

Definition exec_command (command : ActionMessage) : M unit :=
  let* delayed := delay_timing command in
  if (delayed : bool) then skip
  else
    let* c := gets (fun c => c) in
    if dest_id command =? global_broker_id_local c then
      tc (processTimeMessage command);;
      when (negb (enteredExecutionMode c)) check_exec_entry
    else if source_id command =? global_broker_id_local c then to_dependents command
    else routeMessage command.

Definition time_command (command : ActionMessage) : M unit :=
  let* delayed := delay_timing command in
  if (delayed : bool) then skip
  else
    let* local := gets global_broker_id_local in
    if source_id command =? local then to_dependents command else routeMessage command.

(** ** Disconnection *)

Definition disconnect_federate (command : ActionMessage) (p : nat) : M unit :=
  modifies (fun c => c <| loopFederates ::= dv_modify p (fun e => e <| Loop.disconnected := true |>) |>);;
  let* cstate := gets brokerState in
  let* done := checkAndProcessDisconnect in
  if negb done || BState.lt cstate BState.operating then
    transmit RouteId.parent_route_id (setAction cmd_disconnect_fed command);;
    let* c := gets (fun c => c) in
    when (negb (allFedDisconnected c))
      (routeMessage (setAction cmd_disconnect_fed_ack command <| dest_id := source_id command |>
                       <| source_id := parent_broker_id |>))
  else skip.

Definition disconnect_command (command : ActionMessage) : M unit :=
  if dest_id command =? parent_broker_id then
    let* c := gets (fun c => c) in
    if BState.lt (brokerState c) BState.terminating then
      match dv_find_id (source_id command) (loopFederates c) with
      | Some p => disconnect_federate command p
      | None => skip
      end
    else skip
  else routeMessage command.

(** ** Links and values *)

Definition search_dependency (command : ActionMessage) : M unit :=
  let* fed := getFederateCore_name (name command) in
  let* info := gets (federate_behind fed) in
  match info with
  | Some f =>
      let gid := Fed.global_id (Local.fs f) in
      if GlobalFedId.isValid gid then
        routeMessage (msg_from_to cmd_add_dependency gid (source_id command));;
        routeMessage (msg_from_to cmd_add_dependent (source_id command) gid)
      else transmit RouteId.parent_route_id command
  | None => transmit RouteId.parent_route_id command
  end.

(** A value goes to the subscribers the federate has for the publication. *)
Definition publish (command : ActionMessage) : M unit :=
  if dest_id command =? parent_broker_id then
    let* info := gets (fun c => federate_behind (getFederateCore_of (source_id command) c) c) in
    match info with
    | None => skip
    | Some f =>
        match Interfaces.getPublication (source_handle command) (Fed.interfaceInformation (Local.fs f)) with
        | None => skip
        | Some pubInfo =>
            for_each (Publication.subscribers pubInfo)
              (fun subscriber => routeMessage (setDestination subscriber command))
        end
    end
  else routeMessage command.

(** a command for the core itself, or one to pass on *)
Definition for_core (command : ActionMessage) (m : M unit) : M unit :=
  let* local := gets global_broker_id_local in
  if dest_id command =? local then m else routeMessage command.

Definition log_as (id level : Z) (command : ActionMessage) : M unit :=
  let* who := getFederateNameNoThrow (source_id command) in
  sendToLogger fmt_format id level who (payload command);; skip.

Definition error_command (command : ActionMessage) : M unit :=
  let* higher := gets higher_broker_id in
  if source_id command =? higher then sendErrorToFederates (messageID command)
  else log_as parent_broker_id log_error command.

Definition data_link (command : ActionMessage) : M unit :=
  let target := getString targetStringLoc command in
  let* lh := gets loopHandles in
  match getPublication (name command) lh with
  | Some pub =>
      checkForNamedInterface (setStringData [] (setSource (Basic.handle pub)
        (setAction cmd_add_named_input command <| payload := target |>)))
  | None =>
      match getInput target lh with
      | None => routeMessage command
      | Some input =>
          checkForNamedInterface (setStringData [] (setSource (Basic.handle input)
            (setAction cmd_add_named_publication command)))
      end
  end.

Definition filter_link (command : ActionMessage) : M unit :=
  let target := getString targetStringLoc command in
  let* lh := gets loopHandles in
  match HandleManager.getFilter (name command) lh with
  | Some filt =>
      checkForNamedInterface (setSource (Basic.handle filt)
        (setAction cmd_add_named_endpoint command <| payload := target |>))
  | None =>
      match getEndpoint target lh with
      | None => routeMessage command
      | Some ept => checkForNamedInterface (setSource (Basic.handle ept) (setAction cmd_add_named_filter command))
      end
  end.

(** ** The start *)

Definition init_command (command : ActionMessage) : M unit :=
  let* fed := getFederateCore (source_id command) in
  match fed with
  | None => skip
  | Some p =>
      set_local p (fun l => l <| Local.init_transmitted := true |>);;
      let* local := gets global_broker_id_local in
      request_init (command <| source_id := local |>)
  end.

Definition init_grant (command : ActionMessage) : M unit :=
  let* first := exchangeState BState.initializing BState.operating in
  if (first : bool) then
    organizeFilterOperations;;
    for_federates (fun p => addAction p command);;
    tc_ enteringExecMode;;
    check_exec_entry;;
    let* c := gets (fun c => c) in
    when (negb (hasActiveTimeDependencies (timeCoord c))) (tc_ disconnect)
  else skip.

Definition core_ack (command : ActionMessage) : M unit :=
  let* c := gets (fun c => c) in
  when ((dest_id command =? global_broker_id_local c) && (source_id command =? higher_broker_id c))
    (say_bye not_finished;; addActionMessage (newMessage cmd_stop)).

(** A message of a local federate goes through the filters of its source. *)
Definition send_message (command : ActionMessage) : M unit :=
  let* c := gets (fun c => c) in
  if (dest_id command =? parent_broker_id) && isLocal_of (source_id command) c
  then let* m := processMessage command in deliverMessage m
  else deliverMessage command.

(** ** The switch *)

Definition processCommand (now : Z) (command : ActionMessage) : M unit :=
  match messageAction command with
  | cmd_ignore => skip
  | cmd_tick => tick fmt_format generateLocalAddressString now
  | cmd_ping =>
      let* local := gets global_broker_id_local in
      when (dest_id command =? local) (routeMessage (msg_from_to cmd_ping_reply local (source_id command)))
  | cmd_ping_reply =>
      let* local := gets global_broker_id_local in
      when (dest_id command =? local) (set_monitor Control.pingReply)
  | cmd_resend => resend_registration generateLocalAddressString command
  | cmd_check_connections | cmd_disconnect_check => checkAndProcessDisconnect;; skip
  | cmd_user_disconnect => leave;; addActionMessage (newMessage cmd_stop)
  | cmd_broadcast_disconnect =>
      tc (processTimeMessage command);;
      for_federates (fun p => addAction p command);;
      checkAndProcessDisconnect;; skip
  | cmd_stop => leave
  | cmd_exec_grant | cmd_exec_request => exec_command command
  | cmd_time_request | cmd_time_grant => time_command command
  | cmd_disconnect | cmd_disconnect_fed => disconnect_command command
  | cmd_disconnect_core_ack => core_ack command
  | cmd_search_dependency => search_dependency command
  | cmd_add_dependency | cmd_remove_dependency | cmd_add_dependent | cmd_remove_dependent
  | cmd_add_interdependency | cmd_remove_interdependency => routeMessage command
  | cmd_send_for_filter | cmd_send_for_filter_return | cmd_send_for_dest_filter_return =>
      processMessageFilter command
  | cmd_null_message | cmd_filter_result => processFilterReturn command
  | cmd_dest_filter_result | cmd_null_dest_message => processDestFilterReturn command
  | cmd_pub => publish command
  | cmd_log => for_core command (log_as parent_broker_id (messageID command) command)
  | cmd_warning => for_core command (log_as (source_id command) log_warning command)
  | cmd_error => for_core command (error_command command)
  | cmd_data_link => data_link command
  | cmd_filter_link => filter_link command
  | cmd_reg_input | cmd_reg_end | cmd_reg_pub | cmd_reg_filter => registerInterface command
  | cmd_add_named_endpoint | cmd_add_named_publication | cmd_add_named_input | cmd_add_named_filter =>
      checkForNamedInterface command
  | cmd_add_endpoint | cmd_add_filter | cmd_add_subscriber | cmd_add_publisher => addTargetToInterface command
  | cmd_remove_named_endpoint | cmd_remove_named_publication | cmd_remove_named_input
  | cmd_remove_named_filter => removeNamedTarget command
  | cmd_remove_publication | cmd_remove_subscriber | cmd_remove_filter | cmd_remove_endpoint =>
      removeTargetFromInterface command
  | cmd_close_interface => disconnectInterface command
  | cmd_core_configure => processCoreConfigureCommands command
  | cmd_init => init_command command
  | cmd_init_grant => init_grant command
  | cmd_send_message => send_message command
  | _ => if isPriorityCommand command then priority_command command else skip
  end.

Definition processPriorityCommand (now : Z) (command : ActionMessage) : M unit :=
  if isPriorityCommand command then priority_command command else processCommand now command.

(** ** The queue *)

Definition core_methods : BrokerMethods (CommonCore C D) := {|
  BrokerBase.haltOperations := haltOperations;
  BrokerBase.processCommand := processCommand;
  BrokerBase.processPriorityCommand := processPriorityCommand;
  BrokerBase.processDisconnect := processDisconnect;
|}.

Definition queueProcessingLoop : nat -> list (Z * ActionMessage) -> Z -> M (loop_next * Z) :=
  Base.queueProcessingLoop core_methods.
End Commands.
End CCommands.
