(* ===== verification/CoreCalls.v ===== *)
(** * A core: the calls of its federates

    Models the functions of [src/helics/core/CommonCore.cpp] that federates and
    applications call, on their own threads: what each changes at once and what
    it puts into the queue of the core.  A call gives a value or throws.  What
    [waitCoreRegistration] answers and what the federate answers to
    [waitSetup] are arguments, since the caller waits for the loop of the core.
    The calls in which a federate waits for a grant are not here. *)

From Stdlib Require Import Ascii.
From stdpp Require Import pretty.
From S2P Require Import Prelude HTime Identifiers CoreData StateMonad DualVector JsonBuilder TimeDependencies TimeCoordinator ForwardingTimeCoordinator NamedInputInfo EndpointInfo InterfaceInfo HandleManager CoreTypes FederateState CoreBroker CommonCore CoreFilters CoreControl ActionMessage.
Import Basic (BasicHandleInfo) Kind (handle_type) Fed (FederateState) Local (LocalFed) Core CFilters CControl.

Inductive exn :=
  | InvalidIdentifier (what : string)
  | InvalidParameter (what : string)
  | RegistrationFailure (what : string)
  | FunctionExecutionFailure (what : string)
  | InvalidFunctionCall (what : string)
  | ConnectionFailure (what : string)
  | HelicsSystemFailure
  | HelicsException (what : string).

Module Calls.
Section Calls.
Context `{Platform} {C : Type -> Type} `{DualVector C} {D : Type -> Type} `{DualMapped D} `{FilterOperators} `{JsonLib}.
Context (fmt_format : string -> list string -> string) (generateLocalAddressString : string).
Local Abbreviation M := (Core.M C D).

(** a call: an exception or a value *)
Local Abbreviation Call A := (M (exn + A)).
Definition returns {A} (a : A) : Call A := mret (inr a).
Definition throw {A} (e : exn) : Call A := mret (inl e).
Definition after (m : M unit) : Call unit := m;; returns tt.

(** the federate of a call, which throws when there is none *)
Definition with_federate {A} (federateID : local_federate_id) (what : string)
    (k : nat -> FederateState (C := D) -> Call A) : Call A :=
  let* fed := getFederateAt federateID in
  match fed with
  | None => throw (InvalidIdentifier what)
  | Some p => let* f := federate_at p in k p (Local.fs f)
  end.

(** the interface of a call, which throws when there is none *)
Definition with_handle {A} (handle : interface_handle) (what : string) (k : BasicHandleInfo -> Call A) : Call A :=
  let* info := getHandleInfo handle in
  match info with None => throw (InvalidIdentifier what) | Some hndl => k hndl end.

(** the federate of an interface, whose pointer is followed *)
Definition owner (hndl : BasicHandleInfo) : M (nat * FederateState (C := D)) :=
  let* fed := getFederateAt (Basic.local_fed_id hndl) in
  let* p := deref fed in
  let* f := federate_at p in
  mret (p, Local.fs f).

(** ** Federates *)

Definition registerFederate (name_ : string) (registered : bool) (timeProps : list (Z * Time))
    (intProps : list (Z * Z)) (flagProps : list (Z * bool)) (setup : ItRes.iteration_result) (errorString : string)
    : Call local_federate_id :=
  let* c := gets (fun c => c) in
  if negb registered
  then throw (RegistrationFailure "core is unable to register and has timed out, federate cannot be registered")
  else if negb (BState.lt (brokerState c) BState.operating)
  then throw (RegistrationFailure "Core has already moved to operating state")
  else
    let fed := Local.mkLocal (Fed.make_federate name_ timeProps intProps flagProps) false false None in
    let* r := gets (fun c => dv_insert name_ None fed (federates c)) in
    modifies (fun c => c <| federates := snd r |>);;
    match fst r with
    | None => throw (RegistrationFailure ("duplicate names " +:+ name_ +:+
                       "detected multiple federates with the same name"))
    | Some id =>
        set_fed id (fun fs => fs <| Fed.local_id := int32 (Z.of_nat id) |> <| Fed.has_parent := true |>);;
        addActionMessage (newMessage cmd_reg_fed <| payload := name_ |>);;
        match setup with
        | ItRes.next_step => returns (int32 (Z.of_nat id))
        | _ => throw (RegistrationFailure ("fed received Failure " +:+ errorString))
        end
    end.

Definition getFederateName (federateID : local_federate_id) : Call string :=
  with_federate federateID "federateID not valid (federateName)" (fun _ fs => returns (Fed.name fs)).

Definition getFederateId (name_ : string) : M local_federate_id :=
  gets (fun c => match dv_get_name name_ (federates c) with
                 | Some f => Fed.local_id (Local.fs f)
                 | None => LocalFedId.invalid
                 end).

Definition getFederationSize : M Z :=
  gets (fun c => if negb (BState.lt (brokerState c) BState.operating) then _global_federation_size c
                 else int32 (dv_size (federates c))).

Definition getCurrentTime (federateID : local_federate_id) : Call Time :=
  with_federate federateID "federateID not valid (getCurrentTime)" (fun _ fs => returns (Fed.time_granted fs)).

Definition getCurrentReiteration (federateID : local_federate_id) : Call Z :=
  with_federate federateID "federateID not valid (getCurrentReiteration)"
    (fun _ fs => returns (uint64 (Fed.getCurrentIteration fs))).

(** ** Properties *)

Definition setIntegerProperty (registered : bool) (federateID : local_federate_id) (property propertyValue : Z)
    : Call unit :=
  if federateID =? LocalFedId.local_core_id then
    if negb registered
    then throw (FunctionExecutionFailure "core is unable to register and has timed out, property was not set")
    else
      let* gid := gets global_id in
      after (addActionMessage (newMessage cmd_core_configure <| dest_id := gid |> <| messageID := property |>
                                 <| counter := uint16 propertyValue |>))
  else
    with_federate federateID "federateID not valid (getMaximumIterations)" (fun p _ =>
      after (set_fed p (Fed.setProperties (newMessage cmd_fed_configure_int <| messageID := property |>
                                             <| counter := uint16 propertyValue |>)))).

Definition setTimeProperty (federateID : local_federate_id) (property : Z) (time : Time) : Call unit :=
  with_federate federateID "federateID not valid (setTimeDelta)" (fun p _ =>
    if time <? T.timeZero then throw (InvalidParameter "time properties must be greater than or equal to zero")
    else after (set_fed p (Fed.setProperties (newMessage cmd_fed_configure_time <| messageID := property |>
                                                <| actionTime := time |>)))).

Definition getTimeProperty (federateID : local_federate_id) (property : Z) : Call Time :=
  with_federate federateID "federateID not valid (setTimeDelta)" (fun _ fs => returns (Fed.getTimeProperty property fs)).

(** the result is an [int16_t] *)
Definition getIntegerProperty (federateID : local_federate_id) (property : Z) : Call Z :=
  if federateID =? LocalFedId.local_core_id then returns 0
  else with_federate federateID "federateID not valid (setTimeDelta)"
         (fun _ fs => returns (swrap 16 (Fed.getIntegerProperty property fs))).

Definition flag_command (a : action_t) (flag : Z) (flagValue : bool) : ActionMessage :=
  let cmd := newMessage a <| messageID := flag |> in
  if flagValue then setActionFlag indicator_flag cmd else cmd.

Definition setFlagOption (federateID : local_federate_id) (flag : Z) (flagValue : bool) : Call unit :=
  if federateID =? LocalFedId.local_core_id then
    after (if flag =? delay_init_entry then
             if flagValue then modifies (fun c => c <| delayInitCounter ::= fun n => swrap 16 (n + 1) |>)
             else addActionMessage (newMessage cmd_core_configure <| messageID := delay_init_entry |>)
           else when (flag =? enable_init_entry)
                  (addActionMessage (flag_command cmd_core_configure enable_init_entry flagValue)))
  else
    with_federate federateID "federateID not valid (setFlag)" (fun p _ =>
      after (set_fed p (Fed.setProperties (flag_command cmd_fed_configure_flag flag flagValue)))).

Definition setCoreReadyToInit : Call unit := setFlagOption LocalFedId.local_core_id enable_init_entry true.

(** [getOptionFlag] may throw *)
Definition getFlagOption (federateID : local_federate_id) (flag : Z) : Call bool :=
  if federateID =? LocalFedId.local_core_id then returns false
  else with_federate federateID "federateID not valid (setTimeDelta)" (fun _ fs =>
         match Fed.getOptionFlag flag fs with
         | Some b => returns b
         | None => throw (InvalidParameter "flag not recognized")
         end).

(** ** Registration of interfaces *)

Definition createBasicHandle (global_federateId : global_federate_id) (local_federateId : local_federate_id)
    (HandleType : handle_type) (key type units : string) (flags : Z) : M BasicHandleInfo :=
  let* hm := gets handles in
  let '(hndl, hm') := addHandle global_federateId HandleType key type units hm in
  let assign h := h <| Basic.local_fed_id := local_federateId |> <| Basic.flags := flags |> in
  modifies (fun c => c <| handles := hm' <| HandleManager.handles ::=
                            alter assign (length (HandleManager.handles hm)) |> |>);;
  mret (assign hndl).

(** An interface of a federate: the handle, the interface, and the command for
    the loop, with the strings [strs]. *)
Definition register_interface (taken : HandleManager -> option BasicHandleInfo) (already what : string)
    (kind : handle_type) (action : action_t) (federateID : local_federate_id) (key type units : string)
    (strs : list string) : Call interface_handle :=
  with_federate federateID what (fun p fs =>
    let* hm := gets handles in
    match taken hm with
    | Some _ => throw (RegistrationFailure already)
    | None =>
        let* handle := createBasicHandle (Fed.global_id fs) (Fed.local_id fs) kind key type units
                         (Fed.interfaceFlags fs) in
        let id := Basic.getInterfaceHandle handle in
        set_fed p (Fed.createInterface kind id key type units);;
        addActionMessage (setStringData strs (newMessage action <| source_id := Fed.global_id fs |>
          <| source_handle := id |> <| payload := key |> <| flags := Basic.flags handle |>));;
        returns id
    end).

Definition registerInput (federateID : local_federate_id) (key type units : string) : Call interface_handle :=
  register_interface (HandleManager.getInput key) "named Input already exists"
    "federateID not valid (registerNamedInput)" Kind.input cmd_reg_input federateID key type units [type; units].

Definition registerPublication (federateID : local_federate_id) (key type units : string) : Call interface_handle :=
  register_interface (HandleManager.getPublication key) "Publication key already exists"
    "federateID not valid (registerPublication)" Kind.publication cmd_reg_pub federateID key type units [type; units].

Definition registerEndpoint (federateID : local_federate_id) (name_ type : string) : Call interface_handle :=
  register_interface (HandleManager.getEndpoint name_) "endpoint name is already used"
    "federateID not valid (registerEndpoint)" Kind.endpoint cmd_reg_end federateID name_ type "" [type].

(** [registerFilter] and [registerCloningFilter] *)
Definition register_filter_as (clones registered : bool) (filterName type_in type_out : string) : Call interface_handle :=
  let* c := gets (fun c => c) in
  if negb (bool_decide (filterName = "")) && bool_decide (is_Some (HandleManager.getFilter filterName (handles c)))
  then throw (RegistrationFailure "there already exists a filter with this name")
  else if negb registered then
    throw (RegistrationFailure
             (if negb (BState.lt (brokerState c) BState.terminating)
              then "core is terminated no further registration possible" else "registration timeout exceeded"))
  else
    let brkid := global_id c in
    let* handle := createBasicHandle brkid LocalFedId.invalid Kind.filter filterName type_in type_out
                     (if clones then make_flags clone_flag else 0) in
    let id := Basic.getInterfaceHandle handle in
    let m := newMessage cmd_reg_filter <| source_id := brkid |> <| source_handle := id |>
               <| payload := Basic.key handle |> in
    let m := if clones then setActionFlag clone_flag m else m in
    addActionMessage (if bool_decide (type_in = "") && bool_decide (type_out = "") then m
                      else setStringData [type_in; type_out] m);;
    returns id.
Definition registerFilter : bool -> string -> string -> string -> Call interface_handle := register_filter_as false.
Definition registerCloningFilter : bool -> string -> string -> string -> Call interface_handle := register_filter_as true.

(** ** Looking up interfaces *)

(** The handle of an interface of a federate; there is no result for a name
    that is not known, whose null pointer is followed. *)
Definition own_handle (find : HandleManager -> option BasicHandleInfo) (federateID : local_federate_id)
    : M interface_handle :=
  let* hm := gets handles in
  let* hndl := deref (find hm) in
  mret (if negb (Basic.local_fed_id hndl =? federateID) then InterfaceHandle.invalid
        else Basic.getInterfaceHandle hndl).

Definition getInput (federateID : local_federate_id) (key : string) : M interface_handle :=
  own_handle (HandleManager.getInput key) federateID.
Definition getPublication (federateID : local_federate_id) (key : string) : M interface_handle :=
  own_handle (HandleManager.getPublication key) federateID.
Definition getEndpoint (federateID : local_federate_id) (name_ : string) : M interface_handle :=
  own_handle (HandleManager.getEndpoint name_) federateID.

Definition getFilter (name_ : string) : M interface_handle :=
  gets (fun c => match HandleManager.getFilter name_ (handles c) with
                 | Some filt => if bool_decide (Basic.handleType filt = Kind.filter)
                                then Basic.getInterfaceHandle filt else InterfaceHandle.invalid
                 | None => InterfaceHandle.invalid
                 end).

Definition of_handle (handle : interface_handle) (f : BasicHandleInfo -> string) : M string :=
  let* info := getHandleInfo handle in
  mret match info with Some handleInfo => f handleInfo | None => ""%string end.

Definition getHandleName (handle : interface_handle) : M string := of_handle handle Basic.key.
Definition getInterfaceInfo (handle : interface_handle) : M string := of_handle handle Basic.interface_info.

Definition getUnits (handle : interface_handle) : M string :=
  of_handle handle (fun h => match Basic.handleType h with
                             | Kind.input | Kind.publication => Basic.units h
                             | _ => ""%string
                             end).

(** the type of what comes in: of an input, the type its source gave it *)
Definition getInjectionType (handle : interface_handle) : M string :=
  let* info := getHandleInfo handle in
  match info with
  | None => mret ""%string
  | Some h =>
      match Basic.handleType h with
      | Kind.input =>
          let* o := owner h in
          mret match Fed.getInput handle (snd o) with Some inpInfo => inputType inpInfo | None => ""%string end
      | Kind.endpoint | Kind.filter => mret (Basic.type h)
      | _ => mret ""%string
      end
  end.

Definition getExtractionType (handle : interface_handle) : M string :=
  of_handle handle (fun h => match Basic.handleType h with
                             | Kind.publication | Kind.input | Kind.endpoint => Basic.type h
                             | Kind.filter => Basic.units h
                             | _ => ""%string
                             end).

Definition setInterfaceInfo (handle : interface_handle) (info : string) : M unit :=
  let* hndl := getHandleInfo handle in
  deref hndl;;
  modifies (fun c => c <| handles ::= fun hm =>
    hm <| HandleManager.handles ::= alter (Basic.setInfoField info) (Z.to_nat handle) |> |>).

(** ** Options, links and the end of interfaces *)

Definition handle_type_code (h : handle_type) : Z := Z.of_nat (nat_of_ascii (Kind.handle_type_char h)).

Definition setHandleOption (handle : interface_handle) (option_ : Z) (option_value : bool) : M unit :=
  let* info := getHandleInfo handle in
  match info with
  | None => skip
  | Some handleInfo =>
      modifies (fun c => c <| handles ::= HandleManager.setHandleOption handle option_ option_value |>);;
      let fcn := flag_command cmd_interface_configure option_ option_value
                   <| dest_handle := handle |> <| counter := handle_type_code (Basic.handleType handleInfo) |> in
      if bool_decide (Basic.handleType handleInfo <> Kind.filter) then
        let* fed := getHandleFederate handle in
        match fed with
        | None => skip
        | Some p => set_fed p (fun fs => Fed.setProperties (fcn <| dest_id := Fed.global_id fs |>) fs)
        end
      else skip
  end.

Definition getHandleOption (handle : interface_handle) (option_ : Z) : M bool :=
  let* info := getHandleInfo handle in
  match info with
  | None => mret false
  | Some handleInfo =>
      if (option_ =? Opt.connection_required) || (option_ =? Opt.connection_optional)
      then gets (fun c => HandleManager.getHandleOption handle option_ (handles c))
      else if bool_decide (Basic.handleType handleInfo <> Kind.filter) then
        let* fed := getFederateAt (Basic.local_fed_id handleInfo) in
        match fed with
        | None => mret false
        | Some p => let* f := federate_at p in
                    mret (Fed.getHandleOption handle (Basic.handleType handleInfo) option_ (Local.fs f))
        end
      else mret false
  end.

Definition closeHandle (handle : interface_handle) : Call unit :=
  with_handle handle "invalid handle" (fun handleInfo =>
    if check_flag (Basic.flags handleInfo) disconnected_flag then returns tt
    else after
      (addActionMessage (setSource (Basic.handle handleInfo) (newMessage cmd_close_interface)
                           <| messageID := handle_type_code (Basic.handleType handleInfo) |>);;
       modifies (fun c => c <| handles ::= fun hm =>
         hm <| HandleManager.handles ::= alter (fun h => h <| Basic.flags ::= set_flag disconnected_flag |>)
                                           (Z.to_nat handle) |> |>))).

Definition removeTarget (handle : interface_handle) (targetToRemove : string) : Call unit :=
  with_handle handle "invalid handle" (fun handleInfo =>
    let* fed := getFederateAt (Basic.local_fed_id handleInfo) in
    let* f := gets (federate_behind fed) in
    let cmd a := setSource (Basic.handle handleInfo) (newMessage a) <| payload := targetToRemove |>
                   <| actionTime := match f with Some f => Fed.time_granted (Local.fs f) | None => T.timeZero end |> in
    match Basic.handleType handleInfo with
    | Kind.publication => after (addActionMessage (cmd cmd_remove_named_input))
    | Kind.filter => after (addActionMessage (cmd cmd_remove_named_endpoint))
    | Kind.input => after (addActionMessage (cmd cmd_remove_named_publication))
    | Kind.endpoint => after (addActionMessage (cmd cmd_remove_named_filter))
    | _ => returns tt
    end).

(** the types of a filter without a name *)
Definition with_filter_types (handleInfo : BasicHandleInfo) (cmd : ActionMessage) : ActionMessage :=
  if bool_decide (Basic.key handleInfo = "") &&
     negb (bool_decide (Basic.type handleInfo = "") && bool_decide (Basic.units handleInfo = ""))
  then setStringData [Basic.type handleInfo; Basic.units handleInfo] cmd else cmd.

Definition target_command (a : action_t) (handleInfo : BasicHandleInfo) (target : string) : ActionMessage :=
  setSource (Basic.handle handleInfo) (newMessage a) <| flags := Basic.flags handleInfo |> <| payload := target |>.

Definition addDestinationTarget (handle : interface_handle) (dest : string) : Call unit :=
  with_handle handle "invalid handle" (fun handleInfo =>
    let cmd a := setActionFlag destination_target (target_command a handleInfo dest) in
    match Basic.handleType handleInfo with
    | Kind.endpoint => after (addActionMessage (cmd cmd_add_named_filter))
    | Kind.filter => after (addActionMessage (with_filter_types handleInfo (cmd cmd_add_named_endpoint)))
    | Kind.publication =>
        after (addActionMessage
                 (if bool_decide (Basic.key handleInfo = "")
                  then setStringData [Basic.type handleInfo; Basic.units handleInfo] (cmd cmd_add_named_input)
                  else cmd cmd_add_named_input))
    | _ => throw (InvalidIdentifier "inputs cannot have destination targets")
    end).

Definition addSourceTarget (handle : interface_handle) (targetName : string) : Call unit :=
  with_handle handle "invalid handle" (fun handleInfo =>
    let cmd a := target_command a handleInfo targetName in
    match Basic.handleType handleInfo with
    | Kind.endpoint => after (addActionMessage (cmd cmd_add_named_filter))
    | Kind.filter => after (addActionMessage (with_filter_types handleInfo (cmd cmd_add_named_endpoint)))
    | Kind.input => after (addActionMessage (cmd cmd_add_named_publication))
    | _ => throw (InvalidIdentifier "publications cannot have source targets")
    end).

Definition dataLink (source target : string) : M unit :=
  addActionMessage (setStringData [target] (newMessage cmd_data_link <| payload := source |>)).
Definition filter_link_command (filter endpoint : string) : ActionMessage :=
  setStringData [endpoint] (newMessage cmd_filter_link <| payload := filter |>).
Definition addSourceFilterToEndpoint (filter endpoint : string) : M unit :=
  addActionMessage (filter_link_command filter endpoint).
Definition addDestinationFilterToEndpoint (filter endpoint : string) : M unit :=
  addActionMessage (setActionFlag destination_target (filter_link_command filter endpoint)).

Definition addDependency (federateID : local_federate_id) (federateName : string) : Call unit :=
  with_federate federateID "federateID not valid (registerDependency)" (fun _ fs =>
    after (addActionMessage (newMessage cmd_search_dependency <| source_id := Fed.global_id fs |>
                               <| payload := federateName |>))).

(** ** Values *)

Definition setValue (handle : interface_handle) (data : string) : Call unit :=
  with_handle handle "Handle not valid (setValue)" (fun handleInfo =>
    if bool_decide (Basic.handleType handleInfo <> Kind.publication)
    then throw (InvalidIdentifier "handle does not point to a publication or control output")
    else if check_flag (Basic.flags handleInfo) disconnected_flag then returns tt
    else if negb (Basic.used handleInfo) then returns tt
    else
      let* o := owner handleInfo in
      let* r := deref (Fed.checkAndSetValue handle data (snd o)) in
      set_fed (fst o) (fun _ => snd r);;
      if fst r then
        after (addActionMessage (newMessage cmd_pub <| source_id := Basic.getFederateId handleInfo |>
                 <| source_handle := handle |> <| counter := uint16 (Fed.getCurrentIteration (snd o)) |>
                 <| payload := data |> <| actionTime := Fed.allowed_send_time (snd o) |>))
      else returns tt).

(** the input of a handle, whose pointers are followed *)
Definition with_input {A} (handle : interface_handle) (f : NamedInputInfo -> A) : Call A :=
  with_handle handle "Handle is invalid (getValue)" (fun handleInfo =>
    if bool_decide (Basic.handleType handleInfo <> Kind.input)
    then throw (InvalidIdentifier "Handle does not identify an input")
    else
      let* o := owner handleInfo in
      let* ipt := deref (Fed.getInput handle (snd o)) in
      returns (f ipt)).

Definition getValue (handle : interface_handle) : Call (option string) := with_input handle getData.
Definition getAllValues (handle : interface_handle) : Call (list (option string)) := with_input handle getAllData.

Definition getValueUpdates (federateID : local_federate_id) : Call (list interface_handle) :=
  with_federate federateID "federateID not valid (getValueUpdates)" (fun _ fs => returns (Fed.events fs)).

(** ** Messages *)

(** [++messageCounter] *)
Definition next_message_id : M Z :=
  modifies (fun c => c <| messageCounter ::= fun n => int32 (n + 1) |>);;
  gets messageCounter.

Definition with_endpoint {A} (sourceHandle : interface_handle) (k : BasicHandleInfo -> Call A) : Call A :=
  with_handle sourceHandle "handle is not valid" (fun hndl =>
    if bool_decide (Basic.handleType hndl <> Kind.endpoint)
    then throw (InvalidIdentifier "handle does not point to an endpoint") else k hndl).

(** the command of a message that an endpoint sends *)
Definition message_command (hndl : BasicHandleInfo) (sourceHandle : interface_handle) (id : Z)
    (destination data : string) (time : Time) : ActionMessage :=
  setStringData [destination; Basic.key hndl; Basic.key hndl]
    (newMessage cmd_send_message <| messageID := id |> <| source_handle := sourceHandle |>
       <| source_id := Basic.getFederateId hndl |> <| payload := data |> <| actionTime := time |>).

Definition send (sourceHandle : interface_handle) (destination data : string) : Call unit :=
  with_endpoint sourceHandle (fun hndl =>
    let* id := next_message_id in
    let* o := owner hndl in
    after (addActionMessage (message_command hndl sourceHandle id destination data
                               (Fed.allowed_send_time (snd o))))).

Definition sendEvent (time : Time) (sourceHandle : interface_handle) (destination data : string) : Call unit :=
  with_endpoint sourceHandle (fun hndl =>
    let* o := owner hndl in
    let* id := next_message_id in
    after (addActionMessage (message_command hndl sourceHandle id destination data
                               (Z.max time (Fed.allowed_send_time (snd o)))))).

Definition sendMessage (registered : bool) (sourceHandle : interface_handle) (message : Message) : Call unit :=
  if sourceHandle =? InterfaceHandle.direct_send_handle then
    if negb registered
    then throw (FunctionExecutionFailure "core is unable to register and has timed out, message was not sent")
    else
      let* gid := gets global_id in
      after (addActionMessage (command_of_message message <| source_id := gid |> <| source_handle := sourceHandle |>))
  else
    with_endpoint sourceHandle (fun hndl =>
      let* m := deref (setString sourceStringLoc (Basic.key hndl) (command_of_message message)) in
      let m := m <| source_id := Basic.getFederateId hndl |> <| source_handle := sourceHandle |> in
      let* id := if messageID m =? 0 then next_message_id else mret (messageID m) in
      let* o := owner hndl in
      let minTime := Fed.allowed_send_time (snd o) in
      after (addActionMessage (m <| messageID := id |>
               <| actionTime := if actionTime m <? minTime then minTime else actionTime m |>))).

Definition receiveCount (destination : interface_handle) : M Z :=
  let* fed := getHandleFederate destination in
  match fed with
  | None => mret 0
  | Some p => let* f := federate_at p in mret (Fed.getQueueSize_of destination (Local.fs f))
  end.

Definition receive (destination : interface_handle) : Call (option Message) :=
  let* fed := getHandleFederate destination in
  match fed with
  | None => throw (InvalidIdentifier "invalid handle")
  | Some p =>
      let* f := federate_at p in
      if bool_decide (Fed.state (Local.fs f) <> HELICS_EXECUTING) then returns None
      else
        let '(r, fs) := Fed.receive destination (Local.fs f) in
        set_fed p (fun _ => fs);; returns r
  end.

(** The message and the handle, which was [endpoint_id] before. *)
Definition receiveAny (federateID : local_federate_id) (endpoint_id : interface_handle)
    : Call (option Message * interface_handle) :=
  with_federate federateID "FederateID is not valid (receiveAny)" (fun p fs =>
    if bool_decide (Fed.state fs <> HELICS_EXECUTING) then returns (None, InterfaceHandle.invalid)
    else
      let '(r, h, fs) := Fed.receiveAny endpoint_id fs in
      set_fed p (fun _ => fs);; returns (r, h)).

Definition receiveCountAny (federateID : local_federate_id) : Call Z :=
  with_federate federateID "FederateID is not valid (receiveCountAny)" (fun _ fs =>
    if bool_decide (Fed.state fs <> HELICS_EXECUTING) then returns 0 else returns (Fed.getQueueSize fs)).

(** ** Logging, operators and queries *)

Definition logMessage (federateID : local_federate_id) (logLevel : Z) (messageToLog : string) : Call unit :=
  if federateID =? LocalFedId.local_core_id then
    let* name_ := gets identifier in
    after (sendToLogger fmt_format parent_broker_id logLevel name_ messageToLog;; skip)
  else
    with_federate federateID "FederateID is not valid (logMessage)" (fun _ fs =>
      after (addActionMessage (newMessage cmd_log <| source_id := Fed.global_id fs |> <| messageID := logLevel |>
                                 <| payload := messageToLog |>);;
             sendToLogger fmt_format (Fed.global_id fs) logLevel (Fed.name fs) messageToLog;; skip)).

(** The level travels in the counter, which has 16 bits and no sign. *)
Definition setLoggingLevel (logLevel : Z) : M unit :=
  let* gid := gets global_id in
  addActionMessage (newMessage cmd_core_configure <| dest_id := gid |> <| messageID := Prop_.log_level |>
                      <| counter := uint16 logLevel |>).

(** the next airlock, of four *)
Definition getNextAirlockIndex : M Z :=
  let* n := gets nextAirLock in
  let index := if 3 <? n then n mod 4 else n in
  let next := uint16 (n + 1) in
  modifies (fun c => c <| nextAirLock := if (index =? 3) && (3 <? next) then next mod 4 else next |>);;
  mret index.

(** [load] waits while the airlock holds something; there is no result then. *)
Definition load_airlock (content : airlock_content) : M Z :=
  let* ii := getNextAirlockIndex in
  let* locks := gets dataAirlocks in
  let* slot := deref (locks !! Z.to_nat ii) in
  match slot with
  | Some _ => deref None
  | None => modifies (fun c => c <| dataAirlocks ::= <[Z.to_nat ii := Some content]> |>);; mret ii
  end.

(** the logger of the core, or [false] for none *)
Definition setLoggingCallback (logFunction : bool) : M unit :=
  let* gid := gets global_id in
  let loggerUpdate := newMessage cmd_core_configure <| messageID := UPDATE_LOGGING_CALLBACK |>
                        <| source_id := gid |> in
  if logFunction then
    let* ii := load_airlock LoggerFunction in addActionMessage (loggerUpdate <| counter := ii |>)
  else addActionMessage (setActionFlag empty_flag loggerUpdate).

Definition setFilterOperator (filter_ : interface_handle) (callback : option filter_operator) : Call unit :=
  with_handle filter_ "filter is not a valid handle" (fun hndl =>
    if bool_decide (Basic.handleType hndl <> Kind.filter)
    then throw (InvalidIdentifier "filter identifier does not point a filter")
    else
      let* ii := load_airlock (Operator (default NullFilterOperator callback)) in
      after (addActionMessage (newMessage cmd_core_configure <| messageID := UPDATE_FILTER_OPERATOR |>
                                 <| counter := ii |> <| source_handle := filter_ |>))).

Definition setQueryCallback (federateID : local_federate_id) (queryFunction : option (string -> string)) : Call unit :=
  with_federate federateID "FederateID is invalid (setQueryCallback)" (fun p _ =>
    after (set_local p (fun l => l <| Local.queryCallback := queryFunction |>))).

(** to the broker, or into the queue of a core without an identifier *)
Definition to_parent (cmd : ActionMessage) : M unit :=
  let* gid := gets global_id in
  if negb (GlobalBrokerId.isValid gid)
  then modifies (fun c => c <| delayTransmitQueue ::= fun q => q ++ [cmd] |>)
  else transmit RouteId.parent_route_id cmd.

Definition setGlobal (valueName value : string) : M unit :=
  let* gid := gets global_id in
  to_parent (setStringData [value] (newMessage cmd_set_global <| source_id := gid |> <| payload := valueName |>)).

(** The index under which the caller waits for the answer, or the answer. *)
Definition query (target queryStr : string) : M (Z + string) :=
  let* c := gets (fun c => c) in
  let gid := global_id c in
  let index := int32 (queryCounter c + 1) in
  let querycmd action := newMessage action <| source_id := gid |> <| messageID := index |> <| payload := queryStr |> in
  let ask m := modifies (fun c => c <| queryCounter := index |>);; m;; mret (inl index) in
  if bool_decide (target = "core") || bool_decide (target = identifier c) then
    if bool_decide (queryStr = "name") then mret (inr (identifier c))
    else if bool_decide (queryStr = "address") then
      let* a := getAddress generateLocalAddressString in mret (inr a)
    else ask (addActionMessage (querycmd cmd_broker_query <| dest_id := gid |>))
  else if bool_decide (target = "parent") || bool_decide (target = "broker")
  then ask (addActionMessage (querycmd cmd_broker_query <| dest_id := higher_broker_id c |>))
  else if bool_decide (target = "root") || bool_decide (target = "rootbroker")
  then ask (to_parent (querycmd cmd_broker_query))
  else
    let fed := if bool_decide (target = "federate") then getFederateAt_of 0 c
               else dv_find_name target (federates c) in
    match federate_behind fed c with
    | Some f => mret (inr (federateQuery (Some f) queryStr))
    | None => ask (to_parent (setStringData [target] (querycmd cmd_query)))
    end.
End Calls.
End Calls.
