(* ===== verification/CoreWaits.v ===== *)
(** * A core: the calls in which a federate waits

    Models the functions of [src/helics/core/CommonCore.cpp] in which a
    federate enters a mode, requests a time, ends or reports an error, and
    waits for the answer on its own queue, and the wait for the registration of
    the core.  The federate is the only one that calls, so that its calls
    process the queue themselves.  While it waits the core goes on; all that
    the core does to a federate is to put commands into its queue, and these
    are the commands that arrive.  A reading of the clock is an argument. *)

From S2P Require Import Prelude HTime Identifiers CoreData StateMonad DualVector JsonBuilder TimeDependencies TimeCoordinator ForwardingTimeCoordinator NamedInputInfo EndpointInfo InterfaceInfo HandleManager CoreTypes FederateState MessageTimer FederateCalls CoreBroker CommonCore CoreFilters CoreControl CoreCalls ActionMessage.
Import Fed (FederateState) Local (LocalFed) Core CControl Calls FedCalls.

(** [defs::errors] *)
Module ErrorCode.
Definition registration_failure : Z := -1.
Definition connection_failure : Z := -2.
Definition invalid_object : Z := -3.
Definition invalid_argument : Z := -4.
Definition invalid_state_transition : Z := -9.
Definition invalid_function_call : Z := -10.
End ErrorCode.

(** The exception for the error code of a federate; there is none for 0. *)
Definition generateFederateException (eCode : Z) (text : string) : option exn :=
  if eCode =? 0 then None
  else if eCode =? ErrorCode.invalid_argument then Some (InvalidParameter text)
  else if eCode =? ErrorCode.invalid_function_call then Some (InvalidFunctionCall text)
  else if eCode =? ErrorCode.invalid_object then Some (InvalidIdentifier text)
  else if eCode =? ErrorCode.invalid_state_transition then Some (InvalidFunctionCall text)
  else if eCode =? ErrorCode.connection_failure then Some (ConnectionFailure text)
  else if eCode =? ErrorCode.registration_failure then Some (RegistrationFailure text)
  else Some (HelicsException text).

Module Waits.
Section Waits.
Context `{Platform} {C : Type -> Type} `{DualVector C} {D : Type -> Type} `{DualMapped D} `{FilterOperators} `{SteadyTimers}.
Context (fmt_format : string -> list string -> string) (depth : nat).
Local Abbreviation M := (Core.M C D).
Local Abbreviation Call A := (M (exn + A)).

(** an operation of a federate that may have no result *)
Definition fed_op {A} (p : nat) (op : FederateState (C := D) -> option (A * FederateState (C := D))) : M A :=
  let* f := federate_at p in
  let* r := deref (op (Local.fs f)) in
  set_fed p (fun _ => snd r);;
  mret (fst r).

(** the federate of a call, by the state it is in *)
Definition in_state {A} (federateID : local_federate_id) (what : string) (k : nat -> federate_state -> Call A)
    : Call A :=
  with_federate federateID what (fun p fs => k p (Fed.state fs)).

Definition error (fuel : nat) (federateID : local_federate_id) (errorCode : Z) (arriving : list ActionMessage)
    : Call (reply unit) :=
  with_federate federateID "federateID not valid error" (fun p fs =>
    let m := newMessage cmd_error <| source_id := Fed.global_id fs |> <| messageID := errorCode |> in
    addActionMessage m;;
    addAction p m;;
    let* ans := fed_op p (process_until fmt_format depth ends fuel arriving) in
    returns ans).

Definition finalize (fuel : nat) (federateID : local_federate_id) (arriving : list ActionMessage)
    : Call (reply unit) :=
  with_federate federateID "federateID not valid finalize" (fun p fs =>
    addActionMessage (newMessage cmd_disconnect <| source_id := Fed.global_id fs |> <| dest_id := Fed.global_id fs |>);;
    let* ans := fed_op p (FedCalls.finalize fmt_format depth fuel arriving) in
    returns ans).

(** the exception of a federate that was refused *)
Definition refuse (p : nat) : Call (reply unit) :=
  let* f := federate_at p in
  match generateFederateException (Fed.errorCode (Local.fs f)) (Fed.errorString (Local.fs f)) with
  | Some e => throw e
  | None => returns (replied tt)
  end.

Definition enterInitializingMode (federateID : local_federate_id) (arriving : list ActionMessage)
    : Call (reply unit) :=
  in_state federateID "federateID not valid for Entering Init" (fun p s =>
    match s with
    | HELICS_CREATED =>
        let* f := federate_at p in
        if Local.init_requested f
        then throw (InvalidFunctionCall "federate already has requested entry to initializing State")
        else
          set_local p (fun l => l <| Local.init_requested := true |>);;
          addActionMessage (newMessage cmd_init <| source_id := Fed.global_id (Local.fs f) |>);;
          let* check := fed_op p (enterInitializingMode_first fmt_format depth arriving) in
          match check with
          | blocked => returns blocked
          | replied ItRes.next_step => returns (replied tt)
          | replied c =>
              set_local p (fun l => l <| Local.init_requested := false |>);;
              match c with ItRes.halted => throw HelicsSystemFailure | _ => refuse p end
          end
    | HELICS_INITIALIZING => returns (replied tt)
    | _ => throw (InvalidFunctionCall "May only enter initializing state from created state")
    end).

Definition enterExecutingMode (now : Z) (federateID : local_federate_id) (iterate : iteration_request)
    (arriving : list ActionMessage) (rt : RealTime) : Call (reply (ItRes.iteration_result * RealTime)) :=
  in_state federateID "federateID not valid (EnterExecutingState)" (fun p s =>
    match s with
    | HELICS_EXECUTING => returns (replied (ItRes.next_step, rt))
    | HELICS_INITIALIZING =>
        addAction p (newMessage cmd_exec_check);;
        let* ans := fed_op p (enterExecutingMode_first fmt_format depth now iterate arriving rt) in
        returns ans
    | _ => throw (InvalidFunctionCall "federate is in invalid state for calling entry to exec mode")
    end).

(** the request, and the answer that is made of what the federate says *)
Definition request_of {A} (clock : readings) (next : Time) (iterate : iteration_request)
    (arriving : list ActionMessage) (rt : RealTime) (p : nat)
    (k : iteration_time -> RealTime -> Call (reply (A * RealTime))) : Call (reply (A * RealTime)) :=
  let* ans := fed_op p (requestTime_first fmt_format depth clock next iterate arriving rt) in
  match ans with
  | blocked => returns blocked
  | replied (retTime, rt, _) => k retTime rt
  end.

Definition timeRequest (clock : readings) (federateID : local_federate_id) (next : Time)
    (arriving : list ActionMessage) (rt : RealTime) : Call (reply (Time * RealTime)) :=
  in_state federateID "federateID not valid timeRequest" (fun p s =>
    match s with
    | HELICS_EXECUTING =>
        request_of clock next no_iterations arriving rt p (fun ret rt =>
          match result_state ret with
          | ItRes.error =>
              let* f := federate_at p in throw (FunctionExecutionFailure (Fed.errorString (Local.fs f)))
          | ItRes.halted => returns (replied (T.maxVal, rt))
          | _ => returns (replied (grantedTime ret, rt))
          end)
    | HELICS_FINISHED => returns (replied (T.maxVal, rt))
    | _ => throw (InvalidFunctionCall "time request should only be called in execution state")
    end).

(** the iterations are limited *)
Definition limited (maxIterations current : Z) (iterate : iteration_request) : iteration_request :=
  match iterate with
  | iterate_if_needed => if maxIterations <=? current then no_iterations else iterate
  | _ => iterate
  end.

Definition requestTimeIterative (clock : readings) (federateID : local_federate_id) (next : Time)
    (iterate : iteration_request) (arriving : list ActionMessage) (rt : RealTime)
    : Call (reply (iteration_time * RealTime)) :=
  in_state federateID "federateID not valid timeRequestIterative" (fun p s =>
    match s with
    | HELICS_EXECUTING =>
        let* f := federate_at p in
        let* most := gets maxIterationCount in
        request_of clock next (limited most (Fed.getCurrentIteration (Local.fs f)) iterate) arriving rt p
          (fun ret rt => returns (replied (ret, rt)))
    | HELICS_FINISHED | HELICS_TERMINATING => returns (replied (mkIterationTime T.maxVal ItRes.halted, rt))
    | HELICS_CREATED | HELICS_INITIALIZING => returns (replied (mkIterationTime T.timeZero ItRes.error, rt))
    | HELICS_UNKNOWN | HELICS_ERROR => returns (replied (mkIterationTime T.maxVal ItRes.error, rt))
    end).

(** ** Waiting for the registration

    Each turn of the loop has the answer that [brokerConnect] would give and
    what the loop of the core does during the sleep.  [None]: the call still
    waits after these turns. *)

Context (generateLocalAddressString : string).

Definition unregistered (brkid : global_broker_id) : bool :=
  (brkid =? parent_broker_id) || negb (GlobalBrokerId.isValid brkid).

Fixpoint wait_registration (sleepcnt : Z) (brkid : global_broker_id)
    (turns : list (bool * (CommonCore C D -> CommonCore C D))) : M (option bool) :=
  if unregistered brkid then
    match turns with
    | [] => mret None
    | (res, others) :: turns =>
        let* s := gets brokerState in
        (if BState.lt BState.configured s then skip else connect generateLocalAddressString res;; skip);;
        let* s := gets brokerState in
        if BState.lt s BState.terminating then
          when (sleepcnt =? 20)
            (addActionMessage (newMessage cmd_resend <| messageID := int32 (action_code cmd_reg_broker) |>));;
          modifies others;;
          let* brkid := gets global_id in
          let* timeout := gets brokerTimeout in
          let sleepcnt := sleepcnt + 1 in
          if timeout <? T.of_count (sleepcnt * 100) Units.ms then mret (Some false)
          else wait_registration sleepcnt brkid turns
        else mret (Some false)
    end
  else mret (Some true).

Definition waitCoreRegistration (turns : list (bool * (CommonCore C D -> CommonCore C D))) : M (option bool) :=
  let* brkid := gets global_id in
  wait_registration 0 brkid turns.
End Waits.
End Waits.
