(* ===== verification/CoreFacts.v ===== *)
(** * Reasoning about the operations of a core

    Rules for the computations of [CommonCore.v], in addition to those of
    [StateMonad.v]; the tactic [walk_core] takes an operation apart. *)

From S2P Require Import Prelude Identifiers StateMonad DualVector JsonBuilder ForwardingTimeCoordinator InterfaceInfo FederateState CoreBroker CommonCore CoreFilters ActionMessage.
Import Local (LocalFed) Core CFilters.

Create HintDb core_ops discriminated.

Section Rules.
Context `{Platform} {C : Type -> Type} `{DualVector C} {D : Type -> Type} `{DualMapped D} `{FilterOperators}.
Implicit Types (I : CommonCore C D -> Prop).

(** a call of the time coordinator puts messages into the queue of the core *)
Lemma preserves_core_tc I {A} (op : ForwardingTimeCoordinator -> A * ForwardingTimeCoordinator) :
  (forall c fc ms, I c -> I (c <| timeCoord := fc |> <| outputs ::= fun l => l ++ (Enqueue <$> ms) |>)) ->
  preserves I (tc op).
Proof.
  intros Hi c a c' Hc. unfold tc. destruct (op _) as [x fc]. intros [= <- <-]. split; [|done].
  assert (E : (fun m => Enqueue (copy_construct m)) <$> sent fc = Enqueue <$> (copy_construct <$> sent fc))
    by by rewrite <- list_fmap_compose. rewrite E. by apply Hi.
Qed.

Lemma preserves_bind_core_federate I {B} p (k : LocalFed D -> Core.M C D B) :
  (forall c f, I c -> federate_of p c = Some f -> preserves I (k f)) -> preserves I (federate_at p ≫= k).
Proof.
  intros Hk c a c' Hc. unfold federate_at, bind_first, gets, deref, mbind, M_bind.
  destruct (federate_of p c) as [f|] eqn:E; [|done]. intros Hr. exact (Hk c f Hc E c a c' Hc Hr).
Qed.

Lemma preserves_core_federate I p : preserves I (federate_at (C := C) (D := D) p).
Proof.
  unfold federate_at, bind_first. apply preserves_bind_gets. intros. apply preserves_deref.
Qed.

Lemma preserves_bind_filter_at I {B} ptr (k : Filt.FilterInfo -> Core.M C D B) :
  (forall c f, I c -> filter_of ptr c = Some f -> preserves I (k f)) -> preserves I (filter_at ptr ≫= k).
Proof.
  intros Hk c a c' Hc. unfold filter_at, bind_first, gets, deref, mbind, M_bind.
  destruct (filter_of ptr c) as [f|] eqn:E; [|done]. intros Hr. exact (Hk c f Hc E c a c' Hc Hr).
Qed.

Lemma preserves_filter_at I ptr : preserves I (filter_at (C := C) (D := D) ptr).
Proof. unfold filter_at, bind_first. apply preserves_bind_gets. intros. apply preserves_deref. Qed.

(** The federates of a loop are those of a state with the property. *)
Lemma preserves_for_federates I (f : nat -> Core.M C D unit) :
  (forall c e p, I c -> e ∈ dv_elements (loopFederates c) -> Loop.fed e = Some p -> preserves I (f p)) ->
  preserves I (for_federates f).
Proof.
  intros Hf. unfold for_federates, bind_first. apply preserves_bind_gets. intros c Hc.
  apply preserves_for_each. intros e He. apply preserves_bind_deref. eauto.
Qed.
End Rules.

Ltac core_step :=
  lazymatch goal with
  | |- preserves _ (mbind _ (federate_at _)) => apply preserves_bind_core_federate; intros ? ? ? ?
  | |- preserves _ (mbind _ (filter_at _)) => apply preserves_bind_filter_at; intros ? ? ? ?
  | |- preserves _ (for_federates _) => apply preserves_for_federates; intros ? ? ? ? ? ?
  | |- _ => state_step
  end.

Ltac walk_core := cbv [bind_first] in *; cbv zeta; repeat (solve [eauto 3 with core_ops] || core_step; cbv beta zeta).
