(* ===== verification/CoreFlow.v ===== *)
(** * The messages that pass through a core

    Routing, delivery and the filters of messages change only a part of the
    state.  A property that the changes of this part keep ([flows]) is kept by
    all of these operations. *)

From S2P Require Import Prelude HTime Identifiers CoreData StateMonad DualVector JsonBuilder TimeDependencies TimeCoordinator ForwardingTimeCoordinator InterfaceInfo HandleManager CoreTypes FederateState CoreBroker CommonCore CoreFilters CoreFacts ActionMessage.
Import Basic (BasicHandleInfo) Local (LocalFed) Core CFilters.

Section Flow.
Context `{Platform} {C : Type -> Type} `{DualVector C} {D : Type -> Type} `{DualMapped D} `{FilterOperators}.

(** [may]: the commands that may be passed on.  The operations pass on the
    command they are given, with its action or with one that is no request or
    grant of time. *)
Definition asks_time (a : action_t) : bool :=
  match a with cmd_time_request | cmd_time_grant | cmd_exec_request | cmd_exec_grant => true | _ => false end.

Record flows (may : action_t -> Prop) (I : CommonCore C D -> Prop) : Prop := {
  fl_may a : asks_time a = false -> may a;
  fl_transmit r m : may (messageAction m) -> preserves I (transmit r m);
  fl_enqueue m : preserves I (addActionMessage m);
  fl_action p m : may (messageAction m) -> preserves I (addAction p m);
  fl_tc A (op : ForwardingTimeCoordinator -> A * ForwardingTimeCoordinator) : preserves I (tc op);
  fl_state s : preserves I (setState s);
  fl_exec : preserves I (modifies (fun c => c <| enteredExecutionMode := true |>));
  fl_world w : preserves I (modifies (fun c => c <| operator_world := w |>));
  fl_counter n : preserves I (modifies (fun c => c <| messageCounter := int32 n |>));
  fl_ongoing f : preserves I (modifies (fun c => c <| ongoingFilterProcesses ::= f |>));
  fl_ongoing_dest f : preserves I (modifies (fun c => c <| ongoingDestFilterProcesses ::= f |>));
  fl_coordinator h : preserves I (getFilterCoordinator h);
}.

Context (may : action_t -> Prop) (I : CommonCore C D -> Prop) (Hf : flows may I).

#[local] Hint Resolve fl_transmit fl_enqueue fl_action fl_tc fl_state fl_exec fl_world fl_counter fl_ongoing
  fl_ongoing_dest fl_coordinator : core_ops.
#[local] Hint Resolve Hf : core_ops.
(** an action that is known, or that of the command *)
#[local] Hint Extern 2 (may _) =>
  first [assumption | apply (fl_may _ _ Hf); reflexivity | congruence] : core_ops.

(** ** Routes *)

Lemma getState_flow p : preserves I (getState p).
Proof. unfold getState. walk_core. Qed.

Lemma checkAndProcessDisconnect_flow : preserves I checkAndProcessDisconnect.
Proof. unfold checkAndProcessDisconnect, tc_. walk_core. Qed.

Lemma say_bye_flow P : preserves I (say_bye P).
Proof. unfold say_bye. walk_core. Qed.

Lemma check_exec_entry_flow : preserves I check_exec_entry.
Proof. unfold check_exec_entry. walk_core. Qed.
#[local] Hint Resolve getState_flow checkAndProcessDisconnect_flow say_bye_flow check_exec_entry_flow : core_ops.

Lemma processCommandsForCore_flow m : preserves I (processCommandsForCore m).
Proof. unfold processCommandsForCore, tc_. walk_core. Qed.
#[local] Hint Resolve processCommandsForCore_flow : core_ops.

Lemma route_by_flow takes m : may (messageAction m) -> preserves I (route_by takes m).
Proof. intros Hm. unfold route_by. walk_core. Qed.
#[local] Hint Resolve route_by_flow : core_ops.

Lemma routeMessage_to_flow m d : may (messageAction m) -> preserves I (routeMessage_to m d).
Proof. intros Hm. unfold routeMessage_to. walk_core. Qed.

(** ** Filters *)

Lemma find_filter_flow h : preserves I (find_filter h).
Proof. apply preserves_gets. Qed.

Lemma run_operator_flow op m : preserves I (run_operator op m).
Proof. unfold run_operator. walk_core. Qed.
#[local] Hint Resolve find_filter_flow run_operator_flow : core_ops.

Lemma run_filter_flow f m : preserves I (run_filter f m).
Proof. unfold run_filter. walk_core. Qed.

Lemma to_cloning_filter_flow m ptr : preserves I (to_cloning_filter m ptr).
Proof. unfold to_cloning_filter, routeMessage. walk_core. Qed.

Lemma send_for_dest_filter_flow l f m : preserves I (send_for_dest_filter l f m).
Proof. unfold send_for_dest_filter, routeMessage_move. walk_core. Qed.
#[local] Hint Resolve run_filter_flow to_cloning_filter_flow send_for_dest_filter_flow : core_ops.

Lemma through_dest_filters_flow l m : preserves I (through_dest_filters l m).
Proof. unfold through_dest_filters, through_dest_filter. walk_core. Qed.
#[local] Hint Resolve through_dest_filters_flow : core_ops.

(** What comes out of filters is the message itself, or what a filter made of it. *)
Definition own_or_sent (m m' : ActionMessage) : Prop :=
  messageAction m' = messageAction m \/ messageAction m' = cmd_send_message.

Lemma may_own m m' : may (messageAction m) -> own_or_sent m m' -> may (messageAction m').
Proof. intros Hm [-> | ->]; [done|]. by apply (fl_may _ _ Hf). Qed.

Lemma through_dest_filter_yields l fc m :
  yields (through_dest_filter (C := C) (D := D) l fc m) (fun r => forall m', r = Some m' -> own_or_sent m m').
Proof.
  unfold through_dest_filter. cbv [bind_first]. repeat yield_step; intros m' [= <-]; (by left) || by right.
Qed.

Lemma through_dest_filters_yields l m :
  yields (through_dest_filters (C := C) (D := D) l m) (fun r => forall m', r = Some m' -> own_or_sent m m').
Proof.
  unfold through_dest_filters. cbv [bind_first]. destruct (check_flag _ _); [|apply yields_ret; intros m' [= <-]; by left].
  apply yields_bind. intros [fc|]; [|apply yields_ret; intros m' [= <-]; by left].
  eapply yields_bind_with; [apply through_dest_filter_yields|]. intros [m1|] Hm1; [|by apply yields_ret].
  apply yields_bind. intros _. apply yields_ret. intros m' [= <-]. by apply Hm1.
Qed.

Lemma hand_over_flow l m : may (messageAction m) -> preserves I (hand_over l m).
Proof. intros Hm. unfold hand_over, getFederateCore. destruct (dest_id m =? parent_broker_id); walk_core. Qed.
#[local] Hint Resolve hand_over_flow : core_ops.

Lemma deliverMessage_flow m : may (messageAction m) -> preserves I (deliverMessage m).
Proof.
  intros Hm. unfold deliverMessage. cbv [bind_first]. apply preserves_bind_gets. intros c Hc.
  destruct (messageAction m) eqn:E; try solve [apply (fl_transmit _ _ Hf); congruence].
  destruct (if dest_id m =? _ then _ else _) as [lp|]; [|apply (fl_transmit _ _ Hf); congruence].
  eapply preserves_bind_yields; [auto with core_ops|apply through_dest_filters_yields|].
  intros [m'|] Hm'; [|apply preserves_skip]. apply hand_over_flow. eapply may_own; [|by apply Hm']. congruence.
Qed.
#[local] Hint Resolve deliverMessage_flow : core_ops.

Lemma through_source_filters_flow n fid l : forall ii m, preserves I (through_source_filters n fid ii l m).
Proof.
  induction l as [|ptr l IH]; intros ii m; cbn [through_source_filters]; [apply preserves_ret|].
  unfold routeMessage. walk_core.
Qed.
#[local] Hint Resolve through_source_filters_flow : core_ops.

Lemma processMessage_flow m : preserves I (processMessage m).
Proof. unfold processMessage. walk_core. Qed.

Lemma processDestFilterReturn_flow m : preserves I (processDestFilterReturn m).
Proof. unfold processDestFilterReturn, routeMessage, routeMessage_move. walk_core. Qed.

Lemma processMessageFilter_flow m : may (messageAction m) -> preserves I (processMessageFilter m).
Proof. intros Hm. unfold processMessageFilter, filter_here, filter_off, filter_result.
  destruct (is_dest_request m); walk_core.
Qed.

(** ** What waits for filters

    The answer of a filter is dealt with, and then the messages that waited for
    it are released, if it was the last. *)

Definition released (fid : Z) (c' : CommonCore C D) : Prop :=
  exists c, I c /\ release_if_done fid c = Some (tt, c').

(** one more operation of a run *)
Tactic Notation "go" hyp(H) "as" simple_intropattern(p) :=
  eapply (run_after I) in H; [destruct H as (p & ? & ? & ? & H)| |eassumption].

Lemma ends_released fid c (r : option ActionMessage) c' :
  I c -> (release_if_done fid;; mret None) c = Some (r, c') -> r = None /\ released fid c'.
Proof.
  intros Hc. unfold mbind, M_bind. destruct (release_if_done fid c) as [[[] c1]|] eqn:E; [|done].
  intros [= <- <-]. split; [done|]. by exists c.
Qed.

Lemma return_filters_releases n fid mid l : forall ii m c r c',
  I c -> may (messageAction m) -> return_filters n fid mid ii l m c = Some (r, c') ->
  match r with Some m' => I c' /\ may (messageAction m') | None => released fid c' end.
Proof.
  induction l as [|ptr l IH]; intros ii m c r c' Hc Hm; cbn [return_filters]; [by intros [= <- <-]|].
  cbv [bind_first]. unfold routeMessage, end_process. intros Hr. go Hr as f; [|apply preserves_filter_at].
  destruct (Filt.disconnected f); [by eapply IH|]. go Hr as local; [|apply preserves_gets]. destruct (_ =? local).
  - go Hr as [msg|]; [eapply IH; [done| |exact Hr]; by apply (fl_may _ _ Hf)| |auto with core_ops].
    go Hr as []; [|apply (fl_ongoing _ _ Hf)]. by apply ends_released in Hr as [-> ?].
  - go Hr as []; [|destruct (_ <? _); walk_core]. by apply ends_released in Hr as [-> ?].
Qed.

(** the filters that are left, and the delivery behind them *)
Definition rest_of_return (h : BasicHandleInfo) (fc : FilterCoordinator) (m : ActionMessage) : Core.M C D unit :=
  let ii := uint16 (counter m + 1) in
  let fs := sourceFilters fc in
  let* r := if hasSourceFilters fc
            then return_filters (length fs) (Basic.getFederateId h) (messageID m) ii (drop (Z.to_nat ii) fs) m
            else mret (Some m) in
  match r with
  | None => skip
  | Some m' => end_process (Basic.getFederateId h) (messageID m);; deliverMessage m';; release_if_done (Basic.getFederateId h)
  end.

Lemma rest_releases h fc m c c' :
  I c -> may (messageAction m) -> rest_of_return h fc m c = Some (tt, c') -> released (Basic.getFederateId h) c'.
Proof.
  intros Hc Hm. unfold rest_of_return. cbv [bind_first]. unfold mbind at 1, M_bind at 1. set (run := if hasSourceFilters fc then _ else _).
  destruct (run c) as [[r c1]|] eqn:E; [|done].
  assert (Hr : match r with Some m' => I c1 /\ may (messageAction m') | None => released (Basic.getFederateId h) c1 end).
  { revert E. unfold run. destruct (hasSourceFilters fc); [by apply return_filters_releases|]. by intros [= <- <-]. }
  destruct r as [m'|]; [|by intros [= <-]]. destruct Hr as [Hc1 Hm']. unfold end_process. intros Hr.
  go Hr as []; [|apply (fl_ongoing _ _ Hf)]. go Hr as []; [|eauto with core_ops]. by eexists.
Qed.

Lemma processFilterReturn_releases m c c' :
  I c -> may (messageAction m) -> messageAction m <> cmd_null_message ->
  processFilterReturn m c = Some (tt, c') ->
  c' = c \/ exists h, getEndpoint_at (dest_handle m) (loopHandles c) = Some h /\ released (Basic.getFederateId h) c'.
Proof.
  intros Hc Hm Hn. unfold processFilterReturn. cbv [bind_first]. unfold mbind at 1, M_bind at 1, gets at 1.
  destruct (getEndpoint_at _ _) as [h|]; [|intros ->%result_state; by left]. unfold mbind at 1, M_bind at 1, gets at 1.
  destruct (is_ongoing _ _ _); [|intros ->%result_state; by left]. rewrite bool_decide_false by done.
  intros Hr. go Hr as []; [|apply preserves_skip]. go Hr as o; [|eauto with core_ops]. go Hr as fc; [|apply preserves_deref].
  right. exists h. split; [done|]. revert Hr. apply rest_releases; done.
Qed.

(** the same when the release is kept as well *)
Context (release : forall id, preserves I (transmitDelayedMessages_of id)).

Lemma released_kept fid c : released fid c -> I c.
Proof.
  intros (c0 & Hc0 & E). revert E. unfold release_if_done, when. cbv [bind_first]. intros E.
  go E as o; [|apply preserves_gets]. destruct (none_ongoing _ _); [|by injection E as <-]. by eapply preserves_inv in E.
Qed.

Lemma release_if_done_flow fid : preserves I (release_if_done fid).
Proof. intros c [] c' Hc E. split; [|done]. apply (released_kept fid). by exists c. Qed.

Lemma rest_of_return_flow h fc m : may (messageAction m) -> preserves I (rest_of_return h fc m).
Proof. intros Hm c [] c' Hc Hr. split; [|done]. eapply released_kept, rest_releases; done. Qed.

Lemma processFilterReturn_flow m : may (messageAction m) -> preserves I (processFilterReturn m).
Proof.
  intros Hm. unfold processFilterReturn, end_process. pose proof release_if_done_flow. cbv [bind_first].
  apply preserves_bind_gets. intros c _. destruct (getEndpoint_at _ _) as [h|]; [|apply preserves_skip].
  apply preserves_bind_gets. intros c1 _. destruct (is_ongoing _ _ _); [|apply preserves_skip].
  apply preserves_bind; [walk_core|intros _]. apply preserves_bind; [eauto with core_ops|intros o].
  apply preserves_bind_deref. intros fc _. by apply (rest_of_return_flow h fc m).
Qed.
End Flow.
