(* ===== verification/FilterOrder.v ===== *)
(** * The order of the filters of a source

    [organizeFilterOperations] repeats passes over the filters of an endpoint
    until nothing is added.  It ends, and what it gives is described without
    the passes: the cloning filters in the order they were added, then a chain
    in which each filter takes what the one before it gives, and which none of
    the filters left over could continue. *)

From S2P Require Import Prelude Identifiers CoreData CommonCore CoreFilters.
Import Filt (FilterInfo) CFilters.

(** A property of the part of a list that a loop has seen. *)
Lemma fold_left_seen {A B} (f : A -> B -> A) (P : list B -> A -> Prop) l a :
  P [] a ->
  (forall seen x rest a, l = seen ++ x :: rest -> P seen a -> P (seen ++ [x]) (f a x)) ->
  P l (fold_left f l a).
Proof.
  intros H0 Hs. assert (forall rest seen a, l = seen ++ rest -> P seen a -> P l (fold_left f rest a)) as Hg.
  { induction rest as [|x rest IH]; intros seen a' E Hp; cbn [fold_left].
    - by rewrite app_nil_r in E; subst.
    - apply (IH (seen ++ [x])); [by rewrite <- app_assoc|]. by apply (Hs seen x rest). }
  by apply (Hg l []).
Qed.

(** The entry of a numbered list. *)
Lemma imap_pair_seen {A} (l : list A) seen x rest :
  imap pair l = seen ++ x :: rest -> fst x = length seen /\ l !! length seen = Some (snd x).
Proof.
  intros E. assert (Hx : imap pair l !! length seen = Some x) by (rewrite E; by apply list_lookup_middle).
  rewrite list_lookup_imap in Hx. destruct (l !! length seen) as [a|]; simplify_eq/=. done.
Qed.

Section Order.
Context `{FilterOperators} (all : list (pointer * FilterInfo)).

Definition info (i : nat) : option FilterInfo := snd <$> all !! i.
Definition clones (i : nat) : Prop := Filt.cloning <$> info i = Some true.
#[local] Instance clones_dec i : Decision (clones i).
Proof. unfold clones. apply _. Defined.
Definition place (i : nat) : pointer := default None (fst <$> all !! i).

(** a filter that takes the type [t] *)
Definition takes (t : string) (i : nat) : Prop := exists f, info i = Some f /\ matchingTypes (Filt.inputType f) t = true.

(** filters that turn the type [t] into [t'], each taking what is there *)
Inductive chain : string -> list nat -> string -> Prop :=
  | chain_nil t : chain t [] t
  | chain_snoc t l t' i f : chain t l t' -> info i = Some f -> matchingTypes (Filt.inputType f) t' = true ->
      chain t (l ++ [i]) (Filt.outputType f).

(** the cloning filters, in the order they were added *)
Definition cloners : list nat := base.filter clones (seq 0 (length all)).

(** the filters at the positions [chosen] have their place *)
Record placed (o : ordering) (chosen : list nat) : Prop := {
  pl_length : length (used o) = length all;
  pl_used : forall i, used o !! i = Some true <-> i ∈ chosen;
  pl_ordered : ordered o = place <$> chosen;
  pl_nodup : NoDup chosen;
  pl_bound : forall i, i ∈ chosen -> (i < length all)%nat;
}.

Lemma placed_bool o chosen i :
  placed o chosen -> (i < length all)%nat -> default false (used o !! i) = bool_decide (i ∈ chosen).
Proof.
  intros Hp Hi. destruct (lookup_lt_is_Some_2 (used o) i) as [b Hb]; [by rewrite (pl_length _ _ Hp)|].
  rewrite Hb. cbn. pose proof (pl_used _ _ Hp i) as Hu. rewrite Hb in Hu.
  destruct b; [rewrite bool_decide_true|rewrite bool_decide_false]; try done; [by apply Hu|].
  by intros Hc%Hu.
Qed.

Lemma placed_take o chosen i ptr f :
  placed o chosen -> all !! i = Some (ptr, f) -> i ∉ chosen -> placed (take_place i ptr o) (chosen ++ [i]).
Proof.
  intros Hp Hi Hn. pose proof (lookup_lt_Some _ _ _ Hi) as Hl. destruct Hp as [Hlen Hu Ho Hd Hb]. split; cbn.
  - by rewrite length_insert.
  - intros j. rewrite elem_of_app, list_elem_of_singleton. destruct (decide (j = i)) as [->|Hne].
    + rewrite list_lookup_insert_eq by lia. tauto.
    + rewrite list_lookup_insert_ne by done. rewrite Hu. naive_solver.
  - rewrite Ho, fmap_app. f_equal. cbn. unfold place. by rewrite Hi.
  - apply NoDup_app. split_and!; [done| |apply NoDup_singleton]. intros j Hj Hj'%list_elem_of_singleton. by subst.
  - intros j. rewrite elem_of_app, list_elem_of_singleton. intros [Hj| ->]; auto.
Qed.

(** every filter before [k] has its place *)
Definition all_placed (chosen : list nat) (k : nat) : Prop := forall i, (i < k)%nat -> i ∈ chosen.

Lemma all_placed_snoc chosen k : all_placed chosen k -> k ∈ chosen -> all_placed chosen (k + 1).
Proof. intros Ha Hk i Hi. destruct (decide (i = k)) as [->|]; [done|apply Ha; lia]. Qed.

Lemma all_placed_more chosen new k : all_placed chosen k -> all_placed (chosen ++ new) k.
Proof. intros Ha i Hi. apply elem_of_app. auto. Qed.

(** ** The first pass *)

Lemma first_pass o :
  placed o [] ->
  let o' := pass true all o in
  placed o' cloners /\ currentType o' = currentType o /\
  (someUnused o' = false -> all_placed cloners (length all)).
Proof.
  intros Hp. cbn zeta. unfold pass.
  pose (upto k := base.filter clones (seq 0 k)).
  pose proof (fold_left_seen (visit true) (fun seen o' =>
    placed o' (upto (length seen)) /\ currentType o' = currentType o /\
    (someUnused o' = false -> all_placed (upto (length seen)) (length seen))) (imap pair all)
    (o <| someUnused := false |> <| usedMore := false |>)) as Hloop.
  cbn beta in Hloop. rewrite length_imap in Hloop. apply Hloop; clear Hloop.
  - split_and!; [by destruct Hp|done|]. intros _ i Hi. cbn in Hi. lia.
  - intros seen [i [ptr f]] rest o1 E (Hp1 & Ht & Hs). apply imap_pair_seen in E as [Ei Ef]. cbn in Ei, Ef. subst i.
    set (k := length seen) in *. pose proof (lookup_lt_Some _ _ _ Ef) as Hk.
    rewrite length_app. cbn [length]. fold k.
    assert (Hup : upto (k + 1)%nat = if decide (clones k) then upto k ++ [k] else upto k).
    { unfold upto. rewrite seq_app, filter_app. cbn [seq]. rewrite filter_cons, filter_nil. cbn.
      destruct (decide (clones k)); [done|by rewrite app_nil_r]. }
    assert (Hnew : k ∉ upto k).
    { unfold upto. rewrite list_elem_of_filter, elem_of_seq. lia. }
    assert (Hcl : clones k <-> Filt.cloning f = true).
    { unfold clones, info. rewrite Ef. cbn. split; congruence. }
    unfold visit. rewrite (placed_bool _ _ _ Hp1 Hk), bool_decide_false by done. rewrite Hup.
    destruct (Filt.cloning f) eqn:Ec.
    + rewrite decide_True by (by apply Hcl). split_and!; [by eapply placed_take|done|]. cbn. intros Hu.
      apply all_placed_snoc; [apply all_placed_more; auto|apply elem_of_app; right; by left].
    + rewrite decide_False by (by rewrite Hcl). split_and!; [by destruct Hp1|done|done].
Qed.

(** ** The other passes *)

Lemma later_pass o chosen :
  placed o chosen -> (forall i, clones i -> i ∈ chosen) ->
  let o' := pass false all o in
  exists new, placed o' (chosen ++ new) /\ chain (currentType o) new (currentType o') /\
    (forall i, i ∈ new -> ~ clones i) /\ (usedMore o' = true -> new <> []) /\
    (someUnused o' = false -> all_placed (chosen ++ new) (length all)) /\
    (usedMore o' = false -> new = [] /\ forall i, (i < length all)%nat -> i ∉ chosen -> ~ takes (currentType o') i).
Proof.
  intros Hp Hcl. cbn zeta. unfold pass.
  pose proof (fold_left_seen (visit false) (fun seen o' =>
    exists new, placed o' (chosen ++ new) /\ chain (currentType o) new (currentType o') /\
    (forall i, i ∈ new -> ~ clones i) /\ (usedMore o' = true -> new <> []) /\
    (someUnused o' = false -> all_placed (chosen ++ new) (length seen)) /\
    (usedMore o' = false -> new = [] /\ forall i, (i < length seen)%nat -> i ∉ chosen -> ~ takes (currentType o') i))
    (imap pair all) (o <| someUnused := false |> <| usedMore := false |>)) as Hloop.
  cbn beta in Hloop. rewrite length_imap in Hloop. apply Hloop; clear Hloop.
  - exists []. rewrite app_nil_r. split_and!; [by destruct Hp|constructor|intros ? []%not_elem_of_nil|done| |].
    + intros _ i Hi. cbn in Hi. lia.
    + intros _. split; [done|]. cbn. lia.
  - intros seen [i [ptr f]] rest o1 E (new & Hp1 & Hch & Hnc & Hm & Hs & Hl).
    apply imap_pair_seen in E as [Ei Ef]. cbn in Ei, Ef. subst i.
    set (k := length seen) in *. pose proof (lookup_lt_Some _ _ _ Ef) as Hk.
    rewrite length_app. cbn [length]. fold k.
    assert (Hinfo : info k = Some f) by (unfold info; by rewrite Ef).
    unfold visit. rewrite (placed_bool _ _ _ Hp1 Hk). case_bool_decide as Hin.
    + exists new. split_and!; [done|done|done|done| |].
      * intros Hu. apply all_placed_snoc; auto.
      * intros Hu. destruct (Hl Hu) as [-> Hl2]. split; [done|]. intros i Hi Hni.
        destruct (decide (i = k)) as [->|]; [by rewrite app_nil_r in Hin|apply Hl2; [lia|done]].
    + destruct (matchingTypes _ _) eqn:Em.
      * exists (new ++ [k]). rewrite app_assoc. split_and!.
        -- pose proof (placed_take _ _ _ _ _ Hp1 Ef Hin) as Hp2. by destruct Hp2.
        -- cbn. by eapply chain_snoc.
        -- intros i. rewrite elem_of_app, list_elem_of_singleton. intros [Hi| ->]; [auto|].
           intros Hc%Hcl. apply Hin, elem_of_app. by left.
        -- intros _. by destruct new.
        -- cbn. intros Hu. apply all_placed_snoc; [apply all_placed_more; auto|apply elem_of_app; right; by left].
        -- done.
      * exists new. split_and!; [by destruct Hp1|done|done|done|done|].
        intros Hu. destruct (Hl Hu) as [-> Hl2]. split; [done|]. intros i Hi Hni.
        destruct (decide (i = k)) as [->|]; [|apply Hl2; [lia|done]].
        cbn. intros (f' & Hf' & Ht). rewrite Hinfo in Hf'. congruence.
Qed.

(** ** All passes *)

Lemma chain_app t l t' l' t'' : chain t l t' -> chain t' l' t'' -> chain t (l ++ l') t''.
Proof.
  intros Hl Hl'. induction Hl' as [|t0 l' t1 i f H' IH Hf Hm]; [by rewrite app_nil_r|].
  rewrite app_assoc. econstructor; eauto.
Qed.

(** The filters [rest] follow the cloning filters, the type is [t] then, and
    no filter that is left over goes on. *)
Record in_order (endpointType : string) (rest : list nat) (t : string) (o : ordering) : Prop := {
  io_placed : placed o (cloners ++ rest);
  io_chain : chain endpointType rest t;
  io_plain : forall i, i ∈ rest -> ~ clones i;
}.

Definition left_over (rest : list nat) (t : string) : Prop :=
  forall i, (i < length all)%nat -> i ∉ cloners ++ rest -> ~ takes t i.

Lemma cloners_all i : clones i -> i ∈ cloners.
Proof.
  intros Hc. apply list_elem_of_filter. split; [done|]. apply elem_of_seq.
  unfold clones, info in Hc. destruct (all !! i) eqn:E; [|done]. apply lookup_lt_Some in E. lia.
Qed.

Lemma passes_end endpointType fuel : forall rest o,
  in_order endpointType rest (currentType o) o ->
  (someUnused o = false -> left_over rest (currentType o)) ->
  (usedMore o = false -> left_over rest (currentType o)) ->
  (usedMore o = true -> length all - length (cloners ++ rest) < fuel)%nat ->
  exists o' rest', passes fuel false all o = Some o' /\
    in_order endpointType rest' (currentType o') o' /\ left_over rest' (currentType o').
Proof.
  induction fuel as [|fuel IH]; intros rest o Ho Hs Hu Hf; cbn [passes];
    destruct (someUnused o) eqn:Es; cbn [andb]; try (exists o, rest; by auto);
    destruct (usedMore o) eqn:Em; try (exists o, rest; by auto).
  - specialize (Hf eq_refl). lia.
  - destruct Ho as [Hp Hch Hpl].
    destruct (later_pass o (cloners ++ rest) Hp) as (new & Hp' & Hch' & Hnc & Hm & Hs' & Hl).
    { intros i Hi%cloners_all. apply elem_of_app. by left. }
    set (o1 := pass false all o) in *. rewrite <- app_assoc in Hp', Hs'.
    apply (IH (rest ++ new) o1).
    + split; [done|by eapply chain_app|]. intros i [Hi|Hi]%elem_of_app; auto.
    + intros Hu'. intros i Hi Hni. destruct Hni. by apply Hs'.
    + intros Hu'. destruct (Hl Hu') as [-> Hl']. rewrite app_nil_r. exact Hl'.
    + intros Hm'. specialize (Hf eq_refl). specialize (Hm Hm').
      assert (Hb : (length (cloners ++ rest ++ new) <= length all)%nat).
      { destruct Hp' as [_ _ _ Hd Hb]. rewrite <- (length_seq (length all) 0). apply submseteq_length.
        apply NoDup_submseteq; [done|]. intros i Hi%Hb. apply elem_of_seq. lia. }
      rewrite !length_app in *. destruct new; [done|]. cbn in *. lia.
Qed.
End Order.

(** C24: The filters of an endpoint are put in order, and the loop that does it
    ends, whatever the filters are.  Each filter gets at most one place; the
    cloning filters come first, in the order they were added; behind them is a
    chain that starts from the type of the endpoint, each filter taking the
    type that the one before gives; and every cloning filter has a place, while
    a filter without a place could not take the type at the end of the chain. *)
Theorem filters_are_ordered `{FilterOperators} endpointType all :
  exists o rest t, order_filters endpointType all = Some o /\
    ordered o = place all <$> (cloners all ++ rest) /\ NoDup (cloners all ++ rest) /\
    chain all endpointType rest t /\ (forall i, i ∈ rest -> ~ clones all i) /\
    (forall i, (i < length all)%nat -> i ∉ cloners all ++ rest -> ~ clones all i /\ ~ takes all t i).
Proof.
  unfold order_filters. set (o0 := mkOrdering _ _ _ _ _).
  assert (Hp : placed all o0 []).
  { split; cbn; [apply length_replicate| |done|constructor|intros i []%not_elem_of_nil].
    intros i. split; [|intros []%not_elem_of_nil]. intros [? _]%lookup_replicate. done. }
  destruct (first_pass all o0 Hp) as (Hp1 & Ht & Hs).
  replace (length all + 2)%nat with (S (S (length all))) by lia. cbn [passes someUnused usedMore andb o0].
  destruct (passes_end all endpointType (S (length all)) [] (pass true all o0 <| usedMore := true |>))
    as (o & rest & E & [Hpl Hch Hnc] & Hl).
  - split; [rewrite app_nil_r; by destruct Hp1| |intros ? []%not_elem_of_nil].
    change (currentType _) with (currentType (pass true all o0)). rewrite Ht. constructor.
  - intros Hu i Hi Hni. destruct Hni. rewrite app_nil_r. by apply Hs.
  - done.
  - intros _. lia.
  - exists o, rest, (currentType o). destruct Hpl. split_and!; try done.
    intros i Hi Hni. split; [|by apply Hl]. intros Hc%cloners_all. apply Hni, elem_of_app. by left.
Qed.
