(* ===== verification/CoreTyped.v ===== *)
(** * The pointers of a core stay valid

    The positions that stand for pointers refer to objects that exist: the
    filters the coordinators of the endpoints keep, and the federates of the
    loop, whatever commands the queue of a core delivers and whatever its
    federates call. *)

From Stdlib Require Import Ascii.
From S2P Require Import Prelude BrokerBase HTime Identifiers CoreData StateMonad DualVector JsonBuilder TimeDependencies TimeCoordinator ForwardingTimeCoordinator InterfaceInfo HandleManager CoreTypes FederateState CoreBroker BrokerControl CommonCore CoreFilters CoreInterfaces CoreControl CoreCommands CoreCalls CoreFacts CoreFlow FilterOrder ActionMessage.
Import Basic (BasicHandleInfo) Kind (handle_type) Local (LocalFed) Core CFilters CLinks CControl CCommands.

(** a pointer that is null or refers to one of [n] objects *)
Definition pointer_ok (n : nat) (ptr : pointer) : Prop := forall p, ptr = Some p -> (p < n)%nat.

(** a pointer that refers to one of [n] objects *)
Definition present (n : nat) (ptr : pointer) : Prop := exists p, ptr = Some p /\ (p < n)%nat.

Record coordinator_ok (n : nat) (fc : FilterCoordinator) : Prop := {
  co_all : Forall (present n) (allSourceFilters fc);
  co_source : forall ptr, ptr ∈ sourceFilters fc -> ptr ∈ allSourceFilters fc;
  co_clones : Forall (present n) (cloningDestFilters fc);
  co_dest : forall ptr, destFilter fc = Some ptr -> present n ptr;
  co_flag : hasSourceFilters fc = true <-> allSourceFilters fc <> [];
}.

Lemma present_more n n' ptr : (n <= n')%nat -> present n ptr -> present n' ptr.
Proof. intros Hn (p & -> & Hp). exists p. split; [done|lia]. Qed.

Lemma coordinator_ok_more n n' fc : (n <= n')%nat -> coordinator_ok n fc -> coordinator_ok n' fc.
Proof.
  intros Hn [Ha Hs Hc Hd Hf]. split; try done.
  1-2: eapply Forall_impl; [eassumption|]; intros ?; by apply present_more.
  intros ptr Hp. eapply present_more; eauto.
Qed.

Lemma new_coordination_ok n : coordinator_ok n new_coordination.
Proof. by split. Qed.

(** What is put in order is what there was. *)
Section Drawn.
Context `{FilterOperators} (all : list (pointer * Filt.FilterInfo)).

Definition drawn (o : ordering) : Prop := forall ptr, ptr ∈ ordered o -> ptr ∈ all.*1.

Lemma visit_drawn fp o e : e.2 ∈ all -> drawn o -> drawn (visit fp o e).
Proof.
  destruct e as [i [ptr f]]. cbn. intros He Ho ptr'. unfold visit, take_place. repeat case_match; cbn; try apply Ho.
  all: rewrite elem_of_app, list_elem_of_singleton; intros [Hp| ->]; [by apply Ho|].
  all: apply list_elem_of_fmap; by exists (ptr, f).
Qed.

Lemma pass_drawn fp o : drawn o -> drawn (pass fp all o).
Proof.
  intros Ho. unfold pass. apply (fold_left_seen _ (fun _ => drawn)); [exact Ho|].
  intros seen e rest o' E. apply imap_pair_seen in E as [_ Hl%list_elem_of_lookup_2]. by apply visit_drawn.
Qed.

Lemma passes_drawn fuel : forall fp o o', drawn o -> passes fuel fp all o = Some o' -> drawn o'.
Proof.
  induction fuel as [|fuel IH]; intros fp o o' Ho; cbn [passes]; destruct (_ && _); try done.
  1,3: by intros [= <-].
  apply IH. pose proof (pass_drawn fp o Ho) as Hp. by destruct fp.
Qed.

Lemma order_filters_drawn t o : order_filters t all = Some o -> drawn o.
Proof. apply passes_drawn. intros ? []%not_elem_of_nil. Qed.
End Drawn.

Section Typed.
Context `{Platform} {C : Type -> Type} `{DualVectorLaws C} `{!TakesNewIds C} {D : Type -> Type} `{DualMapped D} `{FilterOperators} `{JsonLib}.
Implicit Types (c : CommonCore C D).

Definition n_filters c : nat := length (dv_elements (filters c)).
Definition n_federates c : nat := length (dv_elements (federates c)).

Record core_typed c : Prop := {
  ty_federates : forall e, e ∈ dv_elements (loopFederates c) -> pointer_ok (n_federates c) (Loop.fed e);
  ty_filters : forall h fc, filterCoord c !! h = Some fc -> coordinator_ok (n_filters c) fc;
}.

Lemma new_core_typed name w : core_typed (new_core name w).
Proof.
  split; cbn; [|done].
  intros e. rewrite dv_elements_empty. by intros []%not_elem_of_nil.
Qed.

(** ** Changes of the state *)

Lemma emit_typed e : preserves core_typed (emit (C := C) (D := D) e).
Proof. apply preserves_modifies. intros c []. by split. Qed.

Lemma tc_typed {A} (op : ForwardingTimeCoordinator -> A * ForwardingTimeCoordinator) :
  preserves core_typed (tc (C := C) (D := D) op).
Proof. apply preserves_core_tc. intros c fc l []. by split. Qed.

Lemma set_local_typed p f : preserves core_typed (set_local (C := C) (D := D) p f).
Proof.
  apply preserves_modifies. intros c []. split; try done. intros e He. unfold n_federates. cbn.
  rewrite dv_modify_elements, length_alter. by apply ty_federates0.
Qed.

Lemma set_filter_typed p f : preserves core_typed (set_filter (C := C) (D := D) p f).
Proof.
  apply preserves_modifies. intros c []. split; try done. intros h fc Hh. unfold n_filters. cbn.
  rewrite dv_modify_elements, length_alter. by eapply ty_filters0.
Qed.

(** an entry of the loop *)
Lemma add_entry_typed c name o :
  core_typed c -> pointer_ok (n_federates c) o ->
  core_typed (c <| loopFederates ::= fun l => snd (dv_insert name None (Loop.mkFedInfo o false) l) |>).
Proof.
  intros [] Ho. split; try done. cbn. intros e He.
  destruct (dv_find_name name (loopFederates c)) as [p|] eqn:E.
  - rewrite (dv_insert_dup _ _ _ _ _ E) in He. by apply ty_federates0.
  - rewrite dv_insert_elements in He by done.
    apply elem_of_app in He as [He| ->%list_elem_of_singleton]; [by apply ty_federates0|exact Ho].
Qed.

Lemma set_coordinator_typed c h f :
  core_typed c -> (forall fc, filterCoord c !! h = Some fc -> coordinator_ok (n_filters c) fc -> coordinator_ok (n_filters c) (f fc)) ->
  core_typed (c <| filterCoord ::= alter f h |>).
Proof.
  intros [] Hf. split; try done. cbn. intros h' fc. rewrite lookup_alter. case_decide; [subst|by apply ty_filters0].
  destruct (filterCoord c !! h') as [fc0|] eqn:E; [|done]. cbn. intros [= <-].
  apply Hf; [done|]. by eapply ty_filters0.
Qed.

(** ** Routes and messages *)

Ltac frame := apply preserves_modifies; intros ? []; by split.

Lemma getFilterCoordinator_typed h : preserves core_typed (getFilterCoordinator (C := C) (D := D) h).
Proof.
  unfold getFilterCoordinator. cbv [bind_first]. walk_core. apply preserves_modifies. intros c []. split; try done.
  intros h' fc. cbn. rewrite lookup_insert. case_decide; [|by apply ty_filters0]. intros [= <-].
  apply new_coordination_ok.
Qed.

Definition any_action (a : action_t) : Prop := True.
Lemma any_may a : any_action a.
Proof. done. Qed.

Lemma typed_flows : flows (C := C) (D := D) any_action core_typed.
Proof.
  split; intros; try done; auto using tc_typed, getFilterCoordinator_typed; try apply emit_typed;
    try apply set_local_typed; try frame.
Qed.

#[local] Hint Resolve emit_typed tc_typed set_local_typed set_filter_typed getFilterCoordinator_typed typed_flows : core_ops.
#[local] Hint Resolve any_may : core_ops.
#[local] Hint Resolve fl_action fl_transmit fl_enqueue getState_flow checkAndProcessDisconnect_flow say_bye_flow check_exec_entry_flow
  processCommandsForCore_flow route_by_flow routeMessage_to_flow deliverMessage_flow processMessage_flow
  processDestFilterReturn_flow processMessageFilter_flow find_filter_flow : core_ops.
#[local] Hint Extern 4 (preserves core_typed (modifies _)) => frame : core_ops.

Lemma transmitDelayedMessages_typed : preserves core_typed (transmitDelayedMessages (C := C) (D := D)).
Proof. unfold transmitDelayedMessages, routeMessage. walk_core. Qed.

Lemma transmitDelayedMessages_of_typed id : preserves core_typed (transmitDelayedMessages_of (C := C) (D := D) id).
Proof. unfold transmitDelayedMessages_of, routeMessage. walk_core. Qed.

Lemma sendErrorToFederates_typed e : preserves core_typed (sendErrorToFederates (C := C) (D := D) e).
Proof. unfold sendErrorToFederates. walk_core. Qed.
#[local] Hint Resolve transmitDelayedMessages_typed transmitDelayedMessages_of_typed sendErrorToFederates_typed : core_ops.

(** ** A pointer that was just made *)

Definition typed_with (ptr : pointer) c : Prop := core_typed c /\ present (n_filters c) ptr.

(** Creating a filter keeps the others; whether the pointer that is returned
    refers to it depends on the container having taken it. *)
Lemma createFilter_preserves dest h key t1 t2 cl : preserves core_typed (createFilter (C := C) (D := D) dest h key t1 t2 cl).
Proof.
  intros c ptr c' Hc. unfold createFilter. cbv [bind_first gets modifies mret M_ret mbind M_bind].
  destruct (if _ =? _ then _ else _) as [k id]. intros [= <- <-]. split; [|done].
  destruct Hc. split; try done. intros h' fc Hh. eapply coordinator_ok_more; [|by eapply ty_filters0].
  apply prefix_length, dv_insert_keeps.
Qed.

(** It is taken when no filter is known under its handle. *)
Lemma createFilter_present dest h key t1 t2 cl c ptr c' :
  dv_find_id (Handle.to_uint64 (GlobalHandle dest h)) (filters c) = None ->
  createFilter dest h key t1 t2 cl c = Some (ptr, c') -> present (n_filters c') ptr.
Proof.
  intros Hn. unfold createFilter. cbv [bind_first gets modifies mret M_ret mbind M_bind].
  set (filt := Filt.new _ _ _ _ _ _ <| _ := _ |>).
  destruct (if Filt.core_id filt =? _ then _ else _) as [k id] eqn:Ek.
  assert (id = GlobalHandle dest h) as ->.
  { revert Ek. case_match eqn:E; intros [= <- <-]; [done|]. cbn in E |- *.
    destruct (dest =? parent_broker_id); [lia|done]. }
  intros [= <- <-]. destruct (dv_takes_new_id _ k _ filt _ Hn) as [p Hp]. exists p. split; [done|].
  exact (dv_insert_bound _ _ _ _ _ _ Hp).
Qed.

Lemma find_or_create_typed m c ptr c' :
  core_typed c -> find_or_create m c = Some (ptr, c') -> typed_with ptr c'.
Proof.
  intros Hc. unfold find_or_create, find_filter. cbv [bind_first gets mbind]. unfold M_bind at 1.
  destruct (dv_find_id _ _) as [p|] eqn:E.
  - intros [= <- <-]. split; [done|]. exists p. split; [done|]. by apply dv_id_bound in E.
  - intros Hr. split; [by destruct (createFilter_preserves _ _ _ _ _ _ _ _ _ Hc Hr)|].
    by apply (createFilter_present _ _ _ _ _ _ _ _ _ E Hr).
Qed.

Lemma preserves_with_pointer {B} m (k : pointer -> Core.M C D B) :
  (forall ptr, preserves (typed_with ptr) (k ptr)) -> preserves core_typed (find_or_create m ≫= k).
Proof.
  intros Hk c a c' Hc. unfold mbind, M_bind. destruct (find_or_create m c) as [[ptr c1]|] eqn:E; [|done].
  intros Hr. apply find_or_create_typed in E; [|done]. destruct (Hk ptr c1 a c' E Hr) as [[Ht _] _]. done.
Qed.

Lemma set_coordinator_with ptr h f :
  (forall n fc, present n ptr -> coordinator_ok n fc -> coordinator_ok n (f fc)) ->
  preserves (typed_with ptr) (set_coordinator (C := C) (D := D) h f).
Proof.
  intros Hf. apply preserves_modifies. intros c [Ht Hp]. split; [|done].
  apply set_coordinator_typed; [done|]. auto.
Qed.

Lemma modifies_with ptr (f : CommonCore C D -> CommonCore C D) :
  (forall c, core_typed c -> core_typed (f c)) -> (forall c, filters (f c) = filters c) ->
  preserves (typed_with ptr) (modifies f).
Proof.
  intros Hf Hs. apply preserves_modifies. intros c [Ht Hp]. split; [auto|]. unfold n_filters. by rewrite Hs.
Qed.

(** ** The filters *)

Lemma flag_handle_typed i f : preserves core_typed (flag_handle (C := C) (D := D) i f).
Proof. frame. Qed.
#[local] Hint Resolve flag_handle_typed createFilter_preserves : core_ops.

Lemma already_in_typed m l : preserves core_typed (already_in (C := C) (D := D) m l).
Proof. induction l; cbn [already_in]; walk_core. Qed.

Lemma close_pointer_typed h ptr : preserves core_typed (close_pointer (C := C) (D := D) h ptr).
Proof. unfold close_pointer. walk_core. Qed.

Lemma closeFilter_typed h fc : preserves core_typed (closeFilter (C := C) (D := D) h fc).
Proof. unfold closeFilter. pose proof close_pointer_typed. walk_core. Qed.
#[local] Hint Resolve already_in_typed closeFilter_typed : core_ops.

Lemma add_clone_ok n ptr fc :
  present n ptr -> coordinator_ok n fc -> coordinator_ok n (fc <| cloningDestFilters ::= fun l => l ++ [ptr] |>).
Proof. intros Hp []. split; try done. cbn. by apply Forall_app_2, Forall_singleton. Qed.

Lemma set_dest_ok n ptr fc :
  present n ptr -> coordinator_ok n fc -> coordinator_ok n (fc <| destFilter := Some ptr |>).
Proof. intros Hp []. split; try done. cbn. by intros ? [= <-]. Qed.

Lemma add_source_ok n ptr fc :
  present n ptr -> coordinator_ok n fc ->
  coordinator_ok n (fc <| allSourceFilters ::= fun l => l ++ [ptr] |> <| hasSourceFilters := true |>).
Proof.
  intros Hp []. split; try done; cbn.
  - by apply Forall_app_2, Forall_singleton.
  - intros q Hq. apply elem_of_app. left. by apply co_source0.
  - split; [|done]. intros _ E. by destruct (app_eq_nil _ _ E).
Qed.

Lemma has_dest_ok n ptr fc :
  present n ptr -> coordinator_ok n fc -> coordinator_ok n (fc <| hasDestFilters := true |>).
Proof. intros Hp []. by split. Qed.

Lemma flag_handle_with ptr i f : preserves (typed_with ptr) (flag_handle (C := C) (D := D) i f).
Proof. apply modifies_with; [intros ? []; by split|done]. Qed.

Lemma new_destination_typed m known : preserves core_typed (new_destination (C := C) (D := D) m known).
Proof.
  unfold new_destination. cbv [bind_first]. apply preserves_with_pointer. intros ptr.
  apply preserves_bind; [apply set_coordinator_with; intros; by eapply has_dest_ok|intros _].
  destruct (checkActionFlag _ _); [apply set_coordinator_with; intros; by apply add_clone_ok|].
  apply preserves_bind; [apply preserves_when; intros _; apply flag_handle_with|intros _].
  apply set_coordinator_with; intros; by apply set_dest_ok.
Qed.
#[local] Hint Resolve new_destination_typed : core_ops.

Lemma source_filter_typed m fc : preserves core_typed (source_filter (C := C) (D := D) m fc).
Proof.
  unfold source_filter. cbv [bind_first]. core_step; [auto with core_ops|]. destruct a; [apply preserves_skip|].
  apply preserves_with_pointer. intros ptr.
  apply preserves_bind; [apply set_coordinator_with; intros; by apply add_source_ok|intros _].
  apply preserves_bind_gets. intros c _. apply preserves_when. intros _. apply flag_handle_with.
Qed.

Lemma processFilterInfo_typed m : preserves core_typed (processFilterInfo (C := C) (D := D) m).
Proof.
  pose proof source_filter_typed. unfold processFilterInfo, destination_filter, routeMessage_move. walk_core.
Qed.
#[local] Hint Resolve processFilterInfo_typed : core_ops.

(** the coordinators with all the source filters that [K] says they have *)
Definition typed_sources (K : gmap interface_handle (list pointer)) c : Prop :=
  core_typed c /\ allSourceFilters <$> filterCoord c = K.

Lemma organize_typed K h fc :
  K !! h = Some (allSourceFilters fc) -> preserves (typed_sources K) (organize (C := C) (D := D) h fc).
Proof.
  intros Hk c a c' [Hc HK]. unfold organize, getHandleInfo, set_coordinator. cbv [bind_first gets deref modifies skip mbind mret M_ret M_bind].
  destruct (HandleManager.getHandleInfo h (handles c)) as [hi|]; [|by intros [= <- <-]].
  destruct (allSourceFilters fc) as [|p0 l0] eqn:El; [by intros [= <- <-]|]. rewrite <- El in *. clear El p0 l0.
  destruct (filters_at (allSourceFilters fc) c) as [all|] eqn:Ea; [|done].
  destruct (order_filters _ all) as [o|] eqn:Eo; [|done]. intros [= <- <-]. split; [|done]. split.
  - apply set_coordinator_typed; [done|]. intros fc0 Hf []. split; try done. cbn. intros ptr Hp.
    apply (order_filters_drawn _ _ _ Eo), list_elem_of_fmap in Hp as ([ptr' f] & -> & Hf').
    assert (allSourceFilters fc0 = allSourceFilters fc) as ->.
    { rewrite <- HK, lookup_fmap, Hf in Hk. by injection Hk. }
    unfold filters_at in Ea. apply mapM_Some in Ea. apply list_elem_of_lookup in Hf' as [i Hi].
    destruct (Forall2_lookup_r _ _ _ _ _ Ea Hi) as (q & Hq & Hs).
    destruct (filter_of q c) as [f'|]; simplify_eq/=. by apply list_elem_of_lookup_2 in Hq.
  - cbn. rewrite <- HK. apply map_eq. intros h'. rewrite !lookup_fmap, lookup_alter. case_decide; [subst|done].
    by destruct (filterCoord c !! h').
Qed.

Lemma organizeFilterOperations_typed : preserves core_typed (organizeFilterOperations (C := C) (D := D)).
Proof.
  intros c a c' Hc Hr. unfold organizeFilterOperations in Hr. cbv [bind_first gets mbind M_bind] in Hr.
  split; [|by destruct a].
  refine (proj1 (preserves_inv (typed_sources (allSourceFilters <$> filterCoord c)) _ _ _ _ _ _ Hr)); [|by split].
  apply preserves_for_each. intros [h fc] He%elem_of_map_to_list. apply organize_typed. rewrite lookup_fmap. by apply (f_equal (fmap allSourceFilters)) in He.
Qed.

Lemma processFilterReturn_typed m : preserves core_typed (processFilterReturn (C := C) (D := D) m).
Proof. apply (processFilterReturn_flow any_action); auto with core_ops. Qed.
#[local] Hint Resolve organizeFilterOperations_typed processFilterReturn_typed : core_ops.

(** ** Interfaces *)

Lemma copy_handle_typed h : preserves core_typed (copy_handle (C := C) (D := D) h).
Proof. apply preserves_modifies. intros c Hc. destruct (HandleManager.getHandleInfo _ _); [|done]. destruct Hc. by split. Qed.

Lemma use_filter_handle_typed h : preserves core_typed (use_filter_handle (C := C) (D := D) h).
Proof. apply preserves_modifies. intros c Hc. destruct (getFilter_at _ _); [|done]. destruct Hc. by split. Qed.

Lemma setAsUsed_typed i h : preserves core_typed (setAsUsed (C := C) (D := D) i h).
Proof. unfold setAsUsed, getHandleInfo. walk_core. Qed.
#[local] Hint Resolve copy_handle_typed use_filter_handle_typed setAsUsed_typed : core_ops.

Lemma registerInterface_typed m : preserves core_typed (registerInterface (C := C) (D := D) m).
Proof. unfold registerInterface, register_endpoint, register_filter, tell_interdependency, getFederateCore, transmit, routeMessage_move. walk_core. Qed.
Lemma to_federate_typed m : preserves core_typed (to_federate (C := C) (D := D) m).
Proof. unfold to_federate, getFederateCore. walk_core. Qed.
#[local] Hint Resolve registerInterface_typed to_federate_typed : core_ops.

Lemma addTargetToInterface_typed m : preserves core_typed (addTargetToInterface (C := C) (D := D) m).
Proof. unfold addTargetToInterface, add_filter_target, add_endpoint_target, add_federate_target, getFederateCore. walk_core. Qed.
Lemma removeTargetFromInterface_typed m : preserves core_typed (removeTargetFromInterface (C := C) (D := D) m).
Proof. unfold removeTargetFromInterface. walk_core. Qed.
#[local] Hint Resolve addTargetToInterface_typed removeTargetFromInterface_typed : core_ops.

Lemma checkForNamedInterface_typed m : preserves core_typed (checkForNamedInterface (C := C) (D := D) m).
Proof. unfold checkForNamedInterface, add_named, both_ways, routeMessage_move. walk_core. Qed.
Lemma removeNamedTarget_typed m : preserves core_typed (removeNamedTarget (C := C) (D := D) m).
Proof. unfold removeNamedTarget, remove_named, both_ways, routeMessage_move. walk_core. Qed.
Lemma close_filter_typed h p : preserves core_typed (close_filter (C := C) (D := D) h p).
Proof. unfold close_filter, routeMessage. walk_core. Qed.
#[local] Hint Resolve checkForNamedInterface_typed removeNamedTarget_typed close_filter_typed : core_ops.

Lemma disconnectInterface_typed m : preserves core_typed (disconnectInterface (C := C) (D := D) m).
Proof. unfold disconnectInterface, getFederateCore, transmit. walk_core. Qed.
#[local] Hint Resolve disconnectInterface_typed : core_ops.

(** ** Start, end and configuration *)

Context (fmt_format : string -> list string -> string) (addr : string).

Lemma sendToLogger_typed id l n t : preserves core_typed (sendToLogger (C := C) (D := D) fmt_format id l n t).
Proof. unfold sendToLogger. walk_core. Qed.
Lemma getAddress_typed : preserves core_typed (getAddress (C := C) (D := D) addr).
Proof. unfold getAddress. walk_core. Qed.
#[local] Hint Resolve sendToLogger_typed getAddress_typed : core_ops.

Lemma register_core_typed n : preserves core_typed (register_core (C := C) (D := D) addr n).
Proof. unfold register_core, transmit. walk_core. Qed.
Lemma sendDisconnect_typed : preserves core_typed (sendDisconnect (C := C) (D := D)).
Proof. unfold sendDisconnect, tc_. walk_core. Qed.
#[local] Hint Resolve register_core_typed sendDisconnect_typed : core_ops.

Lemma processDisconnect_typed b : preserves core_typed (processDisconnect (C := C) (D := D) b).
Proof. unfold processDisconnect, unregister, setState, transmit, addActionMessage. walk_core. Qed.
Lemma leave_typed : preserves core_typed (leave (C := C) (D := D)).
Proof. unfold leave, setState, transmit. walk_core. Qed.
Lemma resend_registration_typed m : preserves core_typed (resend_registration (C := C) (D := D) addr m).
Proof. unfold resend_registration. walk_core. Qed.
#[local] Hint Resolve processDisconnect_typed leave_typed resend_registration_typed : core_ops.

Lemma tick_typed now : preserves core_typed (tick (C := C) (D := D) fmt_format addr now).
Proof. unfold tick, wait_connection, send_ping, CControl.set_monitor, setState, addActionMessage, transmit. walk_core. Qed.
#[local] Hint Resolve tick_typed : core_ops.

Lemma one_sided_typed l : forall b1 b2, preserves core_typed (one_sided (C := C) (D := D) l b1 b2).
Proof. induction l as [|e l IH]; intros b1 b2; cbn [one_sided]; [apply preserves_ret|]. unfold tc_. walk_core. Qed.
#[local] Hint Resolve one_sided_typed : core_ops.

Lemma checkDependencies_typed : preserves core_typed (checkDependencies (C := C) (D := D)).
Proof. unfold checkDependencies, bypass_core, introduce, tc_. walk_core. Qed.
#[local] Hint Resolve checkDependencies_typed : core_ops.

Lemma all_transmitted_typed l : preserves core_typed (all_transmitted (C := C) (D := D) l).
Proof. induction l; cbn [all_transmitted]; walk_core. Qed.
#[local] Hint Resolve all_transmitted_typed : core_ops.

Lemma allInitReady_typed : preserves core_typed (allInitReady (C := C) (D := D)).
Proof. unfold allInitReady. walk_core. Qed.
#[local] Hint Resolve allInitReady_typed : core_ops.

Lemma request_init_typed m : preserves core_typed (request_init (C := C) (D := D) m).
Proof. unfold request_init, exchangeState, setState, transmit. walk_core. Qed.
Lemma try_unload_typed ii : preserves core_typed (try_unload (C := C) (D := D) ii).
Proof.
  unfold try_unload. walk_core.
Qed.
#[local] Hint Resolve request_init_typed try_unload_typed : core_ops.

Lemma processCoreConfigureCommands_typed m : preserves core_typed (processCoreConfigureCommands (C := C) (D := D) m).
Proof.
  unfold processCoreConfigureCommands. walk_core.
Qed.
#[local] Hint Resolve processCoreConfigureCommands_typed : core_ops.

Lemma coreQuery_typed q : preserves core_typed (coreQuery (C := C) (D := D) addr q).
Proof. unfold coreQuery. walk_core. Qed.
#[local] Hint Resolve coreQuery_typed : core_ops.

Lemma broker_query_typed m : preserves core_typed (broker_query (C := C) (D := D) addr m).
Proof. unfold broker_query, setDelayedValue, transmit, routeMessage_move. walk_core. Qed.
Lemma federate_query_typed m : preserves core_typed (federate_query (C := C) (D := D) addr m).
Proof. unfold federate_query, query_self, getFederateCore_name, transmit. walk_core. Qed.
#[local] Hint Resolve broker_query_typed federate_query_typed : core_ops.

(** ** Commands *)

Lemma reg_fed_typed m : preserves core_typed (reg_fed (C := C) (D := D) m).
Proof.
  unfold reg_fed, getFederate, bind_first. apply preserves_gets_modifies; [|intros ?; unfold transmit; walk_core].
  intros c Hc. apply add_entry_typed; [done|]. intros p Hp. by apply dv_name_bound in Hp.
Qed.

Lemma add_term_typed i name : preserves core_typed
  (modifies (S := CommonCore C D) (fun c => c <| loopFederates ::= dv_add_term i name |>)).
Proof. apply preserves_modifies. intros c []. split; try done. cbn. intros e. rewrite dv_term_elements. apply ty_federates0. Qed.

Lemma mark_disconnected_typed p : preserves core_typed
  (modifies (S := CommonCore C D) (fun c => c <| loopFederates ::= dv_modify p (fun e => e <| Loop.disconnected := true |>) |>)).
Proof.
  apply preserves_modifies. intros c []. split; try done. cbn. intros e. rewrite dv_modify_elements.
  intros [i Hi]%list_elem_of_lookup. rewrite list_lookup_alter in Hi. case_decide.
  - apply fmap_Some in Hi as (e0 & He0 & ->). exact (ty_federates0 e0 (list_elem_of_lookup_2 _ _ _ He0)).
  - exact (ty_federates0 e (list_elem_of_lookup_2 _ _ _ Hi)).
Qed.
#[local] Hint Resolve reg_fed_typed add_term_typed mark_disconnected_typed : core_ops.

Lemma priority_command_typed m : preserves core_typed (priority_command (C := C) (D := D) addr m).
Proof. unfold priority_command, broker_ack, fed_ack, set_fed, CControl.set_monitor, getFederateCore_name, setDelayedValue, addRoute, transmit. walk_core. Qed.
#[local] Hint Resolve priority_command_typed : core_ops.

Lemma delay_timing_typed m : preserves core_typed (delay_timing (C := C) (D := D) m).
Proof. unfold delay_timing. walk_core. Qed.
#[local] Hint Resolve delay_timing_typed : core_ops.

Lemma exec_command_typed m : preserves core_typed (exec_command (C := C) (D := D) m).
Proof. unfold exec_command, to_dependents, routeMessage. walk_core. Qed.
Lemma time_command_typed m : preserves core_typed (time_command (C := C) (D := D) m).
Proof. unfold time_command, to_dependents, routeMessage. walk_core. Qed.
Lemma disconnect_command_typed m : preserves core_typed (disconnect_command (C := C) (D := D) m).
Proof. unfold disconnect_command, disconnect_federate, routeMessage, transmit. walk_core. Qed.
Lemma search_dependency_typed m : preserves core_typed (search_dependency (C := C) (D := D) m).
Proof. unfold search_dependency, getFederateCore_name, routeMessage, transmit. walk_core. Qed.
Lemma publish_typed m : preserves core_typed (publish (C := C) (D := D) m).
Proof. unfold publish, routeMessage. walk_core. Qed.
Lemma init_command_typed m : preserves core_typed (init_command (C := C) (D := D) m).
Proof. unfold init_command, getFederateCore. walk_core. Qed.
Lemma init_grant_typed m : preserves core_typed (init_grant (C := C) (D := D) m).
Proof. unfold init_grant, exchangeState, setState, tc_. walk_core. Qed.
#[local] Hint Resolve exec_command_typed time_command_typed disconnect_command_typed search_dependency_typed publish_typed init_command_typed init_grant_typed : core_ops.

Lemma data_link_typed m : preserves core_typed (data_link (C := C) (D := D) m).
Proof. unfold data_link, routeMessage. walk_core. Qed.
Lemma filter_link_typed m : preserves core_typed (filter_link (C := C) (D := D) m).
Proof. unfold filter_link, routeMessage. walk_core. Qed.
Lemma log_as_typed id l m : preserves core_typed (log_as (C := C) (D := D) fmt_format id l m).
Proof. unfold log_as, getFederateNameNoThrow. walk_core. Qed.
#[local] Hint Resolve data_link_typed filter_link_typed log_as_typed : core_ops.

Lemma processCommand_typed now m : preserves core_typed (processCommand (C := C) (D := D) fmt_format addr now m).
Proof.
  unfold processCommand. destruct (messageAction m) eqn:?;
    unfold for_core, error_command, core_ack, send_message, routeMessage, CControl.set_monitor, addActionMessage; walk_core.
Qed.

(** ** Any run of the queue *)

Lemma queue_typed depth cmds n :
  preserves core_typed (CCommands.queueProcessingLoop (C := C) (D := D) fmt_format addr depth cmds n).
Proof.
  apply Base.queueProcessingLoop_keeps. split; cbn; intros.
  - apply processCommand_typed.
  - unfold processPriorityCommand. destruct (isPriorityCommand _); [apply priority_command_typed|apply processCommand_typed].
  - apply processDisconnect_typed.
Qed.
End Typed.
