(* ===== verification/CoreRun.v ===== *)
(** * A core among its federates

    What happens to a core is a sequence of events: commands that its queue
    delivers, and calls of its federates and of the application, each of which
    runs to its end before the next begins.  A core reaches the states that
    such sequences lead to. *)

From Stdlib Require Import Ascii.
From S2P Require Import Prelude BrokerBase HTime Identifiers CoreData StateMonad DualVector JsonBuilder TimeDependencies TimeCoordinator ForwardingTimeCoordinator InterfaceInfo HandleManager CoreTypes FederateState CoreBroker BrokerControl CommonCore CoreFilters CoreInterfaces CoreControl CoreCommands MessageTimer FederateCalls CoreCalls CoreWaits CoreFacts FilterOrder CoreTyped ActionMessage.
Import Basic (BasicHandleInfo) Kind (handle_type) Local (LocalFed) Core CFilters CLinks CControl CCommands Calls FedCalls.

(** ** Events *)

Inductive core_call `{FilterOperators} `{SteadyTimers} :=
  | RegisterFederate (name : string) (registered : bool) (times : list (Z * Time)) (ints : list (Z * Z))
      (flags : list (Z * bool)) (setup : ItRes.iteration_result) (text : string)
  | SetIntegerProperty (registered : bool) (fed : local_federate_id) (property value : Z)
  | SetTimeProperty (fed : local_federate_id) (property : Z) (time : Time)
  | SetFlagOption (fed : local_federate_id) (flag : Z) (value : bool)
  | RegisterInput (fed : local_federate_id) (key type units : string)
  | RegisterPublication (fed : local_federate_id) (key type units : string)
  | RegisterEndpoint (fed : local_federate_id) (key type : string)
  | RegisterFilter (clones registered : bool) (key type_in type_out : string)
  | SetInterfaceInfo (handle : interface_handle) (text : string)
  | SetHandleOption (handle : interface_handle) (option_ : Z) (value : bool)
  | CloseHandle (handle : interface_handle)
  | RemoveTarget (handle : interface_handle) (target : string)
  | AddDestinationTarget (handle : interface_handle) (target : string)
  | AddSourceTarget (handle : interface_handle) (target : string)
  | DataLink (source target : string)
  | AddSourceFilter (filter endpoint : string)
  | AddDestinationFilter (filter endpoint : string)
  | AddDependency (fed : local_federate_id) (name : string)
  | SetValue (handle : interface_handle) (data : string)
  | Send (handle : interface_handle) (destination data : string)
  | SendEvent (time : Time) (handle : interface_handle) (destination data : string)
  | SendMessage (registered : bool) (handle : interface_handle) (message : Message)
  | Receive (handle : interface_handle)
  | ReceiveAny (fed : local_federate_id) (handle : interface_handle)
  | LogMessage (fed : local_federate_id) (level : Z) (text : string)
  | SetLoggingLevel (level : Z)
  | SetLoggingCallback (present : bool)
  | SetFilterOperator (handle : interface_handle) (op : option filter_operator)
  | SetQueryCallback (fed : local_federate_id) (callback : option (string -> string))
  | SetGlobal (name value : string)
  | Query (target query : string)
  | ErrorOf (fuel : nat) (fed : local_federate_id) (code : Z) (arriving : list ActionMessage)
  | Finalize (fuel : nat) (fed : local_federate_id) (arriving : list ActionMessage)
  | EnterInitializing (fed : local_federate_id) (arriving : list ActionMessage)
  | EnterExecuting (now : Z) (fed : local_federate_id) (iterate : iteration_request) (arriving : list ActionMessage)
      (rt : RealTime)
  | TimeRequest (clock : readings) (fed : local_federate_id) (next : Time) (arriving : list ActionMessage) (rt : RealTime)
  | TimeIterative (clock : readings) (fed : local_federate_id) (next : Time) (iterate : iteration_request)
      (arriving : list ActionMessage) (rt : RealTime).

Inductive core_event `{FilterOperators} `{SteadyTimers} :=
  | Configure (parsed : bool) (genId : string)
  | Connect (res : bool)
  | StartLoop
  | Deliver (commands : list (Z * ActionMessage))
  | CallOf (call : core_call).

Module Run.
Section Run.
Context `{Platform} {C : Type -> Type} `{DualVector C} {D : Type -> Type} `{DualMapped D} `{FilterOperators} `{SteadyTimers} `{JsonLib}.
Context (fmt_format : string -> list string -> string) (addr : string) (depth : nat).
Local Abbreviation M := (Core.M C D).

Definition drop_result {A} (m : M A) : M unit := m;; skip.

Definition run_call (call : core_call) : M unit :=
  match call with
  | RegisterFederate n r t i f s e => drop_result (registerFederate n r t i f s e)
  | SetIntegerProperty r fed p v => drop_result (setIntegerProperty r fed p v)
  | SetTimeProperty fed p t => drop_result (setTimeProperty fed p t)
  | SetFlagOption fed f v => drop_result (setFlagOption fed f v)
  | RegisterInput fed k t u => drop_result (registerInput fed k t u)
  | RegisterPublication fed k t u => drop_result (registerPublication fed k t u)
  | RegisterEndpoint fed k t => drop_result (registerEndpoint fed k t)
  | RegisterFilter clones r k t1 t2 => drop_result (register_filter_as clones r k t1 t2)
  | SetInterfaceInfo h t => setInterfaceInfo h t
  | SetHandleOption h o v => setHandleOption h o v
  | CloseHandle h => drop_result (closeHandle h)
  | RemoveTarget h t => drop_result (removeTarget h t)
  | AddDestinationTarget h t => drop_result (addDestinationTarget h t)
  | AddSourceTarget h t => drop_result (addSourceTarget h t)
  | DataLink s t => dataLink s t
  | AddSourceFilter f e => addSourceFilterToEndpoint f e
  | AddDestinationFilter f e => addDestinationFilterToEndpoint f e
  | AddDependency fed n => drop_result (addDependency fed n)
  | SetValue h d => drop_result (setValue h d)
  | Send h dest d => drop_result (send h dest d)
  | SendEvent t h dest d => drop_result (sendEvent t h dest d)
  | SendMessage r h m => drop_result (sendMessage r h m)
  | Receive h => drop_result (receive h)
  | ReceiveAny fed h => drop_result (receiveAny fed h)
  | LogMessage fed l t => drop_result (logMessage fmt_format fed l t)
  | SetLoggingLevel l => setLoggingLevel l
  | SetLoggingCallback b => setLoggingCallback b
  | SetFilterOperator h op => drop_result (setFilterOperator h op)
  | SetQueryCallback fed f => drop_result (setQueryCallback fed f)
  | SetGlobal n v => setGlobal n v
  | Query t q => drop_result (query addr t q)
  | ErrorOf n fed e arr => drop_result (Waits.error fmt_format depth n fed e arr)
  | Finalize n fed arr => drop_result (Waits.finalize fmt_format depth n fed arr)
  | EnterInitializing fed arr => drop_result (Waits.enterInitializingMode fmt_format depth fed arr)
  | EnterExecuting now fed it arr rt => drop_result (Waits.enterExecutingMode fmt_format depth now fed it arr rt)
  | TimeRequest clock fed t arr rt => drop_result (Waits.timeRequest fmt_format depth clock fed t arr rt)
  | TimeIterative clock fed t it arr rt => drop_result (Waits.requestTimeIterative fmt_format depth clock fed t it arr rt)
  end.

Definition run_event (e : core_event) : M unit :=
  match e with
  | Configure parsed genId => configure parsed genId
  | Connect res => drop_result (connect addr res)
  | StartLoop => start_loop
  | Deliver commands => drop_result (CCommands.queueProcessingLoop fmt_format addr depth commands 0)
  | CallOf call => run_call call
  end.

Definition run_events (es : list core_event) : M unit := for_each es run_event.
End Run.
End Run.
Import Run.

(** ** Every state that is reached is well formed *)

Section Reached.
Context `{Platform} {C : Type -> Type} `{DualVectorLaws C} `{!TakesNewIds C} {D : Type -> Type} `{DualMapped D} `{FilterOperators} `{SteadyTimers} `{JsonLib}.
Context (fmt_format : string -> list string -> string) (addr : string) (depth : nat).

Ltac frame := apply preserves_modifies; intros ? []; by split.

#[local] Hint Resolve emit_typed tc_typed set_local_typed getAddress_typed sendToLogger_typed register_core_typed
  queue_typed : core_ops.
#[local] Hint Extern 4 (preserves core_typed (modifies _)) => frame : core_ops.

Lemma with_federate_typed {A} fed what (k : nat -> Fed.FederateState -> Core.M C D (exn + A)) :
  (forall p fs, preserves core_typed (k p fs)) -> preserves core_typed (with_federate fed what k).
Proof. intros Hk. unfold with_federate, getFederateAt, throw. walk_core. Qed.

Lemma with_handle_typed {A} h what (k : BasicHandleInfo -> Core.M C D (exn + A)) :
  (forall hi, preserves core_typed (k hi)) -> preserves core_typed (with_handle h what k).
Proof. intros Hk. unfold with_handle, getHandleInfo, throw. walk_core. Qed.

Ltac call_step :=
  lazymatch goal with
  | |- preserves _ (with_federate _ _ _) => apply with_federate_typed; intros ? ?
  | |- preserves _ (with_handle _ _ _) => apply with_handle_typed; intros ?
  | |- _ => core_step
  end.
Ltac walk_call := unfold after, returns, throw; cbv [bind_first] in *; cbv zeta; repeat (solve [eauto 3 with core_ops] || call_step; cbv beta zeta).

Lemma owner_typed hi : preserves core_typed (owner (C := C) (D := D) hi).
Proof. unfold owner, getFederateAt. walk_call. Qed.

Lemma next_message_id_typed : preserves core_typed (next_message_id (C := C) (D := D)).
Proof.
  unfold next_message_id. walk_call.
Qed.

Lemma load_airlock_typed l : preserves core_typed (load_airlock (C := C) (D := D) l).
Proof.
  unfold load_airlock, getNextAirlockIndex. walk_call.
Qed.
#[local] Hint Resolve owner_typed next_message_id_typed load_airlock_typed : core_ops.

(** more federates *)
Lemma add_federate_typed (c : CommonCore C D) name f :
  core_typed c -> core_typed (c <| federates := snd (dv_insert name None f (federates c)) |>).
Proof.
  intros []. split; try done. intros e He p Hp. specialize (ty_federates e He p Hp).
  eapply Nat.lt_le_trans; [exact ty_federates|]. apply prefix_length, dv_insert_keeps.
Qed.

Lemma registerFederate_typed name r t i f s e :
  preserves core_typed (registerFederate (C := C) (D := D) name r t i f s e).
Proof.
  unfold registerFederate, throw, bind_first. apply preserves_bind_gets. intros c Hc.
  destruct (negb r); [apply preserves_ret|]. destruct (negb _); [apply preserves_ret|]. cbv zeta.
  apply preserves_gets_modifies; [intros; by apply add_federate_typed|]. intros a. unfold set_fed, addActionMessage.
  walk_call.
Qed.

Lemma register_interface_typed tk al what kind act fed k t u strs :
  preserves core_typed (register_interface (C := C) (D := D) tk al what kind act fed k t u strs).
Proof. unfold register_interface, createBasicHandle, set_fed, addActionMessage. walk_call. Qed.
#[local] Hint Resolve registerFederate_typed register_interface_typed : core_ops.

(** [walk_call] after the calls and what they are made of are unfolded *)
Ltac open_calls :=
  unfold setIntegerProperty, setTimeProperty, setFlagOption, registerInput, registerPublication, registerEndpoint,
    register_filter_as, createBasicHandle, setInterfaceInfo, setHandleOption, closeHandle, removeTarget,
    addDestinationTarget, addSourceTarget, dataLink, addSourceFilterToEndpoint, addDestinationFilterToEndpoint,
    addDependency, setValue, send, sendEvent, sendMessage, with_endpoint, receive, receiveAny, logMessage,
    setLoggingLevel, setLoggingCallback, setFilterOperator, setQueryCallback, setGlobal, query, to_parent,
    set_fed, addActionMessage, transmit, getHandleInfo, getHandleFederate, getFederateAt.

Lemma setFlagOption_typed fed f v : preserves core_typed (setFlagOption (C := C) (D := D) fed f v).
Proof.
  open_calls. walk_call.
Qed.
#[local] Hint Resolve setFlagOption_typed : core_ops.

(** the calls that wait *)
Lemma fed_op_typed {A} p (op : Fed.FederateState (C := D) -> option (A * Fed.FederateState (C := D))) :
  preserves core_typed (Waits.fed_op (C := C) p op).
Proof. unfold Waits.fed_op, set_fed. walk_call. Qed.
#[local] Hint Resolve fed_op_typed : core_ops.

Lemma wait_call_typed n fed e arr now it rt clock t :
  preserves core_typed (Waits.error (C := C) (D := D) fmt_format depth n fed e arr) /\
  preserves core_typed (Waits.finalize (C := C) (D := D) fmt_format depth n fed arr) /\
  preserves core_typed (Waits.enterInitializingMode (C := C) (D := D) fmt_format depth fed arr) /\
  preserves core_typed (Waits.enterExecutingMode (C := C) (D := D) fmt_format depth now fed it arr rt) /\
  preserves core_typed (Waits.timeRequest (C := C) (D := D) fmt_format depth clock fed t arr rt) /\
  preserves core_typed (Waits.requestTimeIterative (C := C) (D := D) fmt_format depth clock fed t it arr rt).
Proof.
  unfold Waits.error, Waits.finalize, Waits.enterInitializingMode, Waits.enterExecutingMode, Waits.timeRequest,
    Waits.requestTimeIterative, Waits.in_state, Waits.request_of, Waits.refuse, addAction, set_fed, addActionMessage.
  split_and!; walk_call.
Qed.

Lemma run_call_typed call : preserves core_typed (run_call (C := C) (D := D) fmt_format addr depth call).
Proof.
  destruct call; cbn [run_call]; unfold drop_result; try (open_calls; walk_call; done).
  all: apply preserves_bind; [|intros ?; apply preserves_skip].
  - apply (wait_call_typed fuel fed code arriving 0 no_iterations no_timer (mkReadings 0 0 0 0) 0).
  - apply (wait_call_typed fuel fed 0 arriving 0 no_iterations no_timer (mkReadings 0 0 0 0) 0).
  - apply (wait_call_typed 0 fed 0 arriving 0 no_iterations no_timer (mkReadings 0 0 0 0) 0).
  - apply (wait_call_typed 0 fed 0 arriving now iterate rt (mkReadings 0 0 0 0) 0).
  - apply (wait_call_typed 0 fed 0 arriving 0 no_iterations rt clock next).
  - apply (wait_call_typed 0 fed 0 arriving 0 iterate rt clock next).
Qed.

Lemma run_event_typed e : preserves core_typed (run_event (C := C) (D := D) fmt_format addr depth e).
Proof.
  pose proof run_call_typed. destruct e; cbn [run_event]; unfold drop_result, configure, connect, start_loop, exchangeState, setState;
    walk_call.
Qed.
End Reached.

(** ** An example

    A core with two federates, each with an endpoint, and a filter; the
    containers and the JSON library are the simple ones, and an operator is a
    function of the message. *)

Module CoreExample.
#[export] Instance operators : FilterOperators := {|
  user_operator := Message -> option Message;
  world := unit;
  user_process := fun f m w => (f m, [], w);
|}.
#[export] Existing Instance counted_timers.
Abbreviation Core := (CommonCore ListVector.t ListContainer.C).
Abbreviation format := (fun (f : string) (_ : list string) => f).

Definition id : global_broker_id := global_broker_id_shift + 1.
Definition root : global_broker_id := 1.
Definition fed_1 : global_federate_id := global_federate_id_shift.
Definition fed_2 : global_federate_id := global_federate_id_shift + 1.

Definition deliver (m : ActionMessage) : core_event := Deliver [(0, m)].
Definition register (name : string) (id : global_federate_id) : list core_event :=
  [CallOf (RegisterFederate name true [] [] [] ItRes.next_step "");
   deliver (newMessage cmd_reg_fed <| payload := name |>);
   deliver (newMessage cmd_fed_ack <| payload := name |> <| dest_id := id |>)].

Definition endpoint (local : Z) (id : global_federate_id) (h : Z) (name : string) : list core_event :=
  [CallOf (RegisterEndpoint local name "");
   deliver (setStringData [""] (newMessage cmd_reg_end <| source_id := id |> <| source_handle := h |> <| payload := name |>))].

Definition opening : list core_event :=
  [Configure true ""; StartLoop; Connect true;
   deliver (newMessage cmd_broker_ack <| payload := "core_A" |> <| dest_id := id |> <| source_id := root |>)] ++
  register "fed_1" fed_1 ++ register "fed_2" fed_2 ++ endpoint 0 fed_1 0 "ept_1" ++ endpoint 1 fed_2 1 "ept_2" ++
  [CallOf (RegisterFilter false true "filt" "" "");
   deliver (newMessage cmd_reg_filter <| source_id := id |> <| source_handle := 2 |> <| payload := "filt" |>)].

Abbreviation start := (@new_core ListVector.t ListVector.list_dual_vector ListContainer.C operators "core_A" tt).
Abbreviation run es := (@run_events x86_64 ListVector.t ListVector.list_dual_vector ListContainer.C
  ListContainer.list_container operators counted_timers TextJson.text_json format "tcp://core" 1 es start).
(** the state a run ends in *)
Definition final {S} (d : S) (o : option (unit * S)) : S := match o with Some (_, s) => s | None => d end.
Definition ran {S} (o : option (unit * S)) : bool := match o with Some _ => true | None => false end.
Lemma ran_final {S} (d : S) (o : option (unit * S)) : ran o = true -> o = Some (tt, final d o).
Proof. by destruct o as [[[] s]|]. Qed.

(** filters of another core at the first endpoint, the start, and a message of it *)
Definition far : global_broker_id := global_broker_id_shift + 7.
Definition far_filter (h : Z) : core_event :=
  deliver (newMessage cmd_add_filter <| source_id := far |> <| source_handle := h |> <| dest_id := fed_1 |>
             <| dest_handle := 0 |> <| payload := String (Ascii.ascii_of_nat (Z.to_nat h + 48)) "" |>).
Definition beginning : list core_event :=
  deliver <$> [newMessage cmd_init <| source_id := fed_1 |>; newMessage cmd_init <| source_id := fed_2 |>;
               newMessage cmd_init_grant].
Definition hello : ActionMessage :=
  setStringData ["ept_2"; "ept_1"; "ept_1"] (newMessage cmd_send_message <| messageID := 55 |>
    <| source_id := fed_1 |> <| source_handle := 0 |> <| payload := "hello" |>).
(** the core that waits for the first of its filters on the other core *)
Lemma default_some {A} (d : A) (o : option A) : match o with Some _ => true | None => false end = true -> o = Some (default d o).
Proof. by destruct o. Qed.

Definition filtering (filters : list Z) : @CommonCore ListVector.t ListContainer.C operators :=
  final start (run (opening ++ (far_filter <$> filters) ++ beginning ++ [deliver hello])).
End CoreExample.
