(* ===== verification/CoreSpec.v ===== *)
(** * What a core promises

    The properties of a core in its states and over the sequences of commands
    it is given. *)

From S2P Require Import Prelude BrokerBase HTime Identifiers CoreData StateMonad DualVector JsonBuilder TimeDependencies TimeCoordinator ForwardingTimeCoordinator InterfaceInfo HandleManager CoreTypes FederateState CoreBroker CommonCore CoreFilters CoreInterfaces CoreControl CoreCommands MessageTimer CoreCalls CoreFacts CoreFlow FilterOrder CoreTyped CoreRun ActionMessage.
Import Basic (BasicHandleInfo) Kind (handle_type) Filt (FilterInfo) Local (LocalFed) Core CFilters CLinks CControl CCommands Run.

(** ** Pointers *)

(** the filters of a coordinator, source filters in their order first *)
Definition kept_filters (fc : FilterCoordinator) : list pointer :=
  sourceFilters fc ++ allSourceFilters fc ++ cloningDestFilters fc ++ option_list (destFilter fc).

(** C19: Whatever happens to a core after it was made, the commands its queue
    delivers and the calls of its federates in any order, no coordinator of an
    endpoint keeps a null or a dangling pointer: each filter it keeps is one
    of the filters of the core and can be followed, the source filters it runs
    are among those added to it, and it says that it has source filters
    exactly when some were added.  An entry of the loop that refers to a
    federate refers to one that exists.  The container must take an element
    with a new identifier ([TakesNewIds]); this is what keeps the pointer that
    [createFilter] returns valid. *)
Theorem core_stays_typed `{Platform} {C D} `{DualVectorLaws C} `{!TakesNewIds C} `{DualMapped D} `{FilterOperators}
    `{SteadyTimers} `{JsonLib} fmt addr depth (es : list core_event) name w (c : CommonCore C D) :
  run_events fmt addr depth es (new_core name w) = Some (tt, c) ->
  (forall h fc, filterCoord c !! h = Some fc ->
     (forall ptr, ptr ∈ kept_filters fc -> is_Some (filter_of ptr c)) /\
     (forall ptr, ptr ∈ sourceFilters fc -> ptr ∈ allSourceFilters fc) /\
     (hasSourceFilters fc = true <-> allSourceFilters fc <> [])) /\
  (forall e p, e ∈ dv_elements (loopFederates c) -> Loop.fed e = Some p -> is_Some (dv_elements (federates c) !! p)).
Proof.
  intros Hr. assert (core_typed c) as [Hfed Hco].
  { eapply preserves_inv; [|apply (new_core_typed name w)|exact Hr].
    apply preserves_for_each. intros e _. apply run_event_typed. }
  split; [|intros e p He Hp; apply lookup_lt_is_Some, (Hfed e He p Hp)].
  intros h fc Hh. destruct (Hco h fc Hh) as [Ha Hs Hc Hd Hf]. split; [|done].
  assert (Hl : forall ptr, present (n_filters c) ptr -> is_Some (filter_of ptr c)).
  { intros ptr (p & -> & Hp). by apply lookup_lt_is_Some. }
  rewrite Forall_forall in Ha, Hc. intros ptr. unfold kept_filters. rewrite !elem_of_app.
  intros [Hp|[Hp|[Hp|Hp]]]; apply Hl; auto. destruct (destFilter fc) as [q|]; [|by apply not_elem_of_nil in Hp].
  apply list_elem_of_singleton in Hp as ->. by apply Hd.
Qed.

(** ** Time waits for filters *)

Section Waiting.
Context `{Platform} {C : Type -> Type} `{DualVectorLaws C} {D : Type -> Type} `{DualMapped D} `{FilterOperators} `{JsonLib}.
Context (fmt : string -> list string -> string) (addr : string) (now : Z).
Implicit Types (c : CommonCore C D).

(** a request or grant of time of the federate [f] *)
Definition timing_of (f : Z) (m : ActionMessage) : Prop := asks_time (messageAction m) = true /\ source_id m = f.
#[export] Instance timing_of_dec f m : Decision (timing_of f m).
Proof. unfold timing_of. apply _. Defined.

Definition sent_timing (f : Z) (e : broker_event) : option ActionMessage :=
  match e with Transmit _ m => if decide (timing_of f m) then Some m else None | _ => None end.
Definition queued_timing (f : Z) (l : LocalFed D) : list ActionMessage :=
  base.filter (timing_of f) (Fed.pushed (Local.fs l)).

(** No request or grant of time of [f] was sent, queued or released between
    the two states. *)
Record undisturbed (f : Z) c0 c : Prop := {
  un_waiting : delayedTimingMessages c !! f = delayedTimingMessages c0 !! f;
  un_delayed : delayTransmitQueue c = delayTransmitQueue c0;
  un_sent : omap (sent_timing f) (outputs c) = omap (sent_timing f) (outputs c0);
  un_queued : queued_timing f <$> dv_elements (federates c) = queued_timing f <$> dv_elements (federates c0);
}.

Lemma undisturbed_refl f c : undisturbed f c c.
Proof. by split. Qed.

(** the outputs that are no such requests *)
Lemma undisturbed_outputs f c0 c l :
  omap (sent_timing f) l = [] -> undisturbed f c0 c -> undisturbed f c0 (c <| outputs ::= fun l' => l' ++ l |>).
Proof. intros Hl []. split; try done. cbn. by rewrite omap_app, Hl, app_nil_r. Qed.

Lemma queued_addAction f m (l : LocalFed D) :
  asks_time (messageAction m) = false -> queued_timing f (l <| Local.fs ::= Fed.addAction m |>) = queued_timing f l.
Proof.
  intros Hm. unfold queued_timing, Fed.addAction. cbn. case_bool_decide; [|done]. cbn.
  rewrite filter_app, filter_cons_False; [by rewrite app_nil_r|]. intros [Ha _]. congruence.
Qed.

Lemma undisturbed_flows f c0 : flows (C := C) (D := D) (fun a => asks_time a = false) (undisturbed f c0).
Proof.
  split; intros; try done; try solve [apply preserves_modifies; intros c []; by split].
  - apply preserves_modifies. intros c Hc. apply undisturbed_outputs; [|done]. cbn.
    rewrite decide_False; [done|]. intros []. congruence.
  - apply preserves_modifies. intros c Hc. by apply undisturbed_outputs.
  - apply preserves_modifies. intros c []. split; try done. rewrite <- un_queued0. cbn. rewrite dv_modify_elements.
    apply list_eq. intros i. rewrite !list_lookup_fmap, list_lookup_alter. case_decide; [subst|done].
    destruct (dv_elements (federates c) !! i); [|done]. cbn. f_equal. by apply queued_addAction.
  - apply preserves_core_tc. intros c fc ms []. apply undisturbed_outputs; [|by split].
    induction ms; [done|]. by cbn.
  - unfold getFilterCoordinator. cbv [bind_first]. repeat core_step. apply preserves_modifies. intros c []. by split.
Qed.

(** while messages of a federate are filtered, its requests are kept *)
Lemma requests_wait f l : forall c,
  isLocal_of f c = true -> none_ongoing f (ongoingFilterProcesses c) = false -> Forall (timing_of f) l -> l <> [] ->
  for_each l (processCommand fmt addr now) c =
    Some (tt, c <| delayedTimingMessages ::= fun d => <[f := default [] (d !! f) ++ l]> d |>).
Proof.
  induction l as [|m l IH]; intros c Hl Ho Hf Hn; [done|]. apply Forall_cons in Hf as [[Ha Hm] Hf].
  cbn [for_each]. unfold mbind, M_bind.
  assert (E : processCommand fmt addr now m c =
    Some (tt, c <| delayedTimingMessages ::= fun d => <[f := default [] (d !! f) ++ [m]]> d |>)).
  { unfold processCommand. destruct (messageAction m); try done;
      unfold time_command, exec_command, delay_timing; cbv [bind_first gets modifies mbind mret M_ret M_bind];
      rewrite Hm, Hl, Ho; reflexivity. }
  rewrite E. destruct l as [|m' l]; [done|]. rewrite IH; try done. f_equal. f_equal.
  cbn. rewrite lookup_insert_eq. cbn. by rewrite insert_insert_eq, <- app_assoc.
Qed.

Lemma no_delayed c : delayTransmitQueue c = [] -> c <| delayTransmitQueue := [] |> = c.
Proof. intros E. destruct c. cbn in *. by rewrite E. Qed.

(** the release, when nothing waits for the registration of the core *)
Lemma release_run f c c' :
  delayTransmitQueue c = [] -> release_if_done f c = Some (tt, c') ->
  if none_ongoing f (ongoingFilterProcesses c)
  then exists c2, for_each (default [] (delayedTimingMessages c !! f)) routeMessage c = Some (tt, c2) /\
                  c' = c2 <| delayedTimingMessages ::= <[f := []]> |>
  else c' = c.
Proof.
  intros Hq. unfold release_if_done. cbv [bind_first]. unfold mbind at 1, M_bind at 1, gets at 1, when.
  destruct (none_ongoing _ _); [|by intros ->%result_state]. unfold transmitDelayedMessages_of. cbv [bind_first].
  cbv [gets modifies mbind M_bind]. rewrite Hq. cbn [base.filter list_filter for_each skip mret M_ret].
  rewrite (no_delayed c Hq). destruct (for_each _ routeMessage c) as [[[] c2]|]; [|done]. intros ->%result_state. by exists c2.
Qed.
End Waiting.

(** C21: While messages of a federate are at filters of other cores, its
    requests and grants of time are kept back: processing them changes nothing
    but the list of those that wait, to whose end they are added.  When the
    answer of a filter comes, none of them is sent, queued or lost while the
    answer is dealt with; then, if no other message of the federate is being
    filtered, exactly those that waited are routed, in their order, and none
    waits any more, and otherwise they wait on. *)
Theorem time_waits_for_filters `{Platform} {C D} `{DualVectorLaws C} `{DualMapped D} `{FilterOperators} `{JsonLib}
    fmt addr now f (l : list ActionMessage) (c : CommonCore C D) :
  isLocal_of f c = true -> none_ongoing f (ongoingFilterProcesses c) = false -> delayTransmitQueue c = [] ->
  Forall (timing_of f) l -> l <> [] ->
  let waiting := default [] (delayedTimingMessages c !! f) ++ l in
  let held := c <| delayedTimingMessages ::= <[f := waiting]> |> in
  for_each l (processCommand fmt addr now) c = Some (tt, held) /\
  forall r c', messageAction r = cmd_filter_result ->
    Basic.getFederateId <$> getEndpoint_at (dest_handle r) (loopHandles c) = Some f ->
    processCommand fmt addr now r held = Some (tt, c') ->
    exists c1, undisturbed f held c1 /\
      if none_ongoing f (ongoingFilterProcesses c1)
      then exists c2, for_each waiting routeMessage c1 = Some (tt, c2) /\
                      c' = c2 <| delayedTimingMessages ::= <[f := []]> |>
      else c' = c1.
Proof.
  intros Hl Ho Hq Hf Hn waiting held. split; [by apply requests_wait|].
  intros r c' Ha (h & Hh & ->)%fmap_Some Hr. unfold processCommand in Hr. rewrite Ha in Hr.
  apply (processFilterReturn_releases _ _ (undisturbed_flows (Basic.getFederateId h) held)) in Hr
    as [-> | (h' & Hh' & c1 & Hc1 & E)].
  - exists held. split; [apply undisturbed_refl|]. cbn. by rewrite Ho.
  - assert (h' = h) as -> by (cbn in Hh'; congruence). exists c1. split; [done|].
    apply release_run in E; [|by rewrite (un_delayed _ _ _ Hc1)].
    rewrite (un_waiting _ _ _ Hc1) in E. cbn in E. by rewrite lookup_insert_eq in E.
  - apply undisturbed_refl.
  - by rewrite Ha.
  - by rewrite Ha.
Qed.

(** ** Examples *)

Import CoreExample.
#[local] Existing Instance ListContainer.list_container.
#[local] Existing Instance TextJson.text_json.
#[local] Existing Instance x86_64.

(** Two filters of another core at an endpoint of this one. *)
Definition attached := opening ++ [far_filter 5; far_filter 6] ++ beginning.

Lemma attached_runs : ran (run attached) = true.
Proof. vm_compute. reflexivity. Qed.

Lemma core_stays_typed_witness :
  (fun fc => length (sourceFilters fc)) <$> filterCoord (final start (run attached)) !! 0 = Some 2%nat /\
  forall h fc ptr, filterCoord (final start (run attached)) !! h = Some fc -> ptr ∈ kept_filters fc ->
    is_Some (filter_of ptr (final start (run attached))).
Proof.
  split; [vm_compute; reflexivity|]. intros h fc ptr Hh.
  exact (proj1 (proj1 (core_stays_typed format "tcp://core" 1 attached "core_A" tt _
                         (ran_final start (run attached) attached_runs)) h fc Hh) ptr).
Defined.

Definition request : ActionMessage := newMessage cmd_time_request <| source_id := fed_1 |> <| dest_id := far |>.
Definition answer : ActionMessage :=
  setAction cmd_filter_result hello <| source_id := far |> <| dest_id := fed_1 |> <| dest_handle := 0 |>.

Definition asking := filtering [5; 6].
Definition held := asking <| delayedTimingMessages ::= <[fed_1 := [request]]> |>.
Lemma answer_runs : ran (processCommand format "" 0 answer held) = true.
Proof. reflexivity. Qed.

Lemma time_waits_for_filters_witness :
  for_each [request] (processCommand format "" 0) asking = Some (tt, held) /\
  exists c1, undisturbed fed_1 held c1 /\
    if none_ongoing fed_1 (ongoingFilterProcesses c1)
    then exists c2, for_each [request] routeMessage c1 = Some (tt, c2) /\
      final held (processCommand format "" 0 answer held) = c2 <| delayedTimingMessages ::= <[fed_1 := []]> |>
    else final held (processCommand format "" 0 answer held) = c1.
Proof.
  destruct (time_waits_for_filters format "" 0 fed_1 [request] asking) as [Hw Ha]; try reflexivity.
  - apply Forall_singleton. by split.
  - done.
  - assert (Hd : delayedTimingMessages asking !! fed_1 = None) by reflexivity. rewrite Hd in Hw, Ha.
    split; [exact Hw|]. eapply (Ha answer); [reflexivity|reflexivity|].
    exact (ran_final held (processCommand format "" 0 answer held) answer_runs).
Defined.
