(* ===== verification/FilterSpec.v ===== *)
(** * What filters do to messages

    The way of a message through the filters of its source on the same core,
    through a filter of its destination on another core, and the answers of
    filters on other cores. *)

From S2P Require Import Prelude BrokerBase HTime Identifiers CoreData StateMonad DualVector JsonBuilder TimeDependencies TimeCoordinator ForwardingTimeCoordinator InterfaceInfo HandleManager CoreTypes FederateState CoreBroker CommonCore CoreFilters CoreInterfaces CoreControl CoreCommands MessageTimer CoreCalls CoreRun CoreFacts CoreFlow FilterOrder CoreTyped CoreSpec ActionMessage.
Import Basic (BasicHandleInfo) Kind (handle_type) Filt (FilterInfo) Local (LocalFed) Core CFilters CCommands.

(** ** Filters of the source on the same core *)

(** A message of a filter is passed on without its flags. *)
Definition unflagged (msg : Message) : Message := msg <| CoreData.flags := 0 |>.

(** The operators one after the other, until one of them drops the message. *)
Fixpoint apply_all `{FilterOperators} (ops : list filter_operator) (msg : Message) (w : world)
    : option Message * list ActionMessage * world :=
  match ops with
  | [] => (Some msg, [], w)
  | op :: ops' =>
      match process op (unflagged msg) w with
      | (None, ms, w') => (None, ms, w')
      | (Some msg', ms, w') => let '(r, ms', w'') := apply_all ops' msg' w' in (r, ms ++ ms', w'')
      end
  end.

Lemma message_of_command m msg : createMessageFromCommand (copy_assign m (command_of_message msg)) = unflagged msg.
Proof. by destruct msg. Qed.

Lemma unflagged_command m : unflagged (createMessageFromCommand m) = createMessageFromCommand m.
Proof. unfold createMessageFromCommand, unflagged. by repeat case_match. Qed.

Lemma copy_assign_twice m a b : copy_assign (copy_assign m a) b = copy_assign m b.
Proof. done. Qed.

Section Local.
Context `{Platform} {C : Type -> Type} `{DualVector C} {D : Type -> Type} `{DualMapped D} `{FilterOperators}.
Implicit Types (c : CommonCore C D).

(** a connected filter of this core that is no cloning filter, and its operator *)
Definition local_operator c (ptr : pointer) (op : filter_operator) : Prop :=
  exists f, filter_of ptr c = Some f /\ Filt.disconnected f = false /\ Filt.cloning f = false /\
    Filt.core_id f = global_broker_id_local c /\ Filt.filterOp f = Some op.

(** the operators have run, and what they put into the queue *)
Definition after_operators c (w : world) (ms : list ActionMessage) : CommonCore C D :=
  c <| operator_world := w |> <| outputs ::= fun l => l ++ (Enqueue <$> ms) |>.

Lemma enqueue_all ms : forall c,
  for_each ms addActionMessage c = Some (tt, c <| outputs ::= fun l => l ++ (Enqueue <$> ms) |>).
Proof.
  induction ms as [|m ms IH]; intros c; cbn [for_each].
  - unfold skip, mret, M_ret. f_equal. f_equal. destruct c. cbn. by rewrite app_nil_r.
  - unfold mbind, M_bind, addActionMessage, emit, modifies at 1. fold (addActionMessage (C := C) (D := D)).
    rewrite IH. f_equal. f_equal. cbn. by rewrite <- app_assoc.
Qed.

Lemma run_operator_run op msg c :
  run_operator op msg c =
    let '(r, ms, w) := process op msg (operator_world c) in Some (r, after_operators c w ms).
Proof.
  unfold run_operator. cbv [bind_first]. unfold mbind at 1, M_bind at 1, gets at 1.
  destruct (process op msg (operator_world c)) as [[r ms] w]. unfold mbind, M_bind, modifies. by rewrite enqueue_all.
Qed.

Lemma after_operators_nil c : after_operators c (operator_world c) [] = c.
Proof. destruct c. unfold after_operators. cbn. by rewrite app_nil_r. Qed.

Lemma local_operator_after c ptr op w ms : local_operator c ptr op -> local_operator (after_operators c w ms) ptr op.
Proof. done. Qed.

Lemma after_operators_twice c w ms w' ms' :
  after_operators (after_operators c w ms) w' ms' = after_operators c w' (ms ++ ms').
Proof. unfold after_operators. cbn. by rewrite fmap_app, app_assoc. Qed.

(** the command that comes out: unchanged without filters, else made anew *)
Definition filtered (m : ActionMessage) (ops : list filter_operator) (r : option Message) : ActionMessage :=
  match ops, r with
  | [], _ => m
  | _, Some msg => copy_assign m (command_of_message msg)
  | _, None => copy_assign m (newMessage cmd_ignore)
  end.

Lemma through_local_filters n fid l ops : forall ii m c,
  Forall2 (local_operator c) l ops ->
  through_source_filters n fid ii l m c =
    let '(r, ms, w) := apply_all ops (createMessageFromCommand m) (operator_world c) in
    Some (filtered m ops r, after_operators c w ms).
Proof.
  revert ops. induction l as [|ptr l IH]; intros ops ii m c Hl.
  - apply Forall2_nil_inv_l in Hl as ->. cbn. by rewrite after_operators_nil.
  - apply Forall2_cons_inv_l in Hl as (op & ops' & (f & Hf & Hd & Hc & Hi & Ho) & Hl & ->).
    cbn [through_source_filters apply_all]. cbv [bind_first].
    unfold filter_at, bind_first, mbind, M_bind, gets. rewrite Hf. cbn [deref]. rewrite Hd, Hi, Z.eqb_refl, Hc.
    unfold run_filter, bind_first, mbind, M_bind. rewrite Ho. cbn [deref]. rewrite run_operator_run, unflagged_command.
    destruct (process op _ _) as [[[msg|] ms] w]; [|done].
    rewrite (IH ops'); [|by eapply Forall2_impl; [exact Hl|]; intros; apply local_operator_after].
    rewrite message_of_command. destruct ops' as [|op' ops'].
    + cbn [apply_all]. by rewrite after_operators_twice.
    + change (apply_all (op' :: ops') (unflagged msg)) with (apply_all (op' :: ops') msg).
      cbn [operator_world after_operators]. destruct (apply_all (op' :: ops') msg w) as [[r ms'] w'] eqn:E.
      change (operator_world (after_operators c w ms)) with w. rewrite E, after_operators_twice. by destruct r.
Qed.
End Local.

(** C23: A message of an endpoint whose filters are all on its own core, active
    and not cloning, goes through the composition of their operators: each gets
    what the one before returned, without its flags, and the state behind the
    operators and the messages they queue are threaded through.  What the last
    one returns is sent on; when one drops the message the others do not run
    and an empty command takes its place. *)
Theorem local_filters_compose `{Platform} {C D} `{DualVector C} `{DualMapped D} `{FilterOperators}
    (m : ActionMessage) (c : CommonCore C D) h fc ops :
  getEndpoint_at (source_handle m) (loopHandles c) = Some h ->
  check_flag (Basic.flags h) has_source_filter_flag = true ->
  filterCoord c !! Basic.getInterfaceHandle h = Some fc -> hasSourceFilters fc = true ->
  Forall2 (local_operator c) (sourceFilters fc) ops ->
  processMessage m c =
    let '(r, ms, w) := apply_all ops (createMessageFromCommand m) (operator_world c) in
    Some (filtered m ops r, after_operators c w ms).
Proof.
  intros Hh Hf Hc Hs Ho. unfold processMessage. cbv [bind_first]. unfold mbind at 1, M_bind at 1, gets at 1.
  rewrite Hh, Hf. unfold getFilterCoordinator, bind_first, mbind, M_bind, gets. rewrite Hc. cbn [mret M_ret deref].
  rewrite Hs. by apply through_local_filters.
Qed.

(** ** A filter of the destination on another core *)

Section Destination.
Context `{Platform} {C : Type -> Type} `{DualVectorLaws C} {D : Type -> Type} `{DualMapped D} `{FilterOperators} `{JsonLib}.
Implicit Types (c : CommonCore C D).

(** the route of a message that leaves the core *)
Definition route_to c (dest : global_federate_id) : route_id :=
  if (dest =? parent_broker_id) || (dest =? higher_broker_id c) then RouteId.parent_route_id else getRoute_of dest c.

Lemma route_by_away takes m c :
  dest_id m <> global_broker_id_local c -> isLocal_of (dest_id m) c = false ->
  route_by takes m c = Some (tt, c <| outputs ::= fun l => l ++ [Transmit (route_to c (dest_id m)) m] |>).
Proof.
  intros Hd Hl. unfold route_by, route_to. cbv [bind_first]. unfold mbind, M_bind, gets.
  destruct (_ || _); [done|]. rewrite (proj2 (Z.eqb_neq _ _) Hd), Hl. done.
Qed.

(** the time block for a message, and the end of it *)
Definition block (c : CommonCore C D) (f mid : Z) : ActionMessage :=
  msg_from_to cmd_time_block (global_broker_id_local c) f <| messageID := mid |>.
Definition unblock (c : CommonCore C D) (f mid : Z) : ActionMessage :=
  msg_from_to cmd_time_unblock (global_broker_id_local c) f <| messageID := mid |>.

(** the message for the filter *)
Definition filter_request (lp : BasicHandleInfo) (filt : FilterInfo) (mid : Z) (m : ActionMessage) : ActionMessage :=
  setAction cmd_send_for_dest_filter_return m <| messageID := mid |>
    <| source_id := Basic.getFederateId lp |> <| source_handle := Basic.getInterfaceHandle lp |>
    <| dest_id := Filt.core_id filt |> <| dest_handle := Filt.handle filt |>.

(** the state in which the filter was asked *)
Definition asked c (lp : BasicHandleInfo) (filt : FilterInfo) (p : nat) (m : ActionMessage) : CommonCore C D :=
  let f := Basic.getFederateId lp in
  let mid := int32 (messageCounter c + 1) in
  c <| messageCounter := mid |>
    <| federates ::= dv_modify p (fun l => l <| Local.fs ::= Fed.addAction (block c f mid) |>) |>
    <| ongoingDestFilterProcesses ::= add_ongoing f mid |>
    <| outputs ::= fun l => l ++ [Transmit (route_to c (Filt.core_id filt)) (filter_request lp filt mid m)] |>.

(** the endpoint a message is for *)
Definition endpoint_of c (m : ActionMessage) : option BasicHandleInfo :=
  if dest_id m =? parent_broker_id then getEndpoint (getString targetStringLoc m) (loopHandles c)
  else findHandle (getDest m) (loopHandles c).

(** an endpoint with an active filter on another core *)
Record filtered_far c (lp : BasicHandleInfo) (filt : FilterInfo) (p : nat) : Prop := {
  ff_flag : check_flag (Basic.flags lp) has_dest_filter_flag = true;
  ff_filter : exists fc ptr, filterCoord c !! Basic.getInterfaceHandle lp = Some fc /\
    destFilter fc = Some ptr /\ filter_of ptr c = Some filt;
  ff_active : Filt.disconnected filt = false;
  ff_far : Filt.core_id filt <> global_broker_id_local c;
  ff_away : isLocal_of (Filt.core_id filt) c = false;
  ff_owner : getFederateCore_of (Basic.getFederateId lp) c = Some p;
}.

Lemma deliver_asks m c lp filt p :
  messageAction m = cmd_send_message -> endpoint_of c m = Some lp -> filtered_far c lp filt p ->
  deliverMessage m c = Some (tt, asked c lp filt p m).
Proof.
  intros Ha Hl [Hfl (fc & ptr & Hfc & Hptr & Hf) Hd Hfar Haway Hp]. unfold deliverMessage. cbv [bind_first].
  unfold mbind at 1, M_bind at 1, gets at 1. rewrite Ha. unfold endpoint_of in Hl. rewrite Hl.
  unfold mbind at 1, M_bind at 1. unfold through_dest_filters. rewrite Hfl. cbv [bind_first].
  unfold getFilterCoordinator, bind_first. unfold mbind at 1, M_bind at 1. unfold mbind at 1, M_bind at 1, gets at 1.
  rewrite Hfc. cbn [mret M_ret]. unfold mbind at 1, M_bind at 1. unfold through_dest_filter. rewrite Hptr.
  unfold filter_at. cbv [bind_first gets mbind M_bind deref]. rewrite Hf, Hd, (proj2 (Z.eqb_neq _ _) Hfar). cbn [negb].
  unfold send_for_dest_filter. cbv [bind_first gets mbind M_bind deref modifies]. rewrite Hp.
  cbv [addAction set_fed set_local modifies]. unfold routeMessage_move.
  rewrite route_by_away; [reflexivity|exact Hfar|exact Haway].
Qed.

(** a federate of the core that takes messages *)
Record at_home c (f : global_federate_id) (p : nat) (l : LocalFed D) : Prop := {
  ah_parent : f <> parent_broker_id;
  ah_higher : f <> higher_broker_id c;
  ah_core : f <> global_broker_id_local c;
  ah_place : getFederateCore_of f c = Some p;
  ah_fed : federate_of p c = Some l;
  ah_open : not_ended (Fed.state (Local.fs l)) = true;
}.

Definition queue_at (p : nat) (m : ActionMessage) c : CommonCore C D :=
  c <| federates ::= dv_modify p (fun l => l <| Local.fs ::= Fed.addAction m |>) |>.

Lemma route_by_home (takes : federate_state -> bool) m c p l :
  at_home c (dest_id m) p l -> takes (Fed.state (Local.fs l)) = true -> route_by takes m c = Some (tt, queue_at p m c).
Proof.
  intros [Hp Hh Hc Hpl Hf _] Ht. unfold route_by. cbv [bind_first]. unfold mbind at 1, M_bind at 1, gets at 1.
  rewrite (proj2 (Z.eqb_neq _ _) Hp), (proj2 (Z.eqb_neq _ _) Hh), (proj2 (Z.eqb_neq _ _) Hc). cbn [orb].
  assert (isLocal_of (dest_id m) c = true) as ->.
  { unfold isLocal_of. apply bool_decide_true. unfold getFederateCore_of, loop_entry in Hpl.
    destruct (dv_find_id _ _); [by eexists|done]. }
  rewrite Hpl. unfold getState, federate_at. cbv [bind_first gets mbind M_bind deref mret M_ret when]. rewrite Hf, Ht. done.
Qed.

Lemma queue_at_home f p l m c :
  at_home c f p l -> at_home (queue_at p m c) f p (l <| Local.fs ::= Fed.addAction m |>).
Proof.
  intros [Hp Hh Hc Hpl Hf Ho]. split; try done.
  - unfold federate_of, queue_at. cbn. rewrite dv_modify_elements, list_lookup_alter_eq. unfold federate_of in Hf.
    by rewrite Hf.
  - cbn. unfold Fed.addAction. by case_bool_decide.
Qed.

(** what the call of the coordinator leaves alone *)
Lemma tc_home {A} (op : ForwardingTimeCoordinator -> A * ForwardingTimeCoordinator) c :
  exists a fc out, tc op c = Some (a, c <| timeCoord := fc |> <| outputs ::= fun l => l ++ out |>).
Proof. unfold tc. destruct (op _) as [a fc]. by eexists a, _, _. Qed.

(** the answer to a request *)
Record answers_dest c (lp : BasicHandleInfo) (p : nat) (l : LocalFed D) (r : ActionMessage) : Prop := {
  ad_action : messageAction r = cmd_dest_filter_result;
  ad_endpoint : getEndpoint_at (dest_handle r) (loopHandles c) = Some lp;
  ad_dest : dest_id r = Basic.getFederateId lp;
  ad_home : at_home c (Basic.getFederateId lp) p l;
  ad_clones : cloningDestFilters <$> filterCoord c !! Basic.getInterfaceHandle lp = Some [];
}.

Lemma not_ended_finished s : not_ended s = true -> not_finished s = true.
Proof. unfold not_ended, not_finished. intros [? _]%andb_true_iff. done. Qed.

Lemma answer_delivers c lp p l r :
  answers_dest c lp p l r ->
  is_ongoing (Basic.getFederateId lp) (messageID r) (ongoingDestFilterProcesses c) = true ->
  exists c', processDestFilterReturn r c = Some (tt, c') /\
    federate_of p c' = Some (l <| Local.fs ::= fun s => Fed.addAction (unblock c (Basic.getFederateId lp) (messageID r))
                                                     (Fed.addAction (setAction cmd_send_message r) s) |>) /\
    ongoingDestFilterProcesses c' =
      erase_ongoing (Basic.getFederateId lp) (messageID r) (ongoingDestFilterProcesses c) /\
    loopHandles c' = loopHandles c.
Proof.
  intros [Ha He Hd Hh Hc] Ho. apply fmap_Some in Hc as (fc & Hfc & Hcl).
  set (f := Basic.getFederateId lp) in *.
  set (c0 := c <| ongoingDestFilterProcesses ::= erase_ongoing f (messageID r) |>).
  destruct (tc_home (processTimeMessage r) c0) as (a & tcoord & out & Et).
  set (c1 := c0 <| timeCoord := tcoord |> <| outputs ::= fun l => l ++ out |>) in *.
  assert (Hh1 : at_home c1 f p l) by (destruct Hh; by split).
  set (m := setAction cmd_send_message r).
  pose proof (queue_at_home f p l m c1 Hh1) as Hh2.
  pose proof (queue_at_home f p _ (unblock c f (messageID r)) _ Hh2) as Hh3.
  exists (queue_at p (unblock c f (messageID r)) (queue_at p m c1)). split_and!; [|apply (ah_fed _ _ _ _ Hh3)|done|done].
  unfold processDestFilterReturn. cbv [bind_first gets]. unfold mbind at 1, M_bind at 1. rewrite He.
  unfold mbind at 1, M_bind at 1. fold f. rewrite Ho. unfold mbind at 1, M_bind at 1, modifies at 1. fold c0.
  rewrite bool_decide_false by by rewrite Ha.
  unfold getFilterCoordinator, bind_first, gets. unfold mbind at 1, M_bind at 1. unfold mbind at 1, M_bind at 1.
  change (filterCoord c0) with (filterCoord c). rewrite Hfc. cbn [mret M_ret]. unfold mbind at 1, M_bind at 1. cbn [deref].
  rewrite <- Hcl. cbn [for_each]. unfold mbind at 1, M_bind at 1. cbn [skip mret M_ret].
  unfold mbind at 1, M_bind at 1. rewrite Et. unfold mbind at 1, M_bind at 1, routeMessage_move. fold m.
  rewrite (route_by_home not_finished m c1 p l);
    [|by change (dest_id m) with (dest_id r); rewrite Hd|apply not_ended_finished, (ah_open _ _ _ _ Hh1)].
  eapply (route_by_home not_ended (unblock c f (messageID r))); [exact Hh2|apply (ah_open _ _ _ _ Hh2)].
Qed.
End Destination.

Lemma ongoing_added f mid m : is_ongoing f mid (add_ongoing f mid m) = true.
Proof. unfold is_ongoing, add_ongoing. rewrite lookup_insert_eq. cbn. apply bool_decide_true. set_solver. Qed.

Lemma ongoing_erased f mid m : is_ongoing f mid (erase_ongoing f mid m) = false.
Proof. unfold is_ongoing, erase_ongoing. rewrite lookup_insert_eq. cbn. apply bool_decide_false. set_solver. Qed.

(** C22: A message for an endpoint with a filter on another core is not
    delivered: a time block with a fresh number goes to the queue of the
    federate, and the message, with that number, to the core of the filter.
    When the answer comes, whenever that is, the filtered message goes to the
    queue of the federate and behind it the end of the block, so that the
    federate cannot pass the time of the message before it has it; and an
    answer that comes once more changes nothing. *)
Theorem dest_filter_holds_time `{Platform} {C D} `{DualVectorLaws C} `{DualMapped D} `{FilterOperators} `{JsonLib}
    fmt addr now (m : ActionMessage) (c : CommonCore C D) lp filt p :
  messageAction m = cmd_send_message -> endpoint_of c m = Some lp -> filtered_far c lp filt p ->
  let f := Basic.getFederateId lp in
  let mid := int32 (messageCounter c + 1) in
  deliverMessage m c = Some (tt, asked c lp filt p m) /\
  is_ongoing f mid (ongoingDestFilterProcesses (asked c lp filt p m)) = true /\
  forall (c2 : CommonCore C D) l r, answers_dest c2 lp p l r -> messageID r = mid ->
    is_ongoing f mid (ongoingDestFilterProcesses c2) = true ->
    exists c3, processCommand fmt addr now r c2 = Some (tt, c3) /\
      federate_of p c3 = Some (l <| Local.fs ::= fun s =>
        Fed.addAction (unblock c2 f mid) (Fed.addAction (setAction cmd_send_message r) s) |>) /\
      is_ongoing f mid (ongoingDestFilterProcesses c3) = false /\
      processCommand fmt addr now r c3 = Some (tt, c3).
Proof.
  intros Ha Hl Hf f mid. split_and!; [by apply deliver_asks|apply ongoing_added|].
  intros c2 l r Hr Hmid Ho. rewrite <- Hmid in *. destruct (answer_delivers c2 lp p l r Hr Ho) as (c3 & E & Hp & Hod & Hlh).
  exists c3. unfold processCommand. rewrite (ad_action _ _ _ _ _ Hr). split_and!; [done|done|by rewrite Hod; apply ongoing_erased|].
  unfold processDestFilterReturn. cbv [bind_first gets]. unfold mbind at 1, M_bind at 1.
  rewrite Hlh, (ad_endpoint _ _ _ _ _ Hr). unfold mbind at 1, M_bind at 1. by rewrite Hod, ongoing_erased.
Qed.

(** ** The answer of a filter that is not the last *)

Lemma ongoing_some f mid m : is_ongoing f mid m = true -> none_ongoing f m = false.
Proof. unfold is_ongoing, none_ongoing. intros Hm%bool_decide_eq_true. apply bool_decide_false. set_solver. Qed.

Section Return.
Context `{Platform} {C : Type -> Type} `{DualVectorLaws C} {D : Type -> Type} `{DualMapped D} `{FilterOperators}.
Implicit Types (c : CommonCore C D).

(** a filter of another core that is asked and answers *)
Record next_far c (ptr : pointer) (filt : FilterInfo) : Prop := {
  nf_filter : filter_of ptr c = Some filt;
  nf_active : Filt.disconnected filt = false;
  nf_far : Filt.core_id filt <> global_broker_id_local c;
  nf_away : isLocal_of (Filt.core_id filt) c = false;
}.

(** the message for the filter at the position [ii] *)
Definition next_request (ii : Z) (filt : FilterInfo) (m : ActionMessage) : ActionMessage :=
  setAction cmd_send_for_filter_return
    (m <| dest_id := Filt.core_id filt |> <| dest_handle := Filt.handle filt |> <| counter := uint16 ii |>).

Definition sending c (dest : global_federate_id) (m : ActionMessage) : CommonCore C D :=
  c <| outputs ::= fun l => l ++ [Transmit (route_to c dest) m] |>.

Lemma return_asks_next r c h fc ptr filt :
  let f := Basic.getFederateId h in
  let ii := uint16 (counter r + 1) in
  messageAction r = cmd_filter_result -> getEndpoint_at (dest_handle r) (loopHandles c) = Some h ->
  is_ongoing f (messageID r) (ongoingFilterProcesses c) = true ->
  filterCoord c !! Basic.getInterfaceHandle h = Some fc -> hasSourceFilters fc = true ->
  sourceFilters fc !! Z.to_nat ii = Some ptr -> ii < Z.of_nat (length (sourceFilters fc)) - 1 -> next_far c ptr filt ->
  processFilterReturn r c = Some (tt, sending c (Filt.core_id filt) (next_request ii filt r)).
Proof.
  intros f ii Ha Hh Ho Hfc Hs Hptr Hii [Hf Hd Hfar Haway].
  unfold processFilterReturn. cbv [bind_first gets]. unfold mbind at 1, M_bind at 1. rewrite Hh.
  unfold mbind at 1, M_bind at 1. fold f. rewrite Ho, bool_decide_false by by rewrite Ha.
  unfold mbind at 1, M_bind at 1. cbn [skip mret M_ret]. unfold mbind at 1, M_bind at 1, getFilterCoordinator.
  cbv [bind_first gets]. unfold mbind at 1, M_bind at 1. rewrite Hfc. cbn [mret M_ret].
  unfold mbind at 1, M_bind at 1. cbn [deref]. rewrite Hs. fold ii. rewrite (drop_S _ _ _ Hptr).
  unfold mbind at 1, M_bind at 1. cbn [return_filters]. cbv [bind_first]. unfold filter_at. cbv [bind_first gets].
  unfold mbind at 1, M_bind at 1. unfold mbind at 1, M_bind at 1. rewrite Hf. cbn [deref]. rewrite Hd.
  unfold mbind at 1, M_bind at 1. rewrite (proj2 (Z.eqb_neq _ _) Hfar), (proj2 (Z.ltb_lt _ _) Hii).
  unfold mbind at 1, M_bind at 1, routeMessage. rewrite route_by_away; [|exact Hfar|exact Haway].
  unfold release_if_done. cbv [bind_first gets]. unfold mbind at 1, M_bind at 1. unfold mbind at 1, M_bind at 1.
  cbn [ongoingFilterProcesses]. change (ongoingFilterProcesses (_ <| outputs ::= _ |>)) with (ongoingFilterProcesses c).
  by rewrite (ongoing_some _ _ _ Ho).
Qed.

(** The core of a filter sends the result to the source of the request. *)
Lemma filter_answers q (d : CommonCore C D) FiltI op msg ms w :
  messageAction q = cmd_send_for_filter_return -> dest_id q <> parent_broker_id -> dest_id q = global_broker_id_local d ->
  filter_of (dv_find_id (Handle.to_uint64 (getDest q)) (filters d)) d = Some FiltI ->
  Filt.filterOp FiltI = Some op -> Filt.disconnected FiltI = false -> Filt.cloning FiltI = false ->
  process op (createMessageFromCommand q) (operator_world d) = (Some msg, ms, w) ->
  exists a, processMessageFilter q d = Some (tt, after_operators d w ms <| outputs ::= fun l =>
      l ++ [Transmit (getRoute_of (source_id q) d) a] |>) /\
    messageAction a = cmd_filter_result /\ getDest a = getSource q /\
    getSource a = GlobalHandle (global_broker_id_local d) (Filt.handle FiltI).
Proof.
  intros Ha Hp Hl Hf Ho Hd Hc Hr. unfold processMessageFilter. cbv [bind_first gets]. unfold mbind at 1, M_bind at 1.
  rewrite (proj2 (Z.eqb_neq _ _) Hp), Hl, Z.eqb_refl. unfold find_filter, filter_at. cbv [bind_first gets].
  unfold mbind at 1, M_bind at 1. unfold mbind at 1, M_bind at 1. unfold mbind at 1, M_bind at 1. rewrite Hf.
  cbn [deref]. rewrite Ho, Hd. cbn [negb]. unfold filter_here. cbv [bind_first]. unfold mbind at 1, M_bind at 1.
  rewrite run_operator_run, Hr, Hc.
  assert (is_dest_request q = false) as Hdest by (unfold is_dest_request; rewrite Ha; by apply bool_decide_false).
  assert (returnToSender q = true) as -> by (unfold returnToSender; rewrite Ha; by apply orb_true_iff; left; apply bool_decide_true).
  unfold filter_result. rewrite Hdest. cbv [bind_first gets]. unfold mbind at 1, M_bind at 1.
  unfold deliverMessage. cbv [bind_first gets]. unfold mbind at 1, M_bind at 1. eexists. split; [reflexivity|done].
Qed.
End Return.

(** An answer for what is not an endpoint is dropped. *)
Lemma answer_dropped `{Platform} {C D} `{DualVectorLaws C} `{DualMapped D} `{FilterOperators} `{JsonLib}
    fmt addr now a (d : CommonCore C D) :
  messageAction a = cmd_filter_result -> getEndpoint_at (dest_handle a) (loopHandles d) = None ->
  processCommand fmt addr now a d = Some (tt, d).
Proof.
  intros Ha Hn. unfold processCommand. rewrite Ha. unfold processFilterReturn. cbv [bind_first gets mbind M_bind].
  by rewrite Hn.
Qed.

(** C39: The answer of the second of three filters on other cores is lost.  An
    answer [r] of a filter [F0] of the core [d0] comes to the core of the
    endpoint, and the next filter is on another core as well and not the last.
    Then the message goes on to that filter with [F0] as its source instead of
    the endpoint.  The core [d] of that filter sends its answer to [F0], and
    when it comes to [d0], where it is not addressed to an endpoint, it is
    dropped.  At the core of the endpoint the message stays among those that
    are being filtered, and the requests of time of its federate are held. *)
Theorem next_answer_misrouted `{Platform} {C D} `{DualVectorLaws C} `{DualMapped D} `{FilterOperators} `{JsonLib}
    fmt addr now (r : ActionMessage) (c d0 : CommonCore C D) F0 h fc ptr filt :
  let f := Basic.getFederateId h in
  let ii := uint16 (counter r + 1) in
  let q := next_request ii filt r in
  getSource r = GlobalHandle (global_broker_id_local d0) (Filt.handle F0) ->
  filter_of (dv_find_id (Handle.to_uint64 (getSource r)) (filters d0)) d0 = Some F0 ->
  getEndpoint_at (Filt.handle F0) (loopHandles d0) = None ->
  messageAction r = cmd_filter_result -> getEndpoint_at (dest_handle r) (loopHandles c) = Some h -> isLocal_of f c = true ->
  is_ongoing f (messageID r) (ongoingFilterProcesses c) = true ->
  filterCoord c !! Basic.getInterfaceHandle h = Some fc -> hasSourceFilters fc = true ->
  sourceFilters fc !! Z.to_nat ii = Some ptr -> ii < Z.of_nat (length (sourceFilters fc)) - 1 -> next_far c ptr filt ->
  processCommand fmt addr now r c = Some (tt, sending c (Filt.core_id filt) q) /\
  (forall requests, Forall (timing_of f) requests -> requests <> [] ->
    for_each requests (processCommand fmt addr now) (sending c (Filt.core_id filt) q) =
      Some (tt, sending c (Filt.core_id filt) q
                  <| delayedTimingMessages ::= fun t => <[f := default [] (t !! f) ++ requests]> t |>)) /\
  forall (d : CommonCore C D) FiltI op msg ms w,
    global_broker_id_local d = Filt.core_id filt -> Filt.core_id filt <> parent_broker_id ->
    filter_of (dv_find_id (Handle.to_uint64 (getDest q)) (filters d)) d = Some FiltI ->
    Filt.filterOp FiltI = Some op -> Filt.disconnected FiltI = false -> Filt.cloning FiltI = false ->
    process op (createMessageFromCommand q) (operator_world d) = (Some msg, ms, w) ->
    exists a, processMessageFilter q d = Some (tt, after_operators d w ms <| outputs ::= fun l =>
        l ++ [Transmit (getRoute_of (global_broker_id_local d0) d) a] |>) /\
      getDest a = GlobalHandle (global_broker_id_local d0) (Filt.handle F0) /\
      processCommand fmt addr now a d0 = Some (tt, d0).
Proof.
  intros f ii q Hsrc HF0 Hno Ha Hh Hloc Ho Hfc Hs Hptr Hii Hn. split_and!.
  - unfold processCommand. rewrite Ha. by apply (return_asks_next r c h fc ptr filt).
  - intros l Hl Hne. apply requests_wait; [done| |done|done]. by apply (ongoing_some f (messageID r)).
  - intros d FiltI op msg ms w Hd Hp Hf Hop Hdis Hcl Hpr.
    destruct (filter_answers q d FiltI op msg ms w) as (a & E & Haa & Hda & _); try done.
    assert (getSource q = getSource r) as Eq by done. rewrite Eq, Hsrc in Hda.
    exists a. split_and!; [|done|].
    + injection Hsrc as Hid _. rewrite E. by rewrite <- Hid.
    + apply answer_dropped; [done|]. injection Hda as _ ->. done.
Qed.

(** ** Examples *)

Import CoreExample.
#[local] Existing Instance ListContainer.list_container.
#[local] Existing Instance TextJson.text_json.
#[local] Existing Instance x86_64.

(** the endpoint at a handle, its coordinator, and a filter *)
Definition endpoint_at (h : Z) (c : Core) : BasicHandleInfo := default Basic.blank (getEndpoint_at h (loopHandles c)).
Definition coordinator_at (h : Z) (c : Core) : FilterCoordinator := default new_coordination (filterCoord c !! h).
Definition filter_with (ptr : pointer) (c : Core) : FilterInfo := default (Filt.new 0 0 "" "" "" false) (filter_of ptr c).

(** the filter of the core at its first endpoint, with an operator that adds a mark *)
Definition marks : filter_operator := UserOperator (fun m => Some (m <| data ::= fun s => String.append s "!" |>)).
Definition marking : Core := final start (run (opening ++
  [deliver (newMessage cmd_add_filter <| source_id := id |> <| source_handle := 2 |> <| dest_id := fed_1 |> <| dest_handle := 0 |>);
   CallOf (SetFilterOperator 2 (Some marks));
   deliver (newMessage cmd_core_configure <| messageID := UPDATE_FILTER_OPERATOR |> <| source_handle := 2 |>)] ++ beginning)).

Lemma marking_operator : local_operator marking (Some 0%nat) marks.
Proof.
  exists (filter_with (Some 0%nat) marking). split_and!; [by apply default_some|reflexivity..].
Qed.

Lemma local_filters_compose_witness :
  processMessage hello marking =
    let '(r, ms, w) := apply_all [marks] (createMessageFromCommand hello) (operator_world marking) in
    Some (filtered hello [marks] r, after_operators marking w ms).
Proof.
  apply (local_filters_compose hello marking (endpoint_at 0 marking) (coordinator_at 0 marking));
    [by apply default_some|reflexivity|by apply default_some|reflexivity|].
  assert (Hs : sourceFilters (coordinator_at 0 marking) = [Some 0%nat]) by reflexivity. rewrite Hs.
  apply Forall2_cons. split; [exact marking_operator|by apply Forall2_nil].
Defined.

(** a filter of the other core at the second endpoint *)
Definition far_destination : Core := final start (run (opening ++
  [deliver (setActionFlag destination_target (newMessage cmd_add_filter <| source_id := far |> <| source_handle := 5 |>
     <| dest_id := fed_2 |> <| dest_handle := 1 |> <| payload := "far" |>))] ++ beginning)).

Definition far_endpoint : BasicHandleInfo := default Basic.blank (endpoint_of far_destination hello).

Lemma far_destination_filtered :
  filtered_far far_destination far_endpoint (filter_with (Some 1%nat) far_destination) 1.
Proof.
  split; [reflexivity| |reflexivity|apply Z.eqb_neq; reflexivity|reflexivity|reflexivity].
  exists (coordinator_at 1 far_destination), (Some 1%nat). split_and!; [by apply default_some|reflexivity|by apply default_some].
Qed.

Lemma dest_filter_holds_time_witness :
  deliverMessage hello far_destination =
    Some (tt, asked far_destination far_endpoint (filter_with (Some 1%nat) far_destination) 1 hello).
Proof.
  destruct (dest_filter_holds_time format "" 0 hello far_destination far_endpoint
    (filter_with (Some 1%nat) far_destination) 1) as [E _]; [reflexivity|by apply default_some|exact far_destination_filtered|].
  exact E.
Defined.

(** three filters of the other core, of which the first has answered *)
Definition chain_core : Core := filtering [5; 6; 7].
Definition chain_answer : ActionMessage :=
  setAction cmd_filter_result hello <| source_id := far |> <| source_handle := 5 |> <| dest_id := fed_1 |> <| dest_handle := 0 |>.

Lemma chain_next : next_far chain_core (Some 2%nat) (filter_with (Some 2%nat) chain_core).
Proof. split; [by apply default_some|reflexivity|apply Z.eqb_neq; reflexivity|reflexivity]. Qed.

(** the other core, which has the filter 5 *)
Definition far_core : Core := chain_core <| global_broker_id_local := far |>.
Definition far_filter : FilterInfo := filter_with (dv_find_id (Handle.to_uint64 (getSource chain_answer)) (filters far_core)) far_core.

Lemma next_answer_misrouted_witness :
  processCommand format "" 0 chain_answer chain_core =
    Some (tt, sending chain_core (Filt.core_id (filter_with (Some 2%nat) chain_core))
                (next_request 1 (filter_with (Some 2%nat) chain_core) chain_answer)).
Proof.
  destruct (next_answer_misrouted format "" 0 chain_answer chain_core far_core far_filter (endpoint_at 0 chain_core)
    (coordinator_at 0 chain_core) (Some 2%nat) (filter_with (Some 2%nat) chain_core)) as [E _];
    [reflexivity|by apply default_some|reflexivity|reflexivity|by apply default_some|reflexivity|reflexivity
    |by apply default_some|reflexivity|reflexivity|reflexivity|exact chain_next|].
  exact E.
Defined.
