(* ===== verification/CoreWaitSpec.v ===== *)
(** * Waiting through the core: properties

    What a federate gets from the calls of its core in which it waits: a time
    that is later, an exception when its start is refused, and an end of the
    wait for the registration of the core. *)

From S2P Require Import Prelude HTime Identifiers CoreData StateMonad DualVector JsonBuilder TimeDependencies TimeCoordinator ForwardingTimeCoordinator NamedInputInfo EndpointInfo InterfaceInfo HandleManager CoreTypes TimeAdvance FederateState FederateSpec MessageTimer FederateCalls FederateRequest CoreBroker BrokerControl CommonCore CoreFilters CoreControl CoreCalls CoreWaits CoreRun ActionMessage.
Import Fed (FederateState) Local (LocalFed) Core CControl Calls FedCalls Waits.

Section Waiting.
Context `{Platform} {C : Type -> Type} `{DualVectorLaws C} {D : Type -> Type} `{DualMapped D} `{FilterOperators} `{SteadyTimers}.
Context (fmt_format : string -> list string -> string).
Implicit Types (c : CommonCore C D) (l : LocalFed D).

(** ** The federate of a call *)

(** the federate behind an identifier of the caller *)
Definition local_federate (federateID : local_federate_id) (p : nat) l c : Prop :=
  getFederateAt_of federateID c = Some p /\ federate_of p c = Some l.

Definition with_local (p : nat) (f : LocalFed D -> LocalFed D) c : CommonCore C D :=
  c <| federates ::= dv_modify p f |>.

Lemma with_federate_run {A} federateID what (k : nat -> FederateState (C := D) -> Core.M C D (exn + A)) p l c :
  local_federate federateID p l c -> with_federate federateID what k c = k p (Local.fs l) c.
Proof.
  intros [Hp Hl]. unfold with_federate, getFederateAt, federate_at. cbv [bind_first gets mbind M_bind].
  rewrite Hp, Hl. reflexivity.
Qed.

Lemma in_state_run {A} federateID what (k : nat -> federate_state -> Core.M C D (exn + A)) p l c :
  local_federate federateID p l c -> in_state federateID what k c = k p (Fed.state (Local.fs l)) c.
Proof. intros Hl. unfold in_state. by rewrite (with_federate_run _ _ _ p l). Qed.

Lemma federate_of_with p f l c : federate_of p c = Some l -> federate_of p (with_local p f c) = Some (f l).
Proof. intros Hl. unfold federate_of, with_local in *. cbn. by rewrite dv_modify_elements, list_lookup_alter_eq, Hl. Qed.

Lemma local_federate_with federateID p f l c :
  local_federate federateID p l c -> local_federate federateID p (f l) (with_local p f c).
Proof.
  intros [Hp Hl]. split; [|by apply federate_of_with]. revert Hp. unfold getFederateAt_of, with_local. cbn.
  unfold isValidIndex. by rewrite dv_modify_elements, length_alter.
Qed.

Lemma federate_at_run p l c : federate_of p c = Some l -> federate_at p c = Some (l, c).
Proof. intros Hl. unfold federate_at. cbv [bind_first gets mbind M_bind]. by rewrite Hl. Qed.

Lemma fed_op_run {A} p (op : FederateState (C := D) -> option (A * FederateState (C := D))) l a fs' c :
  federate_of p c = Some l -> op (Local.fs l) = Some (a, fs') ->
  fed_op p op c = Some (a, with_local p (fun l => l <| Local.fs := fs' |>) c).
Proof.
  intros Hl Ho. unfold fed_op. cbv [bind_first mbind M_bind]. rewrite (federate_at_run p l c Hl). by rewrite Ho.
Qed.

(** ** A refused start *)

(** A federate that has nothing in its queue and waits to initialize. *)
Record waits_to_start l : Prop := {
  ws_state : Fed.state (Local.fs l) = HELICS_CREATED;
  ws_requested : Local.init_requested l = false;
  ws_pushed : Fed.pushed (Local.fs l) = [];
  ws_delayed : Fed.delayQueues (Local.fs l) = [];
}.

(** A queue with one command, which gives a result. *)
Lemma single_answer d cmd (fs : FederateState (C := D)) ret fs' :
  Fed.state fs <> HELICS_FINISHED -> Fed.state fs <> HELICS_ERROR -> Fed.delayQueues fs = [] ->
  Fed.processActionMessage fmt_format (S d) cmd (fs <| Fed.delayedFederates := [] |>) = Some (ret, fs') ->
  MPR.returnableResult ret = true ->
  Fed.processQueue fmt_format (S d) [cmd] fs = Some (Fed.returned ret, [], fs').
Proof.
  intros Hf He Hd Hp Hr. unfold Fed.processQueue. rewrite !bool_decide_false by done.
  set (fs0 := fs <| Fed.delayedFederates := [] |>) in *.
  assert (Fed.processDelayQueue (Fed.processActionMessage fmt_format (S d)) fs = Some (MPR.continue_processing, fs0)) as ->.
  { unfold Fed.processDelayQueue. fold fs0. change (Fed.delayQueues fs0) with (Fed.delayQueues fs). by rewrite Hd. }
  cbn [mbind option_bind]. rewrite process_incoming_cons by done. change (Fed.messageShouldBeDelayed cmd fs0) with false.
  cbn iota. rewrite Hp. cbn [mbind option_bind]. rewrite process_incoming_stop by done. by destruct ret.
Qed.

(** The admission of a federate with an interface that is not as it must be. *)
Lemma admission_refused (d : nat) (fs : FederateState (C := D)) issue issues :
  Fed.state fs = HELICS_CREATED -> Fed.pushed fs = [] -> Fed.delayQueues fs = [] ->
  Interfaces.checkInterfacesForIssues fmt_format (Fed.interfaceInformation fs) = issue :: issues ->
  exists fs', enterInitializingMode_first fmt_format (S d) [newMessage cmd_init_grant] fs
      = Some (replied ItRes.error, fs') /\
    Fed.state fs' = HELICS_INITIALIZING /\ Fed.errorCode fs' = ErrorCode.connection_failure /\
    Fed.errorString fs' = snd issue.
Proof.
  intros Hs Hp Hd Hi.
  assert (fst issue = ErrorCode.connection_failure) as Hc.
  { pose proof (issues_are_failures fmt_format (Fed.interfaceInformation fs)) as Hf.
    rewrite Hi in Hf. by apply Forall_cons in Hf as [Hf _]. }
  set (fs1 := fs <| Fed.pushed := [] |> <| Fed.delayedFederates := [] |>).
  set (fs2 := fs1 <| Fed.state := HELICS_INITIALIZING |> <| Fed.timeGranted_mode := true |>
                  <| Fed.errorCode := fst issue |> <| Fed.errorString := snd issue |>).
  assert (Fed.processActionMessage fmt_format (S d) (newMessage cmd_init_grant) fs1 = Some (MPR.error, fs2)) as Hg.
  { change (Fed.processActionMessage fmt_format (S d) (newMessage cmd_init_grant) fs1) with
      (Some (Fed.init_grant fmt_format fs1)).
    unfold Fed.init_grant, Fed.setState. change (Fed.state fs1) with (Fed.state fs). rewrite Hs.
    rewrite bool_decide_true, bool_decide_false by done. unfold Fed.checkInterfaces.
    match goal with |- context [Interfaces.checkInterfacesForIssues fmt_format ?ii] =>
      change ii with (Fed.interfaceInformation fs) end.
    rewrite Hi. change (Fed.errorCode (_ <| Fed.errorString := _ |>)) with (fst issue).
    assert (fst issue =? 0 = false) as -> by by rewrite Hc. reflexivity. }
  unfold enterInitializingMode_first, serving, serve. rewrite Hp. cbn [app].
  assert (Fed.processQueue fmt_format (S d) [newMessage cmd_init_grant] (fs <| Fed.pushed := [] |>)
            = Some (Fed.returned MPR.error, [], fs2)) as ->.
  { apply single_answer; [..|exact Hg|done]; [by cbn; rewrite Hs|by cbn; rewrite Hs|exact Hd]. }
  cbn [mbind option_bind to_iteration_result]. eexists. split; [reflexivity|]. cbn. by rewrite Hc.
Qed.

(** The core after a federate was refused its start. *)
Lemma start_refused_run d federateID p l c issue issues :
  local_federate federateID p l c -> waits_to_start l ->
  Interfaces.checkInterfacesForIssues fmt_format (Fed.interfaceInformation (Local.fs l)) = issue :: issues ->
  exists c', Waits.enterInitializingMode fmt_format (S d) federateID [newMessage cmd_init_grant] c
      = Some (inl (ConnectionFailure (snd issue)), c') /\
    exists l', local_federate federateID p l' c' /\ Fed.state (Local.fs l') = HELICS_INITIALIZING.
Proof.
  intros Hl [Hs Hq Hp Hd] Hi. destruct (admission_refused d (Local.fs l) issue issues Hs Hp Hd Hi) as (fs' & Ho & Hs' & Hc & Ht).
  unfold Waits.enterInitializingMode. rewrite (in_state_run _ _ _ p l) by done. rewrite Hs.
  unfold addActionMessage, emit. cbv [bind_first mbind M_bind modifies].
  rewrite (federate_at_run p l c (proj2 Hl)), Hq. unfold set_local. cbv [modifies].
  set (l1 := l <| Local.init_requested := true |>).
  set (c1 := with_local p (fun l => l <| Local.init_requested := true |>) c).
  pose proof (local_federate_with federateID p (fun l => l <| Local.init_requested := true |>) l c Hl) as Hl1. fold l1 c1 in Hl1.
  change (c <| federates ::= dv_modify p (fun l => l <| Local.init_requested := true |>) |>) with c1.
  set (c2 := c1 <| outputs ::= _ |>).
  assert (local_federate federateID p l1 c2) as Hl2 by exact Hl1.
  rewrite (fed_op_run p _ l1 (replied ItRes.error) fs' c2 (proj2 Hl2) Ho).
  pose proof (local_federate_with federateID p (fun l => l <| Local.fs := fs' |>) l1 c2 Hl2) as Hl3.
  set (l3 := l1 <| Local.fs := fs' |>) in *. set (c3 := with_local p _ c2) in *.
  pose proof (local_federate_with federateID p (fun l => l <| Local.init_requested := false |>) l3 c3 Hl3) as Hl4.
  set (l4 := l3 <| Local.init_requested := false |>) in *.
  change (c3 <| federates ::= dv_modify p (fun l => l <| Local.init_requested := false |>) |>) with
    (with_local p (fun l => l <| Local.init_requested := false |>) c3).
  unfold refuse. cbv [bind_first mbind M_bind]. rewrite (federate_at_run p l4 _ (proj2 Hl4)).
  change (Fed.errorCode (Local.fs l4)) with (Fed.errorCode fs'). change (Fed.errorString (Local.fs l4)) with (Fed.errorString fs').
  rewrite Hc, Ht. eexists. split; [reflexivity|]. by exists l4.
Qed.

(** ** The wait for the registration *)

Context (addr : string).

Lemma getAddress_run c : exists a c', getAddress addr c = Some (a, c') /\ brokerTimeout c' = brokerTimeout c.
Proof.
  unfold getAddress. cbv [bind_first gets when skip modifies mret M_ret mbind M_bind].
  destruct (_ || _); eexists _, _; split; reflexivity.
Qed.

Lemma register_core_run n c : exists c', register_core addr n c = Some (tt, c') /\ brokerTimeout c' = brokerTimeout c.
Proof.
  unfold register_core. cbv [bind_first gets mbind M_bind]. destruct (getAddress_run c) as (a & c1 & -> & E).
  unfold transmit, emit. cbv [modifies]. by eexists.
Qed.

Lemma connect_run res c :
  BState.lt BState.configured (brokerState c) = false ->
  exists a c', connect addr res c = Some (a, c') /\ brokerTimeout c' = brokerTimeout c.
Proof.
  intros Hs. unfold connect, setState. cbv [bind_first]. unfold mbind at 1, M_bind at 1, gets at 1.
  destruct (brokerState c) eqn:E; try done; cbn [BState.lt BState.code negb Z.ltb Z.compare].
  1-2: by eexists _, _.
  rewrite bool_decide_true by done. cbv [mbind M_bind modifies mret M_ret]. change (negb _) with true. cbn iota beta.
  destruct res; [|by eexists _, _]. match goal with |- context [register_core addr 0 ?s] => destruct (register_core_run 0 s) as (c1 & -> & E1) end.
  by eexists _, _.
Qed.

Definition keeps_timeout (others : CommonCore C D -> CommonCore C D) : Prop :=
  forall c, brokerTimeout (others c) = brokerTimeout c.

(** one hundred milliseconds *)
Definition turn_ns : Z := 100000000.

Lemma turns_time n : 0 <= n < 10 ^ 10 -> T.of_count (n * 100) Units.ms = n * turn_ns.
Proof.
  intros Hn. unfold T.of_count, turn_ns. cbn -[Z.mul swrap].
  change (CountTime.fac10 (ticksExp - 3)) with 1000000.
  rewrite swrap_id; [lia|lia|]. unfold in_signed. cbn. lia.
Qed.

Lemma wait_registration_ends turns : forall n brkid c,
  Forall (fun t => keeps_timeout (snd t)) turns ->
  0 <= n -> n + Z.of_nat (length turns) < 10 ^ 10 -> (n = 0 \/ n * turn_ns <= brokerTimeout c) -> 0 <= brokerTimeout c ->
  brokerTimeout c < (n + Z.of_nat (length turns)) * turn_ns -> brkid = global_id c ->
  exists b c', wait_registration addr n brkid turns c = Some (Some b, c') /\
    (b = true -> unregistered (global_id c') = false).
Proof.
  induction turns as [|[res others] turns IH]; intros n brkid c Hk Hn Hmax Hge Ht0 Hlt ->; cbn [wait_registration].
  - destruct (unregistered _) eqn:E; [|by eexists true, c]. exfalso. unfold turn_ns in *. cbn in Hlt. lia.
  - destruct (unregistered (global_id c)) eqn:E; [|by eexists true, c].
    apply Forall_cons in Hk as [Hk Hks]. cbn [snd] in Hk. cbn [length] in Hmax, Hlt.
    cbv [bind_first]. unfold mbind at 1, M_bind at 1, gets at 1.
    assert (exists c1, (if BState.lt BState.configured (brokerState c) then skip else connect addr res;; skip) c
              = Some (tt, c1) /\ brokerTimeout c1 = brokerTimeout c) as (c1 & Hc1 & Et1).
    { destruct (BState.lt BState.configured (brokerState c)) eqn:Es; [by exists c|].
      destruct (connect_run res c Es) as (a & c1 & Hc & ?). exists c1. unfold mbind, M_bind. by rewrite Hc. }
    unfold mbind at 1, M_bind at 1. rewrite Hc1. unfold mbind at 1, M_bind at 1, gets at 1.
    destruct (BState.lt (brokerState c1) BState.terminating); [|by eexists false, c1].
    assert (exists c2, (when (n =? 20) (addActionMessage (newMessage cmd_resend
              <| messageID := int32 (action_code cmd_reg_broker) |>))) c1 = Some (tt, c2) /\
              brokerTimeout c2 = brokerTimeout c1) as (c2 & Hc2 & Et2) by (unfold when; case_if; by eexists).
    unfold mbind at 1, M_bind at 1. rewrite Hc2. unfold mbind, M_bind, modifies, gets.
    pose proof (Hk c2) as Et3. rewrite turns_time by lia. set (c3 := others c2) in *.
    destruct (Z.ltb_spec (brokerTimeout c3) ((n + 1) * turn_ns)) as [Hl|Hl]; [by eexists false, c3|].
    apply IH; [done|lia|lia|right; lia|lia| |done]. rewrite Et3, Et2, Et1. unfold turn_ns in *. lia.
Qed.
End Waiting.

(** ** Claims *)

Section Claims.
Context `{Platform} {C : Type -> Type} `{DualVectorLaws C} {D : Type -> Type} `{DualMapped D} `{FilterOperators} `{SteadyTimers}.
Context (fmt_format : string -> list string -> string).

(** A time request through the core goes forward.  A federate that executes
    without period and input delay calls [timeRequest]: whatever commands of
    others are before its request in its queue, delayed, or arrive behind it,
    the call waits, or gives a time that is later than its time by the time
    delta at least, or throws [FunctionExecutionFailure]; and nothing of the
    core changes but the federate. *)
Lemma core_request_forward (me : global_federate_id) (d : nat) (clock : readings) (next : Time)
    (federateID : local_federate_id) (p : nat) (arriving : list ActionMessage) (rt : RealTime)
    (l : LocalFed D) (c : CommonCore C D) :
  local_federate federateID p l c -> may_request me (Local.fs l) -> next <= T.maxVal ->
  Forall (foreign me) arriving ->
  exists ans fs',
    timeRequest fmt_format (S (S d)) clock federateID next arriving rt c
      = Some (ans, with_local p (fun l => l <| Local.fs := fs' |>) c) /\
    match ans with
    | inr (replied (t, _)) =>
        Fed.time_granted (Local.fs l) + timeDelta (info (Fed.timeCoord (Local.fs l))) <= t
    | inr blocked => True
    | inl e => e = FunctionExecutionFailure (Fed.errorString fs')
    end.
Proof.
  intros Hl Hm Hn Ha.
  destruct (request_advances fmt_format me d clock next arriving rt (Local.fs l) Hm Hn Ha) as (ans & fs' & E & Hr).
  pose proof (mr_state _ _ Hm) as Hs. pose proof (mr_steps _ _ Hm) as (_ & _ & _ & _ & _ & Hmax & _).
  rewrite (mr_delay _ _ Hm), <- (mr_shown _ _ Hm) in Hmax.
  unfold timeRequest. rewrite (in_state_run _ _ _ p l) by done. rewrite Hs.
  unfold request_of. cbv [bind_first mbind M_bind]. rewrite (fed_op_run p _ l ans fs' c (proj2 Hl) E).
  destruct ans as [[[retTime rt'] slept]|]; [|by exists (inr blocked), fs'].
  destruct Hr as [_ Hr]. destruct (result_state retTime) eqn:Es.
  - by eexists (inr (replied (grantedTime retTime, rt'))), fs'.
  - done.
  - eexists (inr (replied (T.maxVal, rt'))), fs'. split; [reflexivity|]. cbn. lia.
  - eexists (inl _), fs'. split; [|reflexivity].
    rewrite (federate_at_run p (l <| Local.fs := fs' |>)); [reflexivity|]. by apply federate_of_with, Hl.
Qed.

(** C37: A refused start is forgotten.  When the check of the interfaces fails at
    the admission of a federate, [enterInitializingMode] throws
    [ConnectionFailure] with the first failure, but the federate is left
    initializing: the same call made again returns as if it had succeeded. *)
Theorem refused_start_forgotten (d : nat) (federateID : local_federate_id) (p : nat) (l : LocalFed D) (c : CommonCore C D) :
  local_federate federateID p l c -> waits_to_start l ->
  Interfaces.checkInterfacesForIssues fmt_format (Fed.interfaceInformation (Local.fs l)) <> [] ->
  exists text c', enterInitializingMode fmt_format (S d) federateID [newMessage cmd_init_grant] c
      = Some (inl (ConnectionFailure text), c') /\
    forall n arriving, enterInitializingMode fmt_format n federateID arriving c' = Some (inr (replied tt), c').
Proof.
  intros Hl Hw Hi.
  destruct (Interfaces.checkInterfacesForIssues _ _) as [|issue issues] eqn:E; [done|].
  destruct (start_refused_run fmt_format d federateID p l c issue issues Hl Hw E) as (c' & Hr & l' & Hl' & Hs).
  exists (snd issue), c'. split; [done|]. intros n arriving. unfold enterInitializingMode.
  rewrite (in_state_run _ _ _ p l') by done. by rewrite Hs.
Qed.

(** The wait for the registration of a core ends.  Whatever the connection
    answers and whatever the other threads do to the core meanwhile, short of
    changing its timeout, [waitCoreRegistration] gives its answer within the
    turns of 100 ms that fit into the timeout and one more, and it answers yes
    only when the core has an identifier of its own. *)
Theorem registration_wait_ends (addr : string) (turns : list (bool * (CommonCore C D -> CommonCore C D))) (c : CommonCore C D) :
  Forall (fun t => keeps_timeout (snd t)) turns -> 0 <= brokerTimeout c ->
  brokerTimeout c < Z.of_nat (length turns) * turn_ns -> Z.of_nat (length turns) < 10 ^ 10 ->
  exists b c', waitCoreRegistration addr turns c = Some (Some b, c') /\
    (b = true -> unregistered (global_id c') = false).
Proof.
  intros Hk Ht Hl Hmax. unfold waitCoreRegistration. cbv [bind_first gets mbind M_bind].
  apply wait_registration_ends; auto; lia.
Qed.
End Claims.

(** ** Examples *)

Section Example_.
Import CoreExample.
#[local] Existing Instance x86_64.
#[local] Existing Instance ListVector.list_dual_vector.
#[local] Existing Instance ListVector.list_dual_laws.
#[local] Existing Instance ListContainer.list_container.

(** a core with one federate *)
Definition local_of (fs : FederateState (C := ListContainer.C)) : LocalFed ListContainer.C :=
  Local.mkLocal fs false false None.
Definition core_of (fs : FederateState (C := ListContainer.C)) : Core :=
  start <| federates := snd (dv_insert "load" None (local_of fs) dv_empty) |>.

Lemma core_of_federate fs : local_federate 0 0 (local_of fs) (core_of fs).
Proof. by split. Qed.

(** a federate with an input that must be connected, and is not *)
Definition unconnected : FederateState (C := ListContainer.C) :=
  Fed.createInterface Kind.input 4 "in" "double" ""
    (Fed.new_federate "load" <| Fed.global_id := 131072 |> <| Fed.interfaceFlags := make_flags required_flag |>).

Lemma refused_start_forgotten_witness :
  exists text c', Waits.enterInitializingMode format 1 0 [newMessage cmd_init_grant] (core_of unconnected)
      = Some (inl (ConnectionFailure text), c') /\
    forall n arriving, Waits.enterInitializingMode format n 0 arriving c' = Some (inr (replied tt), c').
Proof.
  apply (refused_start_forgotten format 0 0 0 (local_of unconnected)).
  - apply core_of_federate.
  - by split.
  - vm_compute. discriminate.
Defined.

Lemma registration_wait_ends_witness :
  exists b c', waitCoreRegistration "tcp://core" [(true, fun c => c <| global_id := 5 |>); (true, fun c => c)]
      (start <| brokerTimeout := 150000000 |>) = Some (Some b, c') /\
    (b = true -> unregistered (global_id c') = false).
Proof.
  apply (registration_wait_ends "tcp://core").
  - apply Forall_cons_2; [|apply Forall_singleton]; intros c; reflexivity.
  - discriminate.
  - reflexivity.
  - reflexivity.
Defined.
End Example_.
