(* ===== verification/TimeText.v ===== *)
(** * Times as text

    Models [src/helics/core/helics-time.cpp]: a time is a number with a unit
    behind it.  The number is read by [std::stod], which is not part of the
    repository: the class [NumberReader]. *)

From Stdlib Require Import Ascii.
From S2P Require Import Prelude StringOps HTime CoreTypes.
Import Units.

(** What [std::stod] gives: a number with the position behind it, or an
    exception. *)
Inductive read_number :=
  | Number (val : Double.double) (pos : nat)
  | NotANumber
  | NumberOutOfRange.

Class NumberReader := stod : string -> read_number.

Definition time_unitstrings : list (string * time_units) := [
  ("ps", ps); ("ns", ns); ("us", us); ("ms", ms); ("s", s); ("sec", sec); ("", sec);
  ("seconds", sec); ("second", sec); ("min", minutes); ("minute", minutes);
  ("minutes", minutes); ("hr", hr); ("hour", hr); ("hours", hr); ("day", day);
  ("week", week); ("wk", week) ]%string.

Definition find_unit (unitString : string) : option time_units :=
  snd <$> List.find (fun p => String.eqb (fst p) unitString) time_unitstrings.

Definition timeUnitsFromString (unitString : string) : std_exn + time_units :=
  match find_unit unitString with
  | Some u => inr u
  | None =>
      match find_unit (lower (on_chars trim unitString)) with
      | Some u => inr u
      | None => inl (invalid_argument ("unit " +:+ unitString +:+ " not recognized"))
      end
  end.

Definition timeCountReverse (units : time_units) : Double.double :=
  let one := Double.of_Z 1 in
  match units with
  | ps => Double.div one (Double.of_Z (10 ^ 12))
  | ns => Double.div one (Double.of_Z (10 ^ 9))
  | us => Double.div one (Double.of_Z (10 ^ 6))
  | ms => Double.div one (Double.of_Z (10 ^ 3))
  | s | sec => one
  | minutes => Double.of_Z 60
  | hr => Double.of_Z 3600
  | day => Double.of_Z 86400
  | week => Double.mul (Double.of_Z 7) (Double.of_Z 86400)
  end.

Definition toSecondMultiplier (units : time_units) : Double.double := timeCountReverse units.

Section Load.
Context `{NumberReader}.

(** the number, and the unit in the text behind it, if there is any *)
Definition in_units (default_units : option time_units) (timeString : string) : std_exn + Time :=
  match stod timeString with
  | NotANumber => inl (invalid_argument "stod")
  | NumberOutOfRange => inl out_of_range
  | Number val pos =>
      if (String.length timeString <=? pos)%nat
      then inr (T.of_double (match default_units with
                             | Some u => Double.mul val (toSecondMultiplier u)
                             | None => val
                             end))
      else
        match timeUnitsFromString (on_chars trim (String.substring pos (String.length timeString - pos) timeString)) with
        | inr u => inr (T.of_double (Double.mul val (toSecondMultiplier u)))
        | inl e => inl e
        end
  end.

Definition loadTimeFromString (timeString : string) : std_exn + Time := in_units None timeString.

Definition loadTimeFromString_units (timeString : string) (defUnits : time_units) : std_exn + Time :=
  in_units (Some defUnits) (on_chars trim timeString).
End Load.

(** A reader of unsigned decimal integers, for examples. *)
Fixpoint decimal (n : Z) (str : string) : Z * nat :=
  match str with
  | String c str' =>
      let d := Z.of_N (N_of_ascii c) - 48 in
      if (0 <=? d) && (d <=? 9) then let '(v, k) := decimal (10 * n + d) str' in (v, S k) else (n, O)
  | EmptyString => (n, O)
  end.

Definition integers : NumberReader := fun str =>
  match decimal 0 str with
  | (_, O) => NotANumber
  | (n, k) => Number (Double.of_Z n) k
  end.

Example load_seconds : @loadTimeFromString integers "5" = inr (5 * 10 ^ 9).
Proof. reflexivity. Qed.
Example load_milliseconds : @loadTimeFromString integers "20 ms" = inr (20 * 10 ^ 6).
Proof. reflexivity. Qed.
Example load_default : @loadTimeFromString_units integers " 3" ms = inr (3 * 10 ^ 6).
Proof. reflexivity. Qed.
Example load_unknown : @loadTimeFromString integers "3 parsec" = inl (invalid_argument "unit parsec not recognized").
Proof. reflexivity. Qed.
