(* ===== verification/FilterText.v ===== *)
(** * The texts of filters

    Models the enumerations of [src/helics/application_api/Filters.hpp],
    [FilterOperations.cpp] and [MessageOperators.hpp] with the tables that name
    them, and [newDestGeneration] of [src/helics/application_api/FilterOperations.cpp]:
    the marks [${source}] and [${dest}] of a formula are replaced by names of
    endpoints.  The two expressions it uses match one fixed text each; what
    [std::regex_replace] puts in place of it is a format, in which the dollar has
    a meaning. *)

From Stdlib Require Import Ascii.
From S2P Require Import Prelude StringOps.

(** ** The types of filters and distributions, by name *)

Inductive filter_types :=
  | ft_custom | ft_delay | ft_random_delay | ft_random_drop | ft_reroute | ft_clone | ft_firewall
  | ft_unrecognized.

#[export] Instance filter_types_eq_dec : EqDecision filter_types.
Proof. solve_decision. Defined.

Definition filterTypes : list (string * filter_types) := [
  ("clone", ft_clone); ("cloning", ft_clone); ("delay", ft_delay); ("timedelay", ft_delay);
  ("randomdelay", ft_random_delay); ("randomdrop", ft_random_drop); ("time_delay", ft_delay);
  ("random_delay", ft_random_delay); ("random_drop", ft_random_drop); ("time delay", ft_delay);
  ("random delay", ft_random_delay); ("random drop", ft_random_drop); ("reroute", ft_reroute);
  ("redirect", ft_reroute); ("firewall", ft_firewall); ("custom", ft_custom) ]%string.

Definition find_filter_type (filterType : string) : option filter_types :=
  snd <$> List.find (fun p => String.eqb (fst p) filterType) filterTypes.

Definition filterTypeFromString (filterType : string) : filter_types :=
  match find_filter_type filterType with
  | Some t => t
  | None => default ft_unrecognized (find_filter_type (lower filterType))
  end.

Inductive random_dists_t :=
  | constant | uniform | bernoulli | binomial | geometric | poisson | exponential | gamma | weibull
  | extreme_value | normal | lognormal | chi_squared | cauchy | fisher_f | student_t.

#[export] Instance random_dists_t_eq_dec : EqDecision random_dists_t.
Proof. solve_decision. Defined.

Definition distMap : list (string * random_dists_t) := [
  ("constant", constant); ("uniform", uniform); ("bernoulli", bernoulli); ("binomial", binomial);
  ("geometric", geometric); ("poisson", poisson); ("exponential", exponential); ("gamma", gamma);
  ("weibull", weibull); ("extreme_value", extreme_value); ("normal", normal);
  ("lognormal", lognormal); ("chi_squared", chi_squared); ("cauchy", cauchy);
  ("fisher_f", fisher_f); ("student_t", student_t) ]%string.

Definition find_dist (name : string) : option random_dists_t :=
  snd <$> List.find (fun p => String.eqb (fst p) name) distMap.

(** [FirewallOperator::operations] *)
Inductive firewall_operation :=
  | no_operation | drop_message | pass_message | set_flag1 | set_flag2 | set_flag3.

#[export] Instance firewall_operation_eq_dec : EqDecision firewall_operation.
Proof. solve_decision. Defined.

(** ** The destination a rerouting filter writes *)

Definition dollar : ascii := "$"%char.
Definition is_digit (c : ascii) : bool :=
  let n := N_of_ascii c in ((48 <=? n) && (n <=? 57))%N.

(** The format of a match: [pre] is between the match before and this one,
    [post] is behind it.  The expressions have no groups, and a number of a
    group that is not there stands for nothing; group 0 is the match. *)
Definition group (matched : list ascii) (n : N) : list ascii := if (n =? 0)%N then matched else [].
Definition digit (c : ascii) : N := N_of_ascii c - 48.

Fixpoint expand (pre matched post : list ascii) (fmt : list ascii) : list ascii :=
  match fmt with
  | [] => []
  | c :: rest =>
      if bool_decide (c = dollar) then
        match rest with
        | [] => [dollar]
        | d :: rest' =>
            if bool_decide (d = dollar) then dollar :: expand pre matched post rest'
            else if bool_decide (d = "&"%char) then matched ++ expand pre matched post rest'
            else if bool_decide (d = "`"%char) then pre ++ expand pre matched post rest'
            else if bool_decide (d = "'"%char) then post ++ expand pre matched post rest'
            else if is_digit d then
              match rest' with
              | e :: rest'' =>
                  if is_digit e
                  then group matched (10 * digit d + digit e) ++ expand pre matched post rest''
                  else group matched (digit d) ++ expand pre matched post rest'
              | [] => group matched (digit d)
              end
            else dollar :: expand pre matched post rest
        end
      else c :: expand pre matched post rest
  end.

(** [std::regex_replace] with an expression that matches [pat] only; [skip]
    characters belong to the match before *)
Fixpoint replace_all (pat fmt : list ascii) (skip : nat) (pre str : list ascii) : list ascii :=
  match str with
  | [] => []
  | c :: rest =>
      match skip with
      | S k => replace_all pat fmt k pre rest
      | O =>
          if bool_decide (take (length pat) str = pat)
          then expand pre pat (drop (length pat) str) fmt ++ replace_all pat fmt (pred (length pat)) [] rest
          else c :: replace_all pat fmt O (pre ++ [c]) rest
      end
  end.

Definition source_mark : list ascii := String.list_ascii_of_string "${source}".
Definition dest_mark : list ascii := String.list_ascii_of_string "${dest}".

Definition newDestGeneration (src dest formula : list ascii) : list ascii :=
  if bool_decide (dollar ∈ formula) then
    let newDest := replace_all source_mark src O [] formula in
    replace_all dest_mark dest O [] newDest
  else formula.

(** ** Formulas *)

(** A formula as its writer means it. *)
Inductive piece := Literal (text : list ascii) | Source | Dest.

Definition written (p : piece) : list ascii :=
  match p with Literal t => t | Source => source_mark | Dest => dest_mark end.
Definition formula_of (ps : list piece) : list ascii := ps ≫= written.

Definition filled (src dest : list ascii) (p : piece) : list ascii :=
  match p with Literal t => t | Source => src | Dest => dest end.

Definition plain (str : list ascii) : Prop := dollar ∉ str.
Definition plain_piece (p : piece) : Prop := match p with Literal t => plain t | _ => True end.

#[export] Instance plain_dec str : Decision (plain str).
Proof. unfold plain. apply _. Defined.
#[export] Instance plain_piece_dec p : Decision (plain_piece p).
Proof. destruct p; cbn; apply _. Defined.

Lemma plain_cons c str : plain (c :: str) <-> c <> dollar /\ plain str.
Proof. unfold plain. rewrite not_elem_of_cons. naive_solver. Qed.

Lemma expand_plain pre m post fmt : plain fmt -> expand pre m post fmt = fmt.
Proof.
  induction fmt as [|c fmt IH]; [done|]. intros [Hc Hf]%plain_cons. cbn [expand].
  rewrite bool_decide_false by done. by rewrite IH.
Qed.

Section Replace.
Context (pat fmt : list ascii) (Hpat : head pat = Some dollar) (Hfmt : plain fmt).

(** what a piece leaves as it is, whatever stands behind *)
Definition passes_over (t : list ascii) : Prop := forall pre s,
  exists pre', replace_all pat fmt O pre (t ++ s) = t ++ replace_all pat fmt O pre' s.

Lemma plain_passed t : plain t -> passes_over t.
Proof.
  unfold passes_over. induction t as [|c t IH]; intros Ht pre s; [by exists pre|].
  apply plain_cons in Ht as [Hc Ht]. destruct (IH Ht (pre ++ [c]) s) as [pre' E]. exists pre'.
  cbn [app replace_all]. rewrite bool_decide_false; [by rewrite E|].
  destruct pat as [|p pat']; [done|]. injection Hpat as ->. cbn. congruence.
Qed.

Lemma skipped t : forall pre s, replace_all pat fmt (length t) pre (t ++ s) = replace_all pat fmt O pre s.
Proof. induction t as [|c t IH]; intros pre s; [done|]. apply IH. Qed.

Lemma mark_replaced pre s : exists pre', replace_all pat fmt O pre (pat ++ s) = fmt ++ replace_all pat fmt O pre' s.
Proof.
  exists []. destruct pat as [|p pat'] eqn:E; [done|]. cbn [app replace_all].
  rewrite bool_decide_true by (cbn; f_equal; by rewrite take_app_length).
  rewrite expand_plain by done. f_equal. rewrite <- E. replace (pred (length pat)) with (length pat') by (by rewrite E). apply skipped.
Qed.
End Replace.

(** one mark replaced in a formula by a name without a dollar *)
Definition fill (is_mark : piece -> bool) (name : list ascii) (p : piece) : piece :=
  if is_mark p then Literal name else p.
Definition is_source (p : piece) : bool := match p with Source => true | _ => false end.
Definition is_dest (p : piece) : bool := match p with Dest => true | _ => false end.

Lemma formula_replaced pat is_mark name ps :
  head pat = Some dollar -> plain name -> Forall plain_piece ps ->
  (forall p, is_mark p = true -> written p = pat) ->
  (forall p, plain_piece p -> is_mark p = false -> passes_over pat name (written p)) ->
  forall pre, replace_all pat name O pre (formula_of ps) = formula_of (fill is_mark name <$> ps).
Proof.
  intros Hpat Hname Hps Hmark Hpass. unfold formula_of.
  induction Hps as [|p ps Hp Hps IH]; intros pre; [done|]. cbn [mbind list_bind fmap list_fmap].
  unfold fill at 1. destruct (is_mark p) eqn:E.
  - rewrite (Hmark p E). destruct (mark_replaced pat name Hpat Hname pre (ps ≫= written)) as [pre' ->].
    by rewrite IH.
  - destruct (Hpass p Hp E pre (ps ≫= written)) as [pre' ->]. by rewrite IH.
Qed.

Lemma dest_passed name : passes_over source_mark name dest_mark.
Proof. intros pre s. eexists. reflexivity. Qed.

Lemma source_passed name : passes_over dest_mark name source_mark.
Proof. intros pre s. eexists. reflexivity. Qed.

Lemma plain_formula ps : Forall plain_piece ps -> dollar ∉ formula_of ps ->
  forall src dest, formula_of ps = ps ≫= filled src dest.
Proof.
  intros Hps. unfold formula_of. induction Hps as [|p ps Hp Hps IH]; intros Hd src dest; [done|].
  cbn [mbind list_bind] in *. rewrite not_elem_of_app in Hd. destruct Hd as [Hd Hr].
  rewrite (IH Hr src dest). f_equal. destruct p; [done|exfalso; apply Hd; set_solver..].
Qed.

(** Formulas without other dollars are filled in with names without dollars. *)
Lemma newDestGeneration_filled src dest ps :
  plain src -> plain dest -> Forall plain_piece ps ->
  newDestGeneration src dest (formula_of ps) = ps ≫= filled src dest.
Proof.
  intros Hs Hd Hps. unfold newDestGeneration. case_bool_decide; [|by apply plain_formula].
  rewrite (formula_replaced source_mark is_source).
  2-6: try done. 2: by intros [].
  2: { intros [t| |] Hp E; [by apply plain_passed|done|apply dest_passed]. }
  assert (Forall plain_piece (fill is_source src <$> ps)) as Hps'.
  { apply Forall_fmap. eapply Forall_impl; [exact Hps|]. by intros []. }
  rewrite (formula_replaced dest_mark is_dest).
  2-6: try done. 2: by intros [].
  2: { intros [t| |] Hp E; [by apply plain_passed|apply source_passed|done]. }
  unfold formula_of. rewrite <- list_fmap_compose. clear. induction ps as [|[] ps IH]; [done|..]; cbn; by f_equal.
Qed.

(** A dollar in a name is not safe: [$&] stands for the match. *)
Example dollar_in_name :
  newDestGeneration (String.list_ascii_of_string "a$&") (String.list_ascii_of_string "b")
    (String.list_ascii_of_string "${source}") = String.list_ascii_of_string "a${source}".
Proof. reflexivity. Qed.
