(* ===== verification/FilterOperations.v ===== *)
(** * The filters the library offers

    Models [src/helics/application_api/FilterOperations.cpp], the operators of
    [MessageOperators.cpp], and of [Filters.cpp] the types of filters and what
    is set on a filter.

    The operator that a core runs captures a pointer to the object whose
    properties the user sets while messages pass.  So the objects are a store
    that the operators share with the user: it is the state behind the operators
    of a core, together with the state of the random generator, and an operator
    is the place of its object in the store.

    The regular expressions and the distributions of the C++ library are the
    classes [Regex] and [Distributions]. *)

From Stdlib Require Import Ascii.
From S2P Require Import Prelude StringOps HTime Identifiers CoreData TimeText FilterText ActionMessage CommonCore CoreCalls.
Import Double (double).

(** What is wrong with an expression, if it is ill formed, and its search in a
    string. *)
Class Regex := {
  regex_error : string -> option string;
  regex_search : string -> string -> bool;
}.

(** One draw from a distribution with the parameters it takes. *)
Class Distributions := {
  generator : Type;
  draw_double : random_dists_t -> double -> double -> generator -> double * generator;
  draw_int : random_dists_t -> double -> generator -> Z * generator;
  draw_bernoulli : double -> generator -> bool * generator;
  draw_binomial : Z -> double -> generator -> Z * generator;
}.

Section Random.
Context `{Platform} `{Distributions}.

(** [static_cast<int>] of a number *)
Definition double_to_int (d : double) : Z :=
  match Double.trunc d with
  | Some z => if decide (in_signed 32 z) then z else wide_double_to_int d
  | None => wide_double_to_int d
  end.

Definition randDouble (dist : random_dists_t) (p1 p2 : double) (g : generator) : double * generator :=
  match dist with
  | constant => (p1, g)
  | uniform | normal | lognormal | cauchy | chi_squared | exponential | extreme_value | fisher_f
  | weibull | student_t | gamma => draw_double dist p1 p2 g
  | geometric | poisson =>
      let '(n, g) := draw_int dist p1 g in (Double.mul (Double.of_Z n) p2, g)
  | bernoulli => let '(b, g) := draw_bernoulli p1 g in (if b then p2 else Double.of_Z 0, g)
  | binomial => let '(n, g) := draw_binomial (double_to_int p1) p2 g in (Double.of_Z n, g)
  end.
End Random.

(** ** Operators

    The function of an operator may be missing, and may change what it
    captures, a state of type [S]. *)

Section Operators.
Context {S : Type}.

Definition MessageTimeOperator_process (TimeFunction : option (Time -> S -> Time * S)) (message : Message) (s : S)
    : option Message * S :=
  match TimeFunction with
  | Some f => let '(t, s) := f (time message) s in (Some (message <| time := t |>), s)
  | None => (Some message, s)
  end.

Definition MessageDataOperator_process (dataFunction : option (string -> S -> string * S)) (message : Message) (s : S)
    : option Message * S :=
  match dataFunction with
  | Some f => let '(d, s) := f (data message) s in (Some (message <| data := d |>), s)
  | None => (Some message, s)
  end.

Definition MessageDestOperator_process (DestUpdateFunction : option (string -> string -> S -> string * S))
    (message : Message) (s : S) : option Message * S :=
  match DestUpdateFunction with
  | Some f =>
      let message := message <| original_dest := dest message |> in
      let '(d, s) := f (source message) (dest message) s in (Some (message <| dest := d |>), s)
  | None => (Some message, s)
  end.

Definition MessageConditionalOperator_process (evalFunction : option (Message -> S -> bool * S))
    (message : Message) (s : S) : option Message * S :=
  match evalFunction with
  | Some f => let '(b, s) := f message s in (if b then Some message else None, s)
  | None => (Some message, s)
  end.

(** the copies that the function sends *)
Definition CloneOperator_process {A} (evalFunction : option (Message -> S -> list A * S)) (message : Message) (s : S)
    : option Message * list A * S :=
  match evalFunction with
  | Some f => let '(sent, s) := f message s in (Some message, sent, s)
  | None => (Some message, [], s)
  end.

Definition FirewallOperator_process (checkFunction : option (Message -> S -> bool * S)) (operation : firewall_operation)
    (message : Message) (s : S) : option Message * S :=
  match checkFunction with
  | Some f =>
      let '(res, s) := f message s in
      let flag_if (flag : Z) := if (res : bool) then message <| CoreData.flags ::= set_flag flag |> else message in
      (match operation with
       | drop_message => if res then None else Some message
       | pass_message => if res then Some message else None
       | set_flag1 => Some (flag_if extra_flag1)
       | set_flag2 => Some (flag_if extra_flag2)
       | set_flag3 => Some (flag_if extra_flag3)
       | no_operation => Some message
       end, s)
  | None => (Some message, s)
  end.
End Operators.

(** ** Operations *)

(** An object of a class derived from [FilterOperations]; a clone has the
    identifier of the core it sends through. *)
Inductive FilterOperation :=
  | DelayFilterOperation (delay : Time)
  | RandomDelayFilterOperation (dist : random_dists_t) (param1 param2 : double)
  | RandomDropFilterOperation (dropProb : double)
  | RerouteFilterOperation (newDest : string) (conditions : gset string)
  | FirewallFilterOperation (operation : firewall_operation)
  | CloneFilterOperation (coreptr : global_broker_id) (deliveryAddresses : list string).

(** the constructors *)
Definition new_delay (delayTime : Time) : FilterOperation :=
  DelayFilterOperation (if delayTime <? T.timeZero then T.timeZero else delayTime).
Definition new_random_delay : FilterOperation :=
  RandomDelayFilterOperation uniform (Double.of_Z 0) (Double.of_Z 0).
Definition new_random_drop : FilterOperation := RandomDropFilterOperation (Double.of_Z 0).
Definition new_reroute : FilterOperation := RerouteFilterOperation "" ∅.
Definition new_firewall : FilterOperation := FirewallFilterOperation drop_message.
Definition new_clone (core : global_broker_id) : FilterOperation := CloneFilterOperation core [].

(** [addOperations]; a filter of another type is left as it is *)
Definition addOperations (type : filter_types) (cptr : global_broker_id) : option FilterOperation :=
  match type with
  | ft_random_delay => Some new_random_delay
  | ft_delay => Some (new_delay T.timeZero)
  | ft_random_drop => Some new_random_drop
  | ft_reroute => Some new_reroute
  | ft_clone => Some (new_clone cptr)
  | ft_firewall => Some new_firewall
  | ft_custom | ft_unrecognized => None
  end.

Definition one_of (property : string) (names : list string) : bool := existsb (String.eqb property) names.
Definition first_parameter (property : string) : bool := one_of property ["param1"; "mean"; "min"; "alpha"].
Definition second_parameter (property : string) : bool := one_of property ["param2"; "stddev"; "max"; "beta"].

Definition delay_set (property : string) (val : double) (delay : Time) : Time :=
  if String.eqb property "delay" then
    if T.timeZero <=? T.of_double val then T.of_double val else delay
  else delay.

Definition random_delay_set (property : string) (val : double) (params : double * double) : double * double :=
  if first_parameter property then (val, snd params)
  else if second_parameter property then (fst params, val)
  else params.

Definition random_drop_set (property : string) (val dropProb : double) : double :=
  if one_of property ["dropprob"; "prob"] then val else dropProb.

Definition set (property : string) (val : double) (op : FilterOperation) : FilterOperation :=
  match op with
  | DelayFilterOperation delay => DelayFilterOperation (delay_set property val delay)
  | RandomDelayFilterOperation dist param1 param2 =>
      let '(param1, param2) := random_delay_set property val (param1, param2) in
      RandomDelayFilterOperation dist param1 param2
  | RandomDropFilterOperation dropProb => RandomDropFilterOperation (random_drop_set property val dropProb)
  | RerouteFilterOperation _ _ | FirewallFilterOperation _ | CloneFilterOperation _ _ => op
  end.

(** the exceptions of [setString]: those of HELICS, and those of the standard
    library that are not translated *)
Inductive set_exn := helics_exn (e : exn) | std_exception (e : std_exn).

(** the addresses with another one, unless it is among them *)
Definition add_delivery (val : string) (addresses : list string) : list string :=
  if bool_decide (val ∈ addresses) then addresses else addresses ++ [val].

(** the addresses without the first that is equal *)
Fixpoint remove_delivery (val : string) (addresses : list string) : list string :=
  match addresses with
  | a :: l => if String.eqb a val then l else a :: remove_delivery val l
  | [] => []
  end.

Section SetString.
Context `{NumberReader} `{Regex}.

(** a result with a function applied, or the exception *)
Definition on_result {A B} (f : A -> B) (r : set_exn + A) : set_exn + B :=
  match r with inr a => inr (f a) | inl e => inl e end.

Definition delay_setString (property val : string) (delay : Time) : set_exn + Time :=
  if String.eqb property "delay" then
    match loadTimeFromString val with
    | inr t => inr t
    | inl (invalid_argument _) => inl (helics_exn (InvalidParameter (val +:+ " is not a valid time string")))
    | inl e => inl (std_exception e)
    end
  else inr delay.

Definition load_parameter (val : string) : set_exn + double :=
  match loadTimeFromString val with inr t => inr (T.to_double t) | inl e => inl (std_exception e) end.

Definition random_delay_setString (property val : string) (gen : random_dists_t * double * double)
    : set_exn + random_dists_t * double * double :=
  let '(dist, param1, param2) := gen in
  if one_of property ["dist"; "distribution"] then inr (default dist (find_dist val), param1, param2)
  else if first_parameter property then on_result (fun p => (dist, p, param2)) (load_parameter val)
  else if second_parameter property then on_result (fun p => (dist, param1, p)) (load_parameter val)
  else inr gen.

Definition reroute_setString (property val newDest : string) (conditions : gset string)
    : set_exn + string * gset string :=
  if String.eqb property "newdestination" then inr (val, conditions)
  else if String.eqb property "condition" then
    match regex_error val with
    | None => inr (newDest, {[val]} ∪ conditions)
    | Some what => inl (helics_exn (InvalidParameter ("filter expression is not a valid Regular expression " +:+ what)))
    end
  else inr (newDest, conditions).

Definition clone_setString (property val : string) (addresses : list string) : list string :=
  if String.eqb property "delivery" then [val]
  else if String.eqb property "add delivery" then add_delivery val addresses
  else if String.eqb property "remove delivery" then remove_delivery val addresses
  else addresses.

Definition setString (property val : string) (op : FilterOperation) : set_exn + FilterOperation :=
  match op with
  | DelayFilterOperation delay => on_result DelayFilterOperation (delay_setString property val delay)
  | RandomDelayFilterOperation dist param1 param2 =>
      on_result (fun '(d, p1, p2) => RandomDelayFilterOperation d p1 p2)
        (random_delay_setString property val (dist, param1, param2))
  | RerouteFilterOperation newDest conditions =>
      on_result (fun '(d, c) => RerouteFilterOperation d c) (reroute_setString property val newDest conditions)
  | CloneFilterOperation core addresses =>
      inr (CloneFilterOperation core (clone_setString property val addresses))
  | RandomDropFilterOperation _ | FirewallFilterOperation _ => inr op
  end.
End SetString.

(** ** The operator of an operation *)

Section Process.
Context `{Platform} `{Distributions} `{Regex}.

Definition rerouteOperation (newDest : string) (conditions : gset string) (src dest : string) : string :=
  let redirected := String.string_of_list_ascii
    (newDestGeneration (String.list_ascii_of_string src) (String.list_ascii_of_string dest)
       (String.list_ascii_of_string newDest)) in
  if bool_decide (conditions = ∅) then redirected
  else if existsb (fun sr => regex_search sr dest) (elements conditions) then redirected
  else dest.

(** the literal [0.1] *)
Definition one_tenth : double := Double.div (Double.of_Z 1) (Double.of_Z 10).

(** The copies, as the core puts them into its queue: it is registered, or it
    would not have a message to clone. *)
Definition sendMessage (core : global_broker_id) (addresses : list string) (mess : Message) : list ActionMessage :=
  (fun add =>
     let m := mess <| original_dest := dest mess |> <| dest := add |> in
     command_of_message m <| source_id := core |> <| source_handle := InterfaceHandle.direct_send_handle |>)
  <$> addresses.

Definition delay_process (delay : Time) (message : Message) (g : generator) : option Message * generator :=
  MessageTimeOperator_process (Some (fun messageTime g => (messageTime +t delay, g))) message g.

Definition random_delay_process (dist : random_dists_t) (param1 param2 : double) (message : Message) (g : generator)
    : option Message * generator :=
  MessageTimeOperator_process (Some (fun messageTime g =>
    let '(d, g) := randDouble dist param1 param2 g in (messageTime +t T.of_double d, g))) message g.

Definition random_drop_process (dropProb : double) (message : Message) (g : generator) : option Message * generator :=
  MessageConditionalOperator_process (Some (fun _ g =>
    let '(d, g) := randDouble bernoulli (Double.sub (Double.of_Z 1) dropProb) (Double.of_Z 1) g in
    (Double.ltb one_tenth d, g))) message g.

Definition reroute_process (newDest : string) (conditions : gset string) (message : Message) (g : generator)
    : option Message * generator :=
  MessageDestOperator_process (Some (fun src dest g => (rerouteOperation newDest conditions src dest, g))) message g.

Definition allowPassed (mess : Message) : bool := true.

Definition firewall_process (operation : firewall_operation) (message : Message) (g : generator)
    : option Message * generator :=
  FirewallOperator_process (Some (fun mess g => (allowPassed mess, g))) operation message g.

Definition clone_process (core : global_broker_id) (addresses : list string) (message : Message) (g : generator)
    : option Message * list ActionMessage * generator :=
  CloneOperator_process (Some (fun mess g => (sendMessage core addresses mess, g))) message g.

Definition process_operation (op : FilterOperation) (message : Message) (g : generator)
    : option Message * list ActionMessage * generator :=
  let sending_nothing (r : option Message * generator) := (fst r, [], snd r) in
  match op with
  | DelayFilterOperation delay => sending_nothing (delay_process delay message g)
  | RandomDelayFilterOperation dist param1 param2 => sending_nothing (random_delay_process dist param1 param2 message g)
  | RandomDropFilterOperation dropProb => sending_nothing (random_drop_process dropProb message g)
  | RerouteFilterOperation newDest conditions => sending_nothing (reroute_process newDest conditions message g)
  | FirewallFilterOperation operation => sending_nothing (firewall_process operation message g)
  | CloneFilterOperation core addresses => clone_process core addresses message g
  end.

(** The objects, each at its place, and the random generator. *)
Record Operations := mkOperations { operation_at : nat -> FilterOperation; random : generator }.

#[global] Instance Operations_settable : Settable Operations := fun r =>
  mkOperations (operation_at r) (random r).

#[global] Instance library_operators : FilterOperators := {|
  user_operator := nat;
  world := Operations;
  user_process place message w :=
    let '(r, sent, g) := process_operation (operation_at w place) message (random w) in
    (r, sent, w <| random := g |>);
|}.

(** What the user sets while the core runs. *)
Definition update_at (place : nat) (op : FilterOperation) (w : Operations) : Operations :=
  w <| operation_at ::= fun at_ p => if decide (p = place) then op else at_ p |>.

Definition Filter_set (place : nat) (property : string) (val : double) (w : Operations) : Operations :=
  update_at place (set property val (operation_at w place)) w.

Definition Filter_setString `{NumberReader} (place : nat) (property val : string) (w : Operations)
    : set_exn + Operations :=
  match setString property val (operation_at w place) with
  | inr op => inr (update_at place op w)
  | inl e => inl e
  end.
End Process.
