(* ===== verification/FilterOperationsSpec.v ===== *)
(** * What the filters of the library do

    Rerouting fills in the formula of the destination; a clone reaches each
    address once; delays on the same core add up; a firewall that is not
    configured drops everything. *)

From Stdlib Require Import Ascii.
From S2P Require Import Prelude StringOps HTime Identifiers CoreData StateMonad DualVector InterfaceInfo HandleManager ActionMessage CommonCore CoreFilters CoreCalls MessageTimer CoreRun FilterSpec TimeText FilterText FilterOperations.
Import Filt (FilterInfo) Core CFilters.

Abbreviation of_chars := String.string_of_list_ascii.
Abbreviation to_chars := String.list_ascii_of_string.

Section Operations.
Context `{Platform} `{Distributions} `{Regex}.

(** ** Rerouting *)

Lemma search_any (conditions : gset string) (dest : string) :
  existsb (fun sr => regex_search sr dest) (elements conditions) = true <->
  exists sr, sr ∈ conditions /\ regex_search sr dest = true.
Proof. rewrite existsb_exists. by setoid_rewrite <- list_elem_of_In; setoid_rewrite elem_of_elements. Qed.

Definition redirects (conditions : gset string) (dest : string) : Prop :=
  conditions = ∅ \/ exists sr, sr ∈ conditions /\ regex_search sr dest = true.

Lemma rerouteOperation_to newDest conditions src dest :
  redirects conditions dest ->
  rerouteOperation newDest conditions src dest = of_chars (newDestGeneration (to_chars src) (to_chars dest) (to_chars newDest)).
Proof.
  unfold rerouteOperation. intros Hr. case_bool_decide as E; [done|]. destruct Hr as [|Hr%search_any]; [done|].
  by rewrite Hr.
Qed.

Lemma rerouteOperation_stays newDest conditions src dest :
  ~ redirects conditions dest -> rerouteOperation newDest conditions src dest = dest.
Proof.
  unfold rerouteOperation, redirects. intros Hr. case_bool_decide as E; [naive_solver|].
  destruct (existsb _ _) eqn:Es; [|done]. apply search_any in Es. naive_solver.
Qed.

(** ** Clones *)

(** What [setString] is called with. *)
Definition set_strings `{NumberReader} (calls : list (string * string)) (op : FilterOperation) : set_exn + FilterOperation :=
  fold_left (fun r call => match r with inr op => setString (fst call) (snd call) op | inl e => inl e end) calls (inr op).

(** the set of addresses after a call *)
Definition addresses_after (call : string * string) (s : gset string) : gset string :=
  if String.eqb (fst call) "delivery" then {[snd call]}
  else if String.eqb (fst call) "add delivery" then {[snd call]} ∪ s
  else if String.eqb (fst call) "remove delivery" then s ∖ {[snd call]}
  else s.

Lemma remove_delivery_spec val l :
  NoDup l -> NoDup (remove_delivery val l) /\
  (list_to_set (remove_delivery val l) : gset string) = list_to_set l ∖ {[val]}.
Proof.
  induction 1 as [|a l Ha Hl [IH E]]; [split; [constructor|set_solver]|]. cbn [remove_delivery].
  destruct (String.eqb_spec a val) as [->|Hne].
  - split; [done|]. cbn. assert (val ∉ (list_to_set l : gset string)) by (by rewrite elem_of_list_to_set). set_solver.
  - assert (a ∉ remove_delivery val l).
    { intros Hin. assert (a ∈ (list_to_set (remove_delivery val l) : gset string)) by (by rewrite elem_of_list_to_set).
      rewrite E in *. apply Ha. set_solver. }
    split; [by constructor|]. cbn. rewrite E. set_solver.
Qed.

Lemma add_delivery_spec val l :
  NoDup l -> NoDup (add_delivery val l) /\
  (list_to_set (add_delivery val l) : gset string) = {[val]} ∪ list_to_set l.
Proof.
  intros Hl. unfold add_delivery. case_bool_decide as Hin.
  - split; [done|]. assert (val ∈ (list_to_set l : gset string)) by (by rewrite elem_of_list_to_set). set_solver.
  - split; [apply NoDup_app; split_and!; [done|set_solver|apply NoDup_singleton]|]. rewrite list_to_set_app_L. set_solver.
Qed.

Lemma clone_set `{NumberReader} core l call :
  NoDup l -> exists l', setString (fst call) (snd call) (CloneFilterOperation core l) = inr (CloneFilterOperation core l') /\
    NoDup l' /\ (list_to_set l' : gset string) = addresses_after call (list_to_set l).
Proof.
  intros Hl. eexists. split; [reflexivity|]. unfold addresses_after.
  unfold clone_setString. destruct (String.eqb _ "delivery"); [split; [apply NoDup_singleton|set_solver]|].
  destruct (String.eqb _ "add delivery"); [by apply add_delivery_spec|].
  destruct (String.eqb _ "remove delivery"); [by apply remove_delivery_spec|done].
Qed.

Lemma clone_sets `{NumberReader} core calls : forall l, NoDup l ->
  exists l', set_strings calls (CloneFilterOperation core l) = inr (CloneFilterOperation core l') /\
    NoDup l' /\ (list_to_set l' : gset string) = fold_left (fun s call => addresses_after call s) calls (list_to_set l).
Proof.
  induction calls as [|call calls IH]; intros l Hl; [by exists l|].
  destruct (clone_set core l call Hl) as (l1 & E1 & Hd1 & S1).
  destruct (IH l1 Hd1) as (l2 & E2 & Hd2 & S2). exists l2. split; [|split; [done|by rewrite S2, S1]].
  unfold set_strings in *. cbn [fold_left]. by rewrite E1.
Qed.

(** the message that is delivered to an address *)
Definition copy_for (message : Message) (address : string) : Message :=
  unflagged message <| original_dest := dest message |> <| dest := address |>.

Lemma sendMessage_copies core addresses message :
  createMessageFromCommand <$> sendMessage core addresses message = copy_for message <$> addresses.
Proof. unfold sendMessage. rewrite <- list_fmap_compose. apply list_fmap_ext. by intros ? ? _. Qed.

(** ** Delays *)

Definition delays (places : list nat) (ds : list Time) (w : Operations) : Prop :=
  Forall2 (fun p d => operation_at w p = DelayFilterOperation d /\ 0 <= d) places ds.

Definition total (ds : list Time) : Time := fold_right Z.add 0 ds.

Lemma delays_nonneg places ds w : delays places ds w -> 0 <= total ds.
Proof. unfold total. induction 1 as [|p d places ds [_ Hd] _ IH]; cbn in *; lia. Qed.

Lemma user_process_delay p d message w :
  operation_at w p = DelayFilterOperation d ->
  process (UserOperator p) message w = (Some (message <| time ::= fun t => t +t d |>), [], w).
Proof. intros E. cbn. rewrite E. by destruct w, message. Qed.

Lemma delays_applied places ds w : delays places ds w -> forall message,
  CoreData.flags message = 0 -> T.minVal <= time message -> time message + total ds <= T.maxVal ->
  apply_all (UserOperator <$> places) message w = (Some (message <| time ::= fun t => t + total ds |>), [], w).
Proof.
  induction 1 as [|p d places ds [Ep Hd] Hds IH]; intros message Hf Hmin Hmax.
  - destruct message. cbn. by rewrite Z.add_0_r.
  - pose proof (delays_nonneg _ _ _ Hds) as Hn. change (total (d :: ds)) with (d + total ds) in *.
    assert (unflagged message = message) as E by (destruct message; cbn in *; by rewrite Hf).
    cbn [fmap list_fmap apply_all]. rewrite E, (user_process_delay p d) by done.
    rewrite IH; cbn [time CoreData.flags modify]; [|done|rewrite ?tadd_exact; time_lia..].
    destruct message. cbn in *. rewrite tadd_exact by time_lia. by rewrite Z.add_assoc.
Qed.

(** ** A firewall *)

(** The check of a firewall allows every message, and allowed messages are the
    ones that it drops. *)
Lemma new_firewall_drops message g : process_operation new_firewall message g = (None, [], g).
Proof. done. Qed.

(** ** Dropping at random *)

(** The extremes of the probability, with what is documented of the bernoulli
    distribution for certain events. *)
Section Drop.
Context (certain : forall g, fst (draw_bernoulli (Double.of_Z 1) g) = true)
        (impossible : forall g, fst (draw_bernoulli (Double.of_Z 0) g) = false).

Lemma never_dropped message g : fst (fst (process_operation new_random_drop message g)) = Some message.
Proof.
  unfold process_operation, new_random_drop, random_drop_process, MessageConditionalOperator_process, randDouble. cbn [fst snd].
  change (Double.sub (Double.of_Z 1) (Double.of_Z 0)) with (Double.of_Z 1).
  specialize (certain g). by destruct (draw_bernoulli (Double.of_Z 1) g) as [[] g'].
Qed.

Lemma always_dropped message g :
  fst (fst (process_operation (set "prob" (Double.of_Z 1) new_random_drop) message g)) = None.
Proof.
  change (set "prob" (Double.of_Z 1) new_random_drop) with (RandomDropFilterOperation (Double.of_Z 1)).
  unfold process_operation, random_drop_process, MessageConditionalOperator_process, randDouble. cbn [fst snd].
  change (Double.sub (Double.of_Z 1) (Double.of_Z 1)) with (Double.of_Z 0).
  specialize (impossible g). by destruct (draw_bernoulli (Double.of_Z 0) g) as [[] g'].
Qed.
End Drop.
End Operations.

(** ** Claims *)

Section Claims.
Context `{Platform} `{Distributions} `{Regex}.

(** C26: A rerouting filter.  A message whose destination one of the conditions
    is found in, or any message when there are no conditions, goes to the
    destination that the formula says, with the marks for the source and the
    old destination filled in; another message keeps its destination.  Nothing
    else of it changes but that the old destination is recorded.  Names of
    endpoints and the text between the marks hold no dollar. *)
Theorem reroute_redirects (ps : list piece) (conditions : gset string) (message : Message) (g : generator) :
  plain (to_chars (source message)) -> plain (to_chars (dest message)) -> Forall plain_piece ps ->
  exists newDest,
    process_operation (RerouteFilterOperation (of_chars (formula_of ps)) conditions) message g =
      (Some (message <| original_dest := dest message |> <| dest := newDest |>), [], g) /\
    (redirects conditions (dest message) ->
     to_chars newDest = ps ≫= filled (to_chars (source message)) (to_chars (dest message))) /\
    (~ redirects conditions (dest message) -> newDest = dest message).
Proof.
  intros Hs Hd Hps. eexists. split; [reflexivity|]. split; intros Hr.
  - rewrite rerouteOperation_to by done. rewrite !String.list_ascii_of_string_of_list_ascii.
    by apply newDestGeneration_filled.
  - by apply rerouteOperation_stays.
Qed.

(** A cloning filter.  Whatever strings are set on it, the addresses behave
    as the set that the calls describe: replaced, with an address added, with
    one removed.  A message passes unchanged, and a copy of it is sent through
    the core to every address once, with the old destination recorded. *)
Theorem clone_reaches_each_address `{NumberReader} (core : global_broker_id) (calls : list (string * string))
    (message : Message) (g : generator) :
  exists op addresses,
    set_strings calls (new_clone core) = inr op /\
    (list_to_set addresses : gset string) = fold_left (fun s call => addresses_after call s) calls ∅ /\
    NoDup addresses /\
    process_operation op message g = (Some message, sendMessage core addresses message, g) /\
    createMessageFromCommand <$> sendMessage core addresses message = copy_for message <$> addresses.
Proof.
  destruct (clone_sets core calls [] (NoDup_nil_2)) as (l & E & Hl & Hs).
  exists (CloneFilterOperation core l), l. split_and!; [exact E|exact Hs|exact Hl|done|apply sendMessage_copies].
Qed.

(** C25: Delays on the same core add up.  A message that passes filters that delay,
    on the core of its endpoint, is later by the sum of their delays, and else
    the same; the core and the objects of the filters are as they were. *)
Theorem delays_add_up {C D} `{DualVector C} `{DualMapped D} (n : nat) (fid : global_federate_id) (ii : Z)
    (l : list pointer) (places : list nat) (ds : list Time) (m : ActionMessage) (c : CommonCore C D) :
  Forall2 (local_operator c) l (UserOperator <$> places) -> delays places ds (operator_world c) ->
  T.minVal <= actionTime m -> actionTime m + total ds <= T.maxVal ->
  exists m', through_source_filters n fid ii l m c = Some (m', c) /\
    actionTime m' = actionTime m + total ds /\
    createMessageFromCommand m' = createMessageFromCommand m <| time ::= fun t => t + total ds |>.
Proof.
  intros Hl Hds Hmin Hmax.
  assert (time (createMessageFromCommand m) = actionTime m) as Et by done.
  assert (CoreData.flags (createMessageFromCommand m) = 0) as Ef by (rewrite <- unflagged_command; done).
  rewrite (through_local_filters n fid l _ ii m c Hl), (delays_applied places ds), after_operators_nil by (rewrite ?Et; done).
  eexists. split; [reflexivity|]. destruct Hds as [|p d places ds Hd Hds]; cbn [fmap list_fmap filtered].
  - change (total []) with 0. rewrite Z.add_0_r. split; [done|]. destruct (createMessageFromCommand m). cbn. by rewrite Z.add_0_r.
  - split; [done|]. rewrite message_of_command. destruct (createMessageFromCommand m). cbn in *. by subst.
Qed.
End Claims.

(** ** Examples *)

Section Example_.
#[local] Existing Instance x86_64.

(** expressions without special characters, found where they stand *)
#[local] Instance literal_regex : Regex := {|
  regex_error := fun _ => None;
  regex_search := fun re s => if String.index 0 re s then true else false;
|}.

(** a generator that counts its draws, and gives the first parameter *)
#[local] Instance counting : Distributions := {|
  generator := nat;
  draw_double := fun _ p1 _ g => (p1, S g);
  draw_int := fun _ _ g => (Z.of_nat g, S g);
  draw_bernoulli := fun p g => (Double.ltb (Double.of_Z 0) p, S g);
  draw_binomial := fun t _ g => (t, S g);
|}.
#[local] Existing Instance integers.
#[local] Existing Instance ListContainer.list_container.
Definition undrawn : generator := 0%nat.

Definition greeting : Message :=
  empty_message <| data := "hello" |> <| dest := "grid/load" |> <| source := "ctrl" |> <| original_source := "ctrl" |>.

Lemma reroute_redirects_witness :
  exists newDest,
    process_operation (RerouteFilterOperation "proxy/${source}/${dest}" {["load"%string]}) greeting undrawn =
      (Some (greeting <| original_dest := "grid/load" |> <| dest := newDest |>), [], undrawn) /\
    newDest = "proxy/ctrl/grid/load"%string.
Proof.
  destruct (reroute_redirects [Literal (to_chars "proxy/"); Source; Literal (to_chars "/"); Dest] {["load"%string]} greeting undrawn)
    as (newDest & E & Hr & _).
  1-3: refine (bool_decide_unpack _ _); vm_compute; exact I.
  exists newDest. split; [exact E|].
  rewrite <- (String.string_of_list_ascii_of_string newDest), Hr; [reflexivity|].
  right. exists "load"%string. split; [apply elem_of_singleton; reflexivity|reflexivity].
Defined.

(** two filters of the core at its first endpoint, that delay *)
Definition two_delays : Operations := mkOperations (fun p => match p with O => new_delay 20 | _ => new_delay 30 end) undrawn.
Definition delaying_filter (p : nat) : FilterInfo :=
  Filt.new 7 (Z.of_nat p) "" "" "" false <| Filt.filterOp := Some (UserOperator p) |>.
Definition delaying : CommonCore ListVector.t ListContainer.C :=
  new_core "core_A" two_delays <| global_broker_id_local := 7 |> <| filters := snd (dv_insert "b" (Some 2) (delaying_filter 1)
    (snd (dv_insert "a" (Some 1) (delaying_filter 0) dv_empty))) |>.
Definition delayed : ActionMessage :=
  setStringData ["grid/load"; "ctrl"] (newMessage cmd_send_message <| actionTime := 100 |>).

Lemma delaying_local p : (p < 2)%nat -> local_operator delaying (Some p) (UserOperator p).
Proof.
  intros Hp. exists (delaying_filter p). destruct p as [|[|p]]; [split_and!; reflexivity..|lia].
Qed.

Lemma delays_add_up_witness :
  exists m', through_source_filters 2 0 0 [Some 0%nat; Some 1%nat] delayed delaying = Some (m', delaying) /\
    actionTime m' = 150 /\
    createMessageFromCommand m' = createMessageFromCommand delayed <| time ::= fun t => t + 50 |>.
Proof.
  apply (delays_add_up 2 0 0 [Some 0%nat; Some 1%nat] [0%nat; 1%nat] [20; 30] delayed delaying).
  - repeat constructor; apply delaying_local; lia.
  - repeat constructor; lia.
  - discriminate.
  - discriminate.
Defined.
End Example_.
