(* ===== verification/NetworkAddress.v ===== *)
(** * Network addresses

    Models the functions of [src/helics/core/NetworkBrokerData.cpp] that take
    addresses apart and put them together, on lists of characters.  The
    addresses of the machine come from the resolver of the asio library, the
    class [Resolver]. *)

From Stdlib Require Import Ascii.
From S2P Require Import Prelude StringOps.

Inductive interface_type := tcp | udp | ip | ipc | inproc.
Inductive interface_networks := local | ipv4 | ipv6 | all.

#[export] Instance interface_type_eq_dec : EqDecision interface_type.
Proof. solve_decision. Defined.

Abbreviation text s := (String.list_ascii_of_string s).

Definition colon : ascii := ":"%char.
Definition separator : list ascii := text "://".

Definition makePortAddress (networkInterface : list ascii) (portNumber : Z) : list ascii :=
  if 0 <=? portNumber then networkInterface ++ [colon] ++ to_string portNumber else networkInterface.

(** A port out of the range of [int] is an exception that is not caught. *)
Definition extractInterfaceandPort (address : list ascii) : std_exn + list ascii * Z :=
  match find_last_of colon address with
  | None => inr (address, -1)
  | Some lastColon =>
      match address !! (S lastColon) with
      | Some c =>
          if bool_decide (c = "/"%char) then inr (address, -1)
          else
            match stoi (drop (S lastColon) address) with
            | inr val => inr (take lastColon address, val)
            | inl (invalid_argument _) => inr (address, -1)
            | inl e => inl e
            end
      | None => inr (address, -1)
      end
  end.

(** Without a colon the position is the largest one, and its successor is 0. *)
Definition extractInterfaceandPortString (address : list ascii) : list ascii * list ascii :=
  match find_last_of colon address with
  | Some lastColon => (take lastColon address, drop (S lastColon) address)
  | None => (address, address)
  end.

Definition stripProtocol (networkAddress : list ascii) : list ascii :=
  match find separator networkAddress with Some loc => drop (loc + 3) networkAddress | None => networkAddress end.

Definition removeProtocol (networkAddress : list ascii) : list ascii :=
  match find separator networkAddress with Some loc => drop (loc + 3) networkAddress | None => networkAddress end.

Definition protocol (interfaceT : interface_type) : list ascii :=
  match interfaceT with
  | ip | tcp => text "tcp://"
  | ipc => text "ipc://"
  | udp => text "udp://"
  | inproc => text "inproc://"
  end.

Definition addProtocol (networkAddress : list ascii) (interfaceT : interface_type) : list ascii :=
  match find separator networkAddress with None => protocol interfaceT ++ networkAddress | Some _ => networkAddress end.

Definition insertProtocol (networkAddress : list ascii) (interfaceT : interface_type) : list ascii :=
  match find separator networkAddress with None => protocol interfaceT ++ networkAddress | Some _ => networkAddress end.

Definition isipv6 (address : list ascii) : bool :=
  (2 <? Z.of_nat (length (filter (fun c => c = colon) address))) ||
  bool_decide ("["%char ∈ address) || bool_decide (take 2 address = text "::").

(** ** The address of the broker *)

(** [brokerAddress == a], where an address is compared with text *)
Definition is_text (a : list ascii) (s : string) : bool := bool_decide (a = text s).

(** the local address behind another protocol; [None]: [std::out_of_range] *)
Definition with_protocol (p : string) (localAddress : list ascii) : option (list ascii) :=
  same ← compare_at 3 3 separator localAddress;
  Some (text p ++ if (same : bool) then drop 6 localAddress else localAddress).

Definition checkAndUpdateBrokerAddress (allowedType : interface_type) (localAddress brokerAddress : list ascii)
    : option (list ascii) :=
  let given s := is_text brokerAddress s in
  match allowedType with
  | tcp => Some (if given "tcp://*" || given "*" || given "tcp" then localAddress else brokerAddress)
  | udp => Some (if given "udp://*" || given "*" || given "udp" then localAddress else brokerAddress)
  | ip =>
      if given "udp://*" || given "udp" then with_protocol "udp://" localAddress
      else if given "tcp://*" || given "tcp" then with_protocol "tcp://" localAddress
      else Some (if given "*" then localAddress else brokerAddress)
  | ipc | inproc =>
      Some (if bool_decide (brokerAddress = []) && negb (bool_decide (localAddress = [])) then localAddress
            else brokerAddress)
  end.

(** ** The address of this machine *)

(** What is resolved: the addresses of the machine, of which there is one at
    least, and the address of a server, if it has one. *)
Class Resolver := {
  host_addresses : bool -> list ascii * list (list ascii);
  server_address : bool -> list ascii -> option (list ascii);
}.

(** the length of the common prefix *)
Fixpoint matchcount (a b : list ascii) : Z :=
  match a, b with
  | c :: a, d :: b => if bool_decide (c = d) then 1 + matchcount a b else 0
  | _, _ => 0
  end.

(** the address that matches best, if it matches to [least] characters *)
Fixpoint best_match (least : Z) (server : list ascii) (cnt : Z) (def : list ascii) (others : list (list ascii))
    : list ascii :=
  match others with
  | [] => def
  | ndef :: others =>
      let mcnt := matchcount server ndef in
      if (cnt <? mcnt) && (least <=? mcnt) then best_match least server mcnt ndef others
      else best_match least server cnt def others
  end.

Section Resolved.
Context `{Resolver}.

(** [v6] tells the version of the addresses *)
Definition getLocalExternalAddress_any (v6 : bool) : list ascii := fst (host_addresses v6).

Definition matching_address (v6 : bool) (least : Z) (sstring : list ascii) : list ascii :=
  let '(def, others) := host_addresses v6 in
  best_match least sstring (matchcount sstring def) def others.

Definition getLocalExternalAddressV4 (server : list ascii) : list ascii :=
  match server_address false server with
  | None => getLocalExternalAddress_any false
  | Some sstring => matching_address false 7 sstring
  end.

(** [None]: the resolver throws *)
Definition getLocalExternalAddressV6 (server : list ascii) : option (list ascii) :=
  sstring ← server_address true server; Some (matching_address true 9 sstring).

Definition getLocalExternalAddress (server : list ascii) : option (list ascii) :=
  if isipv6 server then getLocalExternalAddressV6 server else Some (getLocalExternalAddressV4 server).

Definition generateMatchingInterfaceAddress (server : list ascii) (network : interface_networks) : option (list ascii) :=
  if bool_decide (server = []) then
    Some (match network with local => text "tcp://127.0.0.1" | ipv4 | ipv6 | all => text "tcp://*" end)
  else
    match network with
    | local | all => getLocalExternalAddress server
    | ipv4 => Some (getLocalExternalAddressV4 server)
    | ipv6 => getLocalExternalAddressV6 server
    end.
End Resolved.

(** ** Round trips *)

Lemma protocol_found a t : exists loc, find separator (protocol t ++ a) = Some loc /\ drop (loc + 3) (protocol t ++ a) = a.
Proof. destruct t; eexists; split; reflexivity. Qed.

Lemma decimal_not_colon str : Forall (fun c => is_decimal c = true) str -> colon ∉ str.
Proof. intros Hs Hin. rewrite Forall_forall in Hs. by discriminate (Hs colon Hin). Qed.

Lemma port_split a p :
  0 <= p < 2 ^ 31 ->
  extractInterfaceandPort (makePortAddress a p) = inr (a, p) /\
  extractInterfaceandPortString (makePortAddress a p) = (a, to_string p).
Proof.
  intros Hp. unfold makePortAddress. rewrite (proj2 (Z.leb_le 0 p)) by lia.
  unfold extractInterfaceandPort, extractInterfaceandPortString. cbn [app].
  assert (colon ∉ to_string p) as Hc by (apply decimal_not_colon, decimal_digits; lia).
  rewrite find_last_of_app by done.
  assert (drop (S (length a)) (a ++ colon :: to_string p) = to_string p) as Ed.
  { rewrite drop_app_ge by lia. by replace (S (length a) - length a)%nat with 1%nat by lia. }
  rewrite Ed, take_app_length. split; [|done].
  rewrite <- (Nat.add_0_r (S _)), <- lookup_drop, Ed.
  destruct (digits_head 10 p) as (c & rest & E & Hd); [lia|lia|].
  assert (to_string p !! 0%nat = Some c) as -> by (unfold to_string; by rewrite E).
  rewrite bool_decide_false by (intros ->; discriminate Hd). by rewrite stoi_to_string.
Qed.

(** Addresses come apart as they were put together: the port that was added
    to an address is extracted from it, as a number and as text, whatever the
    address is; a protocol that was added is stripped again; and one that is
    there is left as it is. *)
Theorem network_address_roundtrip (address : list ascii) (t : interface_type) (port : Z) :
  find separator address = None -> 0 <= port < 2 ^ 31 ->
  let full := addProtocol address t in
  extractInterfaceandPort (makePortAddress full port) = inr (full, port) /\
  extractInterfaceandPortString (makePortAddress full port) = (full, to_string port) /\
  stripProtocol full = address /\
  stripProtocol (makePortAddress full port) = makePortAddress address port /\
  forall t', addProtocol full t' = full.
Proof.
  intros Hs Hp full. destruct (port_split full port Hp) as [E1 E2].
  assert (full = protocol t ++ address) as Ef by (unfold full, addProtocol; by rewrite Hs).
  assert (forall a, stripProtocol (protocol t ++ a) = a) as Est.
  { intros a. destruct (protocol_found a t) as (loc & El & Ed). unfold stripProtocol. by rewrite El. }
  split_and!; [done|done|by rewrite Ef| |].
  - rewrite Ef. unfold makePortAddress. rewrite (proj2 (Z.leb_le 0 port)), <- app_assoc by lia. apply Est.
  - intros t'. unfold addProtocol at 1. rewrite Ef. by destruct (protocol_found address t) as (loc & -> & _).
Qed.

Lemma network_address_roundtrip_witness :
  let full := addProtocol (text "10.0.0.1") tcp in
  extractInterfaceandPort (makePortAddress full 23404) = inr (full, 23404) /\
  makePortAddress full 23404 = text "tcp://10.0.0.1:23404".
Proof.
  destruct (network_address_roundtrip (text "10.0.0.1") tcp 23404) as (E & _); [reflexivity|lia|].
  split; [exact E|reflexivity].
Defined.

(** The last group of an address of the version 6 is taken for a port. *)
Example bare_ipv6 : extractInterfaceandPort (text "fe80::1") = inr (text "fe80:", 1).
Proof. reflexivity. Qed.

(** Without a colon the text of the port is the address again. *)
Example no_port_text : extractInterfaceandPortString (text "localhost") = (text "localhost", text "localhost").
Proof. reflexivity. Qed.

(** A port too large for [int] ends in an exception. *)
Example port_too_large : extractInterfaceandPort (text "localhost:99999999999") = inl out_of_range.
Proof. reflexivity. Qed.
