(* ===== verification/CommsInterface.v ===== *)
(** * The communication of a core or a broker

    Models [src/helics/core/CommsInterface.cpp]: the state of a connection, its
    properties with the lock that guards them, and the commands that are put
    into the queue of the transmitter.

    The loops of the receiver and the transmitter are threads over sockets, of
    which this class sees the states they set.  The queue and the triggers are
    of a library in a submodule: what is put into the queue is appended to
    [txQueue], with the mark of priority, and what is done to a trigger to the
    list of its actions.  Addresses are lists of characters. *)

From Stdlib Require Import Ascii.
From S2P Require Import Prelude StringOps HTime Identifiers NetworkAddress ActionMessage.

Module Status.
Inductive connection_status := startup | connected | reconnecting | terminated | error.

#[global] Instance connection_status_eq_dec : EqDecision connection_status.
Proof. solve_decision. Defined.

Definition code (s : connection_status) : Z :=
  match s with startup => -1 | connected => 0 | reconnecting => 1 | terminated => 2 | error => 4 end.

(** [status <= connection_status::connected] *)
Definition open (s : connection_status) : bool := code s <=? code connected.
End Status.
Import Status (connection_status).

(** the calls of a [TriggerVariable] *)
Inductive trigger_action := activate | trigger.

#[export] Instance trigger_action_eq_dec : EqDecision trigger_action.
Proof. solve_decision. Defined.

(** [TriggerVariable] is a library that is not part of the repository: whether a
    [wait_for] may come back before its time, after these calls.  It does not
    while the trigger is active and was not triggered since, and it does at once
    on a trigger that was never activated. *)
Class TriggerVariable := may_wake : list trigger_action -> bool.

Class TriggerLaws `{TriggerVariable} : Prop := {
  armed_sleeps : forall t, last t = Some activate -> may_wake t = false;
  inactive_wakes : may_wake [] = true;
}.

(** [NetworkBrokerData::server_mode_options] *)
Inductive server_mode_options :=
  | sm_unspecified | server_default_active | server_default_deactivated | server_active | server_deactivated.

(** [NetworkBrokerData], as far as the communication reads it *)
Record NetworkBrokerData := mkNetwork {
  nb_brokerName : list ascii;
  nb_brokerAddress : list ascii;
  nb_localInterface : list ascii;
  nb_portNumber : Z;
  nb_brokerPort : Z;
  nb_portStart : Z;
  nb_maxMessageSize : Z;
  nb_maxMessageCount : Z;
  nb_maxRetries : Z;
  nb_interfaceNetwork : interface_networks;
  nb_use_os_port : bool;
  nb_autobroker : bool;
  nb_server_mode : server_mode_options;
}.

Module Comms.
(** messages for the threads of the connection itself *)
Definition control_route : route_id := -1.
Definition NEW_ROUTE : Z := 233.
Definition REMOVE_ROUTE : Z := 244.
Definition DISCONNECT : Z := 2523.
Definition CLOSE_RECEIVER : Z := 23425215.
Definition RECONNECT_TRANSMITTER : Z := 1997.
Definition RECONNECT_RECEIVER : Z := 1999.

Record CommsInterface := mkComms {
  rx_status : connection_status;
  rxTrigger : list trigger_action;
  name : list ascii;
  localTargetAddress : list ascii;
  brokerTargetAddress : list ascii;
  brokerName : list ascii;
  tx_status : connection_status;
  txTrigger : list trigger_action;
  operating : bool;
  singleThread : bool;
  serverMode : bool;
  autoBroker : bool;
  connectionTimeout : Z;
  maxMessageSize : Z;
  maxMessageCount : Z;
  requestDisconnect : bool;
  has_callback : bool;
  interfaceNetwork : interface_networks;
  txQueue : list (bool * route_id * ActionMessage);
}.

#[global] Instance CommsInterface_settable : Settable CommsInterface := fun r =>
  mkComms (rx_status r) (rxTrigger r) (name r) (localTargetAddress r) (brokerTargetAddress r) (brokerName r)
    (tx_status r) (txTrigger r) (operating r) (singleThread r) (serverMode r) (autoBroker r)
    (connectionTimeout r) (maxMessageSize r) (maxMessageCount r) (requestDisconnect r) (has_callback r)
    (interfaceNetwork r) (txQueue r).

Definition new_comms (single : bool) : CommsInterface :=
  mkComms Status.startup [] [] [] [] [] Status.startup [] false single true false 4000 (16 * 1024) 512 false false
    local [].

(** ** The queue of the transmitter *)

Definition transmit (rid : route_id) (cmd : ActionMessage) (c : CommsInterface) : CommsInterface :=
  c <| txQueue ::= fun q => q ++ [(isPriorityCommand cmd, rid, cmd)] |>.

Definition addRoute (rid : route_id) (routeInfo : string) (c : CommsInterface) : CommsInterface :=
  transmit control_route
    (setExtraData rid (newMessage cmd_protocol_priority <| payload := routeInfo |> <| messageID := NEW_ROUTE |>)) c.

Definition removeRoute (rid : route_id) (c : CommsInterface) : CommsInterface :=
  transmit control_route (setExtraData rid (newMessage cmd_protocol <| messageID := REMOVE_ROUTE |>)) c.

Definition control (what : Z) (c : CommsInterface) : CommsInterface :=
  transmit control_route (newMessage cmd_protocol <| messageID := what |>) c.

Definition closeTransmitter : CommsInterface -> CommsInterface := control DISCONNECT.
Definition closeReceiver : CommsInterface -> CommsInterface := control CLOSE_RECEIVER.
Definition reconnectTransmitter : CommsInterface -> CommsInterface := control RECONNECT_TRANSMITTER.
Definition reconnectReceiver : CommsInterface -> CommsInterface := control RECONNECT_RECEIVER.

(** ** The states of the two threads *)

(** the new state of a thread and what is done to its trigger *)
Definition status_change (old new : connection_status) : connection_status * list trigger_action :=
  if decide (old = new) then (old, [])
  else
    match new with
    | Status.connected => match old with Status.startup => (new, [activate]) | _ => (old, []) end
    | Status.terminated | Status.error =>
        match old with Status.startup => (new, [activate; trigger]) | _ => (new, [trigger]) end
    | _ => (new, [])
    end.

Definition setTxStatus (txStatus : connection_status) (c : CommsInterface) : CommsInterface :=
  let '(s, acts) := status_change (tx_status c) txStatus in
  c <| tx_status := s |> <| txTrigger ::= fun t => t ++ acts |>.

Definition setRxStatus (rxStatus : connection_status) (c : CommsInterface) : CommsInterface :=
  let '(s, acts) := status_change (rx_status c) rxStatus in
  c <| rx_status := s |> <| rxTrigger ::= fun t => t ++ acts |>.

Definition isConnected (c : CommsInterface) : bool :=
  bool_decide (tx_status c = Status.connected) && bool_decide (rx_status c = Status.connected).

(** ** The lock of the properties *)

(** [compare_exchange] on the atomic [actual]: the result, and the two variables
    behind it; a failure writes the actual value into the expected one. *)
Definition compare_exchange (exp desired actual : bool) : bool * bool * bool :=
  if Bool.eqb exp actual then (true, exp, desired) else (false, actual, actual).

(** The turns of the loop, when no other thread interferes.  The variable [exp]
    is not set back after a failure. *)
Fixpoint propertyLock_turns (fuel : nat) (exp : bool) (c : CommsInterface) : option (bool * CommsInterface) :=
  match fuel with
  | O => None
  | S fuel =>
      let '(done, exp, op) := compare_exchange exp true (operating c) in
      let c := c <| operating := op |> in
      if done then Some (true, c)
      else if decide (tx_status c = Status.startup) then propertyLock_turns fuel exp c
      else Some (false, c)
  end.

Definition propertyLock (c : CommsInterface) : option (bool * CommsInterface) := propertyLock_turns 2 false c.

Definition propertyUnLock (c : CommsInterface) : CommsInterface :=
  let '(_, _, op) := compare_exchange true false (operating c) in c <| operating := op |>.

(** a change of the properties, if the lock is given *)
Definition when_locked (f : CommsInterface -> CommsInterface) (c : CommsInterface) : option CommsInterface :=
  '(b, c) ← propertyLock c; Some (if (b : bool) then propertyUnLock (f c) else c).

(** ** Properties *)

Definition loadNetworkInfo (netInfo : NetworkBrokerData) : CommsInterface -> option CommsInterface :=
  when_locked (fun c =>
    let c := c <| localTargetAddress := nb_localInterface netInfo |>
               <| brokerTargetAddress := nb_brokerAddress netInfo |>
               <| brokerName := nb_brokerName netInfo |>
               <| interfaceNetwork := nb_interfaceNetwork netInfo |>
               <| maxMessageSize := nb_maxMessageSize netInfo |>
               <| maxMessageCount := nb_maxMessageCount netInfo |>
               <| autoBroker := nb_autobroker netInfo |> in
    match nb_server_mode netInfo with
    | server_active | server_default_active => c <| serverMode := true |>
    | server_deactivated | server_default_deactivated => c <| serverMode := false |>
    | sm_unspecified => c
    end).

Definition loadTargetInfo (localTarget brokerTarget : list ascii) (targetNetwork : interface_networks)
    : CommsInterface -> option CommsInterface :=
  when_locked (fun c => c <| localTargetAddress := localTarget |> <| brokerTargetAddress := brokerTarget |>
                          <| interfaceNetwork := targetNetwork |>).

Definition setName (name_ : list ascii) : CommsInterface -> option CommsInterface :=
  when_locked (fun c => c <| name := name_ |>).

Definition setCallback (callable : bool) : CommsInterface -> option CommsInterface :=
  when_locked (fun c => c <| has_callback := callable |>).

Definition setMessageSize (maxMsgSize maxCount : Z) : CommsInterface -> option CommsInterface :=
  when_locked (fun c =>
    let c := if 0 <? maxMsgSize then c <| maxMessageSize := maxMsgSize |> else c in
    if 0 <? maxCount then c <| maxMessageCount := maxCount |> else c).

Definition setTimeout (timeOut : Z) : CommsInterface -> option CommsInterface :=
  when_locked (fun c => c <| connectionTimeout := timeOut |>).

Definition setServerMode (serverActive : bool) : CommsInterface -> option CommsInterface :=
  when_locked (fun c => c <| serverMode := serverActive |>).

Definition setFlag (flag : string) (val : bool) (c : CommsInterface) : option CommsInterface :=
  if String.eqb flag "server_mode" then setServerMode val c else Some c.

(** ** Connecting

    The first part ends in an answer or with the threads started; the second
    waits for both of them to have left their start, and looks at their states. *)

Inductive connect_start := answered (b : bool) | threads_started.

Definition connect_begin (c : CommsInterface) : option (connect_start * CommsInterface) :=
  if isConnected c then Some (answered true, c)
  else if bool_decide (rx_status c <> Status.startup) then Some (answered false, c)
  else if bool_decide (tx_status c <> Status.startup) then Some (answered false, c)
  else if negb (has_callback c) then Some (answered false, c)
  else
    '(locked, c) ← propertyLock c;
    if negb locked then Some (answered (isConnected c), c)
    else
      let c := if bool_decide (name c = []) then c <| name := localTargetAddress c |> else c in
      let c := if bool_decide (localTargetAddress c = []) then c <| localTargetAddress := name c |> else c in
      Some (threads_started, c).

(** [waitActivation] of a trigger *)
Definition activated (t : list trigger_action) : bool := bool_decide (activate ∈ t).

(** [None]: the call waits *)
Definition connect_end (c : CommsInterface) : option (bool * CommsInterface) :=
  if activated (txTrigger c) && activated (rxTrigger c) then
    Some (if bool_decide (rx_status c <> Status.connected)
          then (false, if bool_decide (tx_status c = Status.connected) then closeTransmitter c else c)
          else if bool_decide (tx_status c <> Status.connected)
          then (false, if negb (singleThread c) && bool_decide (rx_status c = Status.connected)
                       then closeReceiver c else c)
          else (true, c))
  else None.

(** what an exception in the loop of a thread leaves: its state, and no trigger *)
Definition receiver_failed (c : CommsInterface) : CommsInterface := c <| rx_status := Status.error |>.
Definition transmitter_failed (c : CommsInterface) : CommsInterface := c <| tx_status := Status.error |>.

(** ** The threads

    The loops of the receiver and the transmitter, which derived classes have,
    set their states by [setRxStatus] and [setTxStatus], to one of three. *)

Inductive thread_move := rx_to (s : connection_status) | tx_to (s : connection_status).

Definition apply_move (c : CommsInterface) (m : thread_move) : CommsInterface :=
  match m with rx_to s => setRxStatus s c | tx_to s => setTxStatus s c end.

Definition apply_moves (c : CommsInterface) (ms : list thread_move) : CommsInterface := fold_left apply_move ms c.

Definition moved_to (m : thread_move) : connection_status := match m with rx_to s | tx_to s => s end.
Definition by_a_loop (m : thread_move) : Prop :=
  moved_to m = Status.connected \/ moved_to m = Status.terminated \/ moved_to m = Status.error.

(** ** Disconnecting

    A turn of a wait of 800 ms: whether the wait was cut short, what the threads
    did meanwhile, and whether the program is being shut down.  A wait for a
    trigger is cut short only when the library lets it. *)

Record turn := mkTurn { cut_short : bool; moves : list thread_move; tripped : bool }.

Definition both_terminated (c : CommsInterface) : CommsInterface :=
  setTxStatus Status.terminated (setRxStatus Status.terminated c).

(** how a wait ends *)
Inductive wait_end := closed | given_up | shut_down.

Section Await.
Context `{TriggerVariable}.
Context (status : CommsInterface -> connection_status) (trig : CommsInterface -> list trigger_action)
  (close : CommsInterface -> CommsInterface).

(** [None]: the wait is not over after these turns *)
Fixpoint await (cnt : Z) (turns : list turn) (c : CommsInterface) : option (wait_end * CommsInterface) :=
  if Status.open (status c) then
    match turns with
    | [] => None
    | t :: turns =>
        let c := apply_moves c (moves t) in
        if cut_short t && may_wake (trig c) then await cnt turns c
        else
          let cnt := cnt + 1 in
          let c := if Z.land cnt 3 =? 0 then close c else c in
          if cnt =? 14 then Some (given_up, c)
          else if tripped t
          then Some (shut_down, c <| rx_status := Status.terminated |> <| tx_status := Status.terminated |>)
          else await cnt turns c
    end
  else Some (closed, c).
End Await.

(** The two waits, with the turns of each; the answer tells whether one of them
    was given up, which is logged. *)
Definition disconnect `{TriggerVariable} (trippedAtFirst : bool) (rx_turns tx_turns : list turn) (c : CommsInterface)
    : option (bool * CommsInterface) :=
  '(locked, c) ← (if negb (operating c) then propertyLock c else Some (false, c));
  if (locked : bool) then Some (false, both_terminated c)
  else
    let c := c <| requestDisconnect := true |> in
    let c := if Status.open (rx_status c) then closeReceiver c else c in
    let c := if Status.open (tx_status c) then closeTransmitter c else c in
    if trippedAtFirst then Some (false, both_terminated c)
    else
      '(e, c) ← await rx_status rxTrigger closeReceiver 0 rx_turns c;
      match e with
      | shut_down => Some (false, c)
      | _ =>
          '(e', c) ← await tx_status txTrigger closeTransmitter 0 tx_turns c;
          Some (match e, e' with given_up, _ | _, given_up => true | _, _ => false end, c)
      end.

(** ** Reconnecting

    Up to 400 looks at a state, with what the threads did before each. *)
Fixpoint await_reconnected (status : CommsInterface -> connection_status)
    (looks : list (list thread_move)) (c : CommsInterface) : CommsInterface :=
  match looks with
  | [] => c
  | ms :: looks =>
      if decide (status c = Status.reconnecting) then await_reconnected status looks (apply_moves c ms) else c
  end.

Definition reconnect (rx_looks tx_looks : list (list thread_move)) (c : CommsInterface) : bool * CommsInterface :=
  let c := c <| rx_status := Status.reconnecting |> <| tx_status := Status.reconnecting |> in
  let c := reconnectTransmitter (reconnectReceiver c) in
  let c := await_reconnected rx_status (take 400 rx_looks) c in
  let c := await_reconnected tx_status (take 400 tx_looks) c in
  (isConnected c, c).
End Comms.

(** ** The lock and the end

    What [propertyLock] guards against and what not, and that [disconnect] comes
    back. *)

Import Status (connection_status) Comms.

(** ** Without other threads *)

(** The lock is given when it is free, and also when it is not, as long as the
    transmitter has not left its start. *)
Lemma propertyLock_run c :
  propertyLock c = Some (negb (operating c) || bool_decide (tx_status c = Status.startup), c <| operating := true |>).
Proof.
  unfold propertyLock, propertyLock_turns, compare_exchange. destruct c as [? ? ? ? ? ? tx ? op]. cbn.
  destruct op; cbn; [|done]. destruct (decide (tx = Status.startup)); [by rewrite bool_decide_true|by rewrite bool_decide_false].
Qed.

(** ** Threads that compete

    Each thread is at a point of [propertyLock] or behind it; the steps are the
    operations on the atomic variables.  A weak exchange may fail without a
    reason. *)

Inductive point := idle | trying (exp : bool) | holding | refused.

#[global] Instance point_eq_dec : EqDecision point.
Proof. solve_decision. Defined.

Record threads := mkThreads { flag : bool; tx : connection_status; at_ : nat -> point }.

Definition move (i : nat) (p : point) (at0 : nat -> point) : nat -> point := fun j => if decide (j = i) then p else at0 j.

(** the point behind an exchange that failed *)
Definition after_failure (exp : bool) (s : connection_status) : point :=
  if decide (s = Status.startup) then trying exp else refused.

Inductive lock_step : threads -> threads -> Prop :=
  | step_ask i f s a : a i = idle -> lock_step (mkThreads f s a) (mkThreads f s (move i (trying false) a))
  | step_exchange i f s a exp b exp' f' :
      a i = trying exp -> compare_exchange exp true f = (b, exp', f') ->
      lock_step (mkThreads f s a) (mkThreads f' s (move i (if b then holding else after_failure exp' s) a))
  | step_spurious i f s a exp :
      a i = trying exp -> lock_step (mkThreads f s a) (mkThreads f s (move i (after_failure f s) a))
  | step_unlock i f s a b exp' f' :
      a i = holding -> compare_exchange true false f = (b, exp', f') ->
      lock_step (mkThreads f s a) (mkThreads f' s (move i idle a))
  | step_return i f s a : a i = refused -> lock_step (mkThreads f s a) (mkThreads f s (move i idle a))
  | step_status f s s' a : lock_step (mkThreads f s a) (mkThreads f s' a).

Lemma move_here i p a : move i p a i = p.
Proof. unfold move. by destruct (decide (i = i)). Qed.

Lemma move_other i j p a : j <> i -> move i p a j = a j.
Proof. intros. unfold move. by destruct (decide (j = i)). Qed.

(** A thread alone: it asks, fails once with the value it finds, and tries again
    with that. *)
Lemma second_exchange i s a :
  a i = idle -> s = Status.startup ->
  exists a', rtc lock_step (mkThreads true s a) (mkThreads true s a') /\ a' i = holding /\
    forall j, j <> i -> a' j = a j.
Proof.
  intros Hi ->. eexists. split_and!.
  - eapply rtc_l; [by apply (step_ask i)|].
    eapply rtc_l; [apply (step_exchange i _ _ _ false false true true); [apply move_here|done]|].
    eapply rtc_l; [apply (step_exchange i _ _ _ true true true true); [apply move_here|done]|]. apply rtc_refl.
  - apply move_here.
  - intros j Hj. by rewrite !move_other.
Qed.

(** A thread that runs [propertyLock] alone takes these steps. *)
Lemma propertyLock_steps i a c b c' :
  a i = idle -> propertyLock c = Some (b, c') ->
  exists a', rtc lock_step (mkThreads (operating c) (tx_status c) a) (mkThreads (operating c') (tx_status c') a') /\
    a' i = (if b then holding else refused) /\ forall j, j <> i -> a' j = a j.
Proof.
  intros Hi. rewrite propertyLock_run. intros [= <- <-]. destruct c as [? ? ? ? ? ? s ? op]. cbn. destruct op; cbn.
  - destruct (decide (s = Status.startup)) as [->|Hs]; [rewrite bool_decide_true by done; by apply second_exchange|].
    rewrite bool_decide_false by done. eexists. split_and!.
    + eapply rtc_l; [by apply (step_ask i)|].
      eapply rtc_l; [apply (step_exchange i _ _ _ false false true true); [apply move_here|done]|]. apply rtc_refl.
    + rewrite move_here. unfold after_failure. by rewrite decide_False.
    + intros j Hj. by rewrite !move_other.
  - eexists. split_and!.
    + eapply rtc_l; [by apply (step_ask i)|].
      eapply rtc_l; [apply (step_exchange i _ _ _ false true false true); [apply move_here|done]|]. apply rtc_refl.
    + apply move_here.
    + intros j Hj. by rewrite !move_other.
Qed.

(** C34: The lock of the properties does not exclude.  In a state in which one
    thread holds the lock while the connection starts up, another thread that
    asks for it gets it by steps of its own, and then both hold it: the
    expected value is not set back after the failed exchange.  Two threads that
    set properties of a new connection can both be in the guarded part. *)
Theorem property_lock_not_exclusive (i j : nat) (a : nat -> point) :
  i <> j -> a i = holding -> a j = idle ->
  exists a', rtc lock_step (mkThreads true Status.startup a) (mkThreads true Status.startup a') /\
    a' i = holding /\ a' j = holding.
Proof.
  intros Hij Hi Hj. destruct (second_exchange j Status.startup a Hj eq_refl) as (a' & Hr & Hh & Ho).
  exists a'. split_and!; [done|by rewrite Ho|done].
Qed.

Lemma property_lock_not_exclusive_witness :
  exists a', rtc lock_step (mkThreads false Status.startup (fun _ => idle)) (mkThreads true Status.startup a') /\
    a' 0%nat = holding /\ a' 1%nat = holding.
Proof.
  destruct (property_lock_not_exclusive 0 1 (move 0 holding (move 0 (trying false) (fun _ => idle)))) as (a' & Hr & H0 & H1).
  1-3: reflexivity || discriminate.
  exists a'. split; [|split; assumption].
  eapply rtc_l; [apply (step_ask 0); reflexivity|].
  eapply rtc_l; [apply (step_exchange 0 _ _ _ false true false true); reflexivity|]. exact Hr.
Defined.

(** ** The end *)

Lemma status_change_terminated old : fst (status_change old Status.terminated) = Status.terminated.
Proof. by destruct old. Qed.

Lemma both_terminated_status c :
  rx_status (both_terminated c) = Status.terminated /\ tx_status (both_terminated c) = Status.terminated.
Proof.
  unfold both_terminated, setTxStatus, setRxStatus.
  pose proof (status_change_terminated (rx_status c)) as Hr. destruct (status_change (rx_status c) _) as [r ra].
  cbn [fst] in Hr. subst r. cbn [tx_status modify].
  pose proof (status_change_terminated (tx_status c)) as Ht. destruct (status_change (tx_status c) _) as [t ta].
  cbn [fst] in Ht. by subst t.
Qed.

Lemma both_terminated_queue c : txQueue (both_terminated c) = txQueue c.
Proof. unfold both_terminated, setTxStatus, setRxStatus. by repeat case_match. Qed.

(** *** What the threads keep *)

Definition ended (s : connection_status) : Prop := s = Status.terminated \/ s = Status.error.

(** the trigger of a thread fits its state *)
Definition trigger_fits (s : connection_status) (t : list trigger_action) : Prop :=
  match s with
  | Status.startup => t = []
  | Status.connected => last t = Some activate
  | _ => True
  end.

(** a property of the two states with their triggers *)
Definition both (P : connection_status -> list trigger_action -> Prop) c : Prop :=
  P (rx_status c) (rxTrigger c) /\ P (tx_status c) (txTrigger c).

(** that is kept when a loop changes a state *)
Definition kept (P : connection_status -> list trigger_action -> Prop) : Prop :=
  forall s t m, by_a_loop m -> P s t -> P (fst (status_change s (moved_to m))) (t ++ snd (status_change s (moved_to m))).

Lemma fits_kept : kept trigger_fits.
Proof.
  intros s t m [E|[E|E]] Hf; rewrite E; unfold status_change; destruct s; case_decide; try done; cbn in *;
    rewrite ?app_nil_r; try done. by rewrite last_snoc.
Qed.

Lemma left_start_kept : kept (fun s _ => s <> Status.startup).
Proof. intros s t m [E|[E|E]]; rewrite E; by destruct s. Qed.

Lemma not_reconnecting_kept : kept (fun s _ => s <> Status.reconnecting).
Proof. intros s t m [E|[E|E]]; rewrite E; by destruct s. Qed.

Lemma ended_kept : kept (fun s _ => ended s).
Proof. unfold ended, status_change. intros s t m [E|[E|E]]; rewrite E; intros [-> | ->]; cbn; auto. Qed.

Lemma shut_kept : kept (fun s _ => Status.open s = false).
Proof. intros s t m [E|[E|E]]; rewrite E; by destruct s. Qed.

Section Keeping.
Context (P Q : connection_status -> list trigger_action -> Prop) (HP : kept P) (HQ : kept Q).
Definition apart c : Prop := P (rx_status c) (rxTrigger c) /\ Q (tx_status c) (txTrigger c).

Lemma apply_moves_keeps ms : forall c, Forall by_a_loop ms -> apart c -> apart (apply_moves c ms).
Proof.
  induction ms as [|m ms IH]; intros c Hms [Hp Hq]; [done|]. apply Forall_cons in Hms as [Hm Hms].
  cbn. apply IH; [done|]. destruct m as [s|s]; cbn; unfold setRxStatus, setTxStatus.
  - pose proof (HP _ _ (rx_to s) Hm Hp) as H'. cbn in H'. by destruct (status_change (rx_status c) s).
  - pose proof (HQ _ _ (tx_to s) Hm Hq) as H'. cbn in H'. by destruct (status_change (tx_status c) s).
Qed.
End Keeping.

(** the turns of a wait are of the loops *)
Definition looping (turns : list turn) : Prop := Forall (fun t => Forall by_a_loop (moves t)) turns.

Section Awaiting.
Context `{TriggerLaws}.
Context (status : CommsInterface -> connection_status) (trig : CommsInterface -> list trigger_action)
  (close : CommsInterface -> CommsInterface).
Context (Hclose : forall I : CommsInterface -> Prop,
  (forall c q, I c -> I (c <| txQueue := q |>)) -> forall c, I c -> I (close c)).

(** What threads keep is kept by a wait, unless the program is shut down. *)
Lemma await_keeps (I : CommsInterface -> Prop) turns :
  (forall c ms, Forall by_a_loop ms -> I c -> I (apply_moves c ms)) -> (forall c q, I c -> I (c <| txQueue := q |>)) ->
  looping turns -> forall cnt c e c',
  I c -> await status trig close cnt turns c = Some (e, c') -> e <> shut_down -> I c'.
Proof.
  intros Hm Hq Ht. induction Ht as [|t turns Hts _ IH]; intros cnt c e c' Hi; cbn [await].
  - destruct (Status.open (status c)); [done|]. by intros [= <- <-].
  - destruct (Status.open (status c)); [|by intros [= <- <-]].
    pose proof (Hm c (moves t) Hts Hi) as Hi1. destruct (_ && _); [by apply IH|].
    assert (I (if Z.land (cnt + 1) 3 =? 0 then close (apply_moves c (moves t)) else apply_moves c (moves t))) as Hi2
      by (destruct (_ =? 0); [by apply Hclose|done]).
    destruct (cnt + 1 =? 14); [by intros [= <- <-]|]. destruct (tripped t); [by intros [= <- <-]|]. by apply IH.
Qed.

(** A wait for a thread that has left its start comes back in time: while the
    thread is connected, no wait for its trigger is cut short. *)
Lemma await_ends (J : CommsInterface -> Prop) turns :
  (forall c ms, Forall by_a_loop ms -> J c -> J (apply_moves c ms)) -> (forall c q, J c -> J (c <| txQueue := q |>)) ->
  (forall c, J c -> trigger_fits (status c) (trig c) /\ status c <> Status.startup) ->
  looping turns -> forall cnt c,
  J c -> 0 <= cnt < 14 -> 14 - cnt <= Z.of_nat (length turns) ->
  exists e c', await status trig close cnt turns c = Some (e, c') /\
    (e = closed -> Status.open (status c') = false) /\
    (e = shut_down -> rx_status c' = Status.terminated /\ tx_status c' = Status.terminated).
Proof.
  intros Hm Hq HJ Ht. induction Ht as [|t turns Hts _ IH]; intros cnt c Hj Hcnt Hl; cbn [length] in Hl; [lia|].
  cbn [await]. destruct (Status.open (status c)) eqn:Eo; [|by eexists closed, c].
  pose proof (Hm c (moves t) Hts Hj) as Hj1. set (c1 := apply_moves c (moves t)) in *.
  destruct (cut_short t && may_wake (trig c1)) eqn:Ew.
  - apply andb_true_iff in Ew as [_ Ew]. destruct (HJ c1 Hj1) as [Hf Hs].
    assert (Status.open (status c1) = false) as Hc.
    { destruct (status c1) eqn:E; try done. cbn in Hf. by rewrite (armed_sleeps _ Hf) in Ew. }
    eexists closed, c1. destruct turns; cbn [await]; rewrite Hc; done.
  - assert (J (if Z.land (cnt + 1) 3 =? 0 then close c1 else c1)) as Hj2
      by (destruct (_ =? 0); [by apply Hclose|done]).
    destruct (Z.eqb_spec (cnt + 1) 14); [by eexists given_up, _|].
    destruct (tripped t); [by eexists shut_down, _|]. apply IH; [done|lia|lia].
Qed.
End Awaiting.

Lemma control_keeps what (I : CommsInterface -> Prop) :
  (forall c q, I c -> I (c <| txQueue := q |>)) -> forall c, I c -> I (control what c).
Proof. intros Hq c Hc. by apply Hq. Qed.

(** a connection whose threads have left their start *)
Definition started c : Prop :=
  (trigger_fits (rx_status c) (rxTrigger c) /\ rx_status c <> Status.startup) /\
  (trigger_fits (tx_status c) (txTrigger c) /\ tx_status c <> Status.startup).

Lemma started_moves c ms : Forall by_a_loop ms -> started c -> started (apply_moves c ms).
Proof.
  apply (apply_moves_keeps (fun s t => trigger_fits s t /\ s <> Status.startup)
    (fun s t => trigger_fits s t /\ s <> Status.startup));
  intros s t m Hm [Hf Hs]; split; [by apply fits_kept|by apply left_start_kept|by apply fits_kept|by apply left_start_kept].
Qed.

(** a state that is neither open nor reconnecting *)
Lemma not_open_ended s : Status.open s = false -> s <> Status.reconnecting -> ended s.
Proof. unfold ended. destruct s; auto; done. Qed.

(** The waits for both threads. *)
Lemma waits_end `{TriggerLaws} rx_turns tx_turns c :
  looping rx_turns -> looping tx_turns -> (14 <= length rx_turns)%nat -> (14 <= length tx_turns)%nat -> started c ->
  exists e c1, await rx_status rxTrigger closeReceiver 0 rx_turns c = Some (e, c1) /\
    (e = shut_down -> rx_status c1 = Status.terminated /\ tx_status c1 = Status.terminated) /\
    (e <> shut_down -> exists e' c2, await tx_status txTrigger closeTransmitter 0 tx_turns c1 = Some (e', c2) /\
      (e' = shut_down -> rx_status c2 = Status.terminated /\ tx_status c2 = Status.terminated) /\
      (e = closed -> e' = closed ->
        (rx_status c <> Status.reconnecting -> ended (rx_status c2)) /\
        (tx_status c <> Status.reconnecting -> ended (tx_status c2)))).
Proof.
  intros Hr Ht Lr Lt Hs.
  destruct (await_ends rx_status rxTrigger closeReceiver (control_keeps _) started rx_turns started_moves
    ltac:(done) ltac:(intros ? []; done) Hr 0 c Hs) as (e & c1 & E & Hc & Hd); [lia|lia|].
  exists e, c1. split; [done|]. split; [done|]. intros He.
  pose proof (await_keeps rx_status rxTrigger closeReceiver (control_keeps _) started rx_turns started_moves
    ltac:(done) Hr 0 c e c1 Hs E He) as Hs1.
  destruct (await_ends tx_status txTrigger closeTransmitter (control_keeps _) started tx_turns started_moves
    ltac:(done) ltac:(intros ? []; done) Ht 0 c1 Hs1) as (e' & c2 & E' & Hc' & Hd'); [lia|lia|].
  exists e', c2. split; [done|]. split; [done|]. intros -> ->. split; intros Hn.
  - assert (apart (fun s _ => s <> Status.reconnecting) (fun _ _ => True) c1) as [Hn1 _].
    { eapply (await_keeps rx_status rxTrigger closeReceiver (control_keeps _) (apart (fun s _ => s <> Status.reconnecting) (fun _ _ => True)));
        [intros c0 ms Hms; apply apply_moves_keeps; [apply not_reconnecting_kept|done|done]|done|exact Hr|by split|exact E|done]. }
    assert (apart (fun s _ => ended s) (fun _ _ => True) c2) as [Hn2 _]; [|done].
    eapply (await_keeps tx_status txTrigger closeTransmitter (control_keeps _) (apart (fun s _ => ended s) (fun _ _ => True)));
      [intros c0 ms Hms; apply apply_moves_keeps; [apply ended_kept|done|done]|done|exact Ht| |exact E'|done].
    split; [|done]. by apply not_open_ended; [apply Hc|].
  - assert (forall c0 cx st tr cl tu ee, (forall I : CommsInterface -> Prop,
        (forall c q, I c -> I (c <| txQueue := q |>)) -> forall c, I c -> I (cl c)) -> looping tu ->
        tx_status c0 <> Status.reconnecting -> await st tr cl 0 tu c0 = Some (ee, cx) -> ee <> shut_down ->
        tx_status cx <> Status.reconnecting) as Hk.
    { intros c0 cx st tr cl tu ee Hcl Htu Hc0 Ea Hee.
      assert (apart (fun _ _ => True) (fun s _ => s <> Status.reconnecting) cx) as [_ H']; [|done].
      eapply (await_keeps st tr cl Hcl (apart (fun _ _ => True) (fun s _ => s <> Status.reconnecting)));
        [intros c3 ms Hms; apply apply_moves_keeps; [done|apply not_reconnecting_kept|done]|done|exact Htu|by split|exact Ea|done]. }
    apply not_open_ended; [by apply Hc'|]. eapply (Hk c1 c2); [apply control_keeps|exact Ht| |exact E'|done].
    eapply (Hk c c1); [apply control_keeps|exact Hr|exact Hn|exact E|done].
Qed.

(** C33: The end of a connection.  The two threads set their states by
    [setRxStatus] and [setTxStatus] as the loops of the classes do, and a wait
    for a trigger is cut short only as the trigger allows.  When both threads
    have left their start, a call of [disconnect] comes back within 14 waits for
    each of them, whatever they do.  Unless a wait was given up, which is
    logged, each thread that was not reconnecting at the call has ended then,
    by termination or with an error.  Threads that are both reconnecting are
    not waited for and not told to close.  A connection that does not operate
    is terminated at once. *)
Theorem disconnect_ends `{TriggerLaws} (first : bool) (rx_turns tx_turns : list turn) (c : CommsInterface) :
  looping rx_turns -> looping tx_turns -> (14 <= length rx_turns)%nat -> (14 <= length tx_turns)%nat -> started c ->
  exists logged c', disconnect first rx_turns tx_turns c = Some (logged, c') /\
    (operating c = false ->
       logged = false /\ txQueue c' = txQueue c /\ rx_status c' = Status.terminated /\ tx_status c' = Status.terminated) /\
    (logged = false ->
       (rx_status c <> Status.reconnecting -> ended (rx_status c')) /\
       (tx_status c <> Status.reconnecting -> ended (tx_status c'))) /\
    (operating c = true -> first = false -> rx_status c = Status.reconnecting -> tx_status c = Status.reconnecting ->
       logged = false /\ c' = c <| requestDisconnect := true |>).
Proof.
  intros Hr Ht Lr Lt Hs. unfold disconnect. destruct (operating c) eqn:Eop; cbn [negb mbind option_bind].
  - set (c0 := if Status.open (tx_status _) then _ else _).
    assert (started c0 /\ rx_status c0 = rx_status c /\ tx_status c0 = tx_status c /\
      (rx_status c = Status.reconnecting -> tx_status c = Status.reconnecting -> c0 = c <| requestDisconnect := true |>))
      as (Hs0 & Er & Et & Hre).
    { unfold c0. destruct c as [rs]; cbn in *. split_and!.
      - by repeat case_if.
      - by repeat case_if.
      - by repeat case_if.
      - intros -> ->. reflexivity. }
    clearbody c0. destruct first.
    { eexists false, _. split; [reflexivity|]. split; [done|]. split; [|done]. intros _.
      destruct (both_terminated_status c0) as [-> ->]. by split; left. }
    destruct (waits_end rx_turns tx_turns c0 Hr Ht Lr Lt Hs0) as (e & c1 & E & Hd & Hrest).
    assert (rx_status c0 = Status.reconnecting -> e = closed /\ c1 = c0) as Hnow.
    { intros Hx. destruct rx_turns; [cbn in Lr; lia|]. cbn [await] in E. rewrite Hx in E. cbn in E. by injection E as <- <-. }
    rewrite E. cbn [mbind option_bind]. destruct e.
    all: try (eexists _, _; split; [reflexivity|]; split; [done|]; split;
      [intros _; destruct (Hd eq_refl) as [-> ->]; by split; left|intros _ _ Hx; rewrite <- Er in Hx; by destruct (Hnow Hx)]).
    all: destruct (Hrest ltac:(done)) as (e' & c2 & E' & Hd' & Hend); rewrite E'; cbn [mbind option_bind].
    all: eexists _, _; split; [reflexivity|]; split; [done|].
    + rewrite <- Er, <- Et. split.
      * destruct e'; intros Hlog; [by apply Hend|done|destruct (Hd' eq_refl) as [-> ->]; by split; left].
      * intros _ _ Hx Hy. destruct (Hnow Hx) as [_ ->]. destruct tx_turns; [cbn in Lt; lia|].
        cbn [await] in E'. rewrite Hy in E'. cbn in E'. injection E' as <- <-. rewrite Er in Hx. rewrite Et in Hy. auto.
    + split; [done|]. intros _ _ Hx. rewrite <- Er in Hx. by destruct (Hnow Hx).
  - rewrite propertyLock_run, Eop. cbn [negb orb mbind option_bind]. eexists false, _. split; [reflexivity|].
    pose proof (both_terminated_status (c <| operating := true |>)) as [Hb1 Hb2]. split; [|split; [|done]].
    + intros _. split_and!; [done|by rewrite both_terminated_queue|done|done].
    + intros _. rewrite Hb1, Hb2. by split; left.
Qed.

(** the trigger that wakes whenever it may *)
#[local] Instance eager_trigger : TriggerVariable := fun t =>
  match last t with Some activate => false | _ => true end.
#[local] Instance eager_trigger_laws : TriggerLaws.
Proof. split; [|done]. intros t Ht. unfold may_wake, eager_trigger. by rewrite Ht. Qed.

(** turns in which nothing happens, and in which a thread ends *)
Definition quiet : turn := mkTurn false [] false.
Definition ends (m : thread_move) : turn := mkTurn true [m] false.
Definition running : CommsInterface :=
  new_comms false <| operating := true |> <| rx_status := Status.connected |> <| rxTrigger := [activate] |>
    <| tx_status := Status.connected |> <| txTrigger := [activate] |>.

Lemma disconnect_ends_witness :
  exists c', disconnect false (quiet :: ends (rx_to Status.terminated) :: replicate 12 quiet)
               (ends (tx_to Status.error) :: replicate 13 quiet) running = Some (false, c') /\
    ended (rx_status c') /\ ended (tx_status c').
Proof.
  destruct (disconnect_ends false (quiet :: ends (rx_to Status.terminated) :: replicate 12 quiet)
    (ends (tx_to Status.error) :: replicate 13 quiet) running) as (logged & c' & E & _ & H & _).
  - constructor; [constructor|]. constructor; [|apply Forall_replicate; constructor].
    constructor; [by right; left|constructor].
  - constructor; [|apply Forall_replicate; constructor]. constructor; [by right; right|constructor].
  - repeat constructor.
  - repeat constructor.
  - split; (split; [reflexivity|discriminate]).
  - assert (fst <$> disconnect false (quiet :: ends (rx_to Status.terminated) :: replicate 12 quiet)
      (ends (tx_to Status.error) :: replicate 13 quiet) running = Some false) as E2 by (vm_compute; reflexivity).
    rewrite E in E2. injection E2 as ->. exists c'. split; [exact E|].
    destruct (H eq_refl) as [Hr Ht]. split; [apply Hr|apply Ht]; discriminate.
Defined.

(** A thread that is still starting has a trigger that is not active: every wait
    is cut short and not counted, and [disconnect] does not come back. *)
Lemma starting_spins `{TriggerLaws} cnt n c :
  rx_status c = Status.startup -> rxTrigger c = [] ->
  await rx_status rxTrigger closeReceiver cnt (replicate n (mkTurn true [] false)) c = None.
Proof. intros Hs Ht. induction n as [|n IH]; cbn [replicate await]; rewrite Hs; [done|]. cbn.
  by rewrite Ht, inactive_wakes. Qed.

(** A thread that reconnects cannot become connected: [setRxStatus] and
    [setTxStatus] accept that only from the start, and [reconnect] fails. *)
Lemma reconnect_fails rx_looks tx_looks c :
  Forall (Forall by_a_loop) rx_looks -> Forall (Forall by_a_loop) tx_looks ->
  fst (reconnect rx_looks tx_looks c) = false.
Proof.
  intros Hr Ht. unfold reconnect. cbn [fst]. set (c0 := reconnectTransmitter _).
  set (I := apart (fun s _ => Status.open s = false) (fun s _ => Status.open s = false)).
  assert (forall st looks c, Forall (Forall by_a_loop) looks -> I c -> I (await_reconnected st looks c)) as Hk.
  { intros st looks. induction looks as [|ms looks IH]; intros c1 Hl Hi; [done|]. apply Forall_cons in Hl as [Hm Hl].
    cbn. destruct (decide _); [|done]. apply IH; [done|]. by apply apply_moves_keeps; [apply shut_kept..| |]. }
  assert (I c0) as H0 by by split.
  pose proof (Hk tx_status (take 400 tx_looks) _ (Forall_take _ _ _ Ht) (Hk rx_status (take 400 rx_looks) _ (Forall_take _ _ _ Hr) H0)) as [_ Htx].
  unfold isConnected. apply andb_false_iff. left. apply bool_decide_eq_false. intros E. by rewrite E in Htx.
Qed.
