(* ===== verification/NetworkComms.v ===== *)
(** * Communication over a network

    Models [src/helics/core/NetworkCommsInterface.cpp]: the ports a broker gives
    to those below it, and the addresses and ports of a connection.  The port
    of a broker by default is a virtual method of the derived classes, an
    argument here, and so is the resolver of addresses.  Ports are [int]; their
    sums stay in its range. *)

From Stdlib Require Import Ascii List.
From S2P Require Import Prelude StringOps HTime Identifiers NetworkAddress CommsInterface ActionMessage.
Import Comms (CommsInterface).

(** ** The allocation of ports *)

Module Ports.
Record PortAllocator := mkAllocator {
  startingPort : Z;
  usedPort : gmap string (gset Z);
  nextPorts : gmap string Z;
}.

#[global] Instance PortAllocator_settable : Settable PortAllocator := fun r =>
  mkAllocator (startingPort r) (usedPort r) (nextPorts r).

Definition new_allocator : PortAllocator := mkAllocator (-1) ∅ ∅.

Definition localHostString : string := "localhost".

Definition used_at (host : string) (a : PortAllocator) : gset Z := default ∅ (usedPort a !! host).

Definition addUsedPort (host : string) (port : Z) (a : PortAllocator) : PortAllocator :=
  a <| usedPort ::= fun m => <[host := {[port]} ∪ default ∅ (m !! host)]> m |>.

Definition isPortUsed (host : string) (port : Z) (a : PortAllocator) : bool := bool_decide (port ∈ used_at host a).

(** A number that is computed with [int].  [None]: it is out of range, which the
    language leaves undefined. *)
Definition as_int (z : Z) : option Z := if (- 2 ^ 31 <=? z) && (z <? 2 ^ 31) then Some z else None.

(** the loop that passes over used ports; [None]: a port is out of range, or out
    of fuel *)
Fixpoint skip_used (fuel : nat) (host : string) (port : Z) (a : PortAllocator) : option Z :=
  match fuel with
  | O => None
  | S fuel =>
      if isPortUsed host port a then port ← as_int (port + 1); skip_used fuel host port a else Some port
  end.

Definition take_ports (host : string) (port : Z) (count : nat) (a : PortAllocator) : PortAllocator :=
  fold_left (fun a ii => addUsedPort host (port + Z.of_nat ii) a) (seq 0 count) a.

(** 127.0.0.1 and ::1 are other names of one host *)
Definition host_of (host : string) : string :=
  if String.eqb host "127.0.0.1" || String.eqb host "::1" then localHostString else host.

(** The loop has at most one turn for each used port. *)
Definition findOpenPort (count : Z) (host : string) (a : PortAllocator) : option (Z * PortAllocator) :=
  let host := host_of host in
  let nextPort := default (startingPort a) (nextPorts a !! host) in
  after ← as_int (nextPort + count);
  let a := a <| nextPorts ::= <[host := after]> |> in
  '(nextPort, a) ←
    (if isPortUsed host nextPort a then
       nextPort ← as_int (nextPort + 1);
       nextPort ← skip_used (S (size (used_at host a))) host nextPort a;
       after ← as_int (nextPort + count);
       Some (nextPort, a <| nextPorts ::= <[host := after]> |>)
     else Some (nextPort, a));
  Some (nextPort, take_ports host nextPort (Z.to_nat count) a).
End Ports.
Import Ports (PortAllocator).

(** ** The connection *)

Module Net.
Definition PORT_DEFINITIONS : Z := 1451.
Definition QUERY_PORTS : Z := 1453.
Definition REQUEST_PORTS : Z := 1455.

Record NetworkCommsInterface := mkNet {
  comms : CommsInterface;
  brokerPort : Z;
  PortNumber : Z;
  autoPortNumber : bool;
  useOsPortAllocation : bool;
  networkType : interface_type;
  hasBroker : bool;
  maxRetries : Z;
  openPorts : PortAllocator;
}.

#[global] Instance NetworkCommsInterface_settable : Settable NetworkCommsInterface := fun r =>
  mkNet (comms r) (brokerPort r) (PortNumber r) (autoPortNumber r) (useOsPortAllocation r) (networkType r)
    (hasBroker r) (maxRetries r) (openPorts r).

Definition new_network (type : interface_type) (single : bool) : NetworkCommsInterface :=
  mkNet (Comms.new_comms single) (-1) (-1) true false type false 5 Ports.new_allocator.

(** a change of the properties, if the lock is given; [None] as in the change *)
Definition when_locked (f : NetworkCommsInterface -> option NetworkCommsInterface) (n : NetworkCommsInterface)
    : option NetworkCommsInterface :=
  '(b, c) ← Comms.propertyLock (comms n);
  let n := n <| comms := c |> in
  if (b : bool) then n ← f n; Some (n <| comms ::= Comms.propertyUnLock |>) else Some n.

Section Network.
Context `{Resolver} (getDefaultBrokerPort : Z).

Definition set_local (a : list ascii) (n : NetworkCommsInterface) : NetworkCommsInterface :=
  n <| comms ::= fun c => c <| Comms.localTargetAddress := a |> |>.

(** the local address, when none is given *)
Definition default_local (n : NetworkCommsInterface) : option NetworkCommsInterface :=
  let c := comms n in
  if bool_decide (Comms.localTargetAddress c = []) then
    let bTarget := stripProtocol (Comms.brokerTargetAddress c) in
    if is_text bTarget Ports.localHostString || is_text bTarget "127.0.0.1"
    then Some (set_local (text Ports.localHostString) n)
    else if bool_decide (bTarget = [])
    then Some (set_local (match Comms.interfaceNetwork c with local => text Ports.localHostString | _ => text "*" end) n)
    else
      a ← generateMatchingInterfaceAddress (Comms.brokerTargetAddress c) (Comms.interfaceNetwork c);
      Some (set_local a n)
  else Some n.

Definition setStartingPortNumber (startPort : Z) (n : NetworkCommsInterface) : NetworkCommsInterface :=
  n <| openPorts ::= fun a => a <| Ports.startingPort := startPort |> |>.

(** [None]: the resolver throws *)
Definition loadNetworkInfo (netInfo : NetworkBrokerData) (n : NetworkCommsInterface) : option NetworkCommsInterface :=
  c ← Comms.loadNetworkInfo netInfo (comms n);
  when_locked (fun n =>
    let n := n <| brokerPort := nb_brokerPort netInfo |> <| PortNumber := nb_portNumber netInfo |>
               <| maxRetries := nb_maxRetries netInfo |> in
    let n := match networkType n with
             | tcp | udp => n <| comms ::= fun c => c <| Comms.brokerTargetAddress ::= removeProtocol |>
                                                      <| Comms.localTargetAddress ::= removeProtocol |> |>
             | _ => n
             end in
    n ← default_local n;
    let n := if 0 <? nb_portStart netInfo then setStartingPortNumber (nb_portStart netInfo) n else n in
    let n := if 0 <? PortNumber n then n <| autoPortNumber := false |> else n in
    Some (n <| useOsPortAllocation := nb_use_os_port netInfo |>)) (n <| comms := c |>).

Definition setBrokerPort (brokerPortNumber : Z) : NetworkCommsInterface -> option NetworkCommsInterface :=
  when_locked (fun n => Some (n <| brokerPort := brokerPortNumber |>)).

Definition setPortNumber (localPortNumber : Z) : NetworkCommsInterface -> option NetworkCommsInterface :=
  when_locked (fun n =>
    let n := n <| PortNumber := localPortNumber |> in
    Some (if 0 <? PortNumber n then n <| autoPortNumber := false |> else n)).

Definition setAutomaticPortStartPort (startingPort : Z) : NetworkCommsInterface -> option NetworkCommsInterface :=
  when_locked (fun n => Some (setStartingPortNumber startingPort n)).

(** The other flags are passed to the same function again.  [None]: the depth of
    the calls is used up. *)
Fixpoint setFlag (depth : nat) (flag : string) (val : bool) (n : NetworkCommsInterface) : option NetworkCommsInterface :=
  match depth with
  | O => None
  | S depth =>
      if String.eqb flag "os_port" then when_locked (fun n => Some (n <| useOsPortAllocation := val |>)) n
      else setFlag depth flag val n
  end.

Definition findOpenPort (count : Z) (host : string) (n : NetworkCommsInterface) : option (Z * NetworkCommsInterface) :=
  n ← (if Ports.startingPort (openPorts n) <? 0
       then start ← Ports.as_int (getDefaultBrokerPort + if hasBroker n then 100 else 60);
            Some (setStartingPortNumber start n)
       else Some n);
  '(p, a) ← Ports.findOpenPort count host (openPorts n);
  Some (p, n <| openPorts := a |>).

(** the number of ports and the host of a request *)
Definition ports_wanted (cmd : ActionMessage) : Z := if counter cmd <=? 0 then 2 else counter cmd.
Definition wanting_host (cmd : ActionMessage) : string :=
  if bool_decide (payload cmd = ""%string) then Ports.localHostString else payload cmd.

Definition generateReplyToIncomingMessage (cmd : ActionMessage) (n : NetworkCommsInterface)
    : option (ActionMessage * NetworkCommsInterface) :=
  if isProtocolCommand cmd then
    if messageID cmd =? QUERY_PORTS then
      Some (setExtraData (PortNumber n) (newMessage cmd_protocol <| messageID := PORT_DEFINITIONS |>), n)
    else if messageID cmd =? REQUEST_PORTS then
      '(openPort, n) ← findOpenPort (ports_wanted cmd) (wanting_host cmd) n;
      Some (setExtraData openPort (newMessage cmd_protocol <| messageID := PORT_DEFINITIONS |>
              <| source_id := PortNumber n |>) <| counter := counter cmd |>, n)
    else Some (newMessage cmd_ignore, n)
  else Some (newMessage cmd_ignore, n).

Definition getAddress (n : NetworkCommsInterface) : list ascii :=
  let a := Comms.localTargetAddress (comms n) in
  if (PortNumber n <? 0) && negb (Comms.serverMode (comms n)) then Comms.name (comms n)
  else if is_text a "tcp://*" || is_text a "tcp://0.0.0.0" then makePortAddress (text "tcp://127.0.0.1") (PortNumber n)
  else if is_text a "*" || is_text a "0.0.0.0" then makePortAddress (text "127.0.0.1") (PortNumber n)
  else makePortAddress a (PortNumber n).

Definition generatePortRequest (cnt : Z) (n : NetworkCommsInterface) : ActionMessage :=
  newMessage cmd_protocol <| messageID := REQUEST_PORTS |>
    <| payload := String.string_of_list_ascii (stripProtocol (Comms.localTargetAddress (comms n))) |>
    <| counter := uint16 cnt |>.

(** [default + base + (port - default - less) * 6], with [int] *)
Definition start_for (base less port : Z) : option Z :=
  above ← Ports.as_int (port - getDefaultBrokerPort);
  above ← Ports.as_int (above - less);
  above ← Ports.as_int (above * 6);
  first ← Ports.as_int (getDefaultBrokerPort + base);
  Ports.as_int (first + above).

Definition loadPortDefinitions (cmd : ActionMessage) (n : NetworkCommsInterface) : option NetworkCommsInterface :=
  if bool_decide (messageAction cmd = cmd_protocol) && (messageID cmd =? PORT_DEFINITIONS) then
    let n := n <| PortNumber := getExtraData cmd |> in
    if Ports.startingPort (openPorts n) <? 0 then
      limit ← Ports.as_int (getDefaultBrokerPort + 100);
      start ← (if PortNumber n <? limit then start_for 100 2 (PortNumber n) else start_for 110 100 (PortNumber n));
      Some (setStartingPortNumber start n)
    else Some n
  else Some n.
End Network.
End Net.

(** ** Ports are given once

    The ports that a broker gives to those that ask for some, and the flags that
    never arrive. *)

Import Comms Ports Net.

(** ** The allocator *)

Lemma used_add host port h a :
  used_at h (addUsedPort host port a) = if decide (h = host) then {[port]} ∪ used_at host a else used_at h a.
Proof.
  unfold used_at, addUsedPort. cbn. destruct (decide (h = host)) as [->|Hne].
  - by rewrite lookup_insert_eq.
  - by rewrite lookup_insert_ne.
Qed.

Lemma take_ports_used host port count h q a :
  q ∈ used_at h (take_ports host port count a) <->
  q ∈ used_at h a \/ (h = host /\ port <= q < port + Z.of_nat count).
Proof.
  unfold take_ports. induction count as [|n IH]; [cbn; split; [auto|intros [?|[_ ?]]; [done|lia]]|].
  rewrite seq_S, fold_left_app. cbn [fold_left Nat.add]. rewrite used_add. case_decide as Hh.
  - subst h. rewrite elem_of_union, elem_of_singleton, IH. split; [intros [->|[?|[_ ?]]]; [right; split; [done|lia]|by left|right; split; [done|lia]]|].
    intros [?|[_ ?]]; [auto|]. destruct (decide (q = port + Z.of_nat n)); [by left|right; right; split; [done|lia]].
  - rewrite IH. naive_solver.
Qed.

Lemma take_ports_next host port count a : nextPorts (take_ports host port count a) = nextPorts a.
Proof.
  unfold take_ports. generalize (seq 0 count). intros l. revert a. induction l as [|x l IH]; intros a; [done|].
  cbn [fold_left]. by rewrite IH.
Qed.

Lemma take_ports_start host port count a : startingPort (take_ports host port count a) = startingPort a.
Proof.
  unfold take_ports. generalize (seq 0 count). intros l. revert a. induction l as [|x l IH]; intros a; [done|].
  cbn [fold_left]. by rewrite IH.
Qed.

(** Every port that was given is before the next one of its host. *)
Definition allocated (a : PortAllocator) : Prop :=
  forall host q, q ∈ used_at host a -> exists next, nextPorts a !! host = Some next /\ q < next.

Lemma new_allocated : allocated new_allocator.
Proof. intros host q. unfold used_at, new_allocator. cbn. rewrite lookup_empty. cbn. set_solver. Qed.

Lemma as_int_small z : 0 <= z < 2 ^ 31 -> as_int z = Some z.
Proof.
  intros Hz. unfold as_int. rewrite (proj2 (Z.leb_le _ _)), (proj2 (Z.ltb_lt _ _)) by lia. done.
Qed.

(** What a request gets: the next ports of its host, with which the loop over
    used ports has nothing to do. *)
Lemma findOpenPort_next count host a :
  allocated a -> 0 <= count ->
  0 <= default (startingPort a) (nextPorts a !! host_of host) ->
  default (startingPort a) (nextPorts a !! host_of host) + count < 2 ^ 31 ->
  exists a', Ports.findOpenPort count host a = Some (default (startingPort a) (nextPorts a !! host_of host), a') /\
    allocated a' /\
    nextPorts a' = <[host_of host := default (startingPort a) (nextPorts a !! host_of host) + count]> (nextPorts a) /\
    startingPort a' = startingPort a.
Proof.
  intros Ha Hc H0 Hmax. unfold Ports.findOpenPort. set (h := host_of host) in *. set (p := default _ _) in *.
  rewrite (as_int_small (p + count)) by lia. cbn [mbind option_bind].
  assert (isPortUsed h p (a <| nextPorts ::= <[h := p + count]> |>) = false) as ->.
  { apply bool_decide_eq_false. intros Hin. destruct (Ha h p Hin) as (next & E & Hlt).
    unfold p in Hlt. rewrite E in Hlt. cbn in Hlt. lia. }
  cbn [mbind option_bind]. eexists. split; [reflexivity|]. split; [|by rewrite take_ports_next, take_ports_start].
  intros h' q. rewrite take_ports_used, take_ports_next. cbn [nextPorts modify].
  intros [Hin|[-> Hq]].
  - destruct (Ha h' q Hin) as (next & E & Hlt). destruct (decide (h' = h)) as [->|Hne].
    + exists (p + count). rewrite lookup_insert_eq. split; [done|]. unfold p. rewrite E. cbn. lia.
    + exists next. by rewrite lookup_insert_ne.
  - exists (p + count). rewrite lookup_insert_eq. split; [done|lia].
Qed.

(** ** Requests *)

(** what happens at a broker: a message that may be a request, or another first
    port for hosts that come later *)
Inductive port_event := Incoming (cmd : ActionMessage) | StartAt (port : Z).

Definition is_request (cmd : ActionMessage) : bool := isProtocolCommand cmd && (messageID cmd =? REQUEST_PORTS).

(** The requests with the host, the first port and the number of ports given. *)
Fixpoint serve_ports (getDefaultBrokerPort : Z) (events : list port_event) (n : NetworkCommsInterface)
    : option (list (string * Z * Z) * NetworkCommsInterface) :=
  match events with
  | [] => Some ([], n)
  | StartAt p :: events => serve_ports getDefaultBrokerPort events (setStartingPortNumber p n)
  | Incoming cmd :: events =>
      '(reply, n) ← generateReplyToIncomingMessage getDefaultBrokerPort cmd n;
      '(given, n) ← serve_ports getDefaultBrokerPort events n;
      Some ((if is_request cmd then [(host_of (wanting_host cmd), getExtraData reply, ports_wanted cmd)] else []) ++ given, n)
  end.

(** the second behind the first, if they are of one host *)
Definition behind (x y : string * Z * Z) : Prop :=
  fst (fst x) = fst (fst y) -> snd (fst x) + snd x <= snd (fst y).

Lemma ports_wanted_pos cmd : 0 < ports_wanted cmd.
Proof. unfold ports_wanted. destruct (Z.leb_spec (counter cmd) 0); lia. Qed.

(** how many ports are asked for in all *)
Fixpoint wanted (events : list port_event) : Z :=
  match events with
  | [] => 0
  | StartAt _ :: events => wanted events
  | Incoming cmd :: events => (if is_request cmd then ports_wanted cmd else 0) + wanted events
  end.

Lemma wanted_nonneg events : 0 <= wanted events.
Proof.
  induction events as [|[cmd|p] events IH]; cbn; [done| |done]. pose proof (ports_wanted_pos cmd). destruct (is_request cmd); lia.
Qed.

(** the ports that are asked for stay in the range of [int], from the first port
    of a host that comes *)
Definition first_ok (d total : Z) (start : Z) : Prop :=
  (0 <= start -> start + total < 2 ^ 31) /\ 0 <= d /\ d + 100 + total < 2 ^ 31.

Definition start_ok (d total : Z) (e : port_event) : Prop :=
  match e with StartAt p => first_ok d total p | Incoming _ => True end.

Record has_room (d : Z) (events : list port_event) (n : NetworkCommsInterface) : Prop := {
  hr_alloc : allocated (openPorts n);
  hr_first : first_ok d (wanted events) (startingPort (openPorts n));
  hr_starts : Forall (start_ok d (wanted events)) events;
  hr_next : forall host next, nextPorts (openPorts n) !! host = Some next -> 0 <= next /\ next + wanted events < 2 ^ 31;
}.

Lemma first_ok_less d t t' start : t' <= t -> first_ok d t start -> first_ok d t' start.
Proof. unfold first_ok. lia. Qed.

Lemma start_ok_less d t t' e : t' <= t -> start_ok d t e -> start_ok d t' e.
Proof. destruct e; [done|]. apply first_ok_less. Qed.

(** The answer to a message. *)
Lemma reply_cases d cmd events n :
  has_room d (Incoming cmd :: events) n ->
  exists reply n', generateReplyToIncomingMessage d cmd n = Some (reply, n') /\ has_room d events n' /\
    if is_request cmd then
      (forall next, nextPorts (openPorts n) !! host_of (wanting_host cmd) = Some next -> getExtraData reply = next) /\
      nextPorts (openPorts n') =
        <[host_of (wanting_host cmd) := getExtraData reply + ports_wanted cmd]> (nextPorts (openPorts n))
    else nextPorts (openPorts n') = nextPorts (openPorts n).
Proof.
  intros [Ha Hf Hs Hn]. pose proof (ports_wanted_pos cmd) as Hw. pose proof (wanted_nonneg events) as Hw0.
  apply Forall_cons in Hs as [_ Hs].
  assert (wanted events <= wanted (Incoming cmd :: events)) as Hle by (cbn; destruct (is_request cmd); lia).
  assert (Forall (start_ok d (wanted events)) events) as Hs'
    by (eapply Forall_impl; [exact Hs|]; intros e; by apply start_ok_less).
  assert (has_room d events n) as Hsame.
  { split; [done|by eapply first_ok_less|done|]. intros host next Hh. specialize (Hn host next Hh). lia. }
  unfold generateReplyToIncomingMessage, is_request in *. cbn [wanted] in *. unfold is_request in *.
  destruct (isProtocolCommand cmd); cbn [andb] in *; [|by eexists _, n].
  destruct (Z.eqb_spec (messageID cmd) QUERY_PORTS) as [E|_].
  { rewrite E. by eexists _, n. }
  destruct (messageID cmd =? REQUEST_PORTS); [|by eexists _, n].
  unfold findOpenPort.
  assert (exists start, (if startingPort (openPorts n) <? 0
       then start ← as_int (d + if hasBroker n then 100 else 60); Some (setStartingPortNumber start n) else Some n)
     = Some (setStartingPortNumber start n) /\ 0 <= start /\ start + (ports_wanted cmd + wanted events) < 2 ^ 31)
    as (start & -> & Hst0 & Hst).
  { destruct Hf as (Hf1 & Hd & Hf2). destruct (Z.ltb_spec (startingPort (openPorts n)) 0).
    - rewrite as_int_small by (destruct (hasBroker n); lia). eexists. split; [reflexivity|]. destruct (hasBroker n); lia.
    - exists (startingPort (openPorts n)). split; [by destruct n as [? ? ? ? ? ? ? ? [? ? ?]]|]. lia. }
  cbn [mbind option_bind]. set (n1 := setStartingPortNumber start n).
  assert (0 <= default start (nextPorts (openPorts n) !! host_of (wanting_host cmd)) /\
    default start (nextPorts (openPorts n) !! host_of (wanting_host cmd)) + (ports_wanted cmd + wanted events) < 2 ^ 31)
    as [Hd0 Hd1].
  { destruct (nextPorts (openPorts n) !! host_of (wanting_host cmd)) as [next|] eqn:En; cbn; [by apply (Hn _ _ En)|lia]. }
  destruct (findOpenPort_next (ports_wanted cmd) (wanting_host cmd) (openPorts n1) Ha ltac:(lia) Hd0 ltac:(cbn in *; lia))
    as (a' & E & Ha' & Hn' & Hst').
  rewrite E. cbn [mbind option_bind]. eexists _, _. split; [reflexivity|]. split.
  - split; cbn.
    + done.
    + rewrite Hst'. cbn. destruct Hf as (_ & Hd & Hf2). unfold first_ok. lia.
    + done.
    + intros host next. rewrite Hn'. cbn. destruct (decide (host = host_of (wanting_host cmd))) as [->|Hne].
      * rewrite lookup_insert_eq. intros [= <-]. lia.
      * rewrite lookup_insert_ne by done. intros Hh. specialize (Hn host next Hh). lia.
  - cbn. split; [|exact Hn']. intros next Hnext. by rewrite Hnext.
Qed.

(** Nothing is given before the next ports of its host. *)
Lemma served d events : forall n, has_room d events n ->
  exists given n', serve_ports d events n = Some (given, n') /\
    (forall host next, nextPorts (openPorts n) !! host = Some next ->
       Forall (fun x => fst (fst x) = host -> next <= snd (fst x)) given) /\
    ForallOrdPairs behind given.
Proof.
  induction events as [|[cmd|p] events IH]; intros n Ha.
  - eexists [], n. split; [done|]. split; [|constructor]. intros. constructor.
  - destruct (reply_cases d cmd events n Ha) as (reply & n1 & E & Ha1 & Hr).
    destruct (IH n1 Ha1) as (given & n2 & E2 & Hlow & Hpairs). cbn [serve_ports]. rewrite E. cbn [mbind option_bind].
    rewrite E2. cbn [mbind option_bind]. eexists _, _. split; [reflexivity|]. pose proof (ports_wanted_pos cmd) as Hw.
    destruct (is_request cmd); cbn [app]; [|by rewrite Hr in Hlow].
    destruct Hr as [Hnext Hmap]. rewrite Hmap in Hlow. split.
    + intros host next Hh. destruct (decide (host = host_of (wanting_host cmd))) as [->|Hne].
      * specialize (Hnext next Hh). constructor; [cbn; lia|].
        eapply Forall_impl; [exact (Hlow _ _ (lookup_insert_eq _ _ _))|]. intros x Hx Hhx. specialize (Hx Hhx). lia.
      * constructor; [cbn; congruence|]. apply Hlow. by rewrite lookup_insert_ne.
    + constructor; [|done]. eapply Forall_impl; [exact (Hlow _ _ (lookup_insert_eq _ _ _))|].
      intros x Hx Hhx. cbn in *. by apply Hx.
  - destruct Ha as [Ha Hf Hs Hn]. apply Forall_cons in Hs as [Hp Hs].
    destruct (IH (setStartingPortNumber p n)) as (given & n' & E & Hlow & Hpairs); [by split|]. by eexists given, n'.
Qed.

(** C32: Ports are given once.  A new connection gets requests for ports, from
    whatever hosts and for however many ports, and other first ports are set in
    between, such that the number of ports asked for in all fits behind each
    first port in the range of [int], the default one included.  Then every
    request is answered, and of two requests of one host the later gets ports
    behind those of the earlier; the names of the local host count as one. *)
Theorem ports_given_once (getDefaultBrokerPort : Z) (events : list port_event) (n : NetworkCommsInterface) :
  openPorts n = new_allocator -> 0 <= getDefaultBrokerPort -> getDefaultBrokerPort + 100 + wanted events < 2 ^ 31 ->
  (forall p, StartAt p ∈ events -> p + wanted events < 2 ^ 31) ->
  exists given n', serve_ports getDefaultBrokerPort events n = Some (given, n') /\ ForallOrdPairs behind given.
Proof.
  intros Hn H0 Hd Hs. destruct (served getDefaultBrokerPort events n) as (given & n' & E & _ & Hp).
  - split; rewrite ?Hn.
    + apply new_allocated.
    + split; [cbn; lia|done].
    + apply Forall_forall. intros [cmd|p] He; [done|]. split; [intros _; by apply Hs|done].
    + intros host next. cbn. by rewrite lookup_empty.
  - by exists given, n'.
Qed.

Definition port_request (host : string) (count : Z) : ActionMessage :=
  newMessage cmd_protocol <| messageID := REQUEST_PORTS |> <| payload := host |> <| counter := count |>.

Lemma ports_given_once_witness :
  exists given n', serve_ports 23404
      [Incoming (port_request "127.0.0.1" 3); StartAt 50000; Incoming (port_request "" 0); Incoming (port_request "far" 1)]
      (new_network tcp false) = Some (given, n') /\
    ForallOrdPairs behind given /\ given = [("localhost"%string, 23464, 3); ("localhost"%string, 23467, 2); ("far"%string, 50000, 1)].
Proof.
  destruct (ports_given_once 23404
    [Incoming (port_request "127.0.0.1" 3); StartAt 50000; Incoming (port_request "" 0); Incoming (port_request "far" 1)]
    (new_network tcp false) eq_refl ltac:(lia) ltac:(vm_compute; reflexivity)
    ltac:(intros p Hp; rewrite !elem_of_cons in Hp; destruct Hp as [E|[E|[E|[E|E]]]]; try discriminate E;
          [injection E as ->; vm_compute; reflexivity|by apply not_elem_of_nil in E])) as (given & n' & E & Hp).
  exists given, n'. split; [exact E|]. split; [exact Hp|].
  assert (fst <$> serve_ports 23404
    [Incoming (port_request "127.0.0.1" 3); StartAt 50000; Incoming (port_request "" 0); Incoming (port_request "far" 1)]
    (new_network tcp false) = Some [("localhost"%string, 23464, 3); ("localhost"%string, 23467, 2); ("far"%string, 50000, 1)]) as E2
    by (vm_compute; reflexivity).
  rewrite E in E2. injection E2. auto.
Defined.

(** Behind the largest [int] the next port is undefined. *)
Example ports_run_out : Ports.findOpenPort 2 "far" (mkAllocator (2 ^ 31 - 2) ∅ ∅) = None.
Proof. reflexivity. Qed.

(** Only the first port of a range is looked up: with a port that was marked as
    used by other means, a range can hold it. *)
Example range_over_used_port :
  fst <$> Ports.findOpenPort 2 "far" (addUsedPort "far" 101 (mkAllocator 100 ∅ ∅)) = Some 100.
Proof. reflexivity. Qed.

(** A flag that this class does not know is passed on to the same function
    without end. *)
Lemma other_flags_never_return depth flag val n : flag <> "os_port"%string -> Net.setFlag depth flag val n = None.
Proof.
  intros Hf. induction depth as [|depth IH]; [done|]. cbn. by rewrite (proj2 (String.eqb_neq _ _) Hf).
Qed.
