(* ===== verification/AppFederate.v ===== *)
(** * A federate as its user sees it

    Models the modes of [src/helics/application_api/Federate.cpp]: entering
    initialization and execution, requesting time, ending, and the asynchronous
    pair of each of these calls, [..Async] and [..Complete].

    The core behind a federate is the class [CoreInterface]: what the federate
    uses of [src/helics/core/Core.hpp].  A call of the core that does not come
    back has no result.  A function given to [std::async] runs in a thread of
    its own at once; it is modelled as run when it is started, and what it
    returns or throws is in the future until [get] takes it out.  Of a function
    that never returns no effect is kept.  The virtual
    methods that derived classes override are recorded in [hooks]. *)

From S2P Require Import Prelude HTime StateMonad CoreTypes FederateCalls CoreCalls.

Inductive modes :=
  | startup | initializing | executing | finalized | error_mode
  | pending_init | pending_exec | pending_time | pending_iterative_time | pending_finalize.

#[export] Instance modes_eq_dec : EqDecision modes.
Proof. solve_decision. Defined.

(** ** The core *)

Class CoreInterface (K : Type) := {
  core_enterInitializingMode : St K (exn + unit);
  core_enterExecutingMode : iteration_request -> St K (exn + ItRes.iteration_result);
  core_timeRequest : Time -> St K (exn + Time);
  core_requestTimeIterative : Time -> iteration_request -> St K (exn + iteration_time);
  core_finalize : St K (exn + unit);
  core_getCurrentTime : K -> Time;
}.

(** ** The state *)

(** what is thrown: an exception of HELICS, or that of a future without a state *)
Inductive app_exn := Thrown (e : exn) | FutureError.

(** a future: the result of its function, or that it never has one *)
Inductive future A := ready (r : exn + A) | never.
Arguments ready {A} r.
Arguments never {A}.

Inductive hook := StartupToInitialize | InitializeToExecute | UpdateTime (newTime oldTime : Time).

Module App.
Section App.
Context {K : Type} `{CoreInterface K}.

Record Federate := mkFederate {
  currentMode : modes;
  currentTime : Time;
  coreObject : option K;
  initFuture : option (future unit);
  execFuture : option (future ItRes.iteration_result);
  timeRequestFuture : option (future Time);
  timeRequestIterativeFuture : option (future iteration_time);
  finalizeFuture : option (future unit);
  filters_closed : bool;
  hooks : list hook;
}.

#[global] Instance Federate_settable : Settable Federate := fun r =>
  mkFederate (currentMode r) (currentTime r) (coreObject r) (initFuture r) (execFuture r) (timeRequestFuture r)
    (timeRequestIterativeFuture r) (finalizeFuture r) (filters_closed r) (hooks r).

(** a federate that was registered with its core *)
Definition new_federate (k : K) : Federate :=
  mkFederate startup (core_getCurrentTime k) (Some k) None None None None None false [].

Local Abbreviation M := (St Federate).
Local Abbreviation Call A := (M (app_exn + A)).

Definition gives {A} (a : A) : Call A := mret (inr a).
Definition throws {A} (e : app_exn) : Call A := mret (inl e).
Definition invalid_call {A} (what : string) : Call A := throws (Thrown (InvalidFunctionCall what)).

(** a call, and what follows when it has not thrown *)
Definition andThen {A B} (m : Call A) (k : A -> Call B) : Call B :=
  let* r := m in match r with inr a => k a | inl e => throws e end.

Local Notation "'let!' x ':=' m 'in' k" := (andThen m (fun x => k))
  (at level 200, x name, m at level 100, k at level 200, right associativity).
Local Notation "m ;;! k" := (andThen m (fun _ => k)) (at level 100, k at level 200, right associativity).

Definition set_mode (m : modes) : M unit := modifies (fun f => f <| currentMode := m |>).
Definition notify (h : hook) : M unit := modifies (fun f => f <| hooks ::= fun l => l ++ [h] |>).

(** a call of the core; a null pointer has no result *)
Definition in_core {A} (m : St K (exn + A)) : Call A := fun f =>
  k ← coreObject f; '(r, k') ← m k;
  Some (match r with inr a => inr a | inl e => inl (Thrown e) end, f <| coreObject := Some k' |>).

(** [std::async]: the function in a thread of its own *)
Definition async {A} (m : Call A) : M (future A) := fun f =>
  match m f with
  | Some (r, f') =>
      Some (match r with inr a => ready (inr a) | inl (Thrown e) => ready (inl e) | inl FutureError => never end, f')
  | None => Some (never, f)
  end.

(** [get] of a future *)
Definition get {A} (fut : option (future A)) : Call A :=
  match fut with
  | None => throws FutureError
  | Some (ready (inr a)) => gives a
  | Some (ready (inl e)) => throws (Thrown e)
  | Some never => fun _ => None
  end.

(** the time of the federate in the core *)
Definition refresh_time : M unit := fun f =>
  k ← coreObject f; Some (tt, f <| currentTime := core_getCurrentTime k |>).

(** ** Initialization *)

Definition initialized : Call unit :=
  set_mode initializing;; refresh_time;; notify StartupToInitialize;; gives tt.

Definition initialize_now : Call unit := in_core core_enterInitializingMode ;;! initialized.

(** the future taken, and what an exception in it leads to *)
Definition take_init : Call unit :=
  let* fut := gets initFuture in
  modifies (fun f => f <| initFuture := None |>);;
  let* r := get fut in
  match r with
  | inr _ => gives tt
  | inl e => set_mode error_mode;; throws e
  end.

Definition initialize_join : Call unit := take_init ;;! initialized.

Definition enterInitializingMode : Call unit :=
  let* cm := gets currentMode in
  match cm with
  | startup => initialize_now
  | pending_init => initialize_join
  | initializing => gives tt
  | _ => invalid_call "cannot transition from current mode to initializing mode"
  end.

Definition enterInitializingModeAsync : Call unit :=
  let* cm := gets currentMode in
  match cm with
  | startup =>
      set_mode pending_init;;
      let* fut := async (in_core core_enterInitializingMode) in
      modifies (fun f => f <| initFuture := Some fut |>);; gives tt
  | pending_init | initializing => gives tt
  | _ => invalid_call "cannot transition from current mode to initializing mode"
  end.

Definition enterInitializingModeComplete : Call unit :=
  let* cm := gets currentMode in
  match cm with
  | pending_init => initialize_join
  | initializing => gives tt
  | startup => initialize_now
  | _ => invalid_call "cannot call Initialization Complete function without first calling enterInitializingModeAsync function"
  end.

(** ** Execution *)

(** what the answer of the core leads to *)
Definition execution_answer (res : ItRes.iteration_result) : Call ItRes.iteration_result :=
  match res with
  | ItRes.next_step =>
      set_mode executing;; modifies (fun f => f <| currentTime := T.timeZero |>);;
      notify InitializeToExecute;; gives res
  | ItRes.iterating =>
      set_mode initializing;; let* t := gets currentTime in notify (UpdateTime t t);; gives res
  | ItRes.error => set_mode error_mode;; gives res
  | ItRes.halted => set_mode finalized;; gives res
  end.

Definition execute_now (iterate : iteration_request) : Call ItRes.iteration_result :=
  let! res := in_core (core_enterExecutingMode iterate) in execution_answer res.

Definition execute_join : Call ItRes.iteration_result :=
  let* fut := gets execFuture in
  modifies (fun f => f <| execFuture := None |>);;
  let! res := get fut in execution_answer res.

Definition enterExecutingModeComplete : Call ItRes.iteration_result :=
  let* cm := gets currentMode in
  match cm with
  | pending_exec => execute_join
  | _ => invalid_call "cannot call finalize function without first calling async function"
  end.

(** ** Time *)

Definition time_answer (newTime : Time) : M unit :=
  let* oldTime := gets currentTime in
  modifies (fun f => f <| currentTime := newTime |>);; notify (UpdateTime newTime oldTime).

Definition requestTime (nextInternalTimeStep : Time) : Call Time :=
  let* cm := gets currentMode in
  match cm with
  | executing =>
      let* r := in_core (core_timeRequest nextInternalTimeStep) in
      match r with
      | inr newTime =>
          time_answer newTime;;
          when (newTime =? T.maxVal) (set_mode finalized);; gives newTime
      | inl (Thrown (FunctionExecutionFailure what)) =>
          set_mode error_mode;; throws (Thrown (FunctionExecutionFailure what))
      | inl e => throws e
      end
  | finalized => gives T.maxVal
  | _ => invalid_call "cannot call request time in present state"
  end.

Definition requestTimeComplete : Call Time :=
  let* cm := gets currentMode in
  match cm with
  | pending_time =>
      set_mode executing;;
      let* fut := gets timeRequestFuture in
      modifies (fun f => f <| timeRequestFuture := None |>);;
      let! newTime := get fut in
      time_answer newTime;; gives newTime
  | _ => invalid_call "cannot call finalize requestTime without first calling requestTimeIterative function"
  end.

Definition iterative_answer (iterativeTime : iteration_time) : Call iteration_time :=
  let* oldTime := gets currentTime in
  match result_state iterativeTime with
  | ItRes.next_step => time_answer (grantedTime iterativeTime)
  | ItRes.iterating => notify (UpdateTime oldTime oldTime)
  | ItRes.halted => time_answer (grantedTime iterativeTime);; set_mode finalized
  | ItRes.error => set_mode error_mode
  end;;
  gives iterativeTime.

Definition requestTimeIterative (nextInternalTimeStep : Time) (iterate : iteration_request) : Call iteration_time :=
  let* cm := gets currentMode in
  match cm with
  | executing =>
      let! r := in_core (core_requestTimeIterative nextInternalTimeStep iterate) in iterative_answer r
  | finalized => gives (mkIterationTime T.maxVal ItRes.halted)
  | _ => invalid_call "cannot call request time in present state"
  end.

Definition requestTimeAsync (nextInternalTimeStep : Time) : Call unit :=
  let* cm := gets currentMode in
  match cm with
  | executing =>
      set_mode pending_time;;
      let* fut := async (in_core (core_timeRequest nextInternalTimeStep)) in
      modifies (fun f => f <| timeRequestFuture := Some fut |>);; gives tt
  | _ => invalid_call "cannot call request time in present state"
  end.

Definition requestTimeIterativeAsync (nextInternalTimeStep : Time) (iterate : iteration_request) : Call unit :=
  let* cm := gets currentMode in
  match cm with
  | executing =>
      set_mode pending_iterative_time;;
      let* fut := async (in_core (core_requestTimeIterative nextInternalTimeStep iterate)) in
      modifies (fun f => f <| timeRequestIterativeFuture := Some fut |>);; gives tt
  | _ => invalid_call "cannot call request time in present state"
  end.

Definition requestTimeIterativeComplete : Call iteration_time :=
  let* cm := gets currentMode in
  match cm with
  | pending_iterative_time =>
      set_mode executing;;
      let* fut := gets timeRequestIterativeFuture in
      modifies (fun f => f <| timeRequestIterativeFuture := None |>);;
      let! r := get fut in iterative_answer r
  | _ => invalid_call "cannot call finalize requestTimeIterative without first calling requestTimeIterativeAsync function"
  end.

(** whether the asynchronous call of the mode has its result; asking a future
    without a state is undefined *)
Definition completed {A} (fut : option (future A)) : option bool :=
  match fut with Some (ready _) => Some true | Some never => Some false | None => None end.

Definition isAsyncOperationCompleted (f : Federate) : option bool :=
  match currentMode f with
  | pending_init => completed (initFuture f)
  | pending_exec => completed (execFuture f)
  | pending_time => completed (timeRequestFuture f)
  | pending_iterative_time => completed (timeRequestIterativeFuture f)
  | pending_finalize => completed (finalizeFuture f)
  | _ => Some false
  end.

(** ** Entering execution, from whatever mode *)

Definition enterExecutingMode (iterate : iteration_request) : Call ItRes.iteration_result :=
  let* cm := gets currentMode in
  match cm with
  | startup | pending_init => enterInitializingMode ;;! execute_now iterate
  | initializing => execute_now iterate
  | pending_exec => enterExecutingModeComplete
  | executing => gives ItRes.next_step
  | pending_time => requestTimeComplete ;;! gives ItRes.next_step
  | _ => invalid_call "cannot transition from current state to execution state"
  end.

Definition execute_async (function : Call ItRes.iteration_result) : Call unit :=
  set_mode pending_exec;;
  let* fut := async function in
  modifies (fun f => f <| execFuture := Some fut |>);; gives tt.

Definition enterExecutingModeAsync (iterate : iteration_request) : Call unit :=
  let* cm := gets currentMode in
  match cm with
  | startup =>
      execute_async (in_core core_enterInitializingMode ;;!
        (let* _ := notify StartupToInitialize in in_core (core_enterExecutingMode iterate)))
  | pending_init => enterInitializingModeComplete ;;! execute_async (in_core (core_enterExecutingMode iterate))
  | initializing => execute_async (in_core (core_enterExecutingMode iterate))
  | pending_exec | executing => gives tt
  | _ => invalid_call "cannot transition from current state to execution state"
  end.

(** ** The end *)

Definition finalize_join : Call unit :=
  let* fut := gets finalizeFuture in
  modifies (fun f => f <| finalizeFuture := None |>);;
  get fut ;;! (let* _ := set_mode finalized in gives tt).

(** the core is told, and the filters are closed *)
Definition finalize_now : Call unit :=
  in_core core_finalize ;;!
  (let* _ := modifies (fun f => f <| filters_closed := true |>) in
   let* _ := set_mode finalized in gives tt).

(** a future is waited for, and its result does not matter unless it throws *)
Definition discard {A} (fut : Federate -> option (future A)) (clear : Federate -> Federate) : Call unit :=
  let* x := gets fut in modifies clear;; get x ;;! gives tt.

Definition finalize : Call unit :=
  let* cm := gets currentMode in
  match cm with
  | startup | initializing | executing => finalize_now
  | pending_init => take_init ;;! finalize_now
  | pending_exec => discard execFuture (fun f => f <| execFuture := None |>) ;;! finalize_now
  | pending_time => discard timeRequestFuture (fun f => f <| timeRequestFuture := None |>) ;;! finalize_now
  | pending_iterative_time =>
      discard timeRequestIterativeFuture (fun f => f <| timeRequestIterativeFuture := None |>) ;;! finalize_now
  | finalized | error_mode => gives tt
  | pending_finalize => finalize_join
  end.

Definition finalizeComplete : Call unit :=
  let* cm := gets currentMode in
  match cm with pending_finalize => finalize_join | _ => finalize end.

Definition finalize_async : Call unit :=
  set_mode pending_finalize;;
  let* fut := async (in_core core_finalize) in
  modifies (fun f => f <| finalizeFuture := Some fut |>);; gives tt.

Definition finalizeAsync : Call unit :=
  let* cm := gets currentMode in
  match cm with
  | pending_init => enterInitializingModeComplete ;;! finalize_async
  | pending_exec => enterExecutingModeComplete ;;! finalize_async
  | pending_time => requestTimeComplete ;;! finalize_async
  | pending_iterative_time => requestTimeIterativeComplete ;;! finalize_async
  | finalized | error_mode | pending_finalize => gives tt
  | startup | initializing | executing => finalize_async
  end.

(** An exception of the core leaves the mode and the pointer as they are. *)
Definition disconnect : Call unit :=
  let* c := gets coreObject in
  (match c with Some _ => in_core core_finalize | None => gives tt end) ;;!
  (let* _ := set_mode finalized in
   let* _ := modifies (fun f => f <| coreObject := None |>) in gives tt).

(** Only the log of the core is told. *)
Definition error : Call unit :=
  set_mode error_mode;;
  let* c := gets coreObject in
  match c with
  | Some _ => gives tt
  | None => invalid_call "cannot generate error on uninitialized or disconnected Federate"
  end.
End App.
Arguments Federate K : clear implicits.
End App.
