(* ===== verification/AppFederateSpec.v ===== *)
(** * The modes of a federate

    The asynchronous pairs of calls against the calls they stand for, the order
    of the modes, and what a failure leaves behind. *)

From S2P Require Import Prelude HTime StateMonad CoreTypes FederateCalls CoreCalls AppFederate.
Import App.

Section Modes.
Context {K : Type} `{CoreInterface K}.
Implicit Types (f : Federate K) (k : K).

(** ** What is seen of a call

    Everything but the futures, which only the pairs use. *)

Definition observed f : Federate K :=
  f <| initFuture := None |> <| execFuture := None |> <| timeRequestFuture := None |>
    <| timeRequestIterativeFuture := None |> <| finalizeFuture := None |>.

Definition seen {A} (x : option ((app_exn + A) * Federate K)) : option ((app_exn + A) * Federate K) :=
  '(r, f) ← x; Some (r, observed f).

(** a pair of calls *)
Definition pair_of {A} (start : St (Federate K) (app_exn + unit)) (complete : St (Federate K) (app_exn + A)) :=
  andThen start (fun _ => complete).

End Modes.

(** Calls are computed through. *)
Ltac app_unfold :=
  cbv [pair_of andThen bind_first mbind option_bind M_bind M_ret mret gets modifies gives throws set_mode notify in_core async get
       refresh_time initialized initialize_now initialize_join take_init enterInitializingMode
       enterInitializingModeAsync enterInitializingModeComplete execution_answer execute_now execute_join
       enterExecutingModeComplete time_answer requestTime requestTimeComplete iterative_answer requestTimeIterative
       requestTimeAsync requestTimeIterativeAsync requestTimeIterativeComplete enterExecutingMode execute_async
       enterExecutingModeAsync finalize_join finalize_now discard finalize finalizeComplete finalize_async
       finalizeAsync disconnect error invalid_call when skip seen].

Section Claims.
Context {K : Type} `{CoreInterface K}.
Implicit Types (f : Federate K) (k : K).

(** the core does not throw *)
Definition answers {A} (m : St K (exn + A)) k : Prop := forall e k', m k <> Some (inl e, k').

Lemma init_pair f k :
  coreObject f = Some k -> currentMode f = startup -> answers core_enterInitializingMode k ->
  seen (pair_of enterInitializingModeAsync enterInitializingModeComplete f) = seen (enterInitializingMode f).
Proof.
  destruct f as [m t c]; cbn [coreObject currentMode]; intros -> -> Ha. app_unfold. cbn.
  specialize (Ha). unfold answers in Ha. destruct (core_enterInitializingMode k) as [[[e|[]] k']|]; [by destruct (Ha e k')|done|done].
Qed.

Lemma exec_pair it f k :
  coreObject f = Some k -> currentMode f = initializing -> answers (core_enterExecutingMode it) k ->
  seen (pair_of (enterExecutingModeAsync it) enterExecutingModeComplete f) = seen (enterExecutingMode it f).
Proof.
  destruct f as [m t c]; cbn [coreObject currentMode]; intros -> -> Ha. app_unfold. cbn. unfold answers in Ha.
  destruct (core_enterExecutingMode it k) as [[[e|[]] k']|]; [by destruct (Ha e k')|done..].
Qed.

Lemma iterative_pair t it f k :
  coreObject f = Some k -> currentMode f = executing ->
  seen (pair_of (requestTimeIterativeAsync t it) requestTimeIterativeComplete f) = seen (requestTimeIterative t it f).
Proof.
  destruct f as [m t0 c]; cbn [coreObject currentMode]; intros -> ->. app_unfold. cbn.
  by destruct (core_requestTimeIterative t it k) as [[[e|[g []]] k']|].
Qed.

Lemma time_pair t f k :
  coreObject f = Some k -> currentMode f = executing -> answers (core_timeRequest t) k ->
  (forall k', core_timeRequest t k <> Some (inr T.maxVal, k')) ->
  seen (pair_of (requestTimeAsync t) requestTimeComplete f) = seen (requestTime t f).
Proof.
  destruct f as [m t0 c]; cbn [coreObject currentMode]; intros -> -> Ha Hm. app_unfold. cbn. unfold answers in Ha.
  destruct (core_timeRequest t k) as [[[e|g] k']|]; [by destruct (Ha e k')| |done].
  destruct (Z.eqb_spec g T.maxVal) as [->|_]; [by destruct (Hm k')|done].
Qed.

(** the end, up to the filters *)
Lemma end_pair f k :
  coreObject f = Some k -> currentMode f = startup \/ currentMode f = initializing \/ currentMode f = executing ->
  answers core_finalize k ->
  (fun r => (fst r, snd r <| filters_closed := true |>)) <$> seen (pair_of finalizeAsync finalizeComplete f) =
  seen (finalize f).
Proof.
  destruct f as [m t c]; cbn [coreObject currentMode]; intros -> Hm Ha. unfold answers in Ha.
  destruct Hm as [->|[->| ->]]; app_unfold; cbn;
    destruct (core_finalize k) as [[[e|[]] k']|]; try done; by destruct (Ha e k').
Qed.

(** ** The order of the modes *)

Definition phase (m : modes) : Z :=
  match m with
  | startup => 0
  | pending_init | initializing | pending_exec => 1
  | executing | pending_time | pending_iterative_time => 2
  | finalized | error_mode | pending_finalize => 3
  end.

Inductive app_call :=
  | EnterInitializing | EnterInitializingAsync | EnterInitializingComplete
  | EnterExecuting (it : iteration_request) | EnterExecutingAsync (it : iteration_request) | EnterExecutingComplete
  | RequestTime (t : Time) | RequestTimeAsync (t : Time) | RequestTimeComplete
  | RequestIterative (t : Time) (it : iteration_request) | RequestIterativeAsync (t : Time) (it : iteration_request)
  | RequestIterativeComplete
  | Finalize | FinalizeAsync | FinalizeComplete | Disconnect | Error.

Definition drop_answer {A} (m : St (Federate K) A) : St (Federate K) unit := let* _ := m in mret tt.

Definition run_app (call : app_call) : St (Federate K) unit :=
  match call with
  | EnterInitializing => drop_answer enterInitializingMode
  | EnterInitializingAsync => drop_answer enterInitializingModeAsync
  | EnterInitializingComplete => drop_answer enterInitializingModeComplete
  | EnterExecuting it => drop_answer (enterExecutingMode it)
  | EnterExecutingAsync it => drop_answer (enterExecutingModeAsync it)
  | EnterExecutingComplete => drop_answer enterExecutingModeComplete
  | RequestTime t => drop_answer (requestTime t)
  | RequestTimeAsync t => drop_answer (requestTimeAsync t)
  | RequestTimeComplete => drop_answer requestTimeComplete
  | RequestIterative t it => drop_answer (requestTimeIterative t it)
  | RequestIterativeAsync t it => drop_answer (requestTimeIterativeAsync t it)
  | RequestIterativeComplete => drop_answer requestTimeIterativeComplete
  | Finalize => drop_answer finalize
  | FinalizeAsync => drop_answer finalizeAsync
  | FinalizeComplete => drop_answer finalizeComplete
  | Disconnect => drop_answer disconnect
  | Error => drop_answer error
  end.

(** the notices of the two transitions, in order *)
Definition is_transition (h : hook) : bool := match h with UpdateTime _ _ => false | _ => true end.
Definition transitions f : list hook := List.filter is_transition (hooks f).

(** what was notified, by the mode *)
Definition notified f : Prop :=
  match phase (currentMode f) with
  | 0 => transitions f = []
  | 2 => transitions f = [StartupToInitialize; InitializeToExecute]
  | 3 => transitions f = [] \/ transitions f = [StartupToInitialize] \/
         transitions f = [StartupToInitialize; InitializeToExecute]
  | _ =>
      match currentMode f with
      | pending_init => transitions f = []
      | pending_exec =>
          transitions f = [StartupToInitialize] \/
          (transitions f = [] /\ match execFuture f with Some (ready (inr _)) => False | _ => True end)
      | _ => transitions f = [StartupToInitialize]
      end
  end.

(** One call: the phase does not go back, and the notices fit. *)
Lemma call_forward call f f' :
  notified f -> run_app call f = Some (tt, f') -> phase (currentMode f) <= phase (currentMode f') /\ notified f'.
Proof.
  destruct f as [m t c fi fe ft fit ff fc h]. unfold notified, transitions.
  destruct call, m; cbn [run_app currentMode phase execFuture hooks]; unfold drop_answer; app_unfold; cbn;
    intros Hn Hr; repeat (case_match; simplify_eq/=; try done).
  all: rewrite ?List.filter_app; cbn; rewrite ?app_nil_r; try (split; [lia|]); try tauto.
  all: repeat match goal with X : _ \/ _ |- _ => destruct X | X : _ /\ _ |- _ => destruct X end; try done.
  all: match goal with X : List.filter _ _ = _ |- _ => rewrite X end; cbn; tauto.
Qed.

(** every sequence of calls *)
Fixpoint run_calls (calls : list app_call) : St (Federate K) unit :=
  match calls with [] => mret tt | call :: calls => run_app call;; run_calls calls end.

Lemma calls_forward calls : forall f f',
  notified f -> run_calls calls f = Some (tt, f') -> phase (currentMode f) <= phase (currentMode f') /\ notified f'.
Proof.
  induction calls as [|call calls IH]; intros f f' Hn; cbn [run_calls].
  - intros [= <-]. split; [lia|done].
  - unfold mbind, M_bind. destruct (run_app call f) as [[[] f1]|] eqn:E; [|done]. intros Hr.
    destruct (call_forward call f f1 Hn E) as [Hp Hn1]. destruct (IH f1 f' Hn1 Hr). split; [lia|done].
Qed.

(** C10: The modes of a federate go forward.  Whatever calls a user makes, one after
    the other, whatever the core answers or throws: from starting up over
    initialization and execution to the end the federate never goes back to an
    earlier phase, and derived classes are told of the two transitions in
    order and at most once each: of none before the start, of at most the first
    before it executes, of both when it executes. *)
Theorem modes_go_forward (k : K) (before after : list app_call) f f' :
  run_calls before (new_federate k) = Some (tt, f) -> run_calls after f = Some (tt, f') ->
  phase (currentMode f) <= phase (currentMode f') /\
  transitions f' `prefix_of` [StartupToInitialize; InitializeToExecute] /\
  (phase (currentMode f') = 0 -> transitions f' = []) /\
  (phase (currentMode f') = 1 -> transitions f' `prefix_of` [StartupToInitialize]) /\
  (phase (currentMode f') = 2 -> transitions f' = [StartupToInitialize; InitializeToExecute]).
Proof.
  intros Hb Ha. destruct (calls_forward before (new_federate k) f eq_refl Hb) as [_ Hn].
  destruct (calls_forward after f f' Hn Ha) as [Hp Hn']. split; [done|]. clear Hb Ha Hn Hp.
  unfold notified in Hn'. destruct (currentMode f'); cbn in *.
  all: split_and!; try done; try tauto.
  all: repeat match goal with X : _ \/ _ |- _ => destruct X | X : _ /\ _ |- _ => destruct X end.
  all: match goal with X : transitions _ = _ |- _ => rewrite X end; try done; try intros _.
  all: apply prefix_nil || (exists [InitializeToExecute]; reflexivity) || (exists []; reflexivity).
Qed.

(** C18: An asynchronous pair of calls is the call it stands for.  To start a call
    and to complete it has the result and the effect of the call itself, on the
    mode, the time, the core and the notices: always for an iterative request
    of time; for entering initialization or execution when the core does not
    throw; for a request of time when the core neither throws nor gives the end
    of time; and for the end when the core does not throw, but for the filters,
    which only the call itself closes. *)
Theorem async_pairs_agree f k :
  coreObject f = Some k ->
  (currentMode f = startup -> answers core_enterInitializingMode k ->
   seen (pair_of enterInitializingModeAsync enterInitializingModeComplete f) = seen (enterInitializingMode f)) /\
  (forall it, currentMode f = initializing -> answers (core_enterExecutingMode it) k ->
   seen (pair_of (enterExecutingModeAsync it) enterExecutingModeComplete f) = seen (enterExecutingMode it f)) /\
  (forall t it, currentMode f = executing ->
   seen (pair_of (requestTimeIterativeAsync t it) requestTimeIterativeComplete f) = seen (requestTimeIterative t it f)) /\
  (forall t, currentMode f = executing -> answers (core_timeRequest t) k ->
   (forall k', core_timeRequest t k <> Some (inr T.maxVal, k')) ->
   seen (pair_of (requestTimeAsync t) requestTimeComplete f) = seen (requestTime t f)) /\
  (currentMode f = startup \/ currentMode f = initializing \/ currentMode f = executing -> answers core_finalize k ->
   (fun r => (fst r, snd r <| filters_closed := true |>)) <$> seen (pair_of finalizeAsync finalizeComplete f) =
   seen (finalize f)).
Proof.
  intros Hk. split_and!; intros; [by eapply init_pair|by eapply exec_pair|by eapply iterative_pair|by eapply time_pair|by eapply end_pair].
Qed.

(** the federate waits for a future that has no state, or was given up *)
Definition stuck (k : K) f : Prop :=
  coreObject f = Some k /\ (currentMode f = pending_exec /\ execFuture f = None \/ currentMode f = error_mode).

Lemma stuck_stays call k f :
  stuck k f -> call <> Disconnect -> exists f', run_app call f = Some (tt, f') /\ stuck k f'.
Proof.
  destruct f as [m t c fi fe ft fit ff fc h]. unfold stuck. cbn [coreObject currentMode execFuture].
  intros [-> [[-> ->]| ->]] Hd; destruct call; try done;
    cbn [run_app]; unfold drop_answer; app_unfold; cbn; eexists; (split; [reflexivity|]); cbn; auto.
Qed.

Lemma stuck_runs calls : forall k f,
  stuck k f -> Disconnect ∉ calls -> exists f', run_calls calls f = Some (tt, f') /\ stuck k f'.
Proof.
  induction calls as [|call calls IH]; intros k f Hs Hd; [by exists f|].
  apply not_elem_of_cons in Hd as [Hc Hd]. destruct (stuck_stays call k f Hs (not_eq_sym Hc)) as (f1 & E1 & Hs1).
  destruct (IH k f1 Hs1 Hd) as (f2 & E2 & Hs2). exists f2. split; [|done].
  cbn [run_calls]. unfold mbind, M_bind. by rewrite E1.
Qed.

End Claims.

(** ** A core that grants what is asked, or refuses the execution *)

Record plain_core := mkPlainCore { refuses : bool; granted : Time }.

#[export] Instance plain_core_settable : Settable plain_core := fun r => mkPlainCore (refuses r) (granted r).

#[export] Instance plain_core_interface : CoreInterface plain_core := {|
  core_enterInitializingMode := mret (inr tt);
  core_enterExecutingMode _ := fun k =>
    Some (if refuses k then inl (FunctionExecutionFailure "refused") else inr ItRes.next_step, k);
  core_timeRequest t := fun k => Some (inr t, k <| granted := t |>);
  core_requestTimeIterative t _ := fun k => Some (inr (mkIterationTime t ItRes.next_step), k <| granted := t |>);
  core_finalize := mret (inr tt);
  core_getCurrentTime := granted;
|}.

(** a federate of such a core, in a mode *)
Definition plain_federate (refusing : bool) (m : modes) : Federate plain_core :=
  new_federate (mkPlainCore refusing 0) <| currentMode := m |>.

Definition entry : list app_call := [EnterInitializingAsync; EnterExecuting no_iterations].

Lemma modes_go_forward_witness :
  exists f f', run_calls entry (new_federate (mkPlainCore false 0)) = Some (tt, f) /\
    run_calls [RequestTime 5; FinalizeAsync; FinalizeComplete] f = Some (tt, f') /\
    currentMode f = executing /\ currentMode f' = finalized /\
    phase (currentMode f) <= phase (currentMode f') /\
    transitions f' `prefix_of` [StartupToInitialize; InitializeToExecute].
Proof.
  eexists _, _. split; [vm_compute; reflexivity|]. split; [vm_compute; reflexivity|].
  split; [reflexivity|]. split; [reflexivity|].
  match goal with |- phase (currentMode ?a) <= phase (currentMode ?b) /\ _ =>
    destruct (modes_go_forward (H:=plain_core_interface) (mkPlainCore false 0) entry [RequestTime 5; FinalizeAsync; FinalizeComplete] a b
      ltac:(vm_compute; reflexivity) ltac:(vm_compute; reflexivity)) as (H1 & H2 & _) end.
  exact (conj H1 H2).
Defined.

Lemma async_pairs_agree_witness :
  let f := plain_federate false executing in
  seen (pair_of (requestTimeAsync 7) requestTimeComplete f) = seen (requestTime 7 f) /\
  fst <$> requestTime 7 f = Some (inr 7) /\
  seen (pair_of (requestTimeIterativeAsync 7 no_iterations) requestTimeIterativeComplete f) =
  seen (requestTimeIterative 7 no_iterations f).
Proof.
  destruct (async_pairs_agree (H:=plain_core_interface) (plain_federate false executing) (mkPlainCore false 0) eq_refl)
    as (_ & _ & Hi & Ht & _).
  split; [apply Ht; [reflexivity|intros e k'; vm_compute; discriminate|intros k'; vm_compute; discriminate]|].
  split; [vm_compute; reflexivity|]. apply Hi. reflexivity.
Defined.

