(* ===== verification/AppCore.v ===== *)
(** * A federate of the application on a core

    The calls of [src/helics/core/CommonCore.cpp] as the core that a federate
    of [src/helics/application_api/Federate.cpp] has behind it: the interface of
    [AppFederate] implemented by [CoreWaits], and what a request of time of the
    user then comes to, through the federate, the core, the state of the
    federate in the core and its time coordinator. *)

From S2P Require Import Prelude HTime Identifiers CoreData StateMonad DualVector JsonBuilder TimeDependencies TimeCoordinator ForwardingTimeCoordinator NamedInputInfo EndpointInfo InterfaceInfo HandleManager CoreTypes TimeAdvance FederateState FederateSpec MessageTimer FederateCalls FederateRequest CoreBroker BrokerControl CommonCore CoreFilters CoreControl CoreCalls CoreWaits CoreRun ActionMessage CoreWaitSpec AppFederate.
Import Fed (FederateState) Local (LocalFed) Core CControl FedCalls.

Section OnCore.
Context `{Platform} {C : Type -> Type} `{DualVectorLaws C} {D : Type -> Type} `{DualMapped D} `{FilterOperators} `{SteadyTimers}.
Context (fmt_format : string -> list string -> string) (depth fuel : nat) (federateID : local_federate_id).

(** ** The core behind a federate *)

(** What surrounds one call: what the thread of the core did before it, the
    readings of the clock, and the commands that arrive while it waits. *)
Record surroundings := mkSurroundings {
  before_call : CommonCore C D -> CommonCore C D;
  clock_readings : readings;
  arriving : list ActionMessage;
}.

(** a core, the real-time data of the federate, and what surrounds its calls *)
Record core_behind := mkCoreBehind {
  the_core : CommonCore C D;
  real_time : RealTime;
  ahead : list surroundings;
}.

(** a call in its surroundings; one that does not come back has no result *)
Definition surrounded {A} (call : surroundings -> RealTime -> Core.M C D (exn + reply (A * RealTime)))
    : St core_behind (exn + A) := fun k =>
  match ahead k with
  | [] => None
  | s :: rest =>
      '(r, c) ← call s (real_time k) (before_call s (the_core k));
      match r with
      | inl e => Some (inl e, mkCoreBehind c (real_time k) rest)
      | inr (replied (a, rt)) => Some (inr a, mkCoreBehind c rt rest)
      | inr blocked => None
      end
  end.

(** a call that does not touch the real-time data *)
Definition with_real_time {A} (rt : RealTime) (m : Core.M C D (exn + reply A))
    : Core.M C D (exn + reply (A * RealTime)) :=
  let* r := m in
  mret (match r with
        | inl e => inl e
        | inr (replied a) => inr (replied (a, rt))
        | inr blocked => inr blocked
        end).

(** the time of a federate that is registered *)
Definition shown_time (k : core_behind) : Time :=
  match Calls.getCurrentTime federateID (the_core k) with Some (inr t, _) => t | _ => 0 end.

#[global] Instance core_behind_interface : CoreInterface core_behind := {|
  core_enterInitializingMode := surrounded (fun s rt =>
    with_real_time rt (Waits.enterInitializingMode fmt_format depth federateID (arriving s)));
  core_enterExecutingMode iterate := surrounded (fun s rt =>
    Waits.enterExecutingMode fmt_format depth (granted_at (clock_readings s)) federateID iterate (arriving s) rt);
  core_timeRequest next := surrounded (fun s rt =>
    Waits.timeRequest fmt_format depth (clock_readings s) federateID next (arriving s) rt);
  core_requestTimeIterative next iterate := surrounded (fun s rt =>
    Waits.requestTimeIterative fmt_format depth (clock_readings s) federateID next iterate (arriving s) rt);
  core_finalize := surrounded (fun s rt =>
    with_real_time rt (Waits.finalize fmt_format depth fuel federateID (arriving s)));
  core_getCurrentTime := shown_time;
|}.
End OnCore.

Section Claims.
Context `{Platform} {C : Type -> Type} `{DualVectorLaws C} {D : Type -> Type} `{DualMapped D} `{FilterOperators} `{SteadyTimers}.
Context (fmt_format : string -> list string -> string).

(** C9: A request of time of the user goes forward.  The user of a federate that
    executes, without period and input delay and not in real time, calls
    [requestTime]: whatever the core did before, whatever commands of others,
    but for forced grants and for configuration, are before the request in the
    queue, delayed, or arrive behind it, the call waits, as the call of the core
    does; or it gives a time that is later than the time before by the time
    delta at least, which becomes the time of the federate and is told to
    derived classes, and the federate is at its end exactly if this is the
    largest time; or it throws [FunctionExecutionFailure] with the error of the
    federate, keeps its time and is in the mode for errors.  Nothing of the core
    changes but the federate. *)
Theorem user_request_advances (me : global_federate_id) (d fuel : nat) (next : Time) (federateID : local_federate_id)
    (p : nat) (l : LocalFed D) (c : CommonCore C D) (rt : RealTime) (s : surroundings) (rest : list surroundings)
    (f : App.Federate core_behind) :
  App.coreObject f = Some (mkCoreBehind c rt (s :: rest)) -> App.currentMode f = executing ->
  local_federate federateID p l (before_call s c) -> may_request me (Local.fs l) -> next <= T.maxVal ->
  Forall (foreign me) (arriving s) ->
  let core := core_behind_interface fmt_format (S (S d)) fuel federateID in
  exists ans fs',
    let c' := with_local p (fun l => l <| Local.fs := fs' |>) (before_call s c) in
    Waits.timeRequest fmt_format (S (S d)) (clock_readings s) federateID next (arriving s) rt (before_call s c)
      = Some (ans, c') /\
    match ans with
    | inr blocked => App.requestTime (H := core) next f = None
    | inr (replied (t, rt')) =>
        Fed.time_granted (Local.fs l) + timeDelta (info (Fed.timeCoord (Local.fs l))) <= t /\
        App.requestTime (H := core) next f =
          Some (inr t, f <| App.coreObject := Some (mkCoreBehind c' rt' rest) |> <| App.currentTime := t |>
            <| App.hooks := App.hooks f ++ [UpdateTime t (App.currentTime f)] |>
            <| App.currentMode := if t =? T.maxVal then finalized else executing |>)
    | inl e =>
        e = FunctionExecutionFailure (Fed.errorString fs') /\
        App.requestTime (H := core) next f =
          Some (inl (Thrown e), f <| App.coreObject := Some (mkCoreBehind c' rt rest) |>
            <| App.currentMode := error_mode |>)
    end.
Proof.
  intros Hk Hm Hl Hr Hn Ha core. destruct f as [m t0 k0]. cbn in Hk, Hm. subst m k0.
  destruct (core_request_forward fmt_format me d (clock_readings s) next federateID p (arriving s) rt l
    (before_call s c) Hl Hr Hn Ha) as (ans & fs' & E & Hans).
  exists ans, fs'. split; [exact E|].
  assert (Hcall : @core_timeRequest _ core next (mkCoreBehind c rt (s :: rest)) =
    match ans with
    | inl e => Some (inl e, mkCoreBehind (with_local p (fun l => l <| Local.fs := fs' |>) (before_call s c)) rt rest)
    | inr (replied (t, rt')) =>
        Some (inr t, mkCoreBehind (with_local p (fun l => l <| Local.fs := fs' |>) (before_call s c)) rt' rest)
    | inr blocked => None
    end).
  { subst core. cbn. unfold surrounded. cbn. rewrite E. reflexivity. }
  clearbody core. unfold App.requestTime, App.in_core. cbv [bind_first gets mbind M_bind]. cbn [App.currentMode App.coreObject].
  cbn. rewrite Hcall. destruct ans as [e|[[t rt']|]]; cbn.
  - subst e. split; reflexivity.
  - split; [exact Hans|]. by destruct (t =? T.maxVal).
  - reflexivity.
Qed.
End Claims.

(** ** Example *)

Section Example_.
Import CoreExample.
#[local] Existing Instance x86_64.
#[local] Existing Instance ListVector.list_dual_vector.
#[local] Existing Instance ListVector.list_dual_laws.
#[local] Existing Instance ListContainer.list_container.

(** the user's federate on a core with one federate that executes *)
Definition undisturbed :=
  mkSurroundings (fun c : Core => c) (mkReadings 0 0 0 0) [].
Definition behind := mkCoreBehind (core_of executing_federate) no_timer [undisturbed].
Definition users_federate :=
  App.mkFederate executing 0 (Some behind) None None None None None false [].

Lemma user_request_advances_witness :
  let core := core_behind_interface format 2 0 0 in
  exists f', App.requestTime (H := core) 700 users_federate = Some (inr 700, f') /\
    App.currentTime f' = 700 /\ App.currentMode f' = executing /\ App.hooks f' = [UpdateTime 700 0] /\ 0 + 1 <= 700.
Proof.
  destruct (user_request_advances format 131072 0 0 700 0 0 (local_of executing_federate)
    (core_of executing_federate) no_timer undisturbed [] users_federate eq_refl eq_refl (core_of_federate _)
    executing_may_request ltac:(discriminate) (proj2 (Forall_nil _) I)) as (ans & fs' & E & Hr).
  assert (ans = inr (replied (700, no_timer))) as ->.
  { assert (fst <$> Waits.timeRequest format 2 (mkReadings 0 0 0 0) 0 700 [] no_timer (core_of executing_federate)
      = Some (inr (replied (700, no_timer)))) as E2 by reflexivity.
    cbn in E. rewrite E in E2. injection E2. auto. }
  destruct Hr as [Hd Hr]. eexists. split; [exact Hr|]. repeat (split; [reflexivity|]). exact Hd.
Defined.
End Example_.
