(* ===== verification/MessageManager.v ===== *)
(** * The endpoints of an application federate

    Models [src/helics/application_api/MessageFederateManager.cpp] and the
    functions of [MessageFederate.cpp] that put a check of the mode before it:
    endpoints with their queues, the messages that are fetched from the core
    when time has advanced, and the callbacks that tell of them.

    The core behind it is the class [MessageCore].  The container of endpoints
    is the library class of [DualVector].  An object of [EndpointData] is its
    position in [objects], which pointers to it hold.  A callback is a number;
    what it does is the parameter [program], the calls it makes, as a function
    of its arguments and of the state it finds; it does not request time.  The
    lists [taken] and [given] are a history that no operation reads: the
    messages the core gave with the handle of their endpoint, and those a caller
    got with the object they were in. *)

From S2P Require Import Prelude HTime Identifiers CoreData StateMonad DualVector CoreTypes CoreCalls AppFederate.

(** ** The core *)

Class MessageCore (K : Type) := {
  mc_registerEndpoint : string -> string -> St K (exn + interface_handle);
  mc_receiveCountAny : St K (exn + Z);
  mc_receiveAny : interface_handle -> St K (exn + (option Message * interface_handle));
  mc_send : interface_handle -> string -> string -> St K (exn + unit);
  mc_sendEvent : Time -> interface_handle -> string -> string -> St K (exn + unit);
  mc_sendMessage : interface_handle -> Message -> St K (exn + unit);
  mc_addSourceTarget : interface_handle -> string -> St K (exn + unit);
  mc_addDestinationTarget : interface_handle -> string -> St K (exn + unit);
}.

(** ** The state *)

Module Ept.
Record Endpoint := mkEndpoint {
  handle : interface_handle;
  referenceIndex : Z;
  dataReference : option nat;
  actualName : string;
}.

#[export] Instance Endpoint_settable : Settable Endpoint := fun r =>
  mkEndpoint (handle r) (referenceIndex r) (dataReference r) (actualName r).

(** the default constructor *)
Definition invalidEpt : Endpoint := mkEndpoint InterfaceHandle.invalid (-1) None "".

Definition isValid (e : Endpoint) : bool := InterfaceHandle.isValid (handle e).

Record EndpointData := mkData { messages : list Message; callback : option nat }.

#[export] Instance EndpointData_settable : Settable EndpointData := fun r => mkData (messages r) (callback r).
End Ept.
Import Ept.

Module Mgr.
Section Mgr.
Context {C : Type -> Type} `{DualVector C} {K : Type} `{MessageCore K}.

Record MessageFederateManager := mkManager {
  local_endpoints : C Endpoint;
  allCallback : option nat;
  CurrentTime : Time;
  coreObject : option K;
  objects : list EndpointData;
  eptData : list (option nat);
  taken : list (interface_handle * Message);
  given : list (nat * Message);
}.

#[global] Instance Manager_settable : Settable MessageFederateManager := fun r =>
  mkManager (local_endpoints r) (allCallback r) (CurrentTime r) (coreObject r) (objects r) (eptData r) (taken r)
    (given r).

Definition new_manager (k : K) : MessageFederateManager :=
  mkManager dv_empty None T.minVal (Some k) [] [] [] [].

Local Abbreviation M := (St MessageFederateManager).
Local Abbreviation Call A := (M (exn + A)).

Definition gives {A} (a : A) : Call A := mret (inr a).
Definition throws {A} (e : exn) : Call A := mret (inl e).
Definition andThen {A B} (m : Call A) (k : A -> Call B) : Call B :=
  let* r := m in match r with inr a => k a | inl e => throws e end.
Local Notation "'let!' x ':=' m 'in' k" := (andThen m (fun x => k))
  (at level 200, x name, m at level 100, k at level 200, right associativity).

(** a call of the core; a null pointer has no result *)
Definition in_core {A} (call : St K (exn + A)) : Call A := fun m =>
  k ← coreObject m; '(r, k') ← call k; Some (r, m <| coreObject := Some k' |>).

Definition disconnect : M unit := modifies (fun m => m <| coreObject := None |>).

(** an object behind a pointer *)
Definition object_at (p : nat) : M EndpointData := let* l := gets objects in deref (l !! p).
Definition set_object (p : nat) (f : EndpointData -> EndpointData) : M unit :=
  modifies (fun m => m <| objects ::= alter f p |>).

(** ** Registration *)

(** [datHandle] gets the pointer at the place of the endpoint. *)
Definition store (loc p : nat) (l : list (option nat)) : list (option nat) :=
  if bool_decide (length l = loc) then l ++ [Some p]
  else if bool_decide (length l < loc)%nat then <[loc := Some p]> (l ++ replicate (loc + 1 - length l) None)
  else <[loc := Some p]> l.

(** When the container refuses the endpoint, its data are freed. *)
Definition registerEndpoint (name type : string) : Call Endpoint :=
  let! handle := in_core (mc_registerEndpoint name type) in
  if InterfaceHandle.isValid handle then
    let* p := gets (fun m => length (objects m)) in
    let* eptHandle := gets local_endpoints in
    match dv_insert name (Some handle) (mkEndpoint handle (-1) (Some p) name) eptHandle with
    | (Some loc, eptHandle) =>
        let eptHandle := dv_modify_back (fun e => e <| referenceIndex := int32 (Z.of_nat loc) |>) eptHandle in
        modifies (fun m => m <| local_endpoints := eptHandle |> <| objects := objects m ++ [mkData [] None] |>
                             <| eptData ::= store loc p |>);;
        let* ref := deref (last (dv_elements eptHandle)) in gives ref
    | (None, eptHandle) =>
        modifies (fun m => m <| local_endpoints := eptHandle |>);;
        throws (RegistrationFailure "Unable to register Endpoint")
    end
  else throws (RegistrationFailure "Unable to register Endpoint").

Definition subscribe (ept : Endpoint) (name : string) : Call unit := in_core (mc_addSourceTarget (handle ept) name).
Definition addSourceFilter (ept : Endpoint) (filterName : string) : Call unit :=
  in_core (mc_addSourceTarget (handle ept) filterName).
Definition addDestinationFilter (ept : Endpoint) (filterName : string) : Call unit :=
  in_core (mc_addDestinationTarget (handle ept) filterName).

(** ** Messages *)

Definition hasMessage_of (ept : Endpoint) : M bool :=
  match dataReference ept with
  | Some p => let* d := object_at p in mret (negb (bool_decide (messages d = [])))
  | None => mret false
  end.

Fixpoint any_message (l : list (option nat)) : M bool :=
  match l with
  | [] => mret false
  | mq :: l =>
      let* p := deref mq in
      let* d := object_at p in
      if bool_decide (messages d = []) then any_message l else mret true
  end.

Definition hasMessage : M bool := let* l := gets eptData in any_message l.

Definition pendingMessages_of (ept : Endpoint) : M Z :=
  match dataReference ept with
  | Some p => let* d := object_at p in mret (Z.of_nat (length (messages d)))
  | None => mret 0
  end.

Fixpoint count_messages (sz : Z) (l : list (option nat)) : M Z :=
  match l with
  | [] => mret sz
  | mq :: l =>
      let* p := deref mq in
      let* d := object_at p in
      count_messages (uint64 (sz + Z.of_nat (length (messages d)))) l
  end.

Definition pendingMessages : M Z := let* l := gets eptData in count_messages 0 l.

(** [messages.pop ()], and the message goes to the caller *)
Definition pop (p : nat) : M (option Message) :=
  let* d := object_at p in
  match messages d with
  | [] => mret None
  | msg :: rest =>
      set_object p (fun d => d <| messages := rest |>);;
      modifies (fun m => m <| given ::= fun l => l ++ [(p, msg)] |>);;
      mret (Some msg)
  end.

Definition getMessage_of (ept : Endpoint) : M (option Message) :=
  match dataReference ept with Some p => pop p | None => mret None end.

Fixpoint first_message (l : list (option nat)) : M (option Message) :=
  match l with
  | [] => mret None
  | edat :: l =>
      let* p := deref edat in
      let* d := object_at p in
      if bool_decide (messages d = []) then first_message l
      else let* ms := pop p in match ms with Some msg => mret (Some msg) | None => first_message l end
  end.

Definition getMessage : M (option Message) := let* l := gets eptData in first_message l.

Definition sendMessage (source : Endpoint) (dest message : string) : Call unit :=
  in_core (mc_send (handle source) dest message).
Definition sendMessage_at (source : Endpoint) (dest message : string) (sendTime : Time) : Call unit :=
  in_core (mc_sendEvent sendTime (handle source) dest message).
Definition sendMessage_object (source : Endpoint) (message : Message) : Call unit :=
  in_core (mc_sendMessage (handle source) message).

(** ** Endpoints *)

Definition getEndpoint (name : string) : M Endpoint :=
  gets (fun m => default invalidEpt (dv_get_name name (local_endpoints m))).
Definition getEndpoint_at (index : Z) : M Endpoint :=
  gets (fun m => if (0 <=? index) && (index <? int32 (dv_size (local_endpoints m)))
                 then default invalidEpt (dv_elements (local_endpoints m) !! Z.to_nat index) else invalidEpt).
Definition getEndpointCount : M Z := gets (fun m => int32 (dv_size (local_endpoints m))).

Definition setAllCallback (callback : option nat) : M unit :=
  modifies (fun m => m <| allCallback := callback |>).
Definition setEndpointNotificationCallback (ept : Endpoint) (cb : option nat) : M unit :=
  match dataReference ept with
  | Some p => let* _ := object_at p in set_object p (fun d => d <| callback := cb |>)
  | None => skip
  end.

(** ** What users call, and callbacks too *)

Inductive call :=
  | Register (name type : string)
  | Subscribe (ept : Endpoint) (name : string)
  | SourceFilter (ept : Endpoint) (name : string) | DestinationFilter (ept : Endpoint) (name : string)
  | GetMessage (ept : Endpoint) | GetAnyMessage
  | Send (ept : Endpoint) (dest message : string) | SendAt (ept : Endpoint) (dest message : string) (t : Time)
  | SendObject (ept : Endpoint) (message : Message)
  | SetCallback (ept : Endpoint) (cb : option nat) | SetAllCallback (cb : option nat).

(** the result or the exception is for the caller *)
Definition ignoring {A} (m : M A) : M unit := let* _ := m in skip.

Definition run_call (c : call) : M unit :=
  match c with
  | Register name type => ignoring (registerEndpoint name type)
  | Subscribe ept name => ignoring (subscribe ept name)
  | SourceFilter ept name => ignoring (addSourceFilter ept name)
  | DestinationFilter ept name => ignoring (addDestinationFilter ept name)
  | GetMessage ept => ignoring (getMessage_of ept)
  | GetAnyMessage => ignoring getMessage
  | Send ept dest message => ignoring (sendMessage ept dest message)
  | SendAt ept dest message t => ignoring (sendMessage_at ept dest message t)
  | SendObject ept message => ignoring (sendMessage_object ept message)
  | SetCallback ept cb => setEndpointNotificationCallback ept cb
  | SetAllCallback cb => setAllCallback cb
  end.

(** ** Time *)

Context (program : nat -> Endpoint -> Time -> MessageFederateManager -> list call).

Definition run_callback (cb : nat) (ept : Endpoint) : M unit := fun m =>
  for_each (program cb ept (CurrentTime m) m) run_call m.

(** the callback of the endpoint, or else that of all *)
Definition tell (mcall : option nat) (d : EndpointData) (ept : Endpoint) : M unit :=
  match callback d with
  | Some cb => run_callback cb ept
  | None => match mcall with Some cb => run_callback cb ept | None => skip end
  end.

(** one message that the core gave *)
Definition deliver (mcall : option nat) (endpoint_id : interface_handle) (message : Message) : M unit :=
  modifies (fun m => m <| taken ::= fun l => l ++ [(endpoint_id, message)] |>);;
  let* epts := gets local_endpoints in
  match dv_get_id endpoint_id epts with
  | None => skip
  | Some currentEpt =>
      let* l := gets eptData in
      let* p := deref (mjoin (l !! Z.to_nat (uint64 (referenceIndex currentEpt)))) in
      let* d := object_at p in
      set_object p (fun d => d <| messages ::= fun q => q ++ [message] |>);;
      tell mcall d currentEpt
  end.

Fixpoint fetch (epCount : nat) (mcall : option nat) (endpoint_id : interface_handle) : Call unit :=
  match epCount with
  | O => gives tt
  | S epCount =>
      let! r := in_core (mc_receiveAny endpoint_id) in
      match fst r with
      | None => gives tt
      | Some message => let* _ := deliver mcall (snd r) message in fetch epCount mcall (snd r)
      end
  end.

Definition updateTime (newTime : Time) : Call unit :=
  modifies (fun m => m <| CurrentTime := newTime |>);;
  let! epCount := in_core mc_receiveCountAny in
  let* mcall := gets allCallback in
  fetch (Z.to_nat epCount) mcall InterfaceHandle.invalid.
End Mgr.
Arguments MessageFederateManager C K : clear implicits.
End Mgr.

(** ** The federate, by its mode *)

Module MsgFed.
Section MsgFed.
Context {C : Type -> Type} `{DualVector C} {K : Type} `{MessageCore K}.
Local Abbreviation M := (St (Mgr.MessageFederateManager C K)).

(** the numbers of [modes] *)
Definition code (m : modes) : Z :=
  match m with
  | startup => 0 | initializing => 1 | executing => 2 | finalized => 3 | error_mode => 4
  | pending_init => 5 | pending_exec => 6 | pending_time => 7 | pending_iterative_time => 8 | pending_finalize => 9
  end.

(** [currentMode >= modes::initializing] *)
Definition once_initializing {A} (currentMode : modes) (m : M A) (otherwise : A) : M A :=
  if code initializing <=? code currentMode then m else mret otherwise.

Definition hasMessage (currentMode : modes) : M bool := once_initializing currentMode Mgr.hasMessage false.
Definition hasMessage_of (currentMode : modes) (ept : Endpoint) : M bool :=
  once_initializing currentMode (Mgr.hasMessage_of ept) false.
Definition pendingMessages (currentMode : modes) : M Z := once_initializing currentMode Mgr.pendingMessages 0.
Definition pendingMessages_of (currentMode : modes) (ept : Endpoint) : M Z :=
  once_initializing currentMode (Mgr.pendingMessages_of ept) 0.
Definition getMessage (currentMode : modes) : M (option Message) := once_initializing currentMode Mgr.getMessage None.
Definition getMessage_of (currentMode : modes) (ept : Endpoint) : M (option Message) :=
  once_initializing currentMode (Mgr.getMessage_of ept) None.

(** the name of an endpoint that is not global *)
Definition local_name (name : string) (nameSegmentSeparator : Ascii.ascii) (eptName : string) : string :=
  (name +:+ String nameSegmentSeparator "" +:+ eptName)%string.

Definition registerEndpoint (name : string) (sep : Ascii.ascii) (eptName type : string) : M (exn + Endpoint) :=
  Mgr.registerEndpoint (if bool_decide (eptName = "") then eptName else local_name name sep eptName) type.
Definition registerGlobalEndpoint (eptName type : string) : M (exn + Endpoint) := Mgr.registerEndpoint eptName type.

Definition getEndpoint (name : string) (sep : Ascii.ascii) (eptName : string) : M Endpoint :=
  let* id := Mgr.getEndpoint eptName in
  if Ept.isValid id then mret id else Mgr.getEndpoint (local_name name sep eptName).
End MsgFed.
End MsgFed.
