(* ===== verification/MessageManagerSpec.v ===== *)
(** * The endpoints of an application federate: properties

    Every message the core gives for an endpoint reaches its callers once and
    in order, whatever callbacks do in between. *)

From S2P Require Import Prelude HTime Identifiers CoreData StateMonad DualVector CoreTypes CoreCalls AppFederate MessageManager.
Import Ept Mgr.

(** What the container documents of an insertion with a new handle: the element
    is appended and found under the handle, or the container is as before. *)
Class EndpointStore (C : Type -> Type) `{DualVectorLaws C} : Prop :=
  es_insert : forall V k i (v : V) (c : C V), dv_find_id i c = None ->
    match dv_insert k (Some i) v c with
    | (Some p, c') =>
        p = length (dv_elements c) /\ dv_elements c' = dv_elements c ++ [v] /\
        forall i', dv_find_id i' c' = if decide (i = i') then Some p else dv_find_id i' c
    | (None, c') => c' = c
    end.

(** The handles that a core has issued. *)
Class Issues (K : Type) := issued : K -> interface_handle -> Prop.

Definition keeps_handles {K A} `{Issues K} (call : St K (exn + A)) : Prop :=
  forall k r k', call k = Some (r, k') -> forall h, issued k h -> issued k' h.

(** What a core promises: a handle is a number of 31 bits, no handle is issued
    twice or forgotten, and messages come for handles that were issued. *)
Class HandleLaws (K : Type) `{MessageCore K, Issues K} : Prop := {
  issued_bound : forall k h, issued k h -> 0 <= h < 2 ^ 31;
  register_issues : forall name type k h k', mc_registerEndpoint name type k = Some (inr h, k') ->
    ~ issued k h /\ issued k' h;
  register_keeps : forall name type, keeps_handles (mc_registerEndpoint name type);
  receive_issued : forall h0 k m h k', mc_receiveAny h0 k = Some (inr (Some m, h), k') -> issued k' h;
  receive_keeps : forall h, keeps_handles (mc_receiveAny h);
  count_keeps : keeps_handles mc_receiveCountAny;
  send_keeps : forall h d s, keeps_handles (mc_send h d s);
  send_event_keeps : forall t h d s, keeps_handles (mc_sendEvent t h d s);
  send_message_keeps : forall h s, keeps_handles (mc_sendMessage h s);
  source_keeps : forall h s, keeps_handles (mc_addSourceTarget h s);
  destination_keeps : forall h s, keeps_handles (mc_addDestinationTarget h s);
}.

(** the messages under a key *)
Definition of_key {A} `{EqDecision A} (k : A) (l : list (A * Message)) : list Message :=
  snd <$> filter (fun x => fst x = k) l.
Arguments of_key : simpl never.

Lemma of_key_snoc {A} `{EqDecision A} (k k' : A) m l :
  of_key k (l ++ [(k', m)]) = of_key k l ++ (if decide (k' = k) then [m] else []).
Proof. unfold of_key. rewrite filter_app, fmap_app. f_equal. cbn. by destruct (decide (k' = k)). Qed.

Lemma of_key_fresh {A} `{EqDecision A} (k : A) l : Forall (fun x => fst x <> k) l -> of_key k l = [].
Proof.
  unfold of_key. induction 1 as [|[a m] l Ha _ IH]; [done|]. cbn in *. by destruct (decide (a = k)).
Qed.

Section Kept.
Context {C : Type -> Type} `{EndpointStore C} {K : Type} `{HandleLaws K}.
Implicit Types (m : MessageFederateManager C K) (e : Endpoint) (k : K).

(** ** The invariant *)

(** an endpoint at its place *)
Record placed m (p : nat) e : Prop := {
  pl_data : dataReference e = Some p;
  pl_index : referenceIndex e = Z.of_nat p;
  pl_found : dv_find_id (handle e) (local_endpoints m) = Some p;
  pl_bound : 0 <= handle e < 2 ^ 31;
}.

Record mgr_inv m : Prop := {
  mi_data : eptData m = Some <$> seq 0 (length (objects m));
  mi_length : length (dv_elements (local_endpoints m)) = length (objects m);
  mi_placed : forall p e, dv_elements (local_endpoints m) !! p = Some e -> placed m p e;
  mi_found : forall h p, dv_find_id h (local_endpoints m) = Some p ->
    exists e, dv_elements (local_endpoints m) !! p = Some e /\ handle e = h;
  mi_issued : forall k, coreObject m = Some k ->
    (forall h p, dv_find_id h (local_endpoints m) = Some p -> issued k h) /\
    Forall (fun r => issued k (fst r)) (taken m);
  mi_given : Forall (fun r => (fst r < length (objects m))%nat) (given m);
  mi_kept : forall p e d, dv_elements (local_endpoints m) !! p = Some e -> objects m !! p = Some d ->
    of_key p (given m) ++ messages d = of_key (handle e) (taken m);
}.

(** There are not more endpoints than handles. *)
Lemma handles_bound (l : list Z) :
  NoDup l -> Forall (fun h => 0 <= h < 2 ^ 31) l -> Z.of_nat (length l) <= 2 ^ 31.
Proof.
  intros Hd Hb. assert (length l <= length (seqZ 0 (2 ^ 31)))%nat as Hl.
  { apply NoDup_incl_length; [by apply NoDup_ListNoDup|].
    intros h Hh. apply list_elem_of_In in Hh. apply list_elem_of_In, elem_of_seqZ.
    rewrite Forall_forall in Hb. specialize (Hb h Hh). lia. }
  rewrite length_seqZ in Hl. lia.
Qed.

Definition handles_of m : list Z := handle <$> dv_elements (local_endpoints m).

Lemma handles_distinct m : mgr_inv m -> NoDup (handles_of m).
Proof.
  intros Hi. apply NoDup_alt. intros i j h Hx Hy.
  apply list_lookup_fmap_Some in Hx as (ex & -> & Hx). apply list_lookup_fmap_Some in Hy as (ey & E & Hy).
  pose proof (pl_found _ _ _ (mi_placed _ Hi _ _ Hx)) as Fx.
  pose proof (pl_found _ _ _ (mi_placed _ Hi _ _ Hy)) as Fy. rewrite E in Fx. congruence.
Qed.

Lemma handles_known m h :
  mgr_inv m -> h ∈ handles_of m -> 0 <= h < 2 ^ 31 /\ is_Some (dv_find_id h (local_endpoints m)).
Proof.
  intros Hi Hh. apply list_elem_of_fmap in Hh as (x & -> & Hx). apply list_elem_of_lookup in Hx as (q & Hx).
  pose proof (mi_placed _ Hi _ _ Hx) as []. eauto.
Qed.

Lemma places_bound m p e : mgr_inv m -> dv_elements (local_endpoints m) !! p = Some e -> Z.of_nat p < 2 ^ 31.
Proof.
  intros Hi Hp. apply lookup_lt_Some in Hp.
  pose proof (handles_bound (handles_of m) (handles_distinct m Hi)) as Hl.
  unfold handles_of in Hl at 2. rewrite length_fmap in Hl.
  enough (Z.of_nat (length (dv_elements (local_endpoints m))) <= 2 ^ 31) by lia.
  apply Hl, Forall_forall. intros h Hh. by apply (handles_known m).
Qed.

Lemma new_place_bound m h :
  mgr_inv m -> 0 <= h < 2 ^ 31 -> dv_find_id h (local_endpoints m) = None -> Z.of_nat (length (objects m)) < 2 ^ 31.
Proof.
  intros Hi Hb Hn. enough (Z.of_nat (length (h :: handles_of m)) <= 2 ^ 31) as Hl.
  { cbn in Hl. unfold handles_of in Hl. rewrite length_fmap, (mi_length _ Hi) in Hl. lia. }
  apply handles_bound; [|constructor; [done|]].
  - apply NoDup_cons. split; [|by apply handles_distinct].
    intros Hh. destruct (handles_known m h Hi Hh) as [_ [p E]]. congruence.
  - apply Forall_forall. intros x Hx. by apply (handles_known m).
Qed.

(** ** Changes of the state *)

Lemma inv_core m k k' :
  mgr_inv m -> coreObject m = Some k -> (forall h, issued k h -> issued k' h) ->
  mgr_inv (m <| coreObject := Some k' |>).
Proof.
  intros Hi Hk Hh. destruct (mi_issued _ Hi k Hk) as [Hf Ht]. destruct m, Hi. cbn in *. split; cbn; try done.
  - intros p e Hp. by destruct (mi_placed0 p e Hp).
  - intros k0 [= <-]. split; [by eauto|]. eapply Forall_impl; [exact Ht|]. cbn. auto.
Qed.

Lemma in_core_inv {A} (call : St K (exn + A)) : keeps_handles call -> preserves mgr_inv (in_core (C := C) call).
Proof.
  intros Hc m r m' Hi Hr. split; [|done]. unfold in_core, mbind, option_bind in Hr.
  destruct (coreObject m) as [k|] eqn:Ek; [|done]. destruct (call k) as [[r0 k']|] eqn:Er; simplify_eq/=.
  apply (inv_core m k); eauto.
Qed.

(** a change of what the invariant does not speak of *)
Lemma inv_plain m ac t : mgr_inv m -> mgr_inv (m <| allCallback := ac |> <| CurrentTime := t |>).
Proof. intros []. destruct m. cbn in *. split; cbn; try done. intros p e Hp. by destruct (mi_placed0 p e Hp). Qed.

(** a change of an object, and with it of the history *)
Lemma inv_object m p d (f : EndpointData -> EndpointData) tk gv :
  mgr_inv m -> objects m !! p = Some d ->
  (forall e, dv_elements (local_endpoints m) !! p = Some e ->
    of_key p gv ++ messages (f d) = of_key (handle e) tk) ->
  (forall q e, q <> p -> dv_elements (local_endpoints m) !! q = Some e ->
    of_key q gv = of_key q (given m) /\ of_key (handle e) tk = of_key (handle e) (taken m)) ->
  (forall k, coreObject m = Some k -> Forall (fun r => issued k (fst r)) tk) ->
  Forall (fun r => (fst r < length (objects m))%nat) gv ->
  mgr_inv (m <| objects := alter f p (objects m) |> <| taken := tk |> <| given := gv |>).
Proof.
  intros [] Hd Hp Hq Hk Hg. destruct m. cbn in *. split; cbn; rewrite ?length_alter; try done.
  - intros q e He. by destruct (mi_placed0 q e He).
  - intros k Ek. split; [by apply (mi_issued0 k)|by auto].
  - intros q e d' He Hd'. destruct (decide (p = q)) as [<-|Hne].
    + rewrite list_lookup_alter_eq, Hd in Hd'. simplify_eq/=. auto.
    + rewrite list_lookup_alter_ne in Hd' by done. destruct (Hq q e (not_eq_sym Hne) He) as [-> ->]. eauto.
Qed.

Lemma set_callback_inv m p d cb :
  mgr_inv m -> objects m !! p = Some d -> mgr_inv (m <| objects ::= alter (fun d => d <| callback := cb |>) p |>).
Proof.
  intros Hi Hd. pose proof (inv_object m p d (fun d => d <| callback := cb |>) (taken m) (given m) Hi Hd) as Ho.
  destruct m. apply Ho; cbn; clear Ho.
  - intros e He. by apply (mi_kept _ Hi).
  - done.
  - intros k Hk. by apply (mi_issued _ Hi).
  - apply Hi.
Qed.

Lemma pop_state_inv m p d msg rest :
  mgr_inv m -> objects m !! p = Some d -> messages d = msg :: rest ->
  mgr_inv (m <| objects ::= alter (fun d => d <| messages := rest |>) p |> <| given ::= fun l => l ++ [(p, msg)] |>).
Proof.
  intros Hi Hd Hm.
  pose proof (inv_object m p d (fun d => d <| messages := rest |>) (taken m) (given m ++ [(p, msg)]) Hi Hd) as Ho.
  destruct m. apply Ho; cbn; clear Ho.
  - intros e He. rewrite of_key_snoc, decide_True by done.
    pose proof (mi_kept _ Hi p e d He Hd) as E. cbn in E. rewrite <- E, Hm. by rewrite <- app_assoc.
  - intros q e Hq _. rewrite of_key_snoc, decide_False by done. by rewrite app_nil_r.
  - intros k Hk. by apply (mi_issued _ Hi).
  - apply Forall_app. split; [apply Hi|]. constructor; [|constructor]. by apply lookup_lt_Some in Hd.
Qed.

Lemma queue_inv m h p d msg :
  mgr_inv m -> dv_find_id h (local_endpoints m) = Some p -> objects m !! p = Some d ->
  mgr_inv (m <| taken ::= fun l => l ++ [(h, msg)] |>
             <| objects ::= alter (fun d => d <| messages ::= fun q => q ++ [msg] |>) p |>).
Proof.
  intros Hi Hp Hd. destruct (mi_found _ Hi h p Hp) as (e0 & He0 & <-).
  pose proof (inv_object m p d (fun d => d <| messages ::= fun q => q ++ [msg] |>)
    (taken m ++ [(handle e0, msg)]) (given m) Hi Hd) as Ho.
  destruct m. apply Ho; cbn in *; clear Ho.
  - intros e He. assert (e = e0) as -> by congruence. rewrite of_key_snoc, decide_True by done.
    pose proof (mi_kept _ Hi p e0 d He0 Hd) as E. cbn in E. rewrite <- E. by rewrite <- app_assoc.
  - intros q e Hq He. split; [done|]. rewrite of_key_snoc, decide_False; [by rewrite app_nil_r|].
    intros E. pose proof (pl_found _ _ _ (mi_placed _ Hi q e He)) as F. cbn in F. rewrite <- E in F. congruence.
  - intros k Hk. destruct (mi_issued _ Hi k Hk) as [Hf Ht]. apply Forall_app. split; [done|].
    constructor; [|constructor]. by apply (Hf _ p).
  - apply Hi.
Qed.

(** a message for a handle that is not one of the endpoints *)
Lemma unknown_inv m h msg :
  mgr_inv m -> dv_find_id h (local_endpoints m) = None -> (forall k, coreObject m = Some k -> issued k h) ->
  mgr_inv (m <| taken ::= fun l => l ++ [(h, msg)] |>).
Proof.
  intros Hi Hn Hk. pose proof Hi as []. destruct m. cbn in *. split; cbn; try done.
  - intros q e He. by destruct (mi_placed0 q e He).
  - intros k Ek. destruct (mi_issued0 k Ek). split; [done|]. apply Forall_app. split; [done|].
    constructor; [|constructor]. by apply Hk.
  - intros q e d He Hd. rewrite of_key_snoc, decide_False; [rewrite app_nil_r; eauto|].
    intros ->. pose proof (pl_found _ _ _ (mi_placed0 q e He)) as F. cbn in F. congruence.
Qed.

(** a new endpoint *)
Lemma store_end l p : store (length l) p l = l ++ [Some p].
Proof. unfold store. by rewrite bool_decide_true. Qed.

Lemma register_inv m k h name p c' :
  mgr_inv m -> coreObject m = Some k -> issued k h -> dv_find_id h (local_endpoints m) = None ->
  Forall (fun r => fst r <> h) (taken m) ->
  dv_insert name (Some h) (mkEndpoint h (-1) (Some (length (objects m))) name) (local_endpoints m) = (Some p, c') ->
  mgr_inv (m <| local_endpoints := dv_modify_back (fun e => e <| referenceIndex := int32 (Z.of_nat p) |>) c' |>
             <| objects := objects m ++ [mkData [] None] |> <| eptData ::= store p (length (objects m)) |>).
Proof.
  intros Hi Hk Hh Hn Ht Hc. pose proof (issued_bound k h Hh) as Hb.
  pose proof (new_place_bound m h Hi Hb Hn) as Hp.
  pose proof (es_insert _ name h (mkEndpoint h (-1) (Some (length (objects m))) name) _ Hn) as He. rewrite Hc in He.
  destruct He as (-> & He & Hf). pose proof Hi as []. destruct m as [eps ac ct co ob ed tk gv]. cbn in *.
  assert (Hel : dv_elements (dv_modify_back (fun e => e <| referenceIndex := int32 (Z.of_nat (length (dv_elements eps))) |>) c')
    = dv_elements eps ++ [mkEndpoint h (Z.of_nat (length ob)) (Some (length ob)) name]).
  { unfold dv_modify_back. rewrite dv_modify_elements, He, length_app. cbn.
    replace (pred (length (dv_elements eps) + 1)) with (length (dv_elements eps) + 0)%nat by lia.
    rewrite alter_app_r, mi_length0. cbn.
    rewrite swrap_id; [done|lia|unfold in_signed; lia]. }
  assert (Hid : forall h', dv_find_id h' (dv_modify_back (fun e => e <| referenceIndex := int32 (Z.of_nat (length (dv_elements eps))) |>) c')
    = if decide (h = h') then Some (length ob) else dv_find_id h' eps).
  { intros h'. unfold dv_modify_back. by rewrite dv_modify_id, Hf, mi_length0. }
  rewrite mi_length0 in *. set (eps' := dv_modify_back _ c') in *. clearbody eps'.
  split; cbn; rewrite ?length_app, ?Hel, ?length_app.
  - rewrite mi_data0. replace (length ob) with (length (Some <$> seq 0 (length ob))) at 1 by (by rewrite length_fmap, length_seq).
    rewrite store_end, seq_app, fmap_app. done.
  - cbn. lia.
  - intros q e Hq. apply lookup_snoc_Some in Hq as [[Hl Hq]|[-> <-]].
    + destruct (mi_placed0 q e Hq). cbn in *. split; cbn; try done. rewrite Hid, decide_False; [done|congruence].
    + rewrite mi_length0. split; cbn; try done. by rewrite Hid, decide_True.
  - intros h' q. rewrite Hid. destruct (decide (h = h')) as [<-|].
    + intros [= <-]. exists (mkEndpoint h (Z.of_nat (length ob)) (Some (length ob)) name). split; [|done].
      apply lookup_snoc_Some. right. by rewrite mi_length0.
    + intros Hq. destruct (mi_found0 h' q Hq) as (e & He' & Hh'). exists e. split; [|done]. by apply lookup_app_l_Some.
  - intros k' Ek. destruct (mi_issued0 k' Ek). split; [|done]. intros h' q. rewrite Hid.
    destruct (decide (h = h')) as [<-|]; [intros _; congruence|eauto].
  - eapply Forall_impl; [exact mi_given0|]. cbn. lia.
  - intros q e d Hq Hd. apply lookup_snoc_Some in Hq as [[Hl Hq]|[-> <-]].
    + rewrite lookup_app_l in Hd by (rewrite <- mi_length0; done). eauto.
    + rewrite mi_length0, lookup_app_r, Nat.sub_diag in Hd by lia. cbn in Hd. simplify_eq/=.
      rewrite app_nil_r, mi_length0. rewrite !of_key_fresh; [done|done|].
      eapply Forall_impl; [exact mi_given0|]. cbn. lia.
Qed.

(** ** Operations *)

Lemma register_preserves name type : preserves mgr_inv (registerEndpoint (C := C) (K := K) name type).
Proof.
  intros m r m' Hi Hr. split; [|done]. revert Hr.
  unfold registerEndpoint, andThen. cbv [bind_first mbind M_bind].
  destruct (in_core _ m) as [[[e|h] m1]|] eqn:E; [by intros [= <- <-]; eapply in_core_inv in E as [? _]; eauto using register_keeps| |done].
  pose proof (in_core_inv _ (register_keeps name type) m _ _ Hi E) as [Hi1 _].
  unfold in_core, mbind, option_bind in E. destruct (coreObject m) as [k|] eqn:Ek; [|done].
  destruct (mc_registerEndpoint name type k) as [[r0 k']|] eqn:Er; simplify_eq/=.
  destruct (register_issues name type k h k' Er) as [Hno Hyes]. destruct (mi_issued _ Hi k Ek) as [Hf Ht].
  destruct (InterfaceHandle.isValid h); [|by intros [= <- <-]].
  destruct (dv_insert _ _ _ _) as [[p|] c'] eqn:Ec.
  - cbv [gets modifies deref]. destruct (last _); [|done]. intros [= <- <-].
    eapply (register_inv _ k' h name p c' Hi1); cbn; try done.
    + destruct (dv_find_id h (local_endpoints m)) eqn:F; [|done]. by apply Hf in F.
    + eapply Forall_impl; [exact Ht|]. intros x Hx E. cbn in Hx. by rewrite E in Hx.
  - cbv [gets modifies]. intros [= <- <-].
    pose proof (es_insert _ name h (mkEndpoint h (-1) (Some (length (objects m))) name) (local_endpoints m)) as He.
    cbn in Ec. rewrite Ec in He. rewrite He; [by destruct m|].
    destruct (dv_find_id h (local_endpoints m)) eqn:F; [|done]. by apply Hf in F.
Qed.

Lemma pop_preserves p : preserves mgr_inv (pop (C := C) (K := K) p).
Proof.
  intros m r m' Hi Hr. split; [|done]. revert Hr. unfold pop, object_at. cbv [bind_first mbind M_bind gets deref].
  destruct (objects m !! p) as [d|] eqn:Ed; [|done]. destruct (messages d) as [|msg rest] eqn:Em; [by intros [= <- <-]|].
  intros [= <- <-]. by apply (pop_state_inv m p d).
Qed.

Lemma first_message_preserves l : preserves mgr_inv (first_message (C := C) (K := K) l).
Proof.
  induction l as [|q l IH]; cbn; [apply preserves_ret|].
  apply preserves_bind; [apply preserves_deref|]. intros p. apply preserves_bind.
  - unfold object_at. apply preserves_bind; [apply preserves_gets|intros; apply preserves_deref].
  - intros d. destruct (bool_decide _); [done|]. apply preserves_bind; [apply pop_preserves|].
    intros [|]; [apply preserves_ret|done].
Qed.

Lemma ignoring_preserves (I : MessageFederateManager C K -> Prop) {A} (c : St (MessageFederateManager C K) A) :
  preserves I c -> preserves I (ignoring c).
Proof. intros Hc. apply preserves_bind; [done|intros; apply preserves_skip]. Qed.

Lemma run_call_preserves c : preserves mgr_inv (run_call (C := C) (K := K) c).
Proof.
  destruct c; cbn [run_call]; try apply ignoring_preserves.
  - apply register_preserves.
  - apply in_core_inv, source_keeps.
  - apply in_core_inv, source_keeps.
  - apply in_core_inv, destination_keeps.
  - unfold getMessage_of. destruct (dataReference ept); [apply pop_preserves|apply preserves_ret].
  - apply preserves_bind; [apply preserves_gets|apply first_message_preserves].
  - apply in_core_inv, send_keeps.
  - apply in_core_inv, send_event_keeps.
  - apply in_core_inv, send_message_keeps.
  - unfold setEndpointNotificationCallback. destruct (dataReference ept) as [p|]; [|apply preserves_skip].
    intros m r m' Hi Hr. split; [|done]. revert Hr. unfold object_at, set_object. cbv [bind_first mbind M_bind gets deref modifies].
    destruct (objects m !! p) as [d|] eqn:Ed; [|done]. intros [= <- <-]. by apply (set_callback_inv m p d).
  - intros m r m' Hi Hr. split; [|done]. cbv in Hr. injection Hr as <- <-.
    exact (inv_plain m cb (CurrentTime m) Hi).
Qed.

Context (program : nat -> Endpoint -> Time -> MessageFederateManager C K -> list call).

Lemma tell_preserves mcall d e : preserves mgr_inv (tell program mcall d e).
Proof.
  assert (forall cb, preserves mgr_inv (run_callback program cb e)) as Hc.
  { intros cb m r m' Hi Hr. unfold run_callback in Hr.
    eapply preserves_for_each; [|exact Hi|exact Hr]. intros c _. apply run_call_preserves. }
  unfold tell. destruct (callback d); [apply Hc|]. destruct mcall; [apply Hc|apply preserves_skip].
Qed.

(** what a delivery finds: the object of the endpoint *)
Lemma delivery_object m h p :
  mgr_inv m -> dv_find_id h (local_endpoints m) = Some p ->
  exists e d, dv_get_id h (local_endpoints m) = Some e /\
    mjoin (eptData m !! Z.to_nat (uint64 (referenceIndex e))) = Some p /\ objects m !! p = Some d.
Proof.
  intros Hi Hp. destruct (mi_found _ Hi h p Hp) as (e & He & <-). pose proof (mi_placed _ Hi p e He) as [Hd Hx _ _].
  pose proof (places_bound m p e Hi He) as Hb.
  assert (p < length (objects m))%nat as Hl by (rewrite <- (mi_length _ Hi); by apply lookup_lt_Some in He).
  destruct (lookup_lt_is_Some_2 _ _ Hl) as [d Ed]. exists e, d. split_and!; [|  |done].
  - unfold dv_get_id. rewrite Hp. exact He.
  - rewrite Hx, uwrap_id by (unfold in_unsigned; lia). rewrite Nat2Z.id, (mi_data _ Hi), list_lookup_fmap, lookup_seq_lt by done. done.
Qed.

Lemma deliver_inv mcall h msg m m' :
  mgr_inv m -> (forall k, coreObject m = Some k -> issued k h) ->
  deliver program mcall h msg m = Some (tt, m') -> mgr_inv m'.
Proof.
  intros Hi Hh. unfold deliver. cbv [bind_first mbind M_bind gets modifies]. cbn [local_endpoints].
  destruct (dv_find_id h (local_endpoints m)) as [p|] eqn:Ep.
  - destruct (delivery_object m h p Hi Ep) as (e & d & Eg & Ej & Ed). cbn. rewrite Eg. unfold deref. cbn.
    rewrite Ej. unfold object_at, set_object. cbv [bind_first mbind M_bind gets modifies deref]. cbn. rewrite Ed.
    intros Hr. eapply preserves_inv; [apply tell_preserves| |exact Hr]. exact (queue_inv m h p d msg Hi Ep Ed).
  - cbn. unfold dv_get_id. rewrite Ep. cbn. intros [= <-]. by apply unknown_inv.
Qed.

Lemma fetch_preserves n mcall : forall h, preserves mgr_inv (fetch program n mcall h).
Proof.
  induction n as [|n IH]; intros h; cbn [fetch]; [apply preserves_ret|].
  intros m r m' Hi Hr. split; [|done]. revert Hr. unfold andThen. cbv [bind_first mbind M_bind].
  destruct (in_core _ m) as [[[e|[[msg|] h']] m1]|] eqn:E; try done.
  all: pose proof (in_core_inv _ (receive_keeps h) m _ _ Hi E) as [Hi1 _]; cbn.
  - by intros [= <- <-].
  - destruct (deliver program mcall h' msg m1) as [[[] m2]|] eqn:Ed; [|done]. intros Hr.
    eapply preserves_inv; [apply IH| |exact Hr]. eapply deliver_inv; [exact Hi1| |exact Ed].
    intros k Hk. unfold in_core, mbind, option_bind in E. destruct (coreObject m) as [k0|]; [|done].
    destruct (mc_receiveAny h k0) as [[r0 k']|] eqn:Er; simplify_eq/=. by eapply receive_issued.
  - by intros [= <- <-].
Qed.

Lemma updateTime_preserves t : preserves mgr_inv (updateTime program t).
Proof.
  unfold updateTime. apply preserves_bind; [apply preserves_modifies; intros m Hi; exact (inv_plain m (allCallback m) t Hi)|].
  intros _. apply preserves_bind; [apply in_core_inv, count_keeps|]. intros [e|n]; [apply preserves_ret|].
  apply preserves_bind; [apply preserves_gets|]. intros. apply fetch_preserves.
Qed.

(** ** Coming back *)

Definition connected m : Prop := is_Some (coreObject m).

Lemma in_core_connected {A} (c : St K (exn + A)) : preserves connected (in_core (C := C) c).
Proof.
  intros m r m' _ Hr. split; [|done]. unfold in_core, mbind, option_bind in Hr.
  destruct (coreObject m); [|done]. destruct (c k) as [[]|]; simplify_eq/=. by eexists.
Qed.

Lemma modifies_connected (f : MessageFederateManager C K -> MessageFederateManager C K) :
  (forall m, coreObject (f m) = coreObject m) -> preserves connected (modifies f).
Proof. intros Hf. apply preserves_modifies. unfold connected. intros m Hm. by rewrite Hf. Qed.

Lemma pop_connected p : preserves connected (pop (C := C) (K := K) p).
Proof. unfold pop, object_at, set_object, bind_first. repeat state_step; by apply modifies_connected. Qed.

Lemma first_message_connected l : preserves connected (first_message (C := C) (K := K) l).
Proof. induction l as [|q l IH]; cbn; unfold object_at, bind_first; repeat state_step; auto using pop_connected. Qed.

Lemma run_call_connected c : preserves connected (run_call (C := C) (K := K) c).
Proof.
  destruct c; cbn [run_call]; try (apply ignoring_preserves); try apply in_core_connected.
  - unfold registerEndpoint, andThen, throws, gives, bind_first. repeat state_step; try apply in_core_connected; by apply modifies_connected.
  - unfold getMessage_of, bind_first. repeat state_step. apply pop_connected.
  - unfold getMessage, bind_first. repeat state_step. apply first_message_connected.
  - unfold setEndpointNotificationCallback, object_at, set_object, bind_first. repeat state_step. by apply modifies_connected.
  - by apply modifies_connected.
Qed.

Lemma tell_connected mcall d e : preserves connected (tell program mcall d e).
Proof.
  assert (forall cb, preserves connected (run_callback program cb e)) as Hc.
  { intros cb m r m' Hi Hr. eapply preserves_for_each; [|exact Hi|exact Hr]. intros c _. apply run_call_connected. }
  unfold tell. repeat state_step; auto.
Qed.

(** the callbacks of the user come back *)
Definition callbacks_return : Prop := forall cb e m, mgr_inv m -> is_Some (run_callback program cb e m).
(** so does the core *)
Definition core_returns : Prop := (forall h k, is_Some (mc_receiveAny h k)) /\ (forall k, is_Some (mc_receiveCountAny k)).

Lemma tell_returns mcall d e m : callbacks_return -> mgr_inv m -> is_Some (tell program mcall d e m).
Proof.
  intros Hc Hi. unfold tell. destruct (callback d); [by apply Hc|]. destruct mcall; [by apply Hc|by eexists].
Qed.

Lemma deliver_returns mcall h msg m :
  callbacks_return -> mgr_inv m -> connected m ->
  exists m', deliver program mcall h msg m = Some (tt, m') /\ connected m'.
Proof.
  intros Hc Hi Hm. unfold deliver. cbv [bind_first mbind M_bind gets modifies]. cbn.
  destruct (dv_find_id h (local_endpoints m)) as [p|] eqn:Ep.
  - destruct (delivery_object m h p Hi Ep) as (e & d & Eg & Ej & Ed). rewrite Eg. unfold deref. cbn.
    rewrite Ej. unfold object_at, set_object. cbv [bind_first mbind M_bind gets modifies deref]. cbn. rewrite Ed.
    pose proof (queue_inv m h p d msg Hi Ep Ed) as Hq.
    destruct (tell_returns mcall d e _ Hc Hq) as [[[] m'] E]. exists m'. split; [exact E|].
    eapply preserves_inv; [apply tell_connected| |exact E]. exact Hm.
  - unfold dv_get_id. rewrite Ep. cbn. eexists. by split.
Qed.

Lemma in_core_run {A} (c : St K (exn + A)) m :
  (forall k, is_Some (c k)) -> connected m -> exists r m', in_core (C := C) c m = Some (r, m').
Proof.
  intros Hc [k Hk]. unfold in_core. cbv [mbind option_bind]. rewrite Hk. destruct (Hc k) as [[r k'] ->]. eauto.
Qed.

Lemma fetch_returns n mcall : callbacks_return -> core_returns -> forall h m,
  mgr_inv m -> connected m -> is_Some (fetch program n mcall h m).
Proof.
  intros Hc [Ha _]. induction n as [|n IH]; intros h m Hi Hm; cbn [fetch]; [by eexists|].
  destruct (in_core_run (mc_receiveAny h) m (Ha h) Hm) as (r & m1 & E).
  pose proof (in_core_inv _ (receive_keeps h) m _ _ Hi E) as [Hi1 _].
  pose proof (in_core_connected _ _ _ _ Hm E) as [Hm1 _].
  unfold andThen. cbv [bind_first mbind M_bind]. rewrite E. destruct r as [e|[[msg|] h']]; cbn; try by eexists.
  destruct (deliver_returns mcall h' msg m1 Hc Hi1 Hm1) as (m2 & E2 & Hm2). rewrite E2. apply IH; [|done].
  eapply deliver_inv; [exact Hi1| |exact E2]. intros k Hk. unfold in_core, mbind, option_bind in E.
  destruct (coreObject m) as [k0|]; [|done]. destruct (mc_receiveAny h k0) as [[r0 k']|] eqn:Er; simplify_eq/=.
  by eapply receive_issued.
Qed.

Lemma updateTime_returns t m :
  callbacks_return -> core_returns -> mgr_inv m -> connected m -> is_Some (updateTime program t m).
Proof.
  intros Hc Hk Hi Hm. unfold updateTime, andThen. cbv [bind_first mbind M_bind modifies].
  pose proof (inv_plain m (allCallback m) t Hi) as Hi0.
  match goal with |- context [in_core ?c ?s] => destruct (in_core_run c s (proj2 Hk) Hm) as (r & m1 & E) end.
  rewrite E.
  destruct r as [e|n]; [by eexists|]. cbv [gets]. apply fetch_returns; try done.
  - eapply (in_core_inv _ count_keeps); [|exact E]. exact Hi0.
  - eapply in_core_connected; [|exact E]. exact Hm.
Qed.

(** ** Reading *)

(** the queues, in the order of the endpoints *)
Definition queued m : list Message := mjoin (messages <$> objects m).

Lemma first_message_reads m : forall l,
  Forall (fun p => is_Some (objects m !! p)) l ->
  exists m', first_message (Some <$> l) m = Some (head (mjoin (default [] <$> ((fun p => messages <$> objects m !! p) <$> l))), m').
Proof.
  induction 1 as [|p l [d Hd] _ [m' IH]]; [by eexists|].
  cbn. unfold object_at. cbv [bind_first mbind M_bind deref gets]. rewrite Hd. cbn.
  destruct (messages d) as [|msg rest] eqn:Em; cbn; [by rewrite IH; eexists|].
  unfold pop, object_at, set_object. cbv [bind_first mbind M_bind deref gets modifies]. rewrite Hd, Em. by eexists.
Qed.

Lemma queues_in_order m :
  default [] <$> ((fun p => messages <$> objects m !! p) <$> seq 0 (length (objects m))) = messages <$> objects m.
Proof.
  apply list_eq. intros i. rewrite !list_lookup_fmap. destruct (objects m !! i) as [d|] eqn:E.
  - rewrite lookup_seq_lt by (by eapply lookup_lt_Some). cbn. by rewrite E.
  - apply lookup_ge_None in E. by rewrite lookup_seq_ge.
Qed.

Lemma getMessage_reads m : mgr_inv m -> exists m', getMessage m = Some (head (queued m), m').
Proof.
  intros Hi. unfold getMessage. cbv [bind_first mbind M_bind gets]. rewrite (mi_data _ Hi). unfold queued.
  rewrite <- queues_in_order. apply first_message_reads, Forall_forall.
  intros p Hp. apply elem_of_seq in Hp. apply lookup_lt_is_Some. lia.
Qed.

Lemma getMessage_of_reads m p e d :
  dataReference e = Some p -> objects m !! p = Some d -> exists m', getMessage_of e m = Some (head (messages d), m').
Proof.
  intros He Hd. unfold getMessage_of, pop, object_at, set_object. rewrite He.
  cbv [bind_first mbind M_bind deref gets modifies]. rewrite Hd. destruct (messages d); by eexists.
Qed.

(** ** What users do with a federate *)

Inductive use := Do (c : call) | Advance (t : Time) | Disconnect.

Definition run_use (u : use) : St (MessageFederateManager C K) unit :=
  match u with
  | Do c => run_call c
  | Advance t => ignoring (updateTime program t)
  | Disconnect => disconnect
  end.

Lemma run_use_preserves u : preserves mgr_inv (run_use u).
Proof.
  destruct u; cbn; [apply run_call_preserves|apply ignoring_preserves, updateTime_preserves|].
  apply preserves_modifies. intros m []. destruct m. cbn in *. split; cbn; try done.
  intros p e Hp. by destruct (mi_placed0 p e Hp).
Qed.

Lemma new_manager_inv k : mgr_inv (new_manager k).
Proof.
  split; cbn; rewrite ?dv_elements_empty; try done.
  - intros h p. by rewrite dv_id_empty.
  - intros k' _. split; [intros h p; by rewrite dv_id_empty|constructor].
Qed.

Lemma uses_inv (uses : list use) k m : for_each uses run_use (new_manager k) = Some (tt, m) -> mgr_inv m.
Proof.
  intros Hr. eapply preserves_inv; [|apply (new_manager_inv k)|exact Hr].
  apply preserves_for_each. intros u _. apply run_use_preserves.
Qed.
End Kept.

(** ** Claims *)

Section Claims.
Context {C : Type -> Type} `{EndpointStore C} {K : Type} `{HandleLaws K}.
Context (program : nat -> Endpoint -> Time -> MessageFederateManager C K -> list call).

(** C11: Every message reaches the user once and in order.  Whatever a user and
    his callbacks do with a federate, its endpoints, messages and callbacks, and
    whenever time advances: what the user got from an endpoint, followed by what
    waits in it, is what the core gave for the handle of the endpoint, in order.
    The next message of the endpoint is the first of these the user did not
    get; a call for any message takes the endpoints in the order of their
    creation; and an advance of time comes back when the core and the callbacks
    do. *)
Theorem messages_reach_user_once (k : K) (uses : list use) (m : MessageFederateManager C K) :
  for_each uses (run_use program) (new_manager k) = Some (tt, m) ->
  (forall p e, dv_elements (local_endpoints m) !! p = Some e ->
    exists d, objects m !! p = Some d /\ dataReference e = Some p /\
      of_key p (given m) ++ messages d = of_key (handle e) (taken m) /\
      exists m', getMessage_of e m = Some (of_key (handle e) (taken m) !! length (of_key p (given m)), m')) /\
  (exists m', getMessage m = Some (head (queued m), m')) /\
  (forall t, callbacks_return program -> core_returns (K := K) -> connected m -> is_Some (updateTime program t m)).
Proof.
  intros Hr. pose proof (uses_inv program uses k m Hr) as Hi. split_and!.
  - intros p e He. pose proof (mi_placed _ Hi p e He) as [Hd _ _ _].
    assert (p < length (objects m))%nat as Hl by (rewrite <- (mi_length _ Hi); by apply lookup_lt_Some in He).
    destruct (lookup_lt_is_Some_2 _ _ Hl) as [d Ed]. exists d. pose proof (mi_kept _ Hi p e d He Ed) as Hk.
    split_and!; try done. rewrite <- Hk, lookup_app_r, Nat.sub_diag by lia.
    destruct (getMessage_of_reads m p e d Hd Ed) as [m' ->]. exists m'. by destruct (messages d).
  - by apply getMessage_reads.
  - intros t Hc Hk Hm. by apply updateTime_returns.
Qed.
End Claims.

(** ** Example

    A core that issues the handles 0, 1, .. and has messages to give. *)

Record post := mkPost { next_handle : Z; mail : list (interface_handle * Message) }.

Definition idle {A} (a : A) : St post (exn + A) := mret (inr a).

#[export] Instance post_core : MessageCore post := {|
  mc_registerEndpoint _ _ := fun k =>
    if (0 <=? next_handle k) && (next_handle k <? 2 ^ 31) then Some (inr (next_handle k), mkPost (next_handle k + 1) (mail k))
    else Some (inl (RegistrationFailure "no handle is left"), k);
  mc_receiveCountAny := fun k => Some (inr (Z.of_nat (length (mail k))), k);
  mc_receiveAny _ := fun k =>
    match mail k with
    | (h, m) :: rest =>
        if (0 <=? h) && (h <? next_handle k) && (h <? 2 ^ 31) then Some (inr (Some m, h), mkPost (next_handle k) rest)
        else Some (inr (None, InterfaceHandle.invalid), mkPost (next_handle k) rest)
    | [] => Some (inr (None, InterfaceHandle.invalid), k)
    end;
  mc_send _ _ _ := idle tt;
  mc_sendEvent _ _ _ _ := idle tt;
  mc_sendMessage _ _ := idle tt;
  mc_addSourceTarget _ _ := idle tt;
  mc_addDestinationTarget _ _ := idle tt;
|}.

#[export] Instance post_issues : Issues post := fun k h => 0 <= h < next_handle k /\ h < 2 ^ 31.

#[export] Instance post_laws : HandleLaws post.
Proof.
  split; unfold keeps_handles, issued, post_issues, post_core, mc_registerEndpoint, mc_receiveAny, mc_receiveCountAny,
    mc_send, mc_sendEvent, mc_sendMessage, mc_addSourceTarget, mc_addDestinationTarget, idle; try (intros; lia).
  all: intros; try (injection H as <- <-; assumption).
  all: repeat (case_match; simplify_eq/=); try lia.
Qed.

#[export] Instance list_endpoint_store : EndpointStore ListVector.t.
Proof.
  intros V k i v c Hn. unfold dv_insert, dv_elements, dv_find_id in *. cbn in *. unfold ListVector.insert.
  rewrite ListVector.takes_id by done. split; [by rewrite length_fmap|]. split; [by rewrite fmap_app|].
  intros i'. unfold ListVector.find_id in *. apply ListVector.find_name_none in Hn.
  destruct (decide (i = i')) as [<-|Hne].
  - rewrite ListVector.list_find_snoc by done. rewrite decide_True; [done|]. cbn. set_solver.
  - rewrite ListVector.list_find_snoc_ne; [done|]. cbn. set_solver.
Qed.

(** Two endpoints; the callback of the second one reads a message of the first
    and then one of its own. *)
Definition letter (text : string) : Message := mkMessage 0 0 0 text "" "" "" "".
Definition letters : post :=
  mkPost 0 [(0, letter "a"); (1, letter "b"); (0, letter "c"); (1, letter "d")].
Definition endpoint (p : nat) (name : string) : Endpoint := mkEndpoint (Z.of_nat p) (Z.of_nat p) (Some p) name.
Definition reader (cb : nat) (e : Endpoint) (t : Time) (m : MessageFederateManager ListVector.t post) : list call :=
  [GetMessage (endpoint 0 "A"); GetMessage e].
Definition uses : list use :=
  [Do (Register "A" ""); Do (Register "B" ""); Do (SetCallback (endpoint 1 "B") (Some 0%nat)); Advance 5].

#[local] Existing Instance ListVector.list_dual_vector.
#[local] Existing Instance ListVector.list_dual_laws.

Definition after_uses : MessageFederateManager ListVector.t post :=
  match for_each uses (run_use reader) (new_manager letters) with Some (_, m) => m | None => new_manager letters end.

Lemma after_uses_run : for_each uses (run_use reader) (new_manager letters) = Some (tt, after_uses).
Proof. vm_compute. reflexivity. Qed.

Lemma messages_reach_user_once_witness :
  given after_uses = [(0%nat, letter "a"); (1%nat, letter "b"); (0%nat, letter "c"); (1%nat, letter "d")] /\
  of_key 0%nat (given after_uses) = of_key 0 (taken after_uses) /\
  exists m', getMessage after_uses = Some (head (queued after_uses), m').
Proof.
  destruct (messages_reach_user_once reader letters uses after_uses after_uses_run) as (He & Hm & _).
  split; [vm_compute; reflexivity|]. split; [|exact Hm].
  destruct (He 0%nat (endpoint 0 "A") ltac:(vm_compute; reflexivity)) as (d & Hd & _ & Hk & _).
  assert (messages d = []) as Hn by (vm_compute in Hd; injection Hd as <-; reflexivity).
  rewrite Hn, app_nil_r in Hk. exact Hk.
Defined.
