(* ===== verification/Base64.v ===== *)
(** * Base 64

    Models [src/helics/common/base64.cpp] with the character map of
    [charMapper.h] and [charMapper.cpp] that it uses.  A [std::string] is a list
    of characters, an [unsigned char] a number below 256.  [None] is a read
    outside a buffer or a signed overflow, which C++ leaves undefined. *)

From Stdlib Require Import Ascii.
From S2P Require Import Prelude.

(** ** Characters *)

Definition code (c : ascii) : Z := Z.of_N (N_of_ascii c).
Definition char_of (z : Z) : ascii := ascii_of_N (Z.to_N (uwrap 8 z)).
Definition chars : string -> list ascii := String.list_ascii_of_string.
Definition byte (z : Z) : Prop := 0 <= z < 256.

Lemma code_byte c : byte (code c).
Proof. unfold byte, code. pose proof (N_ascii_bounded c). lia. Qed.

Lemma char_of_code c : char_of (code c) = c.
Proof.
  unfold char_of. rewrite uwrap_id by (pose proof (code_byte c); unfold in_unsigned, byte in *; lia).
  unfold code. rewrite N2Z.id. apply ascii_N_embedding.
Qed.

Lemma code_char_of z : byte z -> code (char_of z) = z.
Proof.
  intros Hz. unfold code, char_of. rewrite uwrap_id by (unfold in_unsigned, byte in *; lia).
  rewrite N_ascii_embedding by (unfold byte in Hz; lia). unfold byte in Hz. lia.
Qed.

Lemma codes_of_chars (l : list Z) : Forall byte l -> code <$> (char_of <$> l) = l.
Proof. induction 1; cbn; [done|]. f_equal; [by apply code_char_of|done]. Qed.

Lemma chars_of_codes (l : list ascii) : char_of <$> (code <$> l) = l.
Proof. induction l; cbn; [done|]. f_equal; [apply char_of_code|done]. Qed.

(** ** The character map *)

Record CharMapper := { key : list Z }.

Definition fill (defVal : Z) : CharMapper := {| key := replicate 256 defVal |}.
Definition addKey (x val : Z) (m : CharMapper) : CharMapper := {| key := <[Z.to_nat x := val]> (key m) |}.
Definition at_char (x : Z) (m : CharMapper) : Z := nth (Z.to_nat x) (key m) 0.

(** one of the loops: the characters from [first] to [last], with the values from [val] on *)
Definition addKeys (first last val : Z) (m : CharMapper) : CharMapper :=
  foldl (fun m k => addKey (first + Z.of_nat k) (val + Z.of_nat k) m) m (seq 0 (Z.to_nat (last - first + 1))).

Definition base64Mapper : CharMapper :=
  let b64 := fill 255 in
  let b64 := addKeys (code "A") (code "Z") 0 b64 in
  let b64 := addKeys (code "a") (code "z") 26 b64 in
  let b64 := addKeys (code "0") (code "9") 52 b64 in
  let b64 := addKey (code "+") 62 b64 in
  addKey (code "/") 63 b64.

Definition base64_chars : list ascii :=
  chars "ABCDEFGHIJKLMNOPQRSTUVWXYZabcdefghijklmnopqrstuvwxyz0123456789+/".

Definition b64Map (x : Z) : Z := at_char x base64Mapper.
Definition is_base64 (c : ascii) : bool := b64Map (code c) <? 255.

(** ** Encoding *)

(** [char_array_4] from [char_array_3] *)
Definition encode_group (c0 c1 c2 : Z) : list Z :=
  [Z.shiftr (Z.land c0 252) 2;
   uwrap 8 (Z.shiftl (Z.land c0 3) 4 + Z.shiftr (Z.land c1 240) 4);
   uwrap 8 (Z.shiftl (Z.land c1 15) 2 + Z.shiftr (Z.land c2 192) 6);
   Z.land c2 63].

Definition base64_char (v : Z) : ascii := nth (Z.to_nat v) base64_chars "000"%char.

Definition put_group (arr : list Z) : list ascii :=
  base64_char <$> encode_group (nth 0 arr 0) (nth 1 arr 0) (nth 2 arr 0).

(** after the loop, with [ii] bytes in the array *)
Definition encode_rest (arr : list Z) (ret : list ascii) : list ascii :=
  match arr with
  | [] => ret
  | _ => ret ++ take (S (length arr)) (put_group (arr ++ replicate (3 - length arr) 0)) ++
         replicate (3 - length arr) "="%char
  end.

(** the loop; the array holds the [ii] bytes of the group so far *)
Fixpoint encode_loop (bytes : list Z) (in_len : Z) (arr : list Z) (ret : list ascii) : option (list ascii) :=
  if in_len =? 0 then Some (encode_rest arr ret)
  else
    match bytes with
    | [] => None
    | c :: bytes' =>
        let arr := arr ++ [c] in
        if bool_decide (length arr = 3%nat) then encode_loop bytes' (in_len - 1) [] (ret ++ put_group arr)
        else encode_loop bytes' (in_len - 1) arr ret
    end.

Definition base64_encode (bytes_to_encode : list Z) (in_len : Z) : option (list ascii) :=
  encode_loop bytes_to_encode in_len [] [].

(** ** Decoding *)

(** [encoded_string[in_]]: the end of a string reads as the null character. *)
Definition char_at (s : list ascii) (in_ : Z) : option ascii :=
  if in_ <? 0 then None
  else if in_ =? Z.of_nat (length s) then Some "000"%char
  else s !! Z.to_nat in_.

Definition next_in (in_ : Z) : option Z := if in_ <? 2 ^ 31 - 1 then Some (in_ + 1) else None.

(** [char_array_3] from the characters in [char_array_4] *)
Definition decode_group (arr : list ascii) : list Z :=
  let v k := b64Map (code (nth k arr "000"%char)) in
  [uwrap 8 (Z.shiftl (v 0%nat) 2 + Z.shiftr (Z.land (v 1%nat) 48) 4);
   uwrap 8 (Z.shiftl (Z.land (v 1%nat) 15) 4 + Z.shiftr (Z.land (v 2%nat) 60) 2);
   uwrap 8 (Z.shiftl (Z.land (v 2%nat) 3) 6 + v 3%nat)].

(** after the loop, with [i] characters in the array *)
Definition decode_rest (arr : list ascii) : list Z := take (pred (length arr)) (decode_group arr).

Definition stops (c : ascii) : bool := bool_decide (c = "="%char) || negb (is_base64 c).

Fixpoint decode_loop (s : list ascii) (in_len : nat) (in_ : Z) (arr : list ascii) (ret : list Z) : option (list Z) :=
  match in_len with
  | O => Some (ret ++ decode_rest arr)
  | S in_len' =>
      c ← char_at s in_;
      if stops c then Some (ret ++ decode_rest arr)
      else
        in_' ← next_in in_;
        let arr := arr ++ [c] in
        if bool_decide (length arr = 4%nat) then decode_loop s in_len' in_' [] (ret ++ decode_group arr)
        else decode_loop s in_len' in_' arr ret
  end.

(** [base64_decode (encoded_string, offset)] and [base64_decode_to_string] *)
Definition base64_decode (encoded_string : list ascii) (offset : Z) : option (list Z) :=
  decode_loop encoded_string (length encoded_string) (int32 offset) [] [].

Definition base64_decode_to_string (encoded_string : list ascii) (offset : Z) : option (list ascii) :=
  ret ← decode_loop encoded_string (length encoded_string) (int32 offset) [] [];
  Some (char_of <$> (ret : list Z)).

(** [base64_decode (encoded_string, data, max_size)]: the bytes written, whose
    number is the answer.  The second component says that the function
    returns. *)
Definition store_group (max_size : nat) (out : list Z) (g : list Z) : list Z * bool :=
  if bool_decide (length out + 2 < max_size)%nat then (out ++ g, false)
  else if bool_decide (length out + 1 < max_size)%nat then (out ++ take 2 g, true)
  else if bool_decide (length out < max_size)%nat then (out ++ take 1 g, true)
  else (out, false).

Definition store_rest (max_size : nat) (out : list Z) (l : list Z) : list Z :=
  foldl (fun out c => if bool_decide (length out < max_size)%nat then out ++ [c] else out) out l.

Fixpoint buffer_loop (s : list ascii) (max_size : nat) (in_len : nat) (in_ : Z) (arr : list ascii)
    (out : list Z) : option (list Z) :=
  match in_len with
  | O => Some (store_rest max_size out (decode_rest arr))
  | S in_len' =>
      c ← char_at s in_;
      if stops c then Some (store_rest max_size out (decode_rest arr))
      else
        in_' ← next_in in_;
        let arr := arr ++ [c] in
        if bool_decide (length arr = 4%nat) then
          let '(out, done) := store_group max_size out (decode_group arr) in
          if (done : bool) then Some out else buffer_loop s max_size in_len' in_' [] out
        else buffer_loop s max_size in_len' in_' arr out
  end.

Definition base64_decode_buffer (encoded_string : list ascii) (max_size : nat) : option (list Z) :=
  buffer_loop encoded_string max_size (length encoded_string) 0 [] [].

(** ** The arithmetic of a group *)

(** A test of the numbers below [n] proves it of each. *)
Lemma below_all (P : Z -> bool) n :
  forallb (fun k => P (Z.of_nat k)) (seq 0 n) = true -> forall z, 0 <= z < Z.of_nat n -> P z = true.
Proof.
  rewrite forallb_forall. intros Hall z Hz. rewrite <- (Z2Nat.id z) by lia. apply Hall, in_seq. lia.
Qed.

Ltac by_cases n :=
  let z := fresh "z" in let Hz := fresh "Hz" in
  intros z Hz;
  match goal with |- ?f = ?g =>
    let f' := eval pattern z in f in let g' := eval pattern z in g in
    match f' with ?F _ => match g' with ?G _ =>
      apply Z.eqb_eq; exact (below_all (fun z => F z =? G z) n eq_refl z Hz) end end
  end.

Lemma land_252 : forall z, 0 <= z < 256 -> Z.shiftr (Z.land z 252) 2 = z / 4.
Proof. by_cases 256%nat. Qed.
Lemma land_240 : forall z, 0 <= z < 256 -> Z.shiftr (Z.land z 240) 4 = z / 16.
Proof. by_cases 256%nat. Qed.
Lemma land_192 : forall z, 0 <= z < 256 -> Z.shiftr (Z.land z 192) 6 = z / 64.
Proof. by_cases 256%nat. Qed.
Lemma land_48 : forall z, 0 <= z < 64 -> Z.shiftr (Z.land z 48) 4 = z / 16.
Proof. by_cases 64%nat. Qed.
Lemma land_60 : forall z, 0 <= z < 64 -> Z.shiftr (Z.land z 60) 2 = z / 4.
Proof. by_cases 64%nat. Qed.
Lemma land_63 z : Z.land z 63 = z mod 64.
Proof. exact (Z.land_ones z 6 ltac:(lia)). Qed.
Lemma land_15 z : Z.land z 15 = z mod 16.
Proof. exact (Z.land_ones z 4 ltac:(lia)). Qed.
Lemma land_3 z : Z.land z 3 = z mod 4.
Proof. exact (Z.land_ones z 2 ltac:(lia)). Qed.

(** The six-bit digits of three bytes, read as one number. *)
Definition digits (c0 c1 c2 : Z) : list Z :=
  let n := c0 * 65536 + c1 * 256 + c2 in
  [n / 262144; n / 4096 mod 64; n / 64 mod 64; n mod 64].

Lemma encode_group_digits c0 c1 c2 :
  byte c0 -> byte c1 -> byte c2 -> encode_group c0 c1 c2 = digits c0 c1 c2.
Proof.
  unfold byte, encode_group, digits. intros H0 H1 H2.
  rewrite land_252, land_240, land_192, land_63, land_15, land_3 by lia.
  rewrite !Z.shiftl_mul_pow2 by lia. unfold uwrap. change (2 ^ 4) with 16. change (2 ^ 2) with 4. change (2 ^ 8) with 256.
  do 4 (apply (f_equal2 cons); [Z.to_euclidean_division_equations; lia|]). done.
Qed.

Lemma digits_range c0 c1 c2 : byte c0 -> byte c1 -> byte c2 -> Forall (fun d => 0 <= d < 64) (digits c0 c1 c2).
Proof. unfold byte, digits. intros. repeat constructor; Z.to_euclidean_division_equations; lia. Qed.

Lemma b64Map_char : forall d, 0 <= d < 64 -> b64Map (code (base64_char d)) = d.
Proof. by_cases 64%nat. Qed.

Lemma stops_char d : 0 <= d < 64 -> stops (base64_char d) = false.
Proof.
  intros Hd. apply negb_true_iff. exact (below_all (fun d => negb (stops (base64_char d))) 64 eq_refl d Hd).
Qed.

(** The digits give the bytes back, as far as there are digits. *)
Lemma decode_digits c0 c1 c2 :
  byte c0 -> byte c1 -> byte c2 ->
  decode_group (base64_char <$> digits c0 c1 c2) = [c0; c1; c2] /\
  decode_rest (take 3 (base64_char <$> digits c0 c1 c2)) = [c0; c1] /\
  decode_rest (take 2 (base64_char <$> digits c0 c1 c2)) = [c0].
Proof.
  intros H0 H1 H2. pose proof (digits_range c0 c1 c2 H0 H1 H2) as Hd. unfold digits in *.
  rewrite !Forall_cons in Hd. destruct Hd as (D0 & D1 & D2 & D3 & _).
  set (n := c0 * 65536 + c1 * 256 + c2) in *.
  assert (Hg : forall d3, uwrap 8 (Z.shiftl (n / 262144) 2 + Z.shiftr (Z.land (n / 4096 mod 64) 48) 4) = c0 /\
    uwrap 8 (Z.shiftl (Z.land (n / 4096 mod 64) 15) 4 + Z.shiftr (Z.land (n / 64 mod 64) 60) 2) = c1 /\
    (d3 = n mod 64 -> uwrap 8 (Z.shiftl (Z.land (n / 64 mod 64) 3) 6 + d3) = c2)).
  { intros d3. rewrite land_48, land_60, land_15, land_3, !Z.shiftl_mul_pow2 by lia. unfold uwrap, byte in *.
    change (2 ^ 8) with 256. change (2 ^ 4) with 16. change (2 ^ 2) with 4. change (2 ^ 6) with 64. subst n.
    split_and!; [| |intros ->]; Z.to_euclidean_division_equations; lia. }
  destruct (Hg (n mod 64)) as (E0 & E1 & E2).
  unfold decode_rest, decode_group. cbn [fmap list_fmap take nth length pred].
  rewrite !b64Map_char by done. rewrite E0, E1, (E2 eq_refl). done.
Qed.

(** ** The encoding, as the standard has it (RFC 4648) *)

Fixpoint rfc4648 (l : list Z) : list ascii :=
  match l with
  | [] => []
  | [a] => take 2 (base64_char <$> digits a 0 0) ++ ["="; "="]%char
  | [a; b] => take 3 (base64_char <$> digits a b 0) ++ ["="]%char
  | a :: b :: c :: l' => (base64_char <$> digits a b c) ++ rfc4648 l'
  end.

(** induction by groups of three *)
Lemma group_ind {A} (P : list A -> Prop) :
  P [] -> (forall a, P [a]) -> (forall a b, P [a; b]) ->
  (forall a b c l, P l -> P (a :: b :: c :: l)) -> forall l, P l.
Proof.
  intros H0 H1 H2 H3. fix IH 1. intros [|a [|b [|c l]]]; [apply H0|apply H1|apply H2|apply H3, IH].
Qed.

(** a last group that is not complete *)
Lemma encode_last l rest ret :
  (length l < 3)%nat -> encode_loop (l ++ rest) (Z.of_nat (length l)) [] ret = Some (encode_rest l ret).
Proof. destruct l as [|a [|b [|]]]; cbn -[encode_rest]; intros Hl; by (lia || destruct rest). Qed.

Lemma encode_loop_rfc l : forall rest ret, Forall byte l ->
  encode_loop (l ++ rest) (Z.of_nat (length l)) [] ret = Some (ret ++ rfc4648 l).
Proof.
  induction l as [|a|a b|a b c l IH] using group_ind; intros rest ret Hl; rewrite ?Forall_cons in Hl.
  - rewrite encode_last by (cbn; lia). by rewrite app_nil_r.
  - destruct Hl as [Ha _]. rewrite encode_last by (cbn; lia). unfold encode_rest, put_group. cbn [nth app replicate length Nat.sub].
    by rewrite encode_group_digits by (unfold byte in *; lia).
  - destruct Hl as (Ha & Hb & _). rewrite encode_last by (cbn; lia). unfold encode_rest, put_group. cbn [nth app replicate length Nat.sub].
    by rewrite encode_group_digits by (unfold byte in *; lia).
  - destruct Hl as (Ha & Hb & Hc & Hl).
    assert (Hstep : forall k, 0 <= k -> encode_loop ((a :: b :: c :: l) ++ rest) (k + 3) [] ret =
              encode_loop (l ++ rest) k [] (ret ++ put_group [a; b; c])).
    { intros k Hk. cbn [encode_loop app]. destruct (Z.eqb_spec (k + 3) 0); [lia|].
      rewrite bool_decide_false by done. destruct (Z.eqb_spec (k + 3 - 1) 0); [lia|].
      rewrite bool_decide_false by done. destruct (Z.eqb_spec (k + 3 - 1 - 1) 0); [lia|].
      rewrite bool_decide_true by done. by replace (k + 3 - 1 - 1 - 1) with k by lia. }
    replace (Z.of_nat (length (a :: b :: c :: l))) with (Z.of_nat (length l) + 3) by (cbn [length]; lia).
    rewrite Hstep by lia. rewrite IH by done. unfold put_group. cbn [nth].
    rewrite encode_group_digits by done. rewrite <- app_assoc. done.
Qed.

(** ** Decoding what was encoded *)

Lemma char_at_middle (pre post : list ascii) c : char_at (pre ++ c :: post) (Z.of_nat (length pre)) = Some c.
Proof.
  unfold char_at. destruct (Z.ltb_spec (Z.of_nat (length pre)) 0); [lia|]. rewrite length_app. cbn [length].
  destruct (Z.eqb_spec (Z.of_nat (length pre)) (Z.of_nat (length pre + S (length post)))); [lia|].
  rewrite Nat2Z.id. by apply list_lookup_middle.
Qed.

Lemma char_at_end (pre : list ascii) : char_at pre (Z.of_nat (length pre)) = Some "000"%char.
Proof.
  unfold char_at. rewrite Z.eqb_refl. by destruct (Z.ltb_spec (Z.of_nat (length pre)) 0); [lia|].
Qed.

Lemma decode_one n (pre post : list ascii) c arr ret :
  Z.of_nat (length (pre ++ c :: post)) < 2 ^ 31 -> stops c = false ->
  decode_loop (pre ++ c :: post) (S n) (Z.of_nat (length pre)) arr ret =
    if bool_decide (length (arr ++ [c]) = 4%nat)
    then decode_loop (pre ++ c :: post) n (Z.of_nat (length (pre ++ [c]))) [] (ret ++ decode_group (arr ++ [c]))
    else decode_loop (pre ++ c :: post) n (Z.of_nat (length (pre ++ [c]))) (arr ++ [c]) ret.
Proof.
  intros Hlen Hc. rewrite length_app in Hlen. cbn [length] in Hlen. cbn [decode_loop]. rewrite char_at_middle.
  cbn [mbind option_bind]. rewrite Hc. unfold next_in. destruct (Z.ltb_spec (Z.of_nat (length pre)) (2 ^ 31 - 1)); [|lia].
  cbn [mbind option_bind]. assert (Hk : Z.of_nat (length pre) + 1 = Z.of_nat (length (pre ++ [c]))).
  { rewrite length_app. cbn [length]. lia. }
  by rewrite Hk.
Qed.

(** a run of digits that does not complete a group *)
Lemma decode_some n (cs : list ascii) : forall (pre post : list ascii) arr ret,
  Z.of_nat (length (pre ++ cs ++ post)) < 2 ^ 31 -> Forall (fun c => stops c = false) cs ->
  (length arr + length cs < 4)%nat ->
  decode_loop (pre ++ cs ++ post) (length cs + n) (Z.of_nat (length pre)) arr ret =
    decode_loop (pre ++ cs ++ post) n (Z.of_nat (length (pre ++ cs))) (arr ++ cs) ret.
Proof.
  induction cs as [|c cs IH]; intros pre post arr ret Hlen Hcs Harr; [cbn; by rewrite !app_nil_r|].
  apply Forall_cons in Hcs as [Hc Hcs]. cbn [length Nat.add app] in *. rewrite decode_one by done.
  rewrite bool_decide_false by (rewrite length_app; cbn [length]; lia).
  pose proof (IH (pre ++ [c]) post (arr ++ [c]) ret) as IH'. rewrite <- !app_assoc in IH'. cbn [app] in IH'.
  apply IH'; try done. rewrite length_app. cbn [length]. lia.
Qed.

Lemma decode_four n (pre post : list ascii) c0 c1 c2 c3 ret :
  Z.of_nat (length (pre ++ [c0; c1; c2; c3] ++ post)) < 2 ^ 31 ->
  Forall (fun c => stops c = false) [c0; c1; c2; c3] ->
  decode_loop (pre ++ [c0; c1; c2; c3] ++ post) (4 + n) (Z.of_nat (length pre)) [] ret =
    decode_loop (pre ++ [c0; c1; c2; c3] ++ post) n (Z.of_nat (length (pre ++ [c0; c1; c2; c3]))) []
      (ret ++ decode_group [c0; c1; c2; c3]).
Proof.
  intros Hlen Hcs. rewrite !Forall_cons in Hcs. destruct Hcs as (H0 & H1 & H2 & H3 & _).
  pose proof (decode_some (S n) [c0; c1; c2] pre (c3 :: post) [] ret) as Hs. cbn [length Nat.add app] in *.
  rewrite Hs; [|done|by rewrite !Forall_cons|lia].
  pose proof (decode_one n (pre ++ [c0; c1; c2]) post c3 [c0; c1; c2] ret) as Ho.
  rewrite <- !app_assoc in Ho. cbn [app] in Ho. rewrite Ho by done. by rewrite bool_decide_true.
Qed.

(** a character that ends the input *)
Lemma decode_stop n (pre post : list ascii) c arr ret :
  stops c = true ->
  decode_loop (pre ++ c :: post) n (Z.of_nat (length pre)) arr ret = Some (ret ++ decode_rest arr).
Proof.
  intros Hc. destruct n; [done|]. cbn [decode_loop]. rewrite char_at_middle. cbn [mbind option_bind]. by rewrite Hc.
Qed.

Lemma digit_chars c0 c1 c2 : byte c0 -> byte c1 -> byte c2 ->
  Forall (fun c => stops c = false) (base64_char <$> digits c0 c1 c2).
Proof.
  intros H0 H1 H2. apply Forall_fmap. eapply Forall_impl; [by apply digits_range|]. intros d Hd. by apply stops_char.
Qed.

Lemma decode_rfc l : forall (pre : list ascii) n ret,
  Forall byte l -> Z.of_nat (length (pre ++ rfc4648 l)) < 2 ^ 31 -> (length (rfc4648 l) <= n)%nat ->
  decode_loop (pre ++ rfc4648 l) n (Z.of_nat (length pre)) [] ret = Some (ret ++ l).
Proof.
  assert (H0 : byte 0) by (unfold byte; lia).
  induction l as [|a|a b|a b c l IH] using group_ind; intros pre n ret Hl Hlen Hn; rewrite ?Forall_cons in Hl.
  - cbn [rfc4648]. rewrite !app_nil_r. destruct n; cbn [decode_loop]; [by rewrite app_nil_r|].
    rewrite char_at_end. cbn [mbind option_bind]. by rewrite app_nil_r.
  - destruct Hl as [Ha _]. destruct (decode_digits a 0 0) as (_ & _ & Hd); try done.
    pose proof (digit_chars a 0 0 Ha H0 H0) as Hc. apply (Forall_take _ 2%nat) in Hc.
    cbn [rfc4648] in *. rewrite length_app in Hn. set (cs := take 2 _) in *.
    assert (Hcs : length cs = 2%nat) by done. replace n with (length cs + (n - 2))%nat by (cbn [length] in Hn; lia).
    rewrite decode_some by (try done; cbn [length]; lia). rewrite (app_assoc pre), decode_stop by done.
    by rewrite app_nil_l, Hd.
  - destruct Hl as (Ha & Hb & _). destruct (decode_digits a b 0) as (_ & Hd & _); try done.
    pose proof (digit_chars a b 0 Ha Hb H0) as Hc. apply (Forall_take _ 3%nat) in Hc.
    cbn [rfc4648] in *. rewrite length_app in Hn. set (cs := take 3 _) in *.
    assert (Hcs : length cs = 3%nat) by done. replace n with (length cs + (n - 3))%nat by (cbn [length] in Hn; lia).
    rewrite decode_some by (try done; cbn [length]; lia). rewrite (app_assoc pre), decode_stop by done.
    by rewrite app_nil_l, Hd.
  - destruct Hl as (Ha & Hb & Hc & Hl). destruct (decode_digits a b c) as (Hd & _ & _); try done.
    pose proof (digit_chars a b c Ha Hb Hc) as Hcs. cbn [rfc4648] in *.
    destruct (base64_char <$> digits a b c) as [|c0 [|c1 [|c2 [|c3 [|]]]]] eqn:E; try discriminate E.
    rewrite length_app in Hn. cbn [length] in Hn. replace n with (4 + (n - 4))%nat by lia.
    rewrite decode_four by done. rewrite Hd.
    pose proof (IH (pre ++ [c0; c1; c2; c3]) (n - 4)%nat (ret ++ [a; b; c])) as IH'. rewrite <- !app_assoc in IH'.
    apply IH'; [done|done|lia].
Qed.

(** ** The decoder into a buffer *)

Lemma decode_prefix s n : forall in_ arr ret l, decode_loop s n in_ arr ret = Some l -> ret `prefix_of` l.
Proof.
  induction n as [|n IH]; intros in_ arr ret l; cbn [decode_loop].
  - intros [= <-]. by apply prefix_app_r.
  - destruct (char_at s in_) as [c|]; [|done]. cbn [mbind option_bind]. case_if; [intros [= <-]; by apply prefix_app_r|].
    destruct (next_in in_) as [k|]; [|done]. cbn [mbind option_bind]. case_if; intros Hl%IH; [|done].
    etrans; [|exact Hl]. by apply prefix_app_r.
Qed.

Lemma store_rest_take max (l ret : list Z) : store_rest max (take max ret) l = take max (ret ++ l).
Proof.
  unfold store_rest. revert ret. induction l as [|c l IH]; intros ret; cbn [foldl]; [by rewrite app_nil_r|].
  assert (Hstep : (if bool_decide (length (take max ret) < max)%nat then take max ret ++ [c] else take max ret) =
                  take max (ret ++ [c])).
  { rewrite length_take. case_bool_decide.
    - rewrite (take_ge ret), take_ge by (rewrite ?length_app; cbn [length]; lia). done.
    - by rewrite take_app_le by lia. }
  rewrite Hstep, IH, <- app_assoc. done.
Qed.

Lemma store_group_take max (ret g : list Z) :
  length g = 3%nat ->
  let '(out, done) := store_group max (take max ret) g in
  out = take max (ret ++ g) /\ (done = true -> (max <= length (ret ++ g))%nat).
Proof.
  intros Hg. unfold store_group. rewrite length_take, length_app, Hg.
  assert (Hall : forall k, (length ret + k = max)%nat -> (k <= 3)%nat -> take max ret ++ take k g = take max (ret ++ g)).
  { intros k Hk Hk3. rewrite take_app, (take_ge ret) by lia. do 2 f_equal. lia. }
  repeat case_bool_decide; split; try lia; try done.
  - rewrite (take_ge ret), take_ge by (rewrite ?length_app; lia). done.
  - apply Hall; lia.
  - apply Hall; lia.
  - by rewrite take_app_le by lia.
Qed.

Lemma buffer_take s max n : forall in_ arr ret l,
  decode_loop s n in_ arr ret = Some l -> buffer_loop s max n in_ arr (take max ret) = Some (take max l).
Proof.
  induction n as [|n IH]; intros in_ arr ret l; cbn [decode_loop buffer_loop].
  - intros [= <-]. by rewrite store_rest_take.
  - destruct (char_at s in_) as [c|]; [|done]. cbn [mbind option_bind].
    case_if; [intros [= <-]; by rewrite store_rest_take|].
    destruct (next_in in_) as [k|]; [|done]. cbn [mbind option_bind]. case_if; [|by apply IH]. intros Hl.
    pose proof (store_group_take max ret (decode_group (arr ++ [c])) eq_refl) as Hs.
    destruct (store_group _ _ _) as [out fin]. destruct Hs as [-> Hfin]. destruct fin; [|by apply IH].
    f_equal. specialize (Hfin eq_refl). destruct (decode_prefix _ _ _ _ _ _ Hl) as [l' ->].
    by rewrite (take_app_le (_ ++ _)) by done.
Qed.

(** Decoding has a result, whatever the text. *)
Lemma decode_total s n : forall in_ arr ret,
  0 <= in_ <= Z.of_nat (length s) -> Z.of_nat (length s) < 2 ^ 31 - 1 ->
  exists l, decode_loop s n in_ arr ret = Some l.
Proof.
  induction n as [|n IH]; intros in_ arr ret Hin Hs; cbn [decode_loop]; [eauto|].
  unfold char_at. destruct (Z.ltb_spec in_ 0); [lia|]. destruct (Z.eqb_spec in_ (Z.of_nat (length s))) as [E|Hne].
  - cbn [mbind option_bind]. replace (stops "000") with true by done. eauto.
  - destruct (lookup_lt_is_Some_2 s (Z.to_nat in_)) as [c Hc]; [lia|]. rewrite Hc. cbn [mbind option_bind].
    case_if; [eauto|]. unfold next_in. destruct (Z.ltb_spec in_ (2 ^ 31 - 1)); [|lia]. cbn [mbind option_bind].
    case_if; apply IH; lia.
Qed.

Lemma base64_encode_eq bytes rest :
  Forall byte bytes -> base64_encode (bytes ++ rest) (Z.of_nat (length bytes)) = Some (rfc4648 bytes).
Proof. intros Hb. unfold base64_encode. by rewrite encode_loop_rfc. Qed.

Lemma decode_behind bytes (pre : list ascii) :
  Forall byte bytes -> Z.of_nat (length (pre ++ rfc4648 bytes)) < 2 ^ 31 ->
  decode_loop (pre ++ rfc4648 bytes) (length (pre ++ rfc4648 bytes)) (int32 (Z.of_nat (length pre))) [] [] = Some bytes.
Proof.
  intros Hb Hlen. pose proof Hlen as Hlen'. rewrite length_app in Hlen'.
  rewrite swrap_id by (unfold in_signed; lia). rewrite decode_rfc; try done. rewrite length_app. lia.
Qed.

Lemma rfc4648_length bytes : Z.of_nat (length (rfc4648 bytes)) = (Z.of_nat (length bytes) + 2) / 3 * 4.
Proof.
  induction bytes as [|a|a b|a b c l IH] using group_ind; try done. cbn [rfc4648].
  rewrite length_app. cbn [length fmap list_fmap digits]. rewrite Nat2Z.inj_add, IH.
  replace (Z.of_nat (S (S (S (length l)))) + 2) with (Z.of_nat (length l) + 2 + 1 * 3) by lia.
  rewrite Z.div_add by lia. lia.
Qed.

(** The encoder computes the base 64 of the standard.  On the first [n] bytes
    of a buffer it gives the text that takes three bytes at a time as one number
    and writes its four digits to the base 64, the last group filled with zeros
    and its missing digits written as [=]. *)
Theorem base64_reference bytes rest :
  Forall byte bytes ->
  base64_encode (bytes ++ rest) (Z.of_nat (length bytes)) = Some (rfc4648 bytes).
Proof. apply base64_encode_eq. Qed.

(** What was encoded is decoded to what it was, by each of the three decoders:
    to bytes and to a string, also behind a prefix whose length is the offset,
    and into a buffer, which gets as much of it as has room. *)
Theorem base64_roundtrip bytes (pre : list ascii) max text :
  Forall byte bytes -> base64_encode bytes (Z.of_nat (length bytes)) = Some text ->
  Z.of_nat (length (pre ++ text)) < 2 ^ 31 ->
  base64_decode (pre ++ text) (Z.of_nat (length pre)) = Some bytes /\
  base64_decode_to_string (pre ++ text) (Z.of_nat (length pre)) = Some (char_of <$> bytes) /\
  base64_decode_buffer text max = Some (take max bytes).
Proof.
  intros Hb He Hlen. pose proof (base64_encode_eq bytes [] Hb) as He'. rewrite app_nil_r, He in He'.
  injection He' as ->. unfold base64_decode, base64_decode_to_string, base64_decode_buffer.
  rewrite (decode_behind bytes pre) by done. split_and!; [done..|].
  rewrite <- (take_nil (A := Z) max) at 1. apply buffer_take. apply (decode_behind bytes []); [done|].
  rewrite length_app in Hlen. cbn [app]. lia.
Qed.

Lemma base64_reference_witness :
  base64_encode [77; 97; 110; 0] 3 = Some (chars "TWFu").
Proof. refine (base64_reference [77; 97; 110] [0] _). repeat constructor; lia. Defined.

Lemma base64_roundtrip_witness :
  base64_decode (chars "b64[TWE=") 4 = Some [77; 97] /\ base64_decode_buffer (chars "TWE=") 1 = Some [77].
Proof.
  destruct (base64_roundtrip [77; 97] (chars "b64[") 1 (chars "TWE=")) as (H1 & _ & H3).
  - repeat constructor; lia.
  - reflexivity.
  - reflexivity.
  - split; [exact H1|exact H3].
Defined.
