(* ===== verification/RecordedMessages.v ===== *)
(** * Messages in the files of the recorder and the player

    Models how [src/helics/apps/Recorder.cpp] writes the data of a message into
    a file and how [Player.cpp] reads it back, with [isBinaryData] of
    [PrecHelper.cpp].
    [None] is the exception [std::out_of_range], or a read outside a string. *)

From Stdlib Require Import Ascii.
From S2P Require Import Prelude StringOps Base64.

(** ** The player *)

Definition hasB64Wrapper (str : list ascii) : option Z :=
  c ← front str;
  if bool_decide (c = quote) then
    m ← compare_at 2 3 (chars "64[") str;
    if (m : bool) && bool_decide (str !! (length str - 2)%nat = Some "]"%char) then Some 5
    else
      m ← compare_at 5 3 (chars "64[") str;
      Some (if (m : bool) && bool_decide (str !! (length str - 2)%nat = Some "]"%char) then 8 else 0)
  else
    m ← compare_at 1 3 (chars "64[") str;
    if (m : bool) && bool_decide (back str = Some "]"%char) then Some 4
    else
      m ← compare_at 4 3 (chars "64[") str;
      Some (if (m : bool) && bool_decide (back str = Some "]"%char) then 7 else 0).

Definition decode (stringToDecode : list ascii) : option (list ascii) :=
  match stringToDecode with
  | [] => Some []
  | c :: _ =>
      offset ← hasB64Wrapper stringToDecode;
      if negb (offset =? 0) then
        let str := if bool_decide (back stringToDecode = Some quote) then pop_back stringToDecode else stringToDecode in
        base64_decode_to_string (pop_back str) offset
      else if bool_decide (c = quote) || bool_decide (c = single) then Some (removeQuotes stringToDecode)
      else Some stringToDecode
  end.

(** The data of an entry of a JSON file, with its member [encoding]. *)
Definition json_data (encoding : option (list ascii)) (str : list ascii) : option (list ascii) :=
  if bool_decide (encoding = Some (chars "base64")) then
    offset ← hasB64Wrapper str;
    if offset =? 0 then base64_decode_to_string str 0 else decode str
  else decode str.

(** ** The recorder *)

(** A [char] is signed or not, which makes no difference here. *)
Definition isBinaryData (data : list ascii) : bool :=
  existsb (fun c => (code c <? 32) || (code c =? 34) || (126 <? code c)) data.

Definition encode (str2encode : list ascii) : option (list ascii) :=
  text ← base64_encode (code <$> str2encode) (int32 (Z.of_nat (length str2encode)));
  Some (chars "b64[" ++ text ++ ["]"%char]).

(** the members [encoding] and [message] of an entry of a JSON file *)
Definition json_message (data : list ascii) : option (option (list ascii) * list ascii) :=
  if isBinaryData data then text ← encode data; Some (Some (chars "base64"), text) else Some (None, data).

(** the last field of a line of a text file *)
Definition text_message (data : list ascii) : option (list ascii) :=
  text ← (if isBinaryData data then encode data else Some data);
  Some ([quote] ++ text ++ [quote]).

(** ** What was recorded is replayed *)

Section Replay.
Implicit Types (data str : list ascii).

Lemma codes_bytes data : Forall byte (code <$> data).
Proof. apply Forall_fmap, Forall_true. intros c. apply code_byte. Qed.

Lemma encode_eq data :
  Z.of_nat (length data) < 2 ^ 31 ->
  encode data = Some (chars "b64[" ++ rfc4648 (code <$> data) ++ ["]"%char]).
Proof.
  intros Hs. unfold encode. rewrite swrap_id by (unfold in_signed; lia).
  pose proof (base64_encode_eq (code <$> data) [] (codes_bytes data)) as He.
  rewrite app_nil_r, length_fmap in He. by rewrite He.
Qed.

Lemma pop_back_snoc str c : pop_back (str ++ [c]) = str.
Proof. unfold pop_back. rewrite length_app, Nat.add_1_r. cbn [pred]. by rewrite take_app_length. Qed.

Lemma compare_at_found pos n text str :
  (pos <= length str)%nat -> take n (drop pos str) = text -> compare_at pos n text str = Some true.
Proof.
  intros Hp Ht. unfold compare_at. rewrite bool_decide_false by lia. by rewrite bool_decide_true.
Qed.

Lemma compare_at_short pos n text str :
  (pos <= length str < pos + length text)%nat -> compare_at pos n text str = Some false.
Proof.
  intros Hp. unfold compare_at. rewrite bool_decide_false by lia. rewrite bool_decide_false; [done|].
  intros Ht. apply (f_equal length) in Ht. rewrite length_take, length_drop in Ht. lia.
Qed.

Lemma compare_at_behind pos n text str : (length str < pos)%nat -> compare_at pos n text str = None.
Proof. intros Hp. unfold compare_at. by rewrite bool_decide_true. Qed.

(** a text in the wrapper, with or without quotes *)
Lemma decode_wrapped data :
  Z.of_nat (length data) < 2 ^ 30 ->
  let text := chars "b64[" ++ rfc4648 (code <$> data) ++ ["]"%char] in
  hasB64Wrapper text = Some 4 /\ decode text = Some data /\ decode ([quote] ++ text ++ [quote]) = Some data.
Proof.
  intros Hs. set (t := rfc4648 (code <$> data)). intros text.
  assert (Ht : Z.of_nat (length t) < 2 ^ 31 - 10).
  { subst t. rewrite rfc4648_length, length_fmap. Z.to_euclidean_division_equations. lia. }
  assert (Hdec : forall pre : list ascii, (length pre <= 5)%nat ->
    base64_decode_to_string (pre ++ t) (Z.of_nat (length pre)) = Some data).
  { intros pre Hpre. unfold base64_decode_to_string, t.
    rewrite decode_behind; [|apply codes_bytes|rewrite length_app; fold t; lia].
    cbn [mbind option_bind]. by rewrite chars_of_codes. }
  assert (Hback : forall c, back (text ++ [c]) = Some c /\ back text = Some "]"%char).
  { intros c. unfold back, text. by rewrite app_assoc, !last_snoc. }
  assert (Hw : hasB64Wrapper text = Some 4).
  { unfold hasB64Wrapper. change (front text) with (Some "b"%char). cbn [mbind option_bind].
    rewrite bool_decide_false by done. rewrite (compare_at_found 1 3) by (done || (unfold text; cbn; lia)).
    cbn [mbind option_bind]. rewrite bool_decide_true by apply (Hback quote). done. }
  assert (Hq : hasB64Wrapper ([quote] ++ text ++ [quote]) = Some 5).
  { unfold hasB64Wrapper. change (front ([quote] ++ text ++ [quote])) with (Some quote). cbn [mbind option_bind].
    rewrite bool_decide_true by done. rewrite (compare_at_found 2 3) by (done || (unfold text; cbn; lia)).
    cbn [mbind option_bind]. rewrite bool_decide_true; [done|].
    replace ([quote] ++ text ++ [quote]) with ((quote :: chars "b64[" ++ t) ++ "]"%char :: [quote])
      by (unfold text; cbn; by rewrite <- app_assoc).
    apply list_lookup_middle. rewrite length_app. cbn [length]. lia. }
  split_and!; [done|..].
  - change (decode text) with (offset ← hasB64Wrapper text;
      if negb (offset =? 0) then
        base64_decode_to_string (pop_back (if bool_decide (back text = Some quote) then pop_back text else text)) offset
      else if bool_decide ("b"%char = quote) || bool_decide ("b"%char = single) then Some (removeQuotes text) else Some text).
    rewrite Hw. cbn [mbind option_bind Z.eqb negb]. rewrite bool_decide_false by (destruct (Hback quote) as [_ ->]; done).
    unfold text. rewrite app_assoc, pop_back_snoc. exact (Hdec (chars "b64[") ltac:(cbn; lia)).
  - set (full := [quote] ++ text ++ [quote]) in *.
    change (decode full) with (offset ← hasB64Wrapper full;
      if negb (offset =? 0) then
        base64_decode_to_string (pop_back (if bool_decide (back full = Some quote) then pop_back full else full)) offset
      else if bool_decide (quote = quote) || bool_decide (quote = single) then Some (removeQuotes full) else Some full).
    rewrite Hq. cbn [mbind option_bind Z.eqb negb].
    unfold full. rewrite app_assoc. rewrite bool_decide_true by (unfold back; by rewrite last_snoc).
    rewrite pop_back_snoc. unfold text. rewrite !app_assoc, pop_back_snoc.
    exact (Hdec ([quote] ++ chars "b64[") ltac:(cbn; lia)).
Qed.

(** *** Plain text *)

(** Text that the player takes for an encoding. *)
Definition looks_encoded data : bool :=
  (bool_decide (take 3 (drop 1 data) = chars "64[") || bool_decide (take 3 (drop 4 data) = chars "64[")) &&
  bool_decide (back data = Some "]"%char).

Lemma trim_quoted data : trim ([quote] ++ data ++ [quote]) = [quote] ++ data ++ [quote].
Proof.
  unfold trim. cbn [app drop_space]. change (is_space quote) with false. cbv iota.
  rewrite reverse_cons, reverse_snoc. cbn [app drop_space]. change (is_space quote) with false. cbv iota.
  by rewrite reverse_cons, reverse_snoc, reverse_involutive.
Qed.

Lemma removeQuotes_quoted data : removeQuotes ([quote] ++ data ++ [quote]) = data.
Proof.
  unfold removeQuotes. rewrite trim_quoted. change (front _) with (Some quote). cbv iota.
  rewrite (bool_decide_true (quote = quote)) by done. cbn [orb andb]. rewrite app_assoc.
  rewrite bool_decide_true by (unfold back; by rewrite last_snoc). by rewrite pop_back_snoc.
Qed.

Lemma take_before_quote str : take 3 (str ++ [quote]) = chars "64[" -> take 3 str = chars "64[".
Proof. by destruct str as [|a [|b [|c str]]]. Qed.

Lemma before_last data :
  data <> [] -> ([quote] ++ data ++ [quote]) !! (length ([quote] ++ data ++ [quote]) - 2)%nat = back data.
Proof.
  intros Hne. destruct (exists_last Hne) as (d & c & ->). unfold back. rewrite last_snoc.
  replace ([quote] ++ (d ++ [c]) ++ [quote]) with ((quote :: d) ++ c :: [quote]) by (cbn; by rewrite <- app_assoc).
  apply list_lookup_middle. rewrite length_app. cbn [length]. lia.
Qed.

Lemma wrapper_quoted data :
  (3 <= length data)%nat -> looks_encoded data = false -> hasB64Wrapper ([quote] ++ data ++ [quote]) = Some 0.
Proof.
  intros Hl He. set (full := [quote] ++ data ++ [quote]).
  assert (Hbl : full !! (length full - 2)%nat = back data) by (apply before_last; destruct data; [cbn in Hl; lia|done]).
  assert (Hlen : length full = S (S (length data))) by (subst full; rewrite !length_app; cbn [length]; lia).
  assert (Hd : forall k, (k <= length data)%nat -> drop (S k) full = drop k data ++ [quote]).
  { intros k Hk. subst full. cbn [app drop]. by rewrite drop_app_le by done. }
  assert (Hcmp : forall k, (k = 1 \/ k = 4)%nat -> (S k <= length full)%nat ->
    bool_decide (take 3 (drop (S k) full) = chars "64[") && bool_decide (full !! (length full - 2)%nat = Some "]"%char) = false).
  { intros k Hk Hkl. rewrite Hbl. unfold looks_encoded in He. apply andb_false_iff.
    apply andb_false_iff in He as [He|He]; [left|by right]. apply orb_false_iff in He as [He1 He2].
    apply bool_decide_eq_false_2. destruct (decide (k <= length data)%nat) as [Hkd|Hkd].
    - rewrite Hd by done. intros Ht%take_before_quote.
      destruct Hk as [-> | ->]; [apply bool_decide_eq_false in He1|apply bool_decide_eq_false in He2]; done.
    - rewrite drop_ge by lia. done. }
  unfold hasB64Wrapper. change (front full) with (Some quote). cbn [mbind option_bind].
  rewrite (bool_decide_true (quote = quote)) by done. unfold compare_at.
  rewrite (bool_decide_false (length full < 2)%nat) by lia. cbn [mbind option_bind].
  rewrite (Hcmp 1%nat) by lia. rewrite (bool_decide_false (length full < 5)%nat) by lia. cbn [mbind option_bind].
  by rewrite (Hcmp 4%nat) by lia.
Qed.

Lemma wrapper_plain data :
  (4 <= length data)%nat -> looks_encoded data = false -> front data <> Some quote -> hasB64Wrapper data = Some 0.
Proof.
  intros Hl He Hq. unfold hasB64Wrapper. destruct data as [|c data]; [cbn in Hl; lia|]. cbn [front head mbind option_bind].
  rewrite bool_decide_false by (by intros ->). unfold compare_at, looks_encoded in *.
  rewrite (bool_decide_false (length (c :: data) < 1)%nat), (bool_decide_false (length (c :: data) < 4)%nat) by lia.
  cbn [mbind option_bind]. rewrite andb_orb_distrib_l in He. by apply orb_false_iff in He as [-> ->].
Qed.

(** a character of plain text is no quotation mark *)
Lemma plain_no_quote data : isBinaryData data = false -> quote ∉ data.
Proof.
  unfold isBinaryData. intros Hb Hin. apply Bool.not_true_iff_false in Hb. apply Hb, existsb_exists. exists quote.
  split; [by apply list_elem_of_In|done].
Qed.

(** C31: The player reads back what the recorder has written.  In a text file
    that holds for all data that are not printable text, and for text of at least
    three characters that does not itself look like an encoding; in a JSON file
    for all data that are not printable text, for none, and for text of at least
    four characters that does not look like an encoding and does not begin with
    an apostrophe. *)
Theorem recorded_message_replayed data :
  Z.of_nat (length data) < 2 ^ 30 ->
  (isBinaryData data = true \/ (3 <= length data)%nat /\ looks_encoded data = false ->
     text_message data ≫= decode = Some data) /\
  (isBinaryData data = true \/ data = [] \/
     (4 <= length data)%nat /\ looks_encoded data = false /\ front data <> Some single ->
     json_message data ≫= (fun '(encoding, text) => json_data encoding text) = Some data).
Proof.
  intros Hs. unfold text_message, json_message. rewrite encode_eq by lia.
  destruct (decode_wrapped data Hs) as (Hw & Hd & Hq). destruct (isBinaryData data) eqn:Hb; cbn [mbind option_bind].
  - split; intros _; [done|]. unfold json_data. rewrite bool_decide_true by done. by rewrite Hw.
  - pose proof (plain_no_quote data Hb) as Hnq. split.
    + intros [Ht|[Hl He]]; [done|]. pose proof (wrapper_quoted data Hl He) as Hwq.
      pose proof (removeQuotes_quoted data) as Hrq. cbn [app] in *. unfold decode. rewrite Hwq.
      cbn [mbind option_bind]. by rewrite Hrq.
    + intros [Ht|[->|(Hl & He & Hf)]]; [done|done|]. unfold json_data. rewrite bool_decide_false by done.
      assert (Hfq : front data <> Some quote).
      { destruct data; [done|]. intros [= ->]. apply Hnq. by left. }
      pose proof (wrapper_plain data Hl He Hfq) as Hwp. unfold decode.
      destruct data as [|c data]; [done|]. rewrite Hwp.
      cbn [mbind option_bind Z.eqb negb]. rewrite !bool_decide_false; [done|by intros ->..].
Qed.

(** Short messages make the player fail.  Text of fewer than three characters,
    none included, in a text file, and text of one to three characters in a JSON
    file, let the reading of what the recorder has written end in the exception
    that [compare] throws when it starts behind the end of the string. *)
Theorem short_message_throws data :
  isBinaryData data = false ->
  ((length data < 3)%nat -> exists text, text_message data = Some text /\ decode text = None) /\
  ((0 < length data < 4)%nat -> exists text, json_message data = Some (None, text) /\ json_data None text = None).
Proof.
  intros Hb. unfold text_message, json_message. rewrite Hb. cbn [mbind option_bind].
  pose proof (plain_no_quote data Hb) as Hnq. split; intros Hl; eexists; (split; [reflexivity|]).
  - unfold decode, hasB64Wrapper. cbn [app front head mbind option_bind].
    rewrite (bool_decide_true (quote = quote)) by done.
    assert (Hlen : length (quote :: data ++ [quote]) = S (S (length data))).
    { cbn [length]. rewrite length_app. cbn [length]. lia. }
    rewrite (compare_at_short 2 3) by (rewrite Hlen; cbn; lia). cbn [mbind option_bind andb].
    by rewrite (compare_at_behind 5 3) by (rewrite Hlen; lia).
  - unfold json_data. rewrite bool_decide_false by done. unfold decode, hasB64Wrapper.
    destruct data as [|a data]; [cbn in Hl; lia|]. cbn [front head mbind option_bind].
    rewrite (bool_decide_false (a = quote)) by (intros ->; apply Hnq; by left).
    rewrite (compare_at_short 1 3) by (cbn; cbn in Hl; lia). cbn [mbind option_bind andb].
    by rewrite (compare_at_behind 4 3) by lia.
Qed.
End Replay.

Lemma recorded_message_replayed_witness :
  text_message (chars "data") ≫= decode = Some (chars "data") /\
  json_message ["007"; "255"]%char ≫= (fun '(encoding, text) => json_data encoding text) = Some ["007"; "255"]%char.
Proof.
  split.
  - refine (proj1 (recorded_message_replayed (chars "data") _) _); [reflexivity|]. right. split; [cbn; lia|reflexivity].
  - refine (proj2 (recorded_message_replayed ["007"; "255"]%char _) _); [reflexivity|]. left. reflexivity.
Defined.

Lemma short_message_throws_witness :
  exists text, text_message (chars "ok") = Some text /\ decode text = None.
Proof. refine (proj1 (short_message_throws (chars "ok") _) _); [reflexivity|cbn; lia]. Defined.
